(* ===== verification/_CoqProject ===== *)
-Q . S2P
Prelude.v
Number.v
Vector3.v
Material.v
MaterialTree.v
Geometry.v
BoxTree.v
FrontObject.v
Polarizability.v
PolList.v
Epsilon.v
Descriptors.v
MeanEps.v
Overlap.v
ComplexIntegration.v
Refinement.v
Cubature.v
MaterialFunction.v
Pool.v
Structure.v
Output.v
