(* ===== verification/Prelude.v ===== *)
(** * Verification of libctl/structure.cpp (meep): geometry-to-material resolution

    The program turns a list of geometric objects, a default material and a
    simulation cell into the material function of a field solver
    (class [geom_epsilon] and the function [make_structure] of
    src/libctl/structure.cpp).  This library models that file in Rocq and
    proves the properties that make it correct.

    ** The program's parts and the files that model them

    - Prelude.v (this file): the outcome type of fallible C code
      ([result]: a value, [meep::abort]/[CK], undefined behaviour, or a loop
      that did not finish within its fuel), its bind notation, the shared
      tactics and hint database, and the list lemmas several components
      use.
    - Number.v: the interface [Number] of the C type [number] (= [double]):
      the arithmetic and comparison operations the source uses, the laws
      of [==] the proofs rely on ([NumberLaws]: symmetric and transitive, not
      reflexive because of NaN, and zero equals zero), and the laws of the
      order that hold without NaN ([OrderLaws]).  Instances: IEEE binary64
      (the primitive floats, the model of the compiled program; [Number] and
      [NumberLaws]) and exact rationals [Q] (the model in which the
      averaging formulas are exact; all three classes).
    - Vector3.v: [vector3], [geom_box], [meep::vec], [geometric_volume], the
      static [dim]/[dimensions] pair and [set_dimensions],
      [vec_to_vector3], [vector3_to_vec], [gv2box] (lines 9-76).
    - Material.v: the tagged union [material_type] with the source's four
      tags, [material_type_equal], [variable_material], [material_eps],
      and [eval_material_func] with its unbounded [while] loop modelled with
      fuel (lines 168-215).
    - MaterialTree.v: [eval_material_func] once more, without fuel, as an
      interaction tree whose events are the calls of the Scheme evaluator.
    - Geometry.v: the interface [Geom] to libctl's geometry library (objects
      and [geom_fix_objects0], the bounding-box tree and its point queries,
      normals, box overlap), as a typeclass of operations with the laws
      [GeomLaws] the callers need; the operations on boxes; the relation [same_answers] between
      two implementations of the interface; a reference instance
      [LinearGeom] by linear search; the specification [front_image] of a
      query (the last object of the list of which an image contains the
      point); and the objects the examples run on (slabs, axis-aligned
      blocks, module [Slabs]).
    - BoxTree.v: libctl's bounding-box hierarchy, after the specification:
      the tree [box_tree], its construction [box_create_geom_box_tree0] by
      [divide], its search [tree_search], and the instance [BoxGeom] of the
      interface.
    - FrontObject.v: [get_front_object], the stencil loop that finds the
      front object of a pixel and the constant material behind it
      (lines 255-354).
    - Polarizability.v: the linked list [pol], [add_pol], [add_pols] and
      [add_polarizabilities] (lines 623-682), the list as a [list].
    - PolList.v: the same functions over nodes in a heap, allocated by
      [new pol], chained by [next] and freed by [delete].
    - Epsilon.v: the object state of [geom_epsilon] (the geometry and the
      two tree pointers), the constructor and the destructor,
      [set_volume]/[unset_volume], sequences of calls of the two ([calls])
      with the region they leave the object restricted to ([region_of]),
      and the point queries [eps], [chi2], [chi3], [sigma], [has_chi2],
      [has_chi3] (lines 80-166, 217-253, 485-621).
    - Descriptors.v: [eval_material_func] and the four point queries once
      more, with the store of the material data that [material_type_input]
      and [material_type_copy] allocate and [material_type_destroy] frees,
      and the flag [destroy_material] (lines 168-195, 217-253, 502-621).
    - MeanEps.v: [normal_vector], [meaneps], the integrands [eps_func] and
      [inveps_func] and [fallback_meaneps] (lines 356-410, 427-483, the
      build without CTL_HAS_COMPLEX_INTEGRATION).
    - Overlap.v: the overlap of slabs and blocks with a pixel and what
      [meaneps] makes of it, in exact arithmetic.
    - ComplexIntegration.v: [ceps_func] and the fallback of the build with
      CTL_HAS_COMPLEX_INTEGRATION (lines 413-425, 448-476).
    - Refinement.v: the composition of the components over two
      implementations of the geometry index.
    - Cubature.v: libctl's [adaptive_integration], after the contract the
      specification gives of it (5, 6, 7): an integrator that returns an
      estimate, an error and a status, and the fallback of [meaneps] run
      with it.
    - MaterialFunction.v: the class declaration (lines 80-109) as the
      record [material_function] of the virtual methods of
      [meep::material_function], the table [geom_epsilon_methods] of the
      overrides, the laws [MaterialFunctionLaws] a solver relies on, and
      the solver's pass over chunks, with its questions to the six methods
      that read the object, as a client of the record.
    - Pool.v: several objects of the class in one store of trees, and
      schedules of method calls on them in any order (section 5 of the
      specification).
    - Structure.v: [make_structure] (lines 686-816), which clamps the cell
      size, calls [set_dimensions], makes the volume, the symmetries and the
      PML boundary regions, constructs the local [geom_epsilon] and the
      [meep::structure], registers the polarizabilities and destroys the
      local object.
    - Output.v: what the constructor, [add_polarizabilities] and
      [make_structure] print (lines 116-127, 132-141, 672, 696, 714, 813):
      the three functions as they run, in a writer monad over the items
      printed, with the store of trees and the heap of PolList.v.

    ** How state and effects are modelled

    The C globals ([dimensions], [dim], [default_material],
    [ensure_periodicity]) are fields of a record [globals] that is passed
    explicitly.  Output parameters become components of the returned value.
    A function that can call [meep::abort] or [CK] returns [result];
    [get_front_object]'s [bool] becomes an [option] (the value [None] is
    [return false]).  Local variables the C code leaves uninitialised are
    given arbitrary initial values by the caller of the model ([uninit]),
    and a theorem shows the result does not depend on them.  The trees of
    libctl live in a store, a finite map from addresses to trees:
    [create_geom_box_tree0] allocates a fresh address,
    [destroy_geom_box_tree] frees one, the members [geometry_tree] and
    [restricted_tree] are addresses, and reading or freeing an address that
    is not allocated is a failure.  The Scheme evaluator, the default normal
    of [meep::material_function] and libctl's [adaptive_integration] and
    [cadaptive_integration] are parameters; what a theorem needs of the
    cubature is a class ([ExactCubature]: exact on affine integrands;
    [LocalCubature]: the result depends on the integrand inside the cell
    only; [PositiveCubature]: the integral of an integrand that is not
    negative is not negative; [BudgetedCubature]: with a positive budget
    the integration returns wherever the integrand does; [Componentwise]:
    the complex routine integrates the two parts as the real one does).
    Two cubatures stand in where a theorem is run on a concrete pixel,
    both instances of the four classes of the real routine: the midpoint
    rule, and the adaptive integrator of Cubature.v, which halves the
    region of the largest error until the errors are within the tolerance
    or the budget of evaluations is spent.  The classes of meep that [make_structure] builds are records of what it hands to them,
    and the calls that the constructor of [meep::structure] and, for each
    registered polarizability, its [add_polarizability] make on the
    material object are parameters, lists of method calls that
    [make_structure] runs before it destroys the object.  Two more stores
    follow the same pattern: the heap of the nodes of the list of
    polarizabilities (PolList.v) and the store of the material data that
    the Scheme interface allocates (Descriptors.v); a representation
    predicate ([pol_list], [held]) ties each to the model of values.
    Printing is a list of items next to the result (Output.v): what was
    printed before an abort stays printed.

    ** What the theorems show

    - FrontObject.v: when [get_front_object] returns true, every stencil
      point lies in the front image or carries the material behind (by a
      loop invariant over the samples), the outputs are those of samples
      with the front one of larger precedence, no material function is
      returned, and no uninitialised value is observed; on a pixel whose
      stencil meets two images it returns the one of larger precedence in
      front of the material of the other, and it returns false on three
      materials; its table reads are in bounds exactly for 1, 2 and 3
      dimensions.  In one dimension and in cylindrical coordinates the
      stencil does not probe the pixel along its real axes (exact
      arithmetic), and the verdict depends on the order of the samples.
      Two indexes that answer alike on the stencil give the same result.
    - Material.v: [eval_material_func] returns the end of a chain of
      procedures given enough fuel, never returns a procedure, aborts
      exactly in one situation, and exhausts every fuel on a cycle.
    - MaterialTree.v: the program without fuel returns a value exactly when
      the model with fuel returns it for some fuel, and returns nothing on
      a cycle.
    - Polarizability.v: the registered list has no two equal entries, holds
      nothing but polarizabilities of the geometry, and holds each defined
      one exactly once.
    - PolList.v: the functions over the heap compute what the functions
      over lists compute, given fuel for the length of the chain;
      [add_polarizabilities] deletes every node it allocated once, reads
      none after its deletion, and returns the heap as it found it.
    - Descriptors.v: each point query returns the value of the model
      without a store and the store it was given: what it allocates it
      destroys, once, and it destroys nothing of the geometry.
    - BoxTree.v: the hierarchy satisfies [GeomLaws]; a search in the tree of
      a box finds, at every point of the box, the entry the linear scan
      finds ([box_object_linear]), given objects that lie in their bounding
      boxes; trees with the same answers form an equivalence that the
      queries respect, and trees built with different dividing planes are
      equivalent.  Over doubles the hierarchy and the scan can differ at a
      point on the face of a periodic image, where the two tests round
      differently (an example at the end of the file).
    - Epsilon.v: an invariant of ownership of the trees, kept by every
      method: no double free, no dangling read, no leak over any sequence of
      calls; [set_volume] then [unset_volume] restores the state; no
      sequence of restrictions changes [eps] inside the region it ends in;
      [eps] is the permittivity of the object in front (of the last
      containing object, for the reference index); [has_chi3] and [chi3]
      agree for fixed materials.
    - MeanEps.v: [meaneps] on homogeneous pixels, the blend formula and its
      bounds on pixels on an interface (over [Q]), totality of the
      geometric path, agreement of
      [normal_vector] with [meaneps], exactness of the fallback on pixels of
      constant permittivity in Cartesian and cylindrical coordinates, the
      division by zero of the fallback in one dimension, the line on
      which the fallback samples a pixel without extent in y, and the
      dimensionality of the normal returned.  In doubles the blend can
      leave the interval of the two permittivities by rounding (an
      example).
    - Overlap.v: the overlap of a slab or a block with a pixel is a
      fraction in [0,1] and grows with the block; for objects whose
      overlap is a fraction, [meaneps] on an interface of two dielectrics
      lies between the two permittivities (and its inverse between the two
      inverses), and it is monotone in the block in front.
    - ComplexIntegration.v: the two builds of the fallback return the same
      averages.
    - Cubature.v: with any cubature that returns when its budget is
      positive, [meaneps] and [normal_vector] return for every pixel, on
      either path of [meaneps] and also in doubles, when the materials are
      fixed ([meaneps_returns]); the
      integrator returns with the flag 0 and an error within the tolerance
      or with the flag 1 and the budget spent, after at most five
      evaluations more than the budget ([integrate_returns]); over exact
      numbers it evaluates the integrand inside the cell only, is exact on
      affine integrands and keeps the sign of the integrand; with any
      cubature that keeps the sign, the means the fallback returns are not
      negative where the permittivity is positive
      ([fallback_meaneps_nonneg]).  On a pixel that a perfect metal meets
      the mean is minus infinity (an example).
    - MaterialFunction.v: [geom_epsilon] satisfies the laws of the
      interface, and a pass over chunks, proved from the laws alone, gets
      the answers of the unrestricted object to every question inside the
      chunk ([eps], [chi3], [chi2], [sigma], [meaneps], [normal_vector])
      and leaves the object and the store as they were; the pass changes
      the object as its calls of [set_volume] and [unset_volume] do.
    - Refinement.v: after any sequence of restrictions, [eps] and [meaneps]
      over the hierarchy return what they return over the linear scan of
      the whole cell, [eps] is the permittivity of the last object of the
      list that has an image containing the point, and [meaneps] does not
      depend on the dividing planes.
    - Pool.v: objects that share the store do not interfere: no schedule of
      calls makes a method fail, destroying the objects gives the store
      back as it was, and an object answers after a schedule as it answers
      after its own calls alone.
    - Structure.v: [make_structure] returns exactly for the dimensionalities
      1, 2, 3 and CYLINDRICAL (0 passes its [switch] and aborts in
      [vector3_to_vec]); on return the store of trees is unchanged and the
      polarizabilities of the geometry are registered, whatever calls the
      solver makes on the material object; the volume has the
      dimensionality of the static [dim], the symmetry has one term for
      every symmetry that is not the identity, and the boundary regions are
      exactly those the layers ask for.
    - Output.v: [make_structure] as it runs returns what the model of
      values returns and the heap of the nodes as it was on entry, and
      prints, on the master process only, a transcript that is a function
      of its arguments: the heading and the
      dimensionality before anything can abort, then the objects, the tree
      under [verbose], one line for every registered polarizability and the
      rule.

    ** Numbers

    [int] values are [Z].  The source compares and copies them; its only
    arithmetic on an [int] is [dims - 1] in [set_dimensions] and in the
    index of the tables of [get_front_object], which leaves the range of
    [int] for the least [int] only, a value for which the model has no
    dimensionality either, and the counters of its loops, which the
    lengths of the lists bound.  [double] values are the carrier of a [Number]
    instance; every theorem that does not mention an instance or a class of
    laws holds for both, theorems that need real arithmetic or a total
    order (the refinement of the linear scan by the hierarchy) ask for
    [OrderLaws] or are stated for [Q], and the concrete examples are
    computed on the primitive floats or on [Q].

    ** Fuel

    The only loop of the source without a bound is the [while] of
    [eval_material_func].  Its model takes a [nat] of fuel; theorems state
    that a chain of k material functions is resolved with any fuel of at
    least k, and that a cyclic chain exhausts every fuel.  MaterialTree.v
    shows that the fuel loses nothing: the model without fuel returns
    exactly the values the model with fuel returns.  The recursion of
    [divide] in BoxTree.v takes the number of entries as fuel: a node is
    divided only when both halves get fewer entries than it has, so this
    fuel is never exhausted and any larger fuel builds the same tree
    ([divide_fuel]).  The three loops of PolList.v that follow [next]
    take a fuel as well: on a chain of n nodes they need the fuel n, which
    the number of polarizabilities of the materials bounds
    ([add_polarizabilities_heap_list]), and on a chain that returns to one
    of its nodes they exhaust every fuel ([pol_find_cycle]); the code never
    builds such a chain.  The loop of [eval_material_func] over the store
    (Descriptors.v) takes the fuel of Material.v.  The loop of the
    integrator of Cubature.v makes six evaluations for each halving, so a
    positive budget [maxeval] bounds the halvings by itself: the fuel is
    [maxeval], and [adapt_returns] shows it is never exhausted.  A budget
    of zero or less asks for no limit; the halvings are then bounded by a
    parameter [limit], and the integrator fails when it is exhausted
    before the errors are within the tolerance.  Every other loop is a
    structural recursion over a list or a counter.

    ** Not modelled

    The text that [printf] makes of a number, and what libctl and meep
    print themselves.  [geom_initialize], which resets globals of libctl
    that [make_structure] assigns afterwards or that the model does not
    have.  What a Scheme procedure computes, the rule of libctl's adaptive
    cubature and the shapes of libctl's objects: they are code of other
    libraries that the source only calls, and are parameters constrained
    by laws ([call_material_func]; [ExactCubature], [LocalCubature],
    [PositiveCubature], [BudgetedCubature], [Componentwise]; [Geom] with
    [GeomLaws]), so that
    the theorems hold for every implementation with these laws.  The
    integrator of Cubature.v has the contract of the specification and
    not the rule of libctl (a rule of higher degree with its own estimate
    of the error): what it returns on a pixel is the answer of libctl
    only where both are exact.  The rule by which libctl
    chooses its dividing planes: a parameter of [divide], of which the
    answers are proved independent.  What the solver does with the answers
    it gets, and the rest of meep's classes, which are records of calls. *)

From Stdlib Require Import List String Bool ZArith Lia Setoid SetoidList.
Import ListNotations.

Set Implicit Arguments.

(** ** Outcomes of fallible C code *)

(** How a C function can fail to return a value. *)
Inductive failure : Type :=
| Aborted (msg : string)
| Undefined (what : string)
| OutOfFuel.

Inductive result (A : Type) : Type :=
| Ok (a : A)
| Fail (e : failure).

Arguments Ok {A} a.
Arguments Fail {A} e.

Definition bind {A B : Type} (c : result A) (k : A -> result B) : result B :=
  match c with
  | Ok a => k a
  | Fail e => Fail e
  end.

Definition is_ok {A : Type} (c : result A) : bool :=
  match c with Ok _ => true | Fail _ => false end.

(** [CK(cond, msg)] of meep: abort with [msg] unless [cond]. *)
Definition CK (cond : bool) (msg : string) : result unit :=
  if cond then Ok tt else Fail (Aborted msg).

Declare Scope result_scope.
Delimit Scope result_scope with result.

Notation "x <- c ;; k" := (bind c (fun x => k))
  (at level 62, c at next level, right associativity) : result_scope.
Notation "c ;;; k" := (bind c (fun _ => k))
  (at level 62, right associativity) : result_scope.

(** ** Tactics *)

(** Invert a hypothesis and clean up. *)
Ltac inv H := inversion H; subst; clear H.

(** Case analysis on the first [if] or [match] scrutinee of the goal. *)
Ltac case_goal :=
  match goal with
  | |- context [if ?b then _ else _] => destruct b eqn:?
  | |- context [match ?x with _ => _ end] => destruct x eqn:?
  end.

(** Case analysis on the scrutinee of a hypothesis. *)
Ltac case_hyp :=
  match goal with
  | H : context [if ?b then _ else _] |- _ => destruct b eqn:?
  | H : context [match ?x with _ => _ end] |- _ => destruct x eqn:?
  end.

(** Turn the boolean connectives and integer tests of the hypotheses into
    propositions that [lia], [congruence] and [intuition] read, also under
    disjunctions. *)
Ltac bool_to_prop_step :=
  match goal with
  | H : context [andb _ _ = true] |- _ => rewrite andb_true_iff in H
  | H : context [andb _ _ = false] |- _ => rewrite andb_false_iff in H
  | H : context [orb _ _ = true] |- _ => rewrite orb_true_iff in H
  | H : context [orb _ _ = false] |- _ => rewrite orb_false_iff in H
  | H : context [negb _ = true] |- _ => rewrite negb_true_iff in H
  | H : context [negb _ = false] |- _ => rewrite negb_false_iff in H
  | H : context [Z.geb _ _] |- _ => rewrite Z.geb_leb in H
  | H : context [Z.gtb _ _] |- _ => rewrite Z.gtb_ltb in H
  | H : context [Z.eqb _ _ = true] |- _ => rewrite Z.eqb_eq in H
  | H : context [Z.eqb _ _ = false] |- _ => rewrite Z.eqb_neq in H
  | H : context [Z.ltb _ _ = true] |- _ => rewrite Z.ltb_lt in H
  | H : context [Z.ltb _ _ = false] |- _ => rewrite Z.ltb_ge in H
  | H : context [Z.leb _ _ = true] |- _ => rewrite Z.leb_le in H
  | H : context [Z.leb _ _ = false] |- _ => rewrite Z.leb_gt in H
  | H : _ /\ _ |- _ => destruct H
  end.

Ltac bool_to_prop := repeat bool_to_prop_step.

(** Split the conjunctions the goal shows, without unfolding definitions. *)
Ltac split_and := repeat match goal with |- _ /\ _ => split end.

Create HintDb geps discriminated.

(** ** Lemmas on [result] *)

Lemma bind_Ok_inv {A B : Type} (c : result A) (k : A -> result B) (b : B) :
  bind c k = Ok b -> exists a, c = Ok a /\ k a = Ok b.
Proof. destruct c as [a|e]; simpl; [eauto | discriminate]. Qed.

Lemma bind_Fail_inv {A B : Type} (c : result A) (k : A -> result B) (e : failure) :
  bind c k = Fail e -> c = Fail e \/ exists a, c = Ok a /\ k a = Fail e.
Proof. destruct c as [a|e']; simpl; [eauto | intros [= ->]; auto]. Qed.

Lemma CK_Ok_inv (cond : bool) (msg : string) (u : unit) :
  CK cond msg = Ok u -> cond = true.
Proof. destruct cond; [reflexivity | discriminate]. Qed.

Lemma is_ok_true {A : Type} (c : result A) :
  is_ok c = true <-> exists a, c = Ok a.
Proof.
  destruct c; simpl; split; eauto; try discriminate.
  intros [a [=]].
Qed.

#[export] Hint Resolve CK_Ok_inv : geps.

(** ** Lists searched with a boolean relation *)

Section ExistsB.
Context {A : Type} (eqb : A -> A -> bool).

Definition eqR (a b : A) : Prop := eqb a b = true.

Lemma existsb_InA (a : A) (l : list A) :
  existsb (eqb a) l = true <-> InA eqR a l.
Proof.
  rewrite existsb_exists, InA_alt. unfold eqR. firstorder.
Qed.

Lemma existsb_false_InA (a : A) (l : list A) :
  existsb (eqb a) l = false <-> ~ InA eqR a l.
Proof.
  rewrite <- existsb_InA. destruct (existsb (eqb a) l); split; congruence.
Qed.
End ExistsB.

Lemma existsb_false_In (A : Type) (f : A -> bool) (l : list A) (x : A) :
  existsb f l = false -> In x l -> f x = false.
Proof.
  intros H Hx. destruct (f x) eqn:E; [|reflexivity].
  rewrite <- H. symmetry. apply existsb_exists. eauto.
Qed.

Lemma find_app (A : Type) (f : A -> bool) (l1 l2 : list A) :
  find f (l1 ++ l2) =
  match find f l1 with
  | Some x => Some x
  | None => find f l2
  end.
Proof.
  induction l1 as [|x l1 IH]; simpl; [reflexivity|]. now destruct (f x).
Qed.

Lemma find_map (A B : Type) (f : B -> bool) (g : A -> B) (l : list A) :
  find f (map g l) = option_map g (find (fun x => f (g x)) l).
Proof.
  induction l as [|x l IH]; simpl; [reflexivity|].
  now destruct (f (g x)).
Qed.

(** [find] through a filter that keeps everything the test accepts. *)
Lemma find_filter (A : Type) (f g : A -> bool) (l : list A) :
  (forall x, In x l -> f x = true -> g x = true) ->
  find f (filter g l) = find f l.
Proof.
  induction l as [|x l IH]; intros H; simpl; [reflexivity|].
  destruct (f x) eqn:Ef.
  - rewrite (H x (or_introl eq_refl) Ef). simpl. now rewrite Ef.
  - destruct (g x); simpl; rewrite ?Ef; apply IH; intros y Hy; apply H; now right.
Qed.

(** [find] with two tests that agree on the list. *)
Lemma find_ext_in (A : Type) (f g : A -> bool) (l : list A) :
  (forall x, In x l -> f x = g x) -> find f l = find g l.
Proof.
  induction l as [|x l IH]; intros H; simpl; [reflexivity|].
  rewrite (H x (or_introl eq_refl)), IH; [reflexivity|].
  intros y Hy. apply H. now right.
Qed.

Lemma filter_length_le (A : Type) (g : A -> bool) (l : list A) :
  length (filter g l) <= length l.
Proof. induction l as [|x l IH]; simpl; [lia|]. destruct (g x); simpl; lia. Qed.
