(* ===== verification/Number.v ===== *)
(** * Number: the C type [number] (= [double]) as an interface

    libctl declares [typedef double number].  The source adds, subtracts,
    multiplies, divides, negates and compares such values, converts the
    [int] stencil offsets to them, and uses the constants [0], [1.0], [0.5]
    and [meep::infinity].  [Number] lists exactly these operations.

    The laws the proofs need of [==] are in [NumberLaws]: it is symmetric and
    transitive.  It is NOT reflexive for IEEE doubles ([NaN == NaN] is false),
    so a value [x] with [x == x] is called [defined], and every lemma that
    needs reflexivity asks for it.  The laws of the order ([OrderLaws]: [<=]
    is total and transitive, [<] is its negation, and a term moves across
    an inequality) fail with NaN and with rounding; the arguments about
    boxes that need them ask for the class.

    Two instances:
    - [float_Number]: IEEE binary64, the primitive floats of the kernel.  This
      is the model of the compiled program; its laws are derived from the
      specification of the primitive operations ([FloatAxioms]).
    - [Q_Number]: exact rationals.  The formulas of the averaging code are
      exact there, which is where their algebraic properties are stated; it
      is the instance of [OrderLaws].
      [Q] has no infinite value: [n_inf] is the large finite stand-in
      [10^20].

    [meep::infinity] is a constant of meep's headers, which are not part of
    the sources (the IEEE infinity where the C library has one, 1e20
    otherwise); it is the field [n_inf], and no theorem depends on its
    value. *)

From Stdlib Require Import ZArith QArith Floats Bool Lia Lqa.
From S2P Require Import Prelude.

Set Implicit Arguments.

(** ** The interface *)

Class Number (D : Type) : Type := {
  n_zero : D;
  n_one : D;
  n_half : D;
  n_inf : D;
  nadd : D -> D -> D;
  nsub : D -> D -> D;
  nmul : D -> D -> D;
  ndiv : D -> D -> D;
  nopp : D -> D;
  neqb : D -> D -> bool;
  nltb : D -> D -> bool;
  nleb : D -> D -> bool;
  of_int : Z -> D
}.

Declare Scope num_scope.
Delimit Scope num_scope with num.

Notation "a + b" := (nadd a b) : num_scope.
Notation "a - b" := (nsub a b) : num_scope.
Notation "a * b" := (nmul a b) : num_scope.
Notation "a / b" := (ndiv a b) : num_scope.
Notation "- a" := (nopp a) : num_scope.
Notation "a == b" := (neqb a b) (at level 70, no associativity) : num_scope.
Notation "a != b" := (negb (neqb a b)) (at level 70, no associativity) : num_scope.
Notation "a <? b" := (nltb a b) : num_scope.
Notation "a <=? b" := (nleb a b) : num_scope.

(** [x] compares equal to itself: for a double, [x] is not a NaN. *)
Definition defined {D : Type} {N : Number D} (x : D) : Prop :=
  neqb x x = true.

Class NumberLaws (D : Type) {N : Number D} : Prop := {
  neqb_sym : forall a b : D, neqb a b = neqb b a;
  neqb_trans : forall a b c : D,
    neqb a b = true -> neqb b c = true -> neqb a c = true;
  neqb_zero : neqb (n_zero : D) n_zero = true
}.

Arguments NumberLaws D {N}.

(** The laws of [<=] and [<] that the bounding boxes of the geometry need:
    a total order that moving a term across the comparison respects.  They
    hold of exact numbers.  Of the doubles they hold only where no NaN and
    no rounding is involved, so there is no instance for them. *)
Class OrderLaws (D : Type) {N : Number D} : Prop := {
  nleb_trans : forall a b c : D,
    nleb a b = true -> nleb b c = true -> nleb a c = true;
  nleb_total : forall a b : D, nleb a b = true \/ nleb b a = true;
  nltb_nleb : forall a b : D, nltb a b = negb (nleb b a);
  nleb_sub_r : forall a b c : D, nleb a (nsub b c) = nleb (nadd a c) b;
  nleb_sub_l : forall a b c : D, nleb (nsub b c) a = nleb b (nadd a c)
}.

Arguments OrderLaws D {N}.

Section Laws.
Context {D : Type} {N : Number D} {L : NumberLaws D}.

Lemma neqb_defined_l (a b : D) : neqb a b = true -> defined a.
Proof.
  intros H. unfold defined. apply neqb_trans with b; [exact H|].
  now rewrite neqb_sym.
Qed.

Lemma neqb_defined_r (a b : D) : neqb a b = true -> defined b.
Proof. rewrite neqb_sym. apply neqb_defined_l. Qed.

(** Equal values cannot be told apart by a third one. *)
Lemma neqb_compat_l (a b c : D) :
  neqb a b = true -> neqb a c = neqb b c.
Proof.
  intros H. destruct (neqb b c) eqn:E.
  - now apply neqb_trans with b.
  - destruct (neqb a c) eqn:E'; [|reflexivity].
    rewrite <- E. symmetry. apply neqb_trans with a; [|exact E'].
    now rewrite neqb_sym.
Qed.

Lemma neqb_compat_r (a b c : D) :
  neqb a b = true -> neqb c a = neqb c b.
Proof. intros H. rewrite (neqb_sym c a), (neqb_sym c b). now apply neqb_compat_l. Qed.
End Laws.

Section Order.
Context {D : Type} {N : Number D} {OL : OrderLaws D}.

Lemma nleb_refl (a : D) : nleb a a = true.
Proof. now destruct (nleb_total a a). Qed.

(** [!(a < b)], the form of the tests of the source, is [b <= a]. *)
Lemma negb_nltb (a b : D) : negb (nltb a b) = nleb b a.
Proof. rewrite nltb_nleb. apply negb_involutive. Qed.
End Order.

#[export] Hint Resolve neqb_defined_l neqb_defined_r : geps.

(** ** IEEE binary64 *)

(** [int] to [double] conversion; exact for every 32-bit [int]. *)
Definition float_of_Z (z : Z) : float :=
  match z with
  | Z0 => PrimFloat.zero
  | Zpos _ => PrimFloat.of_uint63 (Uint63.of_Z z)
  | Zneg _ => PrimFloat.opp (PrimFloat.of_uint63 (Uint63.of_Z (Z.opp z)))
  end.

#[export] Instance float_Number : Number float := {
  n_zero := PrimFloat.zero;
  n_one := PrimFloat.one;
  n_half := 0.5%float;
  n_inf := PrimFloat.infinity;
  nadd := PrimFloat.add;
  nsub := PrimFloat.sub;
  nmul := PrimFloat.mul;
  ndiv := PrimFloat.div;
  nopp := PrimFloat.opp;
  neqb := PrimFloat.eqb;
  nltb := PrimFloat.ltb;
  nleb := PrimFloat.leb;
  of_int := float_of_Z
}.

(** The comparison class of a double: zeros of both signs are one class, a NaN
    has none. *)
Definition sf_key (f : spec_float) : option (option (bool * option (positive * Z))) :=
  match f with
  | S754_zero _ => Some None
  | S754_infinity s => Some (Some (s, None))
  | S754_nan => None
  | S754_finite s m e => Some (Some (s, Some (m, e)))
  end.

Lemma SFcompare_Eq_finite (sa : bool) (ma : positive) (ea : Z)
      (sb : bool) (mb : positive) (eb : Z) :
  SFcompare (S754_finite sa ma ea) (S754_finite sb mb eb) = Some Eq <->
  sa = sb /\ ma = mb /\ ea = eb.
Proof.
  simpl. split.
  - destruct sa, sb; try discriminate; destruct (Z.compare_spec ea eb); try discriminate;
      intros [= Hc]; destruct (Pos.compare_cont Eq ma mb) eqn:E; try discriminate;
      apply Pcompare_Eq_eq in E; auto.
  - intros (-> & -> & ->). rewrite Z.compare_refl, Pcompare_refl. now destruct sb.
Qed.

Lemma SFeqb_key (a b : spec_float) :
  SFeqb a b = true <-> sf_key a = sf_key b /\ sf_key a <> None.
Proof.
  unfold SFeqb.
  destruct a as [sa|sa| |sa ma ea], b as [sb|sb| |sb mb eb];
    try (simpl; repeat match goal with s : bool |- _ => destruct s end;
         intuition congruence).
  destruct (SFcompare _ _) as [[]|] eqn:E.
  - apply SFcompare_Eq_finite in E as (-> & -> & ->). simpl. intuition congruence.
  - split; [discriminate|]. intros [[= -> -> ->] _].
    rewrite (proj2 (SFcompare_Eq_finite sb mb eb sb mb eb)) in E by auto. discriminate.
  - split; [discriminate|]. intros [[= -> -> ->] _].
    rewrite (proj2 (SFcompare_Eq_finite sb mb eb sb mb eb)) in E by auto. discriminate.
  - discriminate.
Qed.

Lemma float_eqb_key (x y : float) :
  PrimFloat.eqb x y = true <->
  sf_key (Prim2SF x) = sf_key (Prim2SF y) /\ sf_key (Prim2SF x) <> None.
Proof. rewrite FloatAxioms.eqb_spec. apply SFeqb_key. Qed.

#[export] Instance float_NumberLaws : NumberLaws float.
Proof.
  split; simpl.
  - intros a b. apply eq_true_iff_eq. rewrite !float_eqb_key.
    split; intros [H1 H2]; split; congruence.
  - intros a b c. rewrite !float_eqb_key. intros [H1 H2] [H3 H4]. split; congruence.
  - reflexivity.
Qed.

(** A NaN is the one double that is not [defined]. *)
Lemma float_defined_iff (x : float) :
  defined x <-> Prim2SF x <> S754_nan.
Proof.
  unfold defined. simpl. rewrite float_eqb_key.
  destruct (Prim2SF x); simpl; intuition congruence.
Qed.

(** ** Exact rationals *)

#[export] Instance Q_Number : Number Q := {
  n_zero := 0%Q;
  n_one := 1%Q;
  n_half := (1 # 2)%Q;
  n_inf := inject_Z (10 ^ 20);
  nadd := Qplus;
  nsub := Qminus;
  nmul := Qmult;
  ndiv := Qdiv;
  nopp := Qopp;
  neqb := Qeq_bool;
  nltb := fun a b => negb (Qle_bool b a);
  nleb := Qle_bool;
  of_int := inject_Z
}.

#[export] Instance Q_NumberLaws : NumberLaws Q.
Proof.
  split; simpl.
  - intros a b. apply eq_true_iff_eq. rewrite !Qeq_bool_iff.
    split; intros H; now symmetry.
  - intros a b c. rewrite !Qeq_bool_iff. intros H1 H2. now rewrite H1.
  - reflexivity.
Qed.

#[export] Instance Q_OrderLaws : OrderLaws Q.
Proof.
  split; simpl.
  - intros a b c. rewrite !Qle_bool_iff. apply Qle_trans.
  - intros a b. rewrite !Qle_bool_iff. destruct (Qlt_le_dec a b) as [H|H]; auto.
    left. now apply Qlt_le_weak.
  - reflexivity.
  - intros a b c. apply eq_true_iff_eq. rewrite !Qle_bool_iff. split; intros H; lra.
  - intros a b c. apply eq_true_iff_eq. rewrite !Qle_bool_iff. split; intros H; lra.
Qed.

Lemma Q_defined (x : Q) : defined x.
Proof. unfold defined. simpl. now apply Qeq_bool_iff. Qed.

#[export] Hint Resolve Q_defined : geps.

(** ** Comparisons of rationals as propositions *)

Lemma Qle_bool_false (a b : Q) : Qle_bool a b = false -> (b < a)%Q.
Proof.
  intros H. destruct (Qlt_le_dec b a) as [Hlt|Hle]; [exact Hlt|].
  apply Qle_bool_iff in Hle. congruence.
Qed.

(** Case analysis on every comparison of the goal. *)
Ltac qcases :=
  repeat match goal with
    | |- context [Qle_bool ?a ?b] => destruct (Qle_bool a b) eqn:?
    | |- context [Qeq_bool ?a ?b] => destruct (Qeq_bool a b) eqn:?
    | H : context [if Qle_bool ?a ?b then _ else _] |- _ => destruct (Qle_bool a b) eqn:?
    end;
  repeat match goal with
    | H : Qle_bool _ _ = true |- _ => apply Qle_bool_iff in H
    | H : Qle_bool _ _ = false |- _ => apply Qle_bool_false in H
    | H : Qeq_bool _ _ = true |- _ => apply Qeq_bool_iff in H
    | H : Qeq_bool _ _ = false |- _ => apply Qeq_bool_neq in H
    end.

