(* ===== verification/Vector3.v ===== *)
(** * Vector3: coordinates, boxes and the dimensionality globals

    Models lines 9-76 of src/libctl/structure.cpp: the static [dim], the
    function [set_dimensions], the conversions [vec_to_vector3] and
    [vector3_to_vec] between meep's [vec] and libctl's [vector3], and
    [gv2box].  libctl's [vector3], [geom_box], [vector3_equal] and
    [vector3_minus], and meep's [vec], [ndim] and [geometric_volume], are
    declared outside the source file and are modelled here from the way the
    source uses them. *)

From Stdlib Require Import ZArith Bool String Lia.
From S2P Require Import Prelude Number.

Set Implicit Arguments.
Local Open Scope Z_scope.

(** meep's [enum ndim { D1=0, D2, D3, Dcyl }]. *)
Inductive ndim : Type := D1 | D2 | D3 | Dcyl.

(** The cast [meep::ndim(i)]: [None] is a value outside the enumeration, on
    which every [switch] of the source takes its [default] branch. *)
Definition ndim_of_int (i : Z) : option ndim :=
  match i with
  | 0 => Some D1
  | 1 => Some D2
  | 2 => Some D3
  | 3 => Some Dcyl
  | _ => None
  end.

Definition int_of_ndim (d : ndim) : Z :=
  match d with D1 => 0 | D2 => 1 | D3 => 2 | Dcyl => 3 end.

(** The value of the macro [CYLINDRICAL] of meep-ctl.hpp. *)
Definition CYLINDRICAL : Z := -2.

(** The two globals [set_dimensions] writes: libctl's [dimensions] and the
    file's static [dim]. *)
Record dim_globals : Type := {
  dimensions : Z;
  dim : option ndim
}.

(** The state before any call: [static meep::ndim dim = meep::D3], and
    libctl's default of three dimensions. *)
Definition initial_dim_globals : dim_globals :=
  {| dimensions := 3; dim := Some D3 |}.

Definition set_dimensions (dims : Z) : dim_globals :=
  if dims =? CYLINDRICAL
  then {| dimensions := 2; dim := Some Dcyl |}
  else {| dimensions := dims; dim := ndim_of_int (dims - 1) |}.

Section Vectors.
Context {D : Type} {N : Number D}.
Local Open Scope num_scope.

(** libctl's [vector3]. *)
Record vector3 : Type := V3 { vx : D; vy : D; vz : D }.

(** libctl's [geom_box]. *)
Record geom_box : Type := { low : vector3; high : vector3 }.

Definition vector3_zero : vector3 := V3 n_zero n_zero n_zero.

Definition vector3_equal (a b : vector3) : bool :=
  (vx a == vx b) && (vy a == vy b) && (vz a == vz b).

Definition vector3_minus (a b : vector3) : vector3 :=
  V3 (vx a - vx b) (vy a - vy b) (vz a - vz b).

(** meep's [vec]: a dimensionality and the coordinates it uses.  The
    constructors are meep's [vec(z)], [vec(x,y)], [vec(x,y,z)] and
    [veccyl(r,z)]. *)
Inductive vec : Type :=
  | vec1 (z : D)
  | vec2 (x y : D)
  | vec3 (x y z : D)
  | veccyl (r z : D).

Definition vec_dim (v : vec) : ndim :=
  match v with
  | vec1 _ => D1
  | vec2 _ _ => D2
  | vec3 _ _ _ => D3
  | veccyl _ _ => Dcyl
  end.

Definition zero_vec (d : ndim) : vec :=
  match d with
  | D1 => vec1 n_zero
  | D2 => vec2 n_zero n_zero
  | D3 => vec3 n_zero n_zero n_zero
  | Dcyl => veccyl n_zero n_zero
  end.

(** What the source observes of a [meep::geometric_volume]: its [dim] and
    the results of [get_min_corner()], [get_max_corner()] and [center()]. *)
Record geometric_volume : Type := {
    gv_dim : ndim;
    get_min_corner : vec;
    get_max_corner : vec;
    center : vec
  }.

Definition vec_to_vector3 (v : vec) : vector3 :=
  match v with
  | vec1 z => V3 n_zero n_zero z
  | vec2 x y => V3 x y n_zero
  | vec3 x y z => V3 x y z
  | veccyl r z => V3 r n_zero z
  end.

Definition vector3_to_vec (dim : option ndim) (v3 : vector3) : result vec :=
  match dim with
  | Some D1 => Ok (vec1 (vz v3))
  | Some D2 => Ok (vec2 (vx v3) (vy v3))
  | Some D3 => Ok (vec3 (vx v3) (vy v3) (vz v3))
  | Some Dcyl => Ok (veccyl (vx v3) (vz v3))
  | None => Fail (Aborted "unknown dimensionality in vector3_to_vec")
  end.

Definition gv2box (gv : geometric_volume) : geom_box :=
  {| low := vec_to_vector3 (get_min_corner gv);
     high := vec_to_vector3 (get_max_corner gv) |}.

(** *** Properties *)

(** [vector3_equal] inherits the laws of [==]. *)
Section WithLaws.
Context {L : NumberLaws D}.

Lemma vector3_equal_sym (a b : vector3) :
  vector3_equal a b = vector3_equal b a.
Proof.
  unfold vector3_equal.
  now rewrite (neqb_sym (vx a)), (neqb_sym (vy a)), (neqb_sym (vz a)).
Qed.

Lemma vector3_equal_trans (a b c : vector3) :
  vector3_equal a b = true -> vector3_equal b c = true ->
  vector3_equal a c = true.
Proof.
  unfold vector3_equal. intros H1 H2. bool_to_prop.
  repeat (apply andb_true_iff; split); eapply neqb_trans; eassumption.
Qed.
End WithLaws.

(** Every coordinate compares equal to itself. *)
Definition vector3_defined (a : vector3) : Prop :=
  defined (vx a) /\ defined (vy a) /\ defined (vz a).

Lemma vector3_equal_refl (a : vector3) :
  vector3_defined a -> vector3_equal a a = true.
Proof.
  intros (Hx & Hy & Hz). unfold vector3_equal.
  now rewrite Hx, Hy, Hz.
Qed.

Lemma vector3_equal_intro (a b : vector3) :
  neqb (vx a) (vx b) = true -> neqb (vy a) (vy b) = true ->
  neqb (vz a) (vz b) = true -> vector3_equal a b = true.
Proof. unfold vector3_equal. now intros -> -> ->. Qed.

Lemma vector3_equal_refl_inv (a : vector3) :
  vector3_equal a a = true -> vector3_defined a.
Proof.
  unfold vector3_equal, vector3_defined, defined. intros H.
  bool_to_prop. auto.
Qed.

(** Converting a [vec] to a [vector3] and back, under the dimensionality of
    the [vec], returns it. *)
Lemma vector3_to_vec_to_vector3 (v : vec) :
  vector3_to_vec (Some (vec_dim v)) (vec_to_vector3 v) = Ok v.
Proof. destruct v; reflexivity. Qed.

(** [vector3_to_vec] fails exactly when [dim] is outside the enumeration. *)
Lemma vector3_to_vec_ok_iff (dim : option ndim) (v3 : vector3) :
  is_ok (vector3_to_vec dim v3) = true <-> dim <> None.
Proof.
  destruct dim as [[]|]; simpl; split; congruence.
Qed.

Lemma vector3_to_vec_dim (d : ndim) (v3 : vector3) (v : vec) :
  vector3_to_vec (Some d) v3 = Ok v -> vec_dim v = d.
Proof. destruct d; simpl; intros [= <-]; reflexivity. Qed.

End Vectors.

Arguments vector3 D : clear implicits.
Arguments geom_box D : clear implicits.
Arguments vec D : clear implicits.
Arguments geometric_volume D : clear implicits.

(** *** [set_dimensions] *)

Lemma ndim_of_int_of_ndim (d : ndim) : ndim_of_int (int_of_ndim d) = Some d.
Proof. destruct d; reflexivity. Qed.

Lemma ndim_of_int_Some (i : Z) (d : ndim) :
  ndim_of_int i = Some d -> i = int_of_ndim d.
Proof.
  unfold ndim_of_int.
  destruct i as [|[[|[]|]|[|[]|]|]|]; intros [= <-]; reflexivity.
Qed.

(** [set_dimensions] leaves a valid [dim] exactly for 1, 2, 3, 4 and
    [CYLINDRICAL]. *)
Lemma set_dimensions_dim_valid (dims : Z) :
  dim (set_dimensions dims) <> None <->
  dims = CYLINDRICAL \/ 1 <= dims <= 4.
Proof.
  unfold set_dimensions, CYLINDRICAL.
  destruct (Z.eqb_spec dims (-2)) as [->|Hne]; simpl.
  - split; [auto | discriminate].
  - split.
    + destruct (ndim_of_int (dims - 1)) as [d|] eqn:E; [|congruence].
      intros _. apply ndim_of_int_Some in E. destruct d; simpl in E; lia.
    + intros [->|H]; [congruence|].
      assert (dims = 1 \/ dims = 2 \/ dims = 3 \/ dims = 4) as [-> | [-> | [-> | ->]]] by lia;
        discriminate.
Qed.
