(* ===== verification/Material.v ===== *)
(** * Material: the material tagged union and its resolution

    Models lines 168-215 of src/libctl/structure.cpp: [eval_material_func],
    [variable_material] and [material_eps].  The types [material_type],
    [dielectric] and [polarizability] and the function [material_type_equal]
    are generated by libctl from the class declarations of meep.scm; they are
    modelled from the fields and tags the source reads.

    A Scheme procedure is a [function] of libctl, an [SCM] machine word;
    calling it ([gh_call1] followed by [material_type_input]) is the
    parameter [call_material_func] of the model. *)

From Stdlib Require Import ZArith Bool String List Lia Floats.
From S2P Require Import Prelude Number Vector3.
Import ListNotations.

Set Implicit Arguments.

(** The tags of [material_type_struct] ([MTS::DIELECTRIC], ...). *)
Inductive subclass_tag : Type :=
| DIELECTRIC
| PERFECT_METAL
| MATERIAL_TYPE_SELF
| MATERIAL_FUNCTION.

Definition subclass_tag_eqb (a b : subclass_tag) : bool :=
  match a, b with
  | DIELECTRIC, DIELECTRIC
  | PERFECT_METAL, PERFECT_METAL
  | MATERIAL_TYPE_SELF, MATERIAL_TYPE_SELF
  | MATERIAL_FUNCTION, MATERIAL_FUNCTION => true
  | _, _ => false
  end.

Lemma subclass_tag_eqb_spec (a b : subclass_tag) :
  reflect (a = b) (subclass_tag_eqb a b).
Proof. destruct a, b; constructor; congruence. Qed.

(** A Scheme procedure: libctl's [typedef SCM function]. *)
Definition function : Type := Z.

Definition variable_material (which_subclass : subclass_tag) : bool :=
  subclass_tag_eqb which_subclass MATERIAL_FUNCTION.

Section Materials.
Context {D : Type} {N : Number D}.
Local Open Scope num_scope.

Record polarizability : Type := {
    omega : D;
    gamma : D;
    delta_epsilon : D;
    sigma : D;
    energy_saturation : D
  }.

Record dielectric : Type := {
    epsilon : D;
    chi2 : D;
    chi3 : D;
    polarizations : list polarizability
  }.

(** [material_type]: the tag [which_subclass] and the member of the union
    [subclass] that the tag selects. *)
Inductive material_type : Type :=
  | dielectric_data (d : dielectric)
  | perfect_metal_data
  | material_type_self_data
  | material_function_data (material_func : function).

Definition which_subclass (m : material_type) : subclass_tag :=
  match m with
  | dielectric_data _ => DIELECTRIC
  | perfect_metal_data => PERFECT_METAL
  | material_type_self_data => MATERIAL_TYPE_SELF
  | material_function_data _ => MATERIAL_FUNCTION
  end.

(** *** Equality of materials, field by field with [==] *)

Definition polarizability_equal (a b : polarizability) : bool :=
  (omega a == omega b) && (gamma a == gamma b) &&
  (delta_epsilon a == delta_epsilon b) && (sigma a == sigma b) &&
  (energy_saturation a == energy_saturation b).

Fixpoint polarizability_list_equal (a b : list polarizability) : bool :=
  match a, b with
  | [], [] => true
  | x :: a', y :: b' => polarizability_equal x y && polarizability_list_equal a' b'
  | _, _ => false
  end.

Definition dielectric_equal (a b : dielectric) : bool :=
  (epsilon a == epsilon b) && (chi2 a == chi2 b) && (chi3 a == chi3 b) &&
  polarizability_list_equal (polarizations a) (polarizations b).

Definition material_type_equal (a b : material_type) : bool :=
  match a, b with
  | dielectric_data x, dielectric_data y => dielectric_equal x y
  | perfect_metal_data, perfect_metal_data => true
  | material_type_self_data, material_type_self_data => true
  | material_function_data f, material_function_data g => Z.eqb f g
  | _, _ => false
  end.

(** *** [material_eps] *)

(** The outputs [eps] and [eps_inv], as a pair. *)
Definition material_eps (material : material_type) : result (D * D) :=
  match material with
  | dielectric_data d =>
      let eps := epsilon d in
      Ok (eps, n_one / eps)
  | perfect_metal_data => Ok (- n_inf, - n_zero)
  | _ => Fail (Aborted "unknown material type")
  end.

(** *** [eval_material_func] *)

Section Eval.
(** The Scheme evaluator: [material_type_input (gh_call1 f p)]. *)
Variable call_material_func : function -> vector3 D -> material_type.

(** The loop [while (material.which_subclass == MATERIAL_FUNCTION)]:
    each round calls the procedure the material holds. *)
Fixpoint eval_material_loop (fuel : nat) (material : material_type)
         (p : vector3 D) : result material_type :=
  match material with
  | material_function_data f =>
      match fuel with
      | O => Fail OutOfFuel
      | S fuel' => eval_material_loop fuel' (call_material_func f p) p
      end
  | _ => Ok material
  end.

Definition eval_material_func (fuel : nat) (default_material : material_type)
           (material_func : function) (p : vector3 D) : result material_type :=
  (material <- eval_material_loop fuel (call_material_func material_func p) p ;;
   let material :=
     if subclass_tag_eqb (which_subclass material) MATERIAL_TYPE_SELF
     then default_material else material in
   CK (negb (subclass_tag_eqb (which_subclass material) MATERIAL_FUNCTION))
      "infinite loop in material functions" ;;;
   Ok material)%result.

(** A chain of [k] calls that ends in a material that is not a
    procedure. *)
Inductive resolves (p : vector3 D) : material_type -> nat -> material_type -> Prop :=
  | resolves_done m :
      which_subclass m <> MATERIAL_FUNCTION -> resolves p m 0 m
  | resolves_call f k m :
      resolves p (call_material_func f p) k m ->
      resolves p (material_function_data f) (S k) m.
End Eval.

(** *** Properties of [material_type_equal] *)

Section EqualLaws.
Context {L : NumberLaws D}.

Lemma polarizability_equal_sym (a b : polarizability) :
  polarizability_equal a b = polarizability_equal b a.
Proof.
  unfold polarizability_equal.
  now rewrite (neqb_sym (omega a)), (neqb_sym (gamma a)),
    (neqb_sym (delta_epsilon a)), (neqb_sym (sigma a)),
    (neqb_sym (energy_saturation a)).
Qed.

Lemma polarizability_equal_trans (a b c : polarizability) :
  polarizability_equal a b = true -> polarizability_equal b c = true ->
  polarizability_equal a c = true.
Proof.
  unfold polarizability_equal. intros H1 H2. bool_to_prop.
  repeat (apply andb_true_iff; split); eapply neqb_trans; eassumption.
Qed.

Lemma polarizability_list_equal_sym (a b : list polarizability) :
  polarizability_list_equal a b = polarizability_list_equal b a.
Proof.
  revert b. induction a as [|x a IH]; intros [|y b]; simpl; try reflexivity.
  now rewrite polarizability_equal_sym, IH.
Qed.

Lemma polarizability_list_equal_trans (a b c : list polarizability) :
  polarizability_list_equal a b = true ->
  polarizability_list_equal b c = true ->
  polarizability_list_equal a c = true.
Proof.
  revert b c. induction a as [|x a IH]; intros [|y b] [|z c]; simpl;
    try congruence.
  intros H1 H2. bool_to_prop. apply andb_true_iff. split.
  - eapply polarizability_equal_trans; eassumption.
  - eapply IH; eassumption.
Qed.

Lemma dielectric_equal_sym (a b : dielectric) :
  dielectric_equal a b = dielectric_equal b a.
Proof.
  unfold dielectric_equal.
  now rewrite (neqb_sym (epsilon a)), (neqb_sym (chi2 a)),
    (neqb_sym (chi3 a)), polarizability_list_equal_sym.
Qed.

Lemma dielectric_equal_trans (a b c : dielectric) :
  dielectric_equal a b = true -> dielectric_equal b c = true ->
  dielectric_equal a c = true.
Proof.
  unfold dielectric_equal. intros H1 H2. bool_to_prop.
  repeat (apply andb_true_iff; split);
    first [eapply neqb_trans; eassumption
          | eapply polarizability_list_equal_trans; eassumption].
Qed.

Lemma material_type_equal_sym (a b : material_type) :
  material_type_equal a b = material_type_equal b a.
Proof.
  destruct a, b; simpl; try reflexivity.
  - apply dielectric_equal_sym.
  - apply Z.eqb_sym.
Qed.

Lemma material_type_equal_trans (a b c : material_type) :
  material_type_equal a b = true -> material_type_equal b c = true ->
  material_type_equal a c = true.
Proof.
  destruct a, b, c; simpl; try congruence.
  - apply dielectric_equal_trans.
  - intros H1 H2. bool_to_prop. apply Z.eqb_eq. congruence.
Qed.

(** A material equal to some material is equal to itself. *)
Lemma material_type_equal_refl_l (a b : material_type) :
  material_type_equal a b = true -> material_type_equal a a = true.
Proof.
  intros H. apply material_type_equal_trans with b; [exact H|].
  now rewrite material_type_equal_sym.
Qed.
End EqualLaws.

(** Equal materials carry the same tag. *)
Lemma material_type_equal_tag (a b : material_type) :
  material_type_equal a b = true -> which_subclass a = which_subclass b.
Proof. destruct a, b; simpl; congruence. Qed.

(** *** Properties of [material_eps] *)

Lemma material_eps_ok_iff (m : material_type) :
  is_ok (material_eps m) = true <->
  which_subclass m = DIELECTRIC \/ which_subclass m = PERFECT_METAL.
Proof.
  destruct m; simpl; intuition congruence.
Qed.

Lemma material_eps_abort (m : material_type) :
  which_subclass m = MATERIAL_TYPE_SELF \/ which_subclass m = MATERIAL_FUNCTION ->
  material_eps m = Fail (Aborted "unknown material type").
Proof. destruct m; simpl; intros [H|H]; congruence. Qed.

Lemma material_eps_dielectric (d : dielectric) :
  material_eps (dielectric_data d) = Ok (epsilon d, n_one / epsilon d).
Proof. reflexivity. Qed.

(** *** Properties of [eval_material_func] *)

Section EvalFacts.
Variable call_material_func : function -> vector3 D -> material_type.

Lemma eval_material_loop_not_function (fuel : nat) (m r : material_type)
      (p : vector3 D) :
  eval_material_loop call_material_func fuel m p = Ok r ->
  which_subclass r <> MATERIAL_FUNCTION.
Proof.
  revert m. induction fuel as [|fuel IH]; intros m; destruct m; simpl;
    try (intros [= <-]; discriminate); try discriminate.
  apply IH.
Qed.

(** With fuel above the length of the chain the loop returns its end. *)
Lemma eval_material_loop_resolves (p : vector3 D) (m r : material_type)
      (k fuel : nat) :
  resolves call_material_func p m k r -> (k <= fuel)%nat ->
  eval_material_loop call_material_func fuel m p = Ok r.
Proof.
  intros H. revert fuel. induction H as [m Hm | f k m H IH]; intros fuel Hk.
  - destruct m, fuel; simpl in *; congruence.
  - destruct fuel as [|fuel]; [lia|]. simpl. apply IH. lia.
Qed.

(** Conversely a result of the loop is the end of a chain no longer than
    the fuel. *)
Lemma eval_material_loop_inv (p : vector3 D) (fuel : nat) (m r : material_type) :
  eval_material_loop call_material_func fuel m p = Ok r ->
  exists k, (k <= fuel)%nat /\ resolves call_material_func p m k r.
Proof.
  revert m. induction fuel as [|fuel IH]; intros m H.
  - exists 0%nat. destruct m; simpl in H; try discriminate;
      injection H as <-; split; auto; constructor; discriminate.
  - destruct m; simpl in H;
      try (injection H as <-; exists 0%nat; split; [lia|];
           constructor; discriminate).
    apply IH in H as (k & Hk & Hr). exists (S k). split; [lia|].
    now constructor.
Qed.

(** A procedure that returns itself is never resolved. *)
Lemma eval_material_loop_cycle (p : vector3 D) (f : function) (fuel : nat) :
  call_material_func f p = material_function_data f ->
  eval_material_loop call_material_func fuel (material_function_data f) p
  = Fail OutOfFuel.
Proof.
  intros Hf. induction fuel as [|fuel IH]; simpl; [reflexivity|].
  now rewrite Hf.
Qed.

(** What [eval_material_func] returns for the end [m] of the chain. *)
Definition eval_result (default_material m : material_type) : result material_type :=
  match m, default_material with
  | material_type_self_data, material_function_data _ =>
      Fail (Aborted "infinite loop in material functions")
  | material_type_self_data, _ => Ok default_material
  | _, _ => Ok m
  end.

Lemma eval_material_func_loop (fuel : nat) (default_material m : material_type)
      (f : function) (p : vector3 D) :
  eval_material_loop call_material_func fuel (call_material_func f p) p = Ok m ->
  eval_material_func call_material_func fuel default_material f p
  = eval_result default_material m.
Proof.
  intros H. unfold eval_material_func. rewrite H. simpl.
  apply eval_material_loop_not_function in H.
  destruct m; simpl in *; try reflexivity; [|congruence].
  now destruct default_material.
Qed.

(** C6: when the chain of procedures that starts at [material_func] ends
    after [k] calls in a material [m] and the fuel is at least [k],
    [eval_material_func] returns [m], or the default material when [m] is
    MATERIAL_TYPE_SELF, and aborts with "infinite loop in material functions"
    when [m] is MATERIAL_TYPE_SELF and the default material is itself a
    procedure. *)
Theorem eval_material_func_resolves (fuel k : nat)
        (default_material m : material_type) (f : function) (p : vector3 D) :
  resolves call_material_func p (call_material_func f p) k m -> (k <= fuel)%nat ->
  eval_material_func call_material_func fuel default_material f p
  = eval_result default_material m.
Proof.
  intros H Hk. apply eval_material_func_loop.
  eapply eval_material_loop_resolves; eassumption.
Qed.

(** A material returned by [eval_material_func] is never a procedure:
    callers may pass it to [material_eps], [chi2] and the like, which know
    no procedures. *)
Theorem eval_material_func_not_function (fuel : nat)
        (default_material r : material_type) (f : function) (p : vector3 D) :
  eval_material_func call_material_func fuel default_material f p = Ok r ->
  which_subclass r <> MATERIAL_FUNCTION.
Proof.
  unfold eval_material_func. intros H.
  apply bind_Ok_inv in H as (m & _ & H).
  apply bind_Ok_inv in H as (c & Hc & H). injection H as <-.
  apply CK_Ok_inv in Hc. apply negb_true_iff in Hc.
  intros E. rewrite E in Hc. discriminate.
Qed.

(** A procedure that returns itself keeps the loop running for ever:
    whatever the fuel, the model runs out of it, and the check "infinite
    loop in material functions" after the loop is never reached. *)
Theorem eval_material_func_cycle (fuel : nat) (default_material : material_type)
        (f : function) (p : vector3 D) :
  call_material_func f p = material_function_data f ->
  eval_material_func call_material_func fuel default_material f p = Fail OutOfFuel.
Proof.
  intros Hf. unfold eval_material_func. rewrite Hf.
  now rewrite (eval_material_loop_cycle fuel Hf).
Qed.

(** [eval_material_func] aborts exactly when the chain ends in
    MATERIAL_TYPE_SELF within the fuel and the default material is a
    procedure. *)
Theorem eval_material_func_abort_iff (fuel : nat) (default_material : material_type)
        (f : function) (p : vector3 D) (msg : string) :
  eval_material_func call_material_func fuel default_material f p
  = Fail (Aborted msg) <->
  (exists k, (k <= fuel)%nat /\
             resolves call_material_func p (call_material_func f p) k
                      material_type_self_data) /\
  which_subclass default_material = MATERIAL_FUNCTION /\
  msg = "infinite loop in material functions"%string.
Proof.
  split.
  - destruct (eval_material_loop call_material_func fuel
                (call_material_func f p) p) as [m|e] eqn:E.
    + erewrite eval_material_func_loop by exact E.
      apply eval_material_loop_inv in E.
      destruct m; simpl; try discriminate.
      destruct default_material; simpl; try discriminate.
      intros [= <-]. auto.
    + unfold eval_material_func. rewrite E. simpl. intros [= ->].
      clear - E. exfalso. revert E. generalize (call_material_func f p).
      induction fuel as [|fuel IH]; intros [d| | |g]; simpl; try discriminate.
      apply IH.
  - intros ((k & Hk & Hr) & Hd & ->).
    erewrite eval_material_func_loop by (eapply eval_material_loop_resolves; eassumption).
    destruct default_material; simpl in *; congruence.
Qed.
End EvalFacts.
End Materials.

Arguments polarizability D : clear implicits.
Arguments dielectric D : clear implicits.
Arguments material_type D : clear implicits.

(** The globals the material code reads. *)
Record globals (D : Type) : Type := {
  g_dim : dim_globals;
  default_material : material_type D;
  ensure_periodicity : bool
}.

(** ** A concrete Scheme environment *)

Section MaterialExamples.
Local Open Scope float_scope.

Definition glass : material_type float :=
  dielectric_data {| epsilon := 2.25; chi2 := 0; chi3 := 0; polarizations := nil |}.

(** Procedure 0 defers to procedure 1, which answers "the default
    material"; procedure 2 returns itself; any other returns glass. *)
Definition example_call (f : function) (p : vector3 float) : material_type float :=
  if (f =? 0)%Z then material_function_data 1%Z
  else if (f =? 1)%Z then material_type_self_data
  else if (f =? 2)%Z then material_function_data 2%Z
  else glass.

Definition origin : vector3 float := V3 0 0 0.

Lemma eval_material_func_resolves_witness :
  eval_material_func example_call 1%nat glass 0%Z origin = Ok glass.
Proof.
  apply (@eval_material_func_resolves float example_call 1%nat 1%nat glass
           material_type_self_data 0%Z origin); [|apply le_n].
  apply resolves_call. apply resolves_done. discriminate.
Defined.

Lemma eval_material_func_not_function_witness :
  which_subclass glass <> MATERIAL_FUNCTION.
Proof.
  apply (@eval_material_func_not_function float example_call 1%nat glass glass
           0%Z origin).
  reflexivity.
Defined.

Lemma eval_material_func_cycle_witness :
  eval_material_func example_call 1000%nat glass 2%Z origin = Fail OutOfFuel.
Proof.
  apply (@eval_material_func_cycle float example_call 1000%nat glass 2%Z origin).
  reflexivity.
Defined.
End MaterialExamples.
