(* ===== verification/MaterialTree.v ===== *)
(** * MaterialTree: eval_material_func as an interaction tree

    [eval_material_func] (lines 168-195 of src/libctl/structure.cpp) calls
    the Scheme evaluator in a [while] loop that has no bound.  Material.v
    models the loop with fuel.  This file models the same function without
    fuel, as an interaction tree: a call of the evaluator is an event
    ([gh_call1] followed by [material_type_input]), the [while] is
    [ITree.iter], and the evaluator is the handler [scheme] of the events.

    The theorems relate the two models: the program returns a value exactly
    when the model with fuel returns it for some fuel
    ([eval_material_tree_returns]), and on a procedure that returns itself
    the program returns nothing at all ([eval_material_tree_cycle]): what
    Material.v states as "every fuel is exhausted" is non-termination. *)

From ITree Require Import ITree ITreeFacts Props.Leaf.
From Stdlib Require Import ZArith Bool String List Lia Morphisms.
From S2P Require Import Prelude Number Vector3 Material.
Import ListNotations.

Section Tree.
Context {D : Type} {N : Number D}.

(** A call of the Scheme evaluator: [gh_call1 (material_func, pscm)]
    followed by [material_type_input]. *)
Variant schemeE : Type -> Type :=
  | gh_call1 (material_func : function) (p : vector3 D) : schemeE (material_type D).

(** One test of the condition of the [while] and, when it holds, the body
    of the loop. *)
Definition while_body (p : vector3 D) (material : material_type D)
  : itree schemeE (material_type D + material_type D) :=
  match material with
  | material_function_data f =>
      ITree.bind (ITree.trigger (gh_call1 f p)) (fun m => Ret (inl m))
  | _ => Ret (inr material)
  end.

(** The statements after the loop. *)
Definition after_loop (default_material material : material_type D)
  : result (material_type D) :=
  let material :=
    if subclass_tag_eqb (which_subclass material) MATERIAL_TYPE_SELF
    then default_material else material in
  (CK (negb (subclass_tag_eqb (which_subclass material) MATERIAL_FUNCTION))
      "infinite loop in material functions" ;;;
   Ok material)%result.

Definition eval_material_tree (default_material : material_type D)
           (material_func : function) (p : vector3 D)
  : itree schemeE (result (material_type D)) :=
  ITree.bind (ITree.trigger (gh_call1 material_func p)) (fun material =>
  ITree.bind (ITree.iter (while_body p) material) (fun material =>
  Ret (after_loop default_material material))).

(** The evaluator as a function of the procedure and the point. *)
Definition scheme (call_material_func : function -> vector3 D -> material_type D)
  : schemeE ~> itree void1 :=
  fun _ e => match e with gh_call1 f p => Ret (call_material_func f p) end.

Variable call_material_func : function -> vector3 D -> material_type D.

Lemma eval_material_func_after (fuel : nat) (default_material : material_type D)
      (f : function) (p : vector3 D) :
  eval_material_func call_material_func fuel default_material f p =
  (material <- eval_material_loop call_material_func fuel (call_material_func f p) p ;;
   after_loop default_material material)%result.
Proof. reflexivity. Qed.

Lemma interp_while_body (p : vector3 D) (m : material_type D) :
  interp (scheme call_material_func) (while_body p m) ≈
  match m with
  | material_function_data f => Ret (inl (call_material_func f p))
  | _ => Ret (inr m)
  end.
Proof.
  destruct m; simpl; try (rewrite interp_ret; reflexivity).
  rewrite interp_bind, interp_trigger. simpl. rewrite bind_ret_l, interp_ret. reflexivity.
Qed.

(** The loop returns the end of a chain of procedures. *)
Lemma iter_resolves {p : vector3 D} {m r : material_type D} {k : nat} :
  resolves call_material_func p m k r ->
  interp (scheme call_material_func) (ITree.iter (while_body p) m) ≈ Ret r.
Proof.
  induction 1 as [m Hm | f k m H IH].
  - rewrite unfold_iter, interp_bind, interp_while_body.
    destruct m; try (now contradiction Hm); rewrite bind_ret_l, interp_ret; reflexivity.
  - rewrite unfold_iter, interp_bind, interp_while_body, bind_ret_l, interp_tau, tau_eutt.
    exact IH.
Qed.

(** What the loop returns is the end of a chain of procedures. *)
Lemma iter_Leaf (p : vector3 D) (m r : material_type D) :
  Leaf r (interp (scheme call_material_func) (ITree.iter (while_body p) m)) ->
  exists k, resolves call_material_func p m k r.
Proof.
  apply (Leaf_interp_iter_inv (scheme call_material_func) (while_body p) m
           (fun i => forall k r, resolves call_material_func p i k r ->
                                 exists k', resolves call_material_func p m k' r)
           (fun r => exists k', resolves call_material_func p m k' r)); [|eauto].
  intros i x Hi Hx. rewrite interp_while_body in Hx.
  destruct i; apply Leaf_Ret_inv in Hx as ->; simpl;
    try (apply (Hi 0%nat); constructor; discriminate).
  intros k r' Hr. apply (Hi (S k)). now constructor.
Qed.

(** The program after the handler: the first call, the loop and the
    statements after it. *)
Lemma interp_eval_material_tree (default_material : material_type D)
      (f : function) (p : vector3 D) :
  interp (scheme call_material_func) (eval_material_tree default_material f p) ≈
  ITree.bind (interp (scheme call_material_func)
                     (ITree.iter (while_body p) (call_material_func f p)))
             (fun m => Ret (after_loop default_material m)).
Proof.
  unfold eval_material_tree. rewrite interp_bind, interp_trigger. simpl.
  rewrite bind_ret_l, interp_bind. setoid_rewrite interp_ret. reflexivity.
Qed.

Lemma after_loop_fuel (default_material m : material_type D) :
  after_loop default_material m <> Fail OutOfFuel.
Proof. unfold after_loop, CK. now destruct (negb _). Qed.

Lemma eval_material_loop_fail (fuel : nat) (m : material_type D) (p : vector3 D)
      (e : failure) :
  eval_material_loop call_material_func fuel m p = Fail e -> e = OutOfFuel.
Proof.
  revert m. induction fuel as [|fuel IH]; intros m; destruct m; simpl;
    try discriminate; [congruence|apply IH].
Qed.

(** A value that the program returns is what the statements after the loop
    make of the end of the chain of procedures. *)
Lemma eval_material_tree_Leaf (default_material : material_type D) (f : function)
      (p : vector3 D) (r : result (material_type D)) :
  Leaf r (interp (scheme call_material_func) (eval_material_tree default_material f p)) ->
  exists k m, resolves call_material_func p (call_material_func f p) k m /\
              r = after_loop default_material m.
Proof.
  rewrite interp_eval_material_tree. intros H.
  apply Leaf_bind_inv in H as (m & Hm & Hr).
  apply iter_Leaf in Hm as [k Hk]. apply Leaf_Ret_inv in Hr. eauto.
Qed.

(** With enough fuel the model returns what the program returns. *)
Lemma eval_material_tree_fuel (fuel : nat) (default_material : material_type D)
      (f : function) (p : vector3 D) :
  eval_material_func call_material_func fuel default_material f p <> Fail OutOfFuel ->
  interp (scheme call_material_func) (eval_material_tree default_material f p) ≈
  Ret (eval_material_func call_material_func fuel default_material f p).
Proof.
  rewrite eval_material_func_after, interp_eval_material_tree.
  destruct (eval_material_loop _ fuel _ p) as [m|e] eqn:E; simpl; intros Hr.
  - apply eval_material_loop_inv in E as (k & _ & Hk).
    rewrite (iter_resolves Hk), bind_ret_l. reflexivity.
  - apply eval_material_loop_fail in E as ->. now contradiction Hr.
Qed.

(** C15: the model with fuel is adequate for the program: the program
    returns a value exactly when the model returns it for some fuel. *)
Theorem eval_material_tree_returns (default_material : material_type D)
        (f : function) (p : vector3 D) (r : result (material_type D)) :
  Leaf r (interp (scheme call_material_func) (eval_material_tree default_material f p)) <->
  exists fuel, eval_material_func call_material_func fuel default_material f p = r /\
               r <> Fail OutOfFuel.
Proof.
  split.
  - intros H. apply eval_material_tree_Leaf in H as (k & m & Hk & ->).
    exists k. split; [|apply after_loop_fuel].
    rewrite eval_material_func_after.
    now rewrite (eval_material_loop_resolves Hk (le_n k)).
  - intros (fuel & <- & Hr). rewrite (eval_material_tree_fuel _ _ _ _ Hr).
    apply Leaf_Ret.
Qed.

(** C32: a procedure that returns itself keeps the loop running for ever:
    the program returns no value, and the check "infinite loop in material
    functions" after the loop is never reached. *)
Theorem eval_material_tree_cycle (default_material : material_type D)
        (f : function) (p : vector3 D) (r : result (material_type D)) :
  call_material_func f p = material_function_data f ->
  ~ Leaf r (interp (scheme call_material_func) (eval_material_tree default_material f p)).
Proof.
  intros Hf H. apply eval_material_tree_Leaf in H as (k & m & Hk & _).
  rewrite Hf in Hk. apply eval_material_loop_resolves with (fuel := k) in Hk; [|lia].
  now rewrite (eval_material_loop_cycle call_material_func p k Hf) in Hk.
Qed.
End Tree.

(** ** The procedures of the examples *)

Section TreeExamples.
Local Open Scope float_scope.

Lemma eval_material_tree_cycle_witness :
  ~ Leaf (Ok glass) (interp (scheme example_call) (eval_material_tree glass 2%Z origin)).
Proof.
  apply (eval_material_tree_cycle example_call glass 2%Z origin (Ok glass)).
  reflexivity.
Defined.

(** Procedure 0 defers to procedure 1, which answers "the default
    material": the program makes two calls and returns the default
    material. *)
Example eval_material_tree_default :
  interp (scheme example_call) (eval_material_tree glass 0%Z origin) ≈ Ret (Ok glass).
Proof.
  rewrite (eval_material_tree_fuel example_call 1 glass 0%Z origin); [reflexivity|].
  discriminate.
Qed.
End TreeExamples.
