(* ===== verification/Geometry.v ===== *)
(** * Geometry: the interface to libctl's geometry library

    src/libctl/structure.cpp calls libctl's ctlgeom for everything that
    concerns shapes: [create_geom_box_tree0], [object_of_point_in_tree],
    [material_of_unshifted_point_in_tree_inobject],
    [normal_to_fixed_object], [unit_vector3] and [box_overlap_with_object].
    That library is not part of the source file, so it enters the model as
    the typeclass [Geom] of these operations, with the laws [GeomLaws] that
    their callers rely on.

    Two implementations of the interface are compared through
    [same_shapes] (they share the operations on objects) and [same_answers]
    (their trees give the same object, shift, precedence and material at a
    point).

    [LinearGeom] is a reference implementation: the tree is the list of the
    objects in the order of search, each with its shift, its precedence and
    its shifted bounding box, and a query is a linear scan.  It discharges
    the laws, and it is the index the witnesses compute with.  What a query
    must answer is [front_image]: the last object of the list of which a
    periodic image contains the point; the scan is proved to answer it
    ([linear_object_front]).

    [slab] (all points with [lo <= x <= hi]) and [block] (an axis-aligned
    box) are concrete shapes for it, and the module [Slabs] fixes a geometry
    of slabs over the doubles. *)

From Stdlib Require Import ZArith Bool String List Lia Floats.
From S2P Require Import Prelude Number Vector3 Material.
Import ListNotations.

Set Implicit Arguments.
Local Open Scope Z_scope.

Section Interface.
Context {D : Type} {N : Number D}.

(** The operations of ctlgeom the source uses, over a type of objects and a
    type of trees.  [object_of_point_in_tree] returns the object (or [None]
    for the null pointer), the output [shiftby] and the output
    [precedence].  [geom_fix_objects0] normalises the objects of a list,
    which the C code does in place; the objects of the reference
    implementations are given by the answers of their shape routines and
    are normal as they are.  [valid_tree] is the invariant of the trees the library
    builds; it is part of the specification, not of the code. *)
Class Geom (geometric_object geom_box_tree : Type) : Type := {
    material : geometric_object -> material_type D;
    geom_fix_objects0 : list geometric_object -> list geometric_object;
    valid_tree : geom_box_tree -> Prop;
    create_geom_box_tree0 :
      bool -> list geometric_object -> geom_box D -> geom_box_tree;
    tree_box : geom_box_tree -> geom_box D;
    object_of_point_in_tree :
      vector3 D -> geom_box_tree -> option geometric_object * vector3 D * Z;
    material_of_unshifted_point_in_tree_inobject :
      material_type D -> vector3 D -> geom_box_tree -> material_type D * bool;
    normal_to_fixed_object : vector3 D -> geometric_object -> vector3 D;
    unit_vector3 : vector3 D -> vector3 D;
    box_overlap_with_object : geom_box D -> geometric_object -> D -> Z -> D
  }.

(** The test of the debugging build of [eps]: [p] is inside the box. *)
Definition point_in_box (p : vector3 D) (b : geom_box D) : bool :=
  (negb (vx p <? vx (low b)) && negb (vy p <? vy (low b)) &&
  negb (vz p <? vz (low b)) && negb (vx (high b) <? vx p) &&
  negb (vy (high b) <? vy p) && negb (vz (high b) <? vz p))%num.

(** ctlgeom's operations on boxes: [vector3_plus], [geom_box_shift],
    [geom_box_contains_point] and [geom_boxes_intersect]. *)
Definition vector3_plus (a b : vector3 D) : vector3 D :=
  V3 (vx a + vx b)%num (vy a + vy b)%num (vz a + vz b)%num.

Definition geom_box_shift (b : geom_box D) (shiftby : vector3 D) : geom_box D :=
  {| low := vector3_plus (low b) shiftby; high := vector3_plus (high b) shiftby |}.

Definition geom_box_contains_point (b : geom_box D) (p : vector3 D) : bool :=
  ((vx (low b) <=? vx p) && (vx p <=? vx (high b)) &&
   (vy (low b) <=? vy p) && (vy p <=? vy (high b)) &&
   (vz (low b) <=? vz p) && (vz p <=? vz (high b)))%num.

Definition geom_boxes_intersect (b1 b2 : geom_box D) : bool :=
  ((vx (low b1) <=? vx (high b2)) && (vx (low b2) <=? vx (high b1)) &&
   (vy (low b1) <=? vy (high b2)) && (vy (low b2) <=? vy (high b1)) &&
   (vz (low b1) <=? vz (high b2)) && (vz (low b2) <=? vz (high b1)))%num.

(** What the callers rely on, of the library.  Normalising the objects
    leaves their materials alone.  Of a tree the library built: a point outside
    every object has precedence 0 and no shift; an object has a positive
    precedence; one precedence names one object; and the material query
    agrees with the object query.  The precedence of an object is its
    position in the list the tree was built from, and the box a tree is
    built for does not change the answer at a point inside it. *)
Class GeomLaws {O T : Type} (G : Geom O T) : Prop := {
    fix_material : forall g, map material (geom_fix_objects0 g) = map material g;
    valid_create : forall per g b, valid_tree (create_geom_box_tree0 per g b);
    precedence_none : forall p t s id,
      valid_tree t -> object_of_point_in_tree p t = (None, s, id) ->
      id = 0 /\ s = vector3_zero;
    precedence_some : forall p t o s id,
      valid_tree t -> object_of_point_in_tree p t = (Some o, s, id) -> 1 <= id;
    precedence_object : forall p q t o o' s s' id,
      valid_tree t ->
      object_of_point_in_tree p t = (Some o, s, id) ->
      object_of_point_in_tree q t = (Some o', s', id) -> o = o';
    material_of_point : forall dm p t,
      material_of_unshifted_point_in_tree_inobject dm p t =
      match object_of_point_in_tree p t with
      | (Some o, _, _) => (material o, true)
      | (None, _, _) => (dm, false)
      end;
    tree_box_create : forall per g b, tree_box (create_geom_box_tree0 per g b) = b;
    create_position : forall per g b p o s id,
      object_of_point_in_tree p (create_geom_box_tree0 per g b) = (Some o, s, id) ->
      nth_error g (Z.to_nat (id - 1)) = Some o;
    create_restrict : forall per g b b' p,
      point_in_box p b = true -> point_in_box p b' = true ->
      object_of_point_in_tree p (create_geom_box_tree0 per g b) =
      object_of_point_in_tree p (create_geom_box_tree0 per g b')
  }.

Section Laws.
Context {O T : Type} {G : Geom O T} {GL : GeomLaws G}.

Lemma precedence_nonneg (p : vector3 D) (t : T) (o : option O)
      (s : vector3 D) (id : Z) :
  valid_tree t -> object_of_point_in_tree p t = (o, s, id) -> 0 <= id.
Proof.
  destruct o as [o|]; intros Hv H.
  - apply precedence_some in H; [lia | assumption].
  - apply precedence_none in H; [lia | assumption].
Qed.

(** Two queries of one tree that return the same precedence return the
    same object. *)
Lemma precedence_same_object (p q : vector3 D) (t : T) (o o' : option O)
      (s s' : vector3 D) (id : Z) :
  valid_tree t ->
  object_of_point_in_tree p t = (o, s, id) ->
  object_of_point_in_tree q t = (o', s', id) -> o = o'.
Proof.
  intros Hv H H'. destruct o as [o|], o' as [o'|].
  - f_equal. eapply precedence_object; eassumption.
  - apply precedence_some in H; [|assumption].
    apply precedence_none in H'; [lia | assumption].
  - apply precedence_some in H'; [|assumption].
    apply precedence_none in H; [lia | assumption].
  - reflexivity.
Qed.
End Laws.
End Interface.

Arguments Geom D geometric_object geom_box_tree : clear implicits.

(** ** Two implementations of the interface

    Two indexes over the same objects can differ in their trees only: they
    have the same shapes, and at a point they give the same answers. *)
Section TwoIndexes.
Context {D : Type} {N : Number D} {O T1 T2 : Type}.
Variables (G1 : Geom D O T1) (G2 : Geom D O T2).

Record same_shapes : Prop := {
    same_material : material (Geom := G1) = material (Geom := G2);
    same_fix : geom_fix_objects0 (Geom := G1) = geom_fix_objects0 (Geom := G2);
    same_normal :
      normal_to_fixed_object (Geom := G1) = normal_to_fixed_object (Geom := G2);
    same_unit : unit_vector3 (Geom := G1) = unit_vector3 (Geom := G2);
    same_overlap :
      box_overlap_with_object (Geom := G1) = box_overlap_with_object (Geom := G2)
  }.

Definition same_answers (t1 : T1) (t2 : T2) (p : vector3 D) : Prop :=
  object_of_point_in_tree (Geom := G1) p t1 =
  object_of_point_in_tree (Geom := G2) p t2.

(** With the same answer to the object query, the material query has the
    same answer too. *)
Lemma same_answers_material {GL1 : GeomLaws G1} {GL2 : GeomLaws G2}
      (t1 : T1) (t2 : T2) (p : vector3 D) (dm : material_type D) :
  same_shapes -> same_answers t1 t2 p ->
  material_of_unshifted_point_in_tree_inobject (Geom := G1) dm p t1 =
  material_of_unshifted_point_in_tree_inobject (Geom := G2) dm p t2.
Proof.
  intros Hs Ha. rewrite !material_of_point, Ha, (same_material Hs). reflexivity.
Qed.
End TwoIndexes.


(** ** The reference implementation *)

Inductive axis : Type := AX | AY | AZ.

Definition axis_eqb (a b : axis) : bool :=
  match a, b with
  | AX, AX | AY, AY | AZ, AZ => true
  | _, _ => false
  end.

Section Linear.
Context {D : Type} {N : Number D}.
Local Open Scope num_scope.

(** An object: its material and its shape, the shape given by the answers
    of ctlgeom's shape routines; [bounding_box] is the box that
    [geom_get_bounding_box] computes. *)
Record geometric_object : Type := {
    o_material : material_type D;
    bounding_box : geom_box D;
    point_in_fixed_objectp : vector3 D -> bool;
    o_normal : vector3 D -> vector3 D;
    o_overlap : geom_box D -> D -> Z -> D
  }.

(** An entry of the tree: one periodic image of one object, with the
    bounding box of the image. *)
Record geom_box_object : Type := {
    gbo_box : geom_box D;
    gbo_o : geometric_object;
    gbo_shiftby : vector3 D;
    gbo_precedence : Z
  }.

Record geom_box_tree : Type := {
    gbt_b : geom_box D;
    gbt_objects : list geom_box_object
  }.

(** The first entry, in the order of the tree, whose shifted object
    contains the point. *)
Definition geom_tree_search (p : vector3 D) (t : geom_box_tree)
  : option geom_box_object :=
  find (fun e => point_in_fixed_objectp (gbo_o e) (vector3_minus p (gbo_shiftby e)))
       (gbt_objects t).

Definition linear_object_of_point_in_tree (p : vector3 D) (t : geom_box_tree)
  : option geometric_object * vector3 D * Z :=
  match geom_tree_search p t with
  | Some e => (Some (gbo_o e), gbo_shiftby e, gbo_precedence e)
  | None => (None, vector3_zero, 0%Z)
  end.

Definition linear_material_of_unshifted_point
           (default_material : material_type D) (p : vector3 D)
           (t : geom_box_tree) : material_type D * bool :=
  match geom_tree_search p t with
  | Some e => (o_material (gbo_o e), true)
  | None => (default_material, false)
  end.

(** The entries of the images of the objects [geometry], later objects
    first; the object at position [i] (from 1) has precedence [i].  The
    lattice shifts of the periodic images are [shifts]; without
    [ensure_periodicity] only the unshifted image is stored. *)
Fixpoint store_objects (shifts : list (vector3 D)) (geometry : list geometric_object)
         (precedence : Z) : list geom_box_object :=
  match geometry with
  | [] => []
  | o :: rest =>
      store_objects shifts rest (precedence + 1) ++
      map (fun s => {| gbo_box := geom_box_shift (bounding_box o) s; gbo_o := o;
                       gbo_shiftby := s; gbo_precedence := precedence |})
          shifts
  end.

(** The periodic images that are stored: the unshifted one, and with
    [ensure_periodicity] those of the lattice shifts. *)
Definition image_shifts (lattice_shifts : list (vector3 D)) (ensure_periodicity : bool)
  : list (vector3 D) :=
  if ensure_periodicity then vector3_zero :: lattice_shifts else [vector3_zero].

Definition linear_create_geom_box_tree0 (lattice_shifts : list (vector3 D))
           (ensure_periodicity : bool) (geometry : list geometric_object)
           (b0 : geom_box D) : geom_box_tree :=
  {| gbt_b := b0;
     gbt_objects :=
       store_objects (image_shifts lattice_shifts ensure_periodicity) geometry 1 |}.

(** The invariant of the entries of a tree: the precedences are positive
    and one precedence names one object. *)
Definition valid_objects (objects : list geom_box_object) : Prop :=
  Forall (fun e => 1 <= gbo_precedence e) objects /\
  forall e e', In e objects -> In e' objects ->
               gbo_precedence e = gbo_precedence e' -> gbo_o e = gbo_o e'.

Definition linear_valid_tree (t : geom_box_tree) : Prop :=
  valid_objects (gbt_objects t).

(** The coordinate of [p] along an axis, and the vector of length [k] along
    it. *)
Definition coord (a : axis) (p : vector3 D) : D :=
  match a with AX => vx p | AY => vy p | AZ => vz p end.

Definition along (a : axis) (k : D) : vector3 D :=
  match a with
  | AX => V3 k n_zero n_zero
  | AY => V3 n_zero k n_zero
  | AZ => V3 n_zero n_zero k
  end.

(** The box that extends from [lo] to [hi] along [a] and over the whole
    range of the numbers along the other axes. *)
Definition box_along (a : axis) (lo hi : D) : geom_box D :=
  let side l h o := if axis_eqb a o then (l, h) else (- n_inf, n_inf) in
  {| low := V3 (fst (side lo hi AX)) (fst (side lo hi AY)) (fst (side lo hi AZ));
     high := V3 (snd (side lo hi AX)) (snd (side lo hi AY)) (snd (side lo hi AZ)) |}.

(** A slab normal to the axis [a]: the points whose coordinate along [a] is
    in [lo, hi].  Its normal points along [a], away from the middle of the
    slab; its overlap with a box is the fraction of the extent of the box
    along [a] that it covers. *)
Definition slab_along (a : axis) (m : material_type D) (lo hi : D)
  : geometric_object :=
  {| o_material := m;
     bounding_box := box_along a lo hi;
     point_in_fixed_objectp := fun p => (lo <=? coord a p) && (coord a p <=? hi);
     o_normal := fun p =>
       along a (of_int (if coord a p + coord a p <=? lo + hi then -1 else 1));
     o_overlap := fun b _ _ =>
       let l := if lo <=? coord a (low b) then coord a (low b) else lo in
       let h := if hi <=? coord a (high b) then hi else coord a (high b) in
       if h <=? l then n_zero
       else (h - l) / (coord a (high b) - coord a (low b)) |}.

Definition slab : material_type D -> D -> D -> geometric_object := slab_along AX.

(** [|x|]. *)
Definition nabs (x : D) : D := if x <? n_zero then - x else x.

(** The distance from [p] to the nearer of the two faces of [b] normal to
    [a], and the direction of the outward normal of that face. *)
Definition nearest_face (a : axis) (b : geom_box D) (p : vector3 D) : D * D :=
  let dl := nabs (coord a p - coord a (low b)) in
  let dh := nabs (coord a (high b) - coord a p) in
  if dl <=? dh then (dl, of_int (-1)) else (dh, of_int 1).

(** The part of the extent of [pixel] along [a] that [b] covers; a pixel
    without extent along [a] is covered or not. *)
Definition covered (a : axis) (b pixel : geom_box D) : D :=
  let l := if coord a (low b) <=? coord a (low pixel)
           then coord a (low pixel) else coord a (low b) in
  let h := if coord a (high b) <=? coord a (high pixel)
           then coord a (high b) else coord a (high pixel) in
  if coord a (low pixel) == coord a (high pixel)
  then (if (coord a (low b) <=? coord a (low pixel)) &&
           (coord a (low pixel) <=? coord a (high b)) then n_one else n_zero)
  else if h <=? l then n_zero
  else (h - l) / (coord a (high pixel) - coord a (low pixel)).

(** A block with its edges along the axes: the points of the box [b].  Its
    normal is that of the nearest face, and its overlap with a pixel is the
    product of the parts it covers along the three axes. *)
Definition block (m : material_type D) (b : geom_box D) : geometric_object :=
  {| o_material := m;
     bounding_box := b;
     point_in_fixed_objectp := geom_box_contains_point b;
     o_normal := fun p =>
       let fx := nearest_face AX b p in
       let fy := nearest_face AY b p in
       let fz := nearest_face AZ b p in
       if (fst fx <=? fst fy) && (fst fx <=? fst fz) then along AX (snd fx)
       else if fst fy <=? fst fz then along AY (snd fy)
       else along AZ (snd fz);
     o_overlap := fun pixel _ _ =>
       covered AX b pixel * covered AY b pixel * covered AZ b pixel |}.

Definition LinearGeom (lattice_shifts : list (vector3 D))
             (unit : vector3 D -> vector3 D)
    : Geom D geometric_object geom_box_tree := {|
    material := o_material;
    geom_fix_objects0 := fun geometry => geometry;
    valid_tree := linear_valid_tree;
    create_geom_box_tree0 := linear_create_geom_box_tree0 lattice_shifts;
    tree_box := gbt_b;
    object_of_point_in_tree := linear_object_of_point_in_tree;
    material_of_unshifted_point_in_tree_inobject := linear_material_of_unshifted_point;
    normal_to_fixed_object := fun p o => o_normal o p;
    unit_vector3 := unit;
    box_overlap_with_object := fun b o tol maxeval => o_overlap o b tol maxeval
  |}.

(** *** The reference implementation satisfies the laws *)

(** An entry stored for the objects [geometry], numbered from [k], carries
    the object at the position its precedence names. *)
Lemma store_objects_In (shifts : list (vector3 D)) (geometry : list geometric_object)
      (k : Z) (e : geom_box_object) :
  In e (store_objects shifts geometry k) ->
  k <= gbo_precedence e /\
  nth_error geometry (Z.to_nat (gbo_precedence e - k)) = Some (gbo_o e).
Proof.
  revert k. induction geometry as [|o rest IH]; intros k; simpl; [tauto|].
  rewrite in_app_iff, in_map_iff. intros [H|(s & <- & _)].
  - apply IH in H as [Hk Hn]. split; [lia|].
    replace (Z.to_nat (gbo_precedence e - k))
      with (S (Z.to_nat (gbo_precedence e - (k + 1)))) by lia.
    exact Hn.
  - simpl. split; [lia|]. now rewrite Z.sub_diag.
Qed.

Lemma valid_store_objects (shifts : list (vector3 D))
      (geometry : list geometric_object) :
  valid_objects (store_objects shifts geometry 1).
Proof.
  split.
  - apply Forall_forall. intros e He. now apply store_objects_In in He.
  - intros e e' He He' Hp.
    apply store_objects_In in He as [_ He], He' as [_ He'].
    rewrite Hp in He. congruence.
Qed.

(** Entries taken from valid entries are valid. *)
Lemma valid_objects_incl (objects objects' : list geom_box_object) :
  incl objects' objects -> valid_objects objects -> valid_objects objects'.
Proof.
  intros Hi [Hp Ho]. split.
  - apply Forall_forall. intros e He. rewrite Forall_forall in Hp. auto.
  - intros e e' He He'. apply Ho; auto.
Qed.

Lemma linear_valid_create (lattice_shifts : list (vector3 D)) (per : bool)
      (geometry : list geometric_object) (b : geom_box D) :
  linear_valid_tree (linear_create_geom_box_tree0 lattice_shifts per geometry b).
Proof. apply valid_store_objects. Qed.

Lemma linear_object_Some (p : vector3 D) (t : geom_box_tree)
      (o : geometric_object) (s : vector3 D) (id : Z) :
  linear_object_of_point_in_tree p t = (Some o, s, id) ->
  exists e, In e (gbt_objects t) /\ gbo_o e = o /\ gbo_precedence e = id.
Proof.
  unfold linear_object_of_point_in_tree, geom_tree_search.
  destruct (find _ _) as [e|] eqn:E; intros [= <- <- <-].
  apply find_some in E as [E _]. eauto.
Qed.

#[export] Instance LinearGeomLaws (lattice_shifts : list (vector3 D))
       (unit : vector3 D -> vector3 D) :
  GeomLaws (LinearGeom lattice_shifts unit).
Proof.
  split; simpl.
  - reflexivity.
  - intros. apply linear_valid_create.
  - intros p t s id _. unfold linear_object_of_point_in_tree.
    destruct (geom_tree_search p t); intros [= <- <-]; auto.
  - intros p t o s id [Hv _] H. apply linear_object_Some in H as (e & He & _ & <-).
    rewrite Forall_forall in Hv. now apply Hv.
  - intros p q t o o' s s' id [_ Hv] H H'.
    apply linear_object_Some in H as (e & He & <- & Hp).
    apply linear_object_Some in H' as (e' & He' & <- & Hp').
    apply Hv; congruence.
  - intros dm p t.
    unfold linear_material_of_unshifted_point, linear_object_of_point_in_tree.
    now destruct (geom_tree_search p t).
  - reflexivity.
  - intros per g b p o s id H. apply linear_object_Some in H as (e & He & <- & <-).
    simpl in He. apply store_objects_In in He as [_ He]. exact He.
  - reflexivity.
Qed.

(** *** The object the reference implementation finds *)

(** The object contains the point, in its unshifted image. *)
Definition contains (o : geometric_object) (p : vector3 D) : bool :=
  point_in_fixed_objectp o (vector3_minus p vector3_zero).

(** The last object of the list that contains [p], with its position
    counted from [k]. *)
Fixpoint last_containing (geometry : list geometric_object) (k : Z)
         (p : vector3 D) : option (geometric_object * Z) :=
  match geometry with
  | [] => None
  | o :: rest =>
      match last_containing rest (k + 1)%Z p with
      | Some r => Some r
      | None => if contains o p then Some (o, k) else None
      end
  end.

Lemma find_store_objects (p : vector3 D) (geometry : list geometric_object) (k : Z) :
  find (fun e => point_in_fixed_objectp (gbo_o e) (vector3_minus p (gbo_shiftby e)))
       (store_objects [vector3_zero] geometry k) =
  match last_containing geometry k p with
  | Some (o, i) =>
      Some {| gbo_box := geom_box_shift (bounding_box o) vector3_zero; gbo_o := o;
              gbo_shiftby := vector3_zero; gbo_precedence := i |}
  | None => None
  end.
Proof.
  revert k. induction geometry as [|o rest IH]; intros k; simpl; [reflexivity|].
  rewrite find_app, IH. destruct (last_containing rest (k + 1)%Z p) as [[o' i]|];
    [reflexivity|].
  simpl. unfold contains. now destruct (point_in_fixed_objectp o _).
Qed.

(** Without periodicity the tree answers with the last object of the list
    that contains the point and with its position, from 1. *)
Lemma linear_object_last (lattice_shifts : list (vector3 D))
      (geometry : list geometric_object) (b : geom_box D) (p : vector3 D) :
  linear_object_of_point_in_tree
    p (linear_create_geom_box_tree0 lattice_shifts false geometry b) =
  match last_containing geometry 1 p with
  | Some (o, i) => (Some o, vector3_zero, i)
  | None => (None, vector3_zero, 0%Z)
  end.
Proof.
  unfold linear_object_of_point_in_tree, geom_tree_search. simpl.
  rewrite find_store_objects. now destruct (last_containing geometry 1 p) as [[o i]|].
Qed.

Lemma last_containing_none (geometry : list geometric_object) (k : Z) (p : vector3 D) :
  (forall j o, nth_error geometry j = Some o -> contains o p = false) ->
  last_containing geometry k p = None.
Proof.
  revert k. induction geometry as [|o rest IH]; intros k H; simpl; [reflexivity|].
  rewrite IH by (intros j o' Hj; exact (H (S j) o' Hj)).
  now rewrite (H 0%nat o eq_refl).
Qed.

(** The object at position [i] that contains [p], no later object
    containing it, is the object found. *)
Lemma last_containing_highest (geometry : list geometric_object) (k : Z)
      (p : vector3 D) (i : nat) (o : geometric_object) :
  nth_error geometry i = Some o -> contains o p = true ->
  (forall j o', (i < j)%nat -> nth_error geometry j = Some o' -> contains o' p = false) ->
  last_containing geometry k p = Some (o, (k + Z.of_nat i)%Z).
Proof.
  revert k i. induction geometry as [|o0 rest IH]; intros k i Hi Hc Hlast.
  - destruct i; discriminate.
  - destruct i as [|i]; simpl in *.
    + injection Hi as ->. rewrite last_containing_none, Hc, Z.add_0_r; [reflexivity|].
      intros j o' Hj. apply (Hlast (S j) o'); [lia | exact Hj].
    + rewrite (IH (k + 1)%Z i Hi Hc).
      * f_equal. f_equal. lia.
      * intros j o' Hij Hj. apply (Hlast (S j) o'); [lia | exact Hj].
Qed.

(** *** The specification of the index *)

(** The first of the [shifts] under which the image of [o] contains [p]. *)
Definition image_containing (shifts : list (vector3 D)) (o : geometric_object)
           (p : vector3 D) : option (vector3 D) :=
  find (fun s => point_in_fixed_objectp o (vector3_minus p s)) shifts.

(** The object in front at [p]: the last object of the list of which an
    image contains [p], with the shift of the image and the position of the
    object, counted from [k]. *)
Fixpoint front_image (shifts : list (vector3 D)) (geometry : list geometric_object)
         (k : Z) (p : vector3 D) : option (geometric_object * vector3 D * Z) :=
  match geometry with
  | [] => None
  | o :: rest =>
      match front_image shifts rest (k + 1)%Z p with
      | Some r => Some r
      | None => option_map (fun s => (o, s, k)) (image_containing shifts o p)
      end
  end.

Lemma find_store_images (shifts : list (vector3 D)) (p : vector3 D)
      (geometry : list geometric_object) (k : Z) :
  find (fun e => point_in_fixed_objectp (gbo_o e) (vector3_minus p (gbo_shiftby e)))
       (store_objects shifts geometry k) =
  option_map (fun '(o, s, i) => {| gbo_box := geom_box_shift (bounding_box o) s;
                                   gbo_o := o; gbo_shiftby := s; gbo_precedence := i |})
             (front_image shifts geometry k p).
Proof.
  revert k. induction geometry as [|o rest IH]; intros k; simpl; [reflexivity|].
  rewrite find_app, IH. destruct (front_image shifts rest (k + 1)%Z p) as [r|];
    [reflexivity|].
  simpl. rewrite find_map. simpl. unfold image_containing.
  now destruct (find _ shifts).
Qed.

(** The reference index answers with the object in front. *)
Lemma linear_object_front (lattice_shifts : list (vector3 D)) (per : bool)
      (geometry : list geometric_object) (b : geom_box D) (p : vector3 D) :
  linear_object_of_point_in_tree
    p (linear_create_geom_box_tree0 lattice_shifts per geometry b) =
  match front_image (image_shifts lattice_shifts per) geometry 1 p with
  | Some (o, s, i) => (Some o, s, i)
  | None => (None, vector3_zero, 0%Z)
  end.
Proof.
  unfold linear_object_of_point_in_tree, geom_tree_search. simpl.
  rewrite find_store_images.
  now destruct (front_image _ geometry 1 p) as [[[o s] i]|].
Qed.

(** No image of an object of the list contains [p]. *)
Definition outside (shifts : list (vector3 D)) (geometry : list geometric_object)
           (p : vector3 D) : Prop :=
  forall o s, In o geometry -> In s shifts ->
              point_in_fixed_objectp o (vector3_minus p s) = false.

Lemma front_image_None (shifts : list (vector3 D)) (geometry : list geometric_object)
      (k : Z) (p : vector3 D) :
  front_image shifts geometry k p = None <-> outside shifts geometry p.
Proof.
  revert k. induction geometry as [|o rest IH]; intros k; simpl.
  - split; [intros _ o s []|reflexivity].
  - destruct (front_image shifts rest (k + 1)%Z p) as [r|] eqn:E.
    + split; [discriminate|]. intros H.
      assert (E' : front_image shifts rest (k + 1)%Z p = None); [|congruence].
      apply IH. intros o' s Ho Hs. apply H; simpl; auto.
    + unfold image_containing. destruct (find _ shifts) as [s|] eqn:F; simpl.
      * split; [discriminate|]. intros H. apply find_some in F as [Hs F].
        rewrite (H o s) in F; simpl; auto. discriminate.
      * split; [|reflexivity]. intros _ o' s [<-|Ho] Hs.
        -- exact (find_none _ _ F s Hs).
        -- apply (proj1 (IH (k + 1)%Z) E o' s Ho Hs).
Qed.

(** The object at position [j] of which an image contains [p], no image of
    a later object containing it, is the object in front. *)
Lemma front_image_highest (shifts : list (vector3 D)) (geometry : list geometric_object)
      (k : Z) (p : vector3 D) (j : nat) (o : geometric_object) (s : vector3 D) :
  nth_error geometry j = Some o -> In s shifts ->
  point_in_fixed_objectp o (vector3_minus p s) = true ->
  outside shifts (skipn (S j) geometry) p ->
  exists s', In s' shifts /\ point_in_fixed_objectp o (vector3_minus p s') = true /\
             front_image shifts geometry k p = Some (o, s', (k + Z.of_nat j)%Z).
Proof.
  revert k j. induction geometry as [|o0 rest IH]; intros k j Hj Hs Hc Hout.
  - destruct j; discriminate.
  - destruct j as [|j]; simpl in *.
    + injection Hj as ->. apply (front_image_None shifts rest (k + 1)%Z) in Hout.
      rewrite Hout. unfold image_containing.
      destruct (find _ shifts) as [s'|] eqn:F.
      * apply find_some in F as [Hs' F]. exists s'. now rewrite Z.add_0_r.
      * now rewrite (find_none _ _ F s Hs) in Hc.
    + destruct (IH (k + 1)%Z j Hj Hs Hc Hout) as (s' & Hs' & Hc' & ->).
      exists s'. repeat split; auto. do 2 f_equal. lia.
Qed.
End Linear.

Arguments geometric_object D : clear implicits.
Arguments geom_box_object D : clear implicits.
Arguments geom_box_tree D : clear implicits.

(** ** A geometry of slabs over the doubles *)

Module Slabs.
Local Open Scope float_scope.

Definition diel (e : float) : material_type float :=
  dielectric_data {| epsilon := e; chi2 := 0; chi3 := 0; polarizations := [] |}.

#[export] Instance G : Geom float (geometric_object float) (geom_box_tree float) :=
  LinearGeom [] (fun v => v).

Definition box0 : geom_box float :=
  {| low := V3 (-10) (-10) 0; high := V3 10 10 0 |}.

Definition tree (geometry : list (geometric_object float)) : geom_box_tree float :=
  create_geom_box_tree0 false geometry box0.

(** The globals after [set_dimensions dims] with default material [dm]. *)
Definition globals_of (dims : Z) (dm : material_type float) : globals float :=
  {| g_dim := set_dimensions dims; default_material := dm;
     ensure_periodicity := false |}.

(** The two-dimensional pixel [x0, x1] x [y0, y1]. *)
Definition pixel2 (x0 x1 y0 y1 : float) : geometric_volume float :=
  {| gv_dim := D2; get_min_corner := vec2 x0 y0; get_max_corner := vec2 x1 y1;
     center := vec2 ((x0 + x1) * 0.5) ((y0 + y1) * 0.5) |}.

(** The one-dimensional pixel [z0, z1]. *)
Definition pixel1 (z0 z1 : float) : geometric_volume float :=
  {| gv_dim := D1; get_min_corner := vec1 z0; get_max_corner := vec1 z1;
     center := vec1 ((z0 + z1) * 0.5) |}.
End Slabs.
