(* ===== verification/BoxTree.v ===== *)
(** * BoxTree: the hierarchy of bounding boxes

    The index of ctlgeom that src/libctl/structure.cpp builds with
    [create_geom_box_tree0] and queries with [object_of_point_in_tree] is a
    tree of boxes: a node covers a box, a leaf holds the entries (the
    periodic images of the objects, each with its bounding box) that meet
    the box, and an inner node is divided by a plane into two boxes with a
    subtree each.  An entry that meets both boxes is in both subtrees.  That
    library is not part of the source file; this file models the index the
    way its interface and the specification describe it, as a second
    implementation of the class [Geom], beside the linear scan of
    Geometry.v.

    The place of the dividing plane is a parameter [partition]: the
    theorems hold for every choice.  [divide] stops at nodes of at most two
    entries and where the division would not leave fewer entries on both
    sides; its recursion is on a fuel that the number of entries bounds.

    The theorems show that a search in the tree is the linear scan of its
    entries ([tree_search_divide]), that the fuel is enough
    ([divide_fuel]), that the implementation satisfies the laws the callers
    rely on ([BoxGeomLaws]), and that for objects that lie in their
    bounding boxes it answers every query inside its box as the reference
    implementation does ([box_object_linear]).  The order of the numbers is
    used throughout, so these are theorems of exact numbers
    ([OrderLaws]); the last section shows a point at which they fail for
    doubles, where the bounding box of a shifted image and the shape at the
    point shifted back round differently. *)

From Stdlib Require Import ZArith Bool String List Lia Floats Morphisms RelationClasses.
From S2P Require Import Prelude Number Vector3 Material Geometry.
Import ListNotations.

Section BoxTree.
Context {D : Type} {N : Number D}.
Local Open Scope num_scope.

(** A tree: the null pointer, or a node with its box [b], the boxes [b1]
    and [b2] of its subtrees [t1] and [t2], and its entries. *)
Inductive box_tree : Type :=
  | Null
  | Node (b b1 b2 : geom_box D) (t1 t2 : box_tree)
         (objects : list (geom_box_object D)).

(** The entry contains the point: the point is in the box of the entry and
    in the shifted object. *)
Definition entry_contains (p : vector3 D) (e : geom_box_object D) : bool :=
  geom_box_contains_point (gbo_box e) p &&
  point_in_fixed_objectp (gbo_o e) (vector3_minus p (gbo_shiftby e)).

(** The first entry that contains [p]: of the node, else of the first
    subtree, else of the second. *)
Fixpoint tree_search (p : vector3 D) (t : box_tree) : option (geom_box_object D) :=
  match t with
  | Null => None
  | Node b b1 b2 t1 t2 objects =>
      if geom_box_contains_point b p then
        match find (entry_contains p) objects with
        | Some e => Some e
        | None =>
            match tree_search p t1 with
            | Some e => Some e
            | None => tree_search p t2
            end
        end
      else None
  end.

Definition set_coord (a : axis) (x : D) (v : vector3 D) : vector3 D :=
  match a with
  | AX => V3 x (vy v) (vz v)
  | AY => V3 (vx v) x (vz v)
  | AZ => V3 (vx v) (vy v) x
  end.

(** The two parts of [b] on the two sides of the plane at [x] normal to
    [a]. *)
Definition divide_geom_box (b : geom_box D) (a : axis) (x : D)
  : geom_box D * geom_box D :=
  ({| low := low b; high := set_coord a x (high b) |},
   {| low := set_coord a x (low b); high := high b |}).

(** The entries that meet the box [b]. *)
Definition objects_in_box (b : geom_box D) (objects : list (geom_box_object D))
  : list (geom_box_object D) :=
  filter (fun e => geom_boxes_intersect (gbo_box e) b) objects.

Definition leaf (b : geom_box D) (objects : list (geom_box_object D)) : box_tree :=
  Node b b b Null Null objects.

(** The choice of the dividing plane of a node, or [None] to leave the node
    undivided. *)
Variable partition : geom_box D -> list (geom_box_object D) -> option (axis * D).

(** The tree for the entries [objects] in the box [b]. *)
Fixpoint divide (fuel : nat) (b : geom_box D) (objects : list (geom_box_object D))
  : box_tree :=
  match fuel with
  | 0%nat => leaf b objects
  | S fuel' =>
      if (length objects <=? 2)%nat then leaf b objects
      else
        match partition b objects with
        | None => leaf b objects
        | Some (a, x) =>
            let '(b1, b2) := divide_geom_box b a x in
            let objects1 := objects_in_box b1 objects in
            let objects2 := objects_in_box b2 objects in
            if (length objects <=? Nat.max (length objects1) (length objects2))%nat
            then leaf b objects
            else Node b b1 b2 (divide fuel' b1 objects1) (divide fuel' b2 objects2) []
        end
  end.

Definition box_create_geom_box_tree0 (lattice_shifts : list (vector3 D))
           (ensure_periodicity : bool) (geometry : list (geometric_object D))
           (b0 : geom_box D) : box_tree :=
  let objects :=
    objects_in_box b0 (store_objects (image_shifts lattice_shifts ensure_periodicity)
                                     geometry 1) in
  divide (length objects) b0 objects.

Definition box_tree_box (t : box_tree) : geom_box D :=
  match t with
  | Null => {| low := vector3_zero; high := vector3_zero |}
  | Node b _ _ _ _ _ => b
  end.

Definition box_object_of_point_in_tree (p : vector3 D) (t : box_tree)
  : option (geometric_object D) * vector3 D * Z :=
  match tree_search p t with
  | Some e => (Some (gbo_o e), gbo_shiftby e, gbo_precedence e)
  | None => (None, vector3_zero, 0%Z)
  end.

Definition box_material_of_unshifted_point
           (default_material : material_type D) (p : vector3 D) (t : box_tree)
  : material_type D * bool :=
  match tree_search p t with
  | Some e => (o_material (gbo_o e), true)
  | None => (default_material, false)
  end.

(** All the entries of a tree. *)
Fixpoint tree_objects (t : box_tree) : list (geom_box_object D) :=
  match t with
  | Null => []
  | Node _ _ _ t1 t2 objects => objects ++ tree_objects t1 ++ tree_objects t2
  end.

Definition box_valid_tree (t : box_tree) : Prop := valid_objects (tree_objects t).

Definition BoxGeom (lattice_shifts : list (vector3 D))
           (unit : vector3 D -> vector3 D)
  : Geom D (geometric_object D) box_tree := {|
    material := @o_material D;
    geom_fix_objects0 := fun geometry => geometry;
    valid_tree := box_valid_tree;
    create_geom_box_tree0 := box_create_geom_box_tree0 lattice_shifts;
    tree_box := box_tree_box;
    object_of_point_in_tree := box_object_of_point_in_tree;
    material_of_unshifted_point_in_tree_inobject := box_material_of_unshifted_point;
    normal_to_fixed_object := fun p o => o_normal o p;
    unit_vector3 := unit;
    box_overlap_with_object := fun b o tol maxeval => o_overlap o b tol maxeval
  |}.

(** A choice of the dividing plane: through the middle of the box, normal
    to the axis along which the box is longest; a box without extent is not
    divided. *)
Definition extent (a : axis) (b : geom_box D) : D :=
  coord a (high b) - coord a (low b).

Definition longest_axis (b : geom_box D) : axis :=
  if (extent AY b <=? extent AX b) && (extent AZ b <=? extent AX b) then AX
  else if extent AZ b <=? extent AY b then AY else AZ.

Definition partition_middle (b : geom_box D) (objects : list (geom_box_object D))
  : option (axis * D) :=
  let a := longest_axis b in
  if coord a (low b) == coord a (high b) then None
  else Some (a, (coord a (low b) + coord a (high b)) * n_half).

(** The object lies in its bounding box. *)
Definition box_sound (o : geometric_object D) : Prop :=
  forall q, point_in_fixed_objectp o q = true ->
            geom_box_contains_point (bounding_box o) q = true.
End BoxTree.

Arguments box_tree D : clear implicits.

(** ** The tree against the linear scan *)

Section BoxTreeFacts.
Context {D : Type} {N : Number D} {OL : OrderLaws D}.
Local Open Scope num_scope.

Variable partition : geom_box D -> list (geom_box_object D) -> option (axis * D).

(** A block lies in its bounding box. *)
Lemma block_sound (m : material_type D) (b : geom_box D) : box_sound (block m b).
Proof. intros q H. exact H. Qed.

Lemma contains_point_iff (b : geom_box D) (p : vector3 D) :
  geom_box_contains_point b p = true <->
  (vx (low b) <=? vx p) = true /\ (vx p <=? vx (high b)) = true /\
  (vy (low b) <=? vy p) = true /\ (vy p <=? vy (high b)) = true /\
  (vz (low b) <=? vz p) = true /\ (vz p <=? vz (high b)) = true.
Proof. unfold geom_box_contains_point. rewrite !andb_true_iff. tauto. Qed.

(** Two boxes with a common point meet. *)
Lemma contains_intersect (b b' : geom_box D) (p : vector3 D) :
  geom_box_contains_point b p = true -> geom_box_contains_point b' p = true ->
  geom_boxes_intersect b b' = true.
Proof.
  rewrite !contains_point_iff. intros (?&?&?&?&?&?) (?&?&?&?&?&?).
  unfold geom_boxes_intersect. rewrite !andb_true_iff.
  repeat split; eapply nleb_trans; eassumption.
Qed.

(** The two parts of a divided box cover it. *)
Lemma divide_geom_box_cover (b : geom_box D) (a : axis) (x : D) (p : vector3 D) :
  geom_box_contains_point b p = true ->
  geom_box_contains_point (fst (divide_geom_box b a x)) p = true \/
  geom_box_contains_point (snd (divide_geom_box b a x)) p = true.
Proof.
  rewrite !contains_point_iff. intros (?&?&?&?&?&?).
  destruct a; simpl;
    [destruct (nleb_total (vx p) x) | destruct (nleb_total (vy p) x)
     | destruct (nleb_total (vz p) x)]; [left|right|left|right|left|right]; tauto.
Qed.

(** An entry that contains a point of a box is one of the entries that
    meet the box. *)
Lemma find_objects_in_box (b : geom_box D) (objects : list (geom_box_object D))
      (p : vector3 D) :
  geom_box_contains_point b p = true ->
  find (entry_contains p) (objects_in_box b objects) = find (entry_contains p) objects.
Proof.
  intros Hb. apply find_filter. intros e _ He.
  apply andb_true_iff in He as [He _]. now apply contains_intersect with p.
Qed.

Lemma tree_search_leaf (b : geom_box D) (objects : list (geom_box_object D))
      (p : vector3 D) :
  tree_search p (leaf b objects) =
  if geom_box_contains_point b p then find (entry_contains p) objects else None.
Proof. simpl. destruct (geom_box_contains_point b p); [|reflexivity]. now destruct (find _ _). Qed.

(** A search in the tree is the linear scan of the entries it was built
    from. *)
Lemma tree_search_divide (fuel : nat) (b : geom_box D)
      (objects : list (geom_box_object D)) (p : vector3 D) :
  tree_search p (divide partition fuel b objects) =
  if geom_box_contains_point b p then find (entry_contains p) objects else None.
Proof.
  revert b objects. induction fuel as [|fuel IH]; intros b objects;
    [apply tree_search_leaf|].
  cbn [divide]. destruct (_ <=? 2)%nat; [apply tree_search_leaf|].
  destruct (partition b objects) as [[a x]|]; [|apply tree_search_leaf].
  pose proof (divide_geom_box_cover b a x p) as Hc.
  destruct (divide_geom_box b a x) as [b1 b2]. simpl in Hc.
  destruct (_ <=? _)%nat; [apply tree_search_leaf|].
  cbn [tree_search find]. rewrite !IH.
  destruct (geom_box_contains_point b p); [|reflexivity].
  destruct (geom_box_contains_point b1 p) eqn:E1,
           (geom_box_contains_point b2 p) eqn:E2;
    rewrite ?find_objects_in_box by assumption.
  - now destruct (find _ _).
  - now destruct (find _ _).
  - reflexivity.
  - now destruct (Hc eq_refl).
Qed.

(** Fuel beyond the number of the entries does not change the tree. *)
Lemma divide_fuel_eq (n m : nat) (b : geom_box D) (objects : list (geom_box_object D)) :
  (length objects <= n)%nat -> (length objects <= m)%nat ->
  divide partition n b objects = divide partition m b objects.
Proof.
  revert m b objects. induction n as [|n IH]; intros [|m] b objects Hn Hm;
    cbn [divide]; try reflexivity;
    try (destruct (Nat.leb_spec (length objects) 2); [reflexivity | lia]).
  destruct (_ <=? 2)%nat; [reflexivity|].
  destruct (partition b objects) as [[a x]|]; [|reflexivity].
  destruct (divide_geom_box b a x) as [b1 b2].
  destruct (Nat.leb_spec (length objects)
              (Nat.max (length (objects_in_box b1 objects))
                       (length (objects_in_box b2 objects)))); [reflexivity|].
  f_equal; apply IH; lia.
Qed.

Lemma divide_fuel (fuel : nat) (b : geom_box D) (objects : list (geom_box_object D)) :
  (length objects <= fuel)%nat ->
  divide partition fuel b objects = divide partition (length objects) b objects.
Proof. intros H. now apply divide_fuel_eq. Qed.

Lemma tree_objects_divide (fuel : nat) (b : geom_box D)
      (objects : list (geom_box_object D)) :
  incl (tree_objects (divide partition fuel b objects)) objects.
Proof.
  revert b objects. induction fuel as [|fuel IH]; intros b objects; cbn [divide].
  - simpl. rewrite app_nil_r. apply incl_refl.
  - assert (Hl : incl (tree_objects (leaf b objects)) objects)
      by (simpl; rewrite app_nil_r; apply incl_refl).
    destruct (_ <=? 2)%nat; [exact Hl|].
    destruct (partition b objects) as [[a x]|]; [|exact Hl].
    destruct (divide_geom_box b a x) as [b1 b2].
    destruct (_ <=? _)%nat; [exact Hl|]. simpl.
    apply incl_app; eapply incl_tran; try apply IH; intros e He;
      apply filter_In in He; tauto.
Qed.

Lemma tree_search_In (p : vector3 D) (t : box_tree D) (e : geom_box_object D) :
  tree_search p t = Some e -> In e (tree_objects t).
Proof.
  induction t as [|b b1 b2 t1 IH1 t2 IH2 objects]; simpl; [discriminate|].
  destruct (geom_box_contains_point b p); [|discriminate].
  rewrite !in_app_iff. destruct (find _ objects) eqn:E.
  - intros [= <-]. left. now apply find_some in E.
  - destruct (tree_search p t1); [intros [= <-]; auto | auto].
Qed.

Lemma box_tree_box_divide (fuel : nat) (b : geom_box D)
      (objects : list (geom_box_object D)) :
  box_tree_box (divide partition fuel b objects) = b.
Proof.
  destruct fuel as [|fuel]; cbn [divide]; [reflexivity|].
  destruct (_ <=? 2)%nat; [reflexivity|].
  destruct (partition b objects) as [[a x]|]; [|reflexivity].
  destruct (divide_geom_box b a x) as [b1 b2]. now destruct (_ <=? _)%nat.
Qed.

(** The test of the debugging build of [eps] is the test of the library. *)
Lemma point_in_box_contains (p : vector3 D) (b : geom_box D) :
  point_in_box p b = geom_box_contains_point b p.
Proof.
  unfold point_in_box, geom_box_contains_point. rewrite !negb_nltb.
  repeat match goal with |- context [nleb ?a ?b] => destruct (nleb a b) end; reflexivity.
Qed.

Lemma box_object_Some (p : vector3 D) (t : box_tree D) (o : geometric_object D)
      (s : vector3 D) (id : Z) :
  box_object_of_point_in_tree p t = (Some o, s, id) ->
  exists e, In e (tree_objects t) /\ gbo_o e = o /\ gbo_precedence e = id.
Proof.
  unfold box_object_of_point_in_tree.
  destruct (tree_search p t) as [e|] eqn:E; intros [= <- <- <-].
  apply tree_search_In in E. eauto.
Qed.

(** A search in a tree made by [create_geom_box_tree0] is the linear scan
    of all the images of all the objects. *)
Lemma tree_search_create (lattice_shifts : list (vector3 D)) (per : bool)
      (geometry : list (geometric_object D)) (b : geom_box D) (p : vector3 D) :
  tree_search p (box_create_geom_box_tree0 partition lattice_shifts per geometry b) =
  if geom_box_contains_point b p
  then find (entry_contains p) (store_objects (image_shifts lattice_shifts per) geometry 1)
  else None.
Proof.
  unfold box_create_geom_box_tree0. rewrite tree_search_divide.
  destruct (geom_box_contains_point b p) eqn:E; [|reflexivity].
  now apply find_objects_in_box.
Qed.

Lemma tree_objects_create (lattice_shifts : list (vector3 D)) (per : bool)
      (geometry : list (geometric_object D)) (b : geom_box D) :
  incl (tree_objects (box_create_geom_box_tree0 partition lattice_shifts per geometry b))
       (store_objects (image_shifts lattice_shifts per) geometry 1).
Proof.
  eapply incl_tran; [apply tree_objects_divide|].
  intros e He. apply filter_In in He. apply He.
Qed.

Lemma box_valid_create (lattice_shifts : list (vector3 D)) (per : bool)
      (geometry : list (geometric_object D)) (b : geom_box D) :
  box_valid_tree (box_create_geom_box_tree0 partition lattice_shifts per geometry b).
Proof.
  eapply valid_objects_incl; [apply tree_objects_create | apply valid_store_objects].
Qed.

#[export] Instance BoxGeomLaws (lattice_shifts : list (vector3 D))
       (unit : vector3 D -> vector3 D) :
  GeomLaws (BoxGeom partition lattice_shifts unit).
Proof.
  split; simpl.
  - reflexivity.
  - intros. apply box_valid_create.
  - intros p t s id _. unfold box_object_of_point_in_tree.
    destruct (tree_search p t); intros [= <- <-]; auto.
  - intros p t o s id [Hv _] H. apply box_object_Some in H as (e & He & _ & <-).
    rewrite Forall_forall in Hv. now apply Hv.
  - intros p q t o o' s s' id [_ Hv] H H'.
    apply box_object_Some in H as (e & He & <- & Hp).
    apply box_object_Some in H' as (e' & He' & <- & Hp').
    apply Hv; congruence.
  - intros dm p t.
    unfold box_material_of_unshifted_point, box_object_of_point_in_tree.
    now destruct (tree_search p t).
  - intros. apply box_tree_box_divide.
  - intros per g b p o s id H. apply box_object_Some in H as (e & He & <- & <-).
    apply tree_objects_create, store_objects_In in He. apply He.
  - intros per g b b' p Hb Hb'. rewrite point_in_box_contains in Hb, Hb'.
    unfold box_object_of_point_in_tree. now rewrite !tree_search_create, Hb, Hb'.
Qed.

(** Moving a box by [s] moves its points by [s]. *)
Lemma contains_shift (b : geom_box D) (s p : vector3 D) :
  geom_box_contains_point (geom_box_shift b s) p =
  geom_box_contains_point b (vector3_minus p s).
Proof.
  unfold geom_box_contains_point. simpl. now rewrite !nleb_sub_r, !nleb_sub_l.
Qed.

Lemma store_objects_box (shifts : list (vector3 D))
      (geometry : list (geometric_object D)) (k : Z) (e : geom_box_object D) :
  In e (store_objects shifts geometry k) ->
  gbo_box e = geom_box_shift (bounding_box (gbo_o e)) (gbo_shiftby e) /\
  In (gbo_o e) geometry.
Proof.
  revert k. induction geometry as [|o rest IH]; intros k; simpl; [tauto|].
  rewrite in_app_iff, in_map_iff. intros [H|(s & <- & _)].
  - apply IH in H. tauto.
  - simpl. auto.
Qed.

(** For an object that lies in its bounding box, the test of the box is
    implied by the test of the shape. *)
Lemma entry_contains_sound (shifts : list (vector3 D))
      (geometry : list (geometric_object D)) (k : Z) (e : geom_box_object D)
      (p : vector3 D) :
  Forall box_sound geometry -> In e (store_objects shifts geometry k) ->
  entry_contains p e =
  point_in_fixed_objectp (gbo_o e) (vector3_minus p (gbo_shiftby e)).
Proof.
  intros Hs He. apply store_objects_box in He as [Hb Ho].
  rewrite Forall_forall in Hs. unfold entry_contains.
  rewrite Hb, contains_shift.
  destruct (point_in_fixed_objectp _ _) eqn:E; [|apply andb_false_r].
  now rewrite (Hs _ Ho _ E).
Qed.

(** The hierarchy answers a query at a point of its box as the linear scan
    does. *)
Theorem box_object_linear (lattice_shifts : list (vector3 D)) (per : bool)
      (geometry : list (geometric_object D)) (b : geom_box D) (p : vector3 D) :
  Forall box_sound geometry -> geom_box_contains_point b p = true ->
  box_object_of_point_in_tree
    p (box_create_geom_box_tree0 partition lattice_shifts per geometry b) =
  linear_object_of_point_in_tree
    p (linear_create_geom_box_tree0 lattice_shifts per geometry b).
Proof.
  intros Hs Hb. unfold box_object_of_point_in_tree, linear_object_of_point_in_tree,
    geom_tree_search.
  rewrite tree_search_create, Hb. simpl.
  erewrite find_ext_in; [reflexivity|].
  intros e He. now apply entry_contains_sound with (image_shifts lattice_shifts per) geometry 1%Z.
Qed.
End BoxTreeFacts.

(** ** Trees up to their answers *)

Section TreeEquiv.
Context {D : Type} {N : Number D}.

(** Two trees are equivalent when every search finds the same entry in
    both: they may be divided differently. *)
Definition tree_equiv (t1 t2 : box_tree D) : Prop :=
  forall p, tree_search p t1 = tree_search p t2.

#[export] Instance tree_equiv_equivalence : Equivalence tree_equiv.
Proof.
  split.
  - intros t p. reflexivity.
  - intros t1 t2 H p. symmetry. apply H.
  - intros t1 t2 t3 H12 H23 p. now rewrite H12.
Qed.

#[export] Instance tree_search_proper (p : vector3 D) :
  Proper (tree_equiv ==> eq) (tree_search p).
Proof. intros t1 t2 H. apply H. Qed.

#[export] Instance box_object_proper (p : vector3 D) :
  Proper (tree_equiv ==> eq) (box_object_of_point_in_tree p).
Proof. intros t1 t2 H. unfold box_object_of_point_in_tree. now rewrite H. Qed.

#[export] Instance box_material_proper (dm : material_type D) (p : vector3 D) :
  Proper (tree_equiv ==> eq) (box_material_of_unshifted_point dm p).
Proof. intros t1 t2 H. unfold box_material_of_unshifted_point. now rewrite H. Qed.

Context {OL : OrderLaws D}.

(** Neither the choice of the dividing planes nor the fuel changes the
    answers of the tree. *)
Lemma divide_equiv (partition partition' : geom_box D -> list (geom_box_object D) ->
                                            option (axis * D))
      (fuel fuel' : nat) (b : geom_box D) (objects : list (geom_box_object D)) :
  tree_equiv (divide partition fuel b objects) (divide partition' fuel' b objects).
Proof. intros p. now rewrite !tree_search_divide. Qed.

Lemma create_equiv (partition partition' : geom_box D -> list (geom_box_object D) ->
                                            option (axis * D))
      (lattice_shifts : list (vector3 D)) (per : bool)
      (geometry : list (geometric_object D)) (b : geom_box D) :
  tree_equiv (box_create_geom_box_tree0 partition lattice_shifts per geometry b)
             (box_create_geom_box_tree0 partition' lattice_shifts per geometry b).
Proof. apply divide_equiv. Qed.
End TreeEquiv.

(** ** Doubles

    The bounding box of a periodic image is the box of the object moved by
    the shift, and the shape is tested at the point moved back by the
    shift.  In exact arithmetic the two tests agree ([contains_shift]); in
    doubles the sum and the difference are rounded separately. *)

Section Rounding.
Import Slabs.
Local Open Scope float_scope.

(** A block between x = 0 and x = 1/2 in a lattice with the shift
    0x1.999999999999ap-3 (the double nearest to 0.2) along x. *)
Definition shifted_block : list (geometric_object float) :=
  [ block (diel 2) {| low := V3 0 (-1) (-1); high := V3 0.5 1 1 |} ].

Definition fifth : vector3 float := V3 0x1.999999999999ap-3 0 0.

Definition boundary_point : vector3 float := V3 0x1.6666666666667p-1 0 0.

Definition tree_of_block : box_tree float :=
  box_create_geom_box_tree0 (fun _ _ => None) [fifth] true shifted_block
                            {| low := V3 (-4) (-4) (-4); high := V3 4 4 4 |}.

(** The point, moved back by the shift, is on the face x = 1/2 of the block,
    but it is outside the bounding box of the shifted image, whose face is at
    the rounded sum of 1/2 and the shift: the scan finds the image and the
    hierarchy does not. *)
Example box_tree_rounding :
  fst (fst (linear_object_of_point_in_tree
              boundary_point
              (linear_create_geom_box_tree0 [fifth] true shifted_block
                 {| low := V3 (-4) (-4) (-4); high := V3 4 4 4 |}))) <> None /\
  fst (fst (box_object_of_point_in_tree boundary_point tree_of_block)) = None.
Proof. vm_compute. split; [discriminate | reflexivity]. Qed.
End Rounding.
