(* ===== verification/FrontObject.v ===== *)
(** * FrontObject: the front object of a pixel and the material behind it

    Models [get_front_object] (lines 255-354 of src/libctl/structure.cpp).
    The function probes the geometry at a stencil of 3, 5 or 9 points of the
    pixel, keeps at most two candidates (object, shift, precedence, material)
    and either returns the front one together with the material behind it, or
    [false] when what lies behind the front object is not one material.

    - [neighbors], [num_neighbors]: the two tables, as the source writes them.
    - [front_state]: the eight locals [o1, shiftby1, id1, mat1] and
      [o2, shiftby2, id2, mat2].
    - [front_update]: the body of the loop after the query (the [continue],
      the three branches and the [return false]); [front_step] is the query
      followed by it; [front_loop] is the [for].
    - [front_finish]: the code after the loop.
    - [get_front_object]: the whole function.  [Ok None] is [return false];
      [Fail (Undefined _)] is the out-of-bounds read of the tables when
      [dimensions] is not 1, 2 or 3.

    The locals [shiftby1], [shiftby2], [mat1], [mat2] start uninitialised, and
    the outputs hold whatever the caller's variables held: these values are
    the argument [uninit] of the model.

    The theory follows the loop as a fold over the results of its queries
    ([front_fold]): an invariant of the two slots gives what a successful
    call returns, and the states the loop goes through on a pixel in one
    image ([single_state]) and on a pixel that meets two images
    ([pair_state]) give the cases in which the call succeeds. *)

From Stdlib Require Import ZArith QArith Bool String List Lia Floats.
From S2P Require Import Prelude Number Vector3 Material Geometry.
Import ListNotations.

Local Open Scope Z_scope.

Definition num_neighbors : list Z := [3; 5; 9].

Definition neighbors : list (list (Z * Z * Z)) :=
  [ [ (0,0,0); (-1,0,0); (1,0,0);
      (0,0,0); (0,0,0); (0,0,0); (0,0,0); (0,0,0); (0,0,0) ];
    [ (0,0,0);
      (-1,-1,0); (1,1,0); (-1,1,0); (1,-1,0);
      (0,0,0); (0,0,0); (0,0,0); (0,0,0) ];
    [ (0,0,0);
      (1,1,1); (1,1,-1); (1,-1,1); (1,-1,-1);
      (-1,1,1); (-1,1,-1); (-1,-1,1); (-1,-1,-1) ] ].

Section FrontObject.
Context {D : Type} {N : Number D}.
Context {O T : Type} {G : Geom D O T}.
Local Open Scope num_scope.

(** The result of one query: [o], [shiftby] and [id]. *)
Definition sample : Type := (option O * vector3 D * Z)%type.

Record front_state : Type := {
    o1 : option O;
    shiftby1 : vector3 D;
    id1 : Z;
    mat1 : material_type D;
    o2 : option O;
    shiftby2 : vector3 D;
    id2 : Z;
    mat2 : material_type D
  }.

(** The outputs: [pcenter], [*o_front], [shiftby_front], [mat_front],
    [mat_behind]. *)
Record front_result : Type := {
    pcenter : vector3 D;
    o_front : option O;
    shiftby_front : vector3 D;
    mat_front : material_type D;
    mat_behind : material_type D
  }.

(** The contents of the variables the function reads or returns without
    having written them. *)
Record uninit : Type := {
    u_shiftby1 : vector3 D;
    u_mat1 : material_type D;
    u_shiftby2 : vector3 D;
    u_mat2 : material_type D;
    u_o_front : option O;
    u_shiftby_front : vector3 D;
    u_mat_front : material_type D;
    u_mat_behind : material_type D
  }.

Definition front_init (u : uninit) : front_state :=
  {| o1 := None; shiftby1 := u_shiftby1 u; id1 := -1; mat1 := u_mat1 u;
     o2 := None; shiftby2 := u_shiftby2 u; id2 := -1; mat2 := u_mat2 u |}.

(** The four assignments [o1 = o; shiftby1 = shiftby; id1 = id; mat1 = mat]. *)
Definition set_slot1 (st : front_state) (o : option O) (shiftby : vector3 D)
           (id : Z) (mat : material_type D) : front_state :=
  {| o1 := o; shiftby1 := shiftby; id1 := id; mat1 := mat;
     o2 := o2 st; shiftby2 := shiftby2 st; id2 := id2 st; mat2 := mat2 st |}.

(** The four assignments [o2 = o; shiftby2 = shiftby; id2 = id; mat2 = mat]. *)
Definition set_slot2 (st : front_state) (o : option O) (shiftby : vector3 D)
           (id : Z) (mat : material_type D) : front_state :=
  {| o1 := o1 st; shiftby1 := shiftby1 st; id1 := id1 st; mat1 := mat1 st;
     o2 := o; shiftby2 := shiftby; id2 := id; mat2 := mat |}.

(** [(o && o->material.which_subclass != MATERIAL_TYPE_SELF)
    ? o->material : default_material]. *)
Definition sample_material (default_material : material_type D) (o : option O)
  : material_type D :=
  match o with
  | Some ob =>
      if negb (subclass_tag_eqb (which_subclass (material ob)) MATERIAL_TYPE_SELF)
      then material ob else default_material
  | None => default_material
  end.

(** The body of the loop after the query.  [None]: [return false]. *)
Definition front_update (default_material : material_type D)
           (st : front_state) (s : sample) : option front_state :=
  let '(o, shiftby, id) := s in
  if ((id =? id1 st)%Z && vector3_equal shiftby (shiftby1 st)) ||
     ((id =? id2 st)%Z && vector3_equal shiftby (shiftby2 st))
  then Some st
  else
    let mat := sample_material default_material o in
    if (id1 st =? -1)%Z then Some (set_slot1 st o shiftby id mat)
    else if (id2 st =? -1)%Z ||
            (((id >=? id1 st)%Z && (id >=? id2 st)%Z) &&
             ((id1 st =? id2 st)%Z || material_type_equal (mat1 st) (mat2 st)))
    then Some (set_slot2 st o shiftby id mat)
    else if negb ((id1 st <? id2 st)%Z &&
                  ((id1 st =? id)%Z || material_type_equal (mat1 st) mat)) &&
            negb ((id2 st <? id1 st)%Z &&
                  ((id2 st =? id)%Z || material_type_equal (mat2 st) mat))
    then None
    else Some st.

(** The point [q] of the stencil at offset [n]. *)
Definition stencil_point (p : vector3 D) (d1 d2 d3 : D) (n : Z * Z * Z)
  : vector3 D :=
  let '(n0, n1, n2) := n in
  V3 (vx p + of_int n0 * d1) (vy p + of_int n1 * d2) (vz p + of_int n2 * d3).

Definition front_step (default_material : material_type D) (geometry_tree : T)
           (p : vector3 D) (d1 d2 d3 : D)
           (st : front_state) (n : Z * Z * Z) : option front_state :=
  front_update default_material st
               (object_of_point_in_tree (stencil_point p d1 d2 d3 n) geometry_tree).

Fixpoint front_loop (default_material : material_type D) (geometry_tree : T)
         (p : vector3 D) (d1 d2 d3 : D)
         (st : front_state) (ns : list (Z * Z * Z)) : option front_state :=
  match ns with
  | [] => Some st
  | n :: ns' =>
      match front_step default_material geometry_tree p d1 d2 d3 st n with
      | Some st' => front_loop default_material geometry_tree p d1 d2 d3 st' ns'
      | None => None
      end
  end.

(** [o && variable_material(o->material.which_subclass)]. *)
Definition object_variable (o : option O) : bool :=
  match o with
  | Some ob => variable_material (which_subclass (material ob))
  | None => false
  end.

(** [!o]. *)
Definition object_null (o : option O) : bool :=
  match o with Some _ => false | None => true end.

(** [o->material.which_subclass == MATERIAL_TYPE_SELF], read only when [o]
    is not null. *)
Definition object_self (o : option O) : bool :=
  match o with
  | Some ob => subclass_tag_eqb (which_subclass (material ob)) MATERIAL_TYPE_SELF
  | None => false
  end.

(** [if (id2 == -1)]: only one nearby object, the second slot takes the
    contents of the first. *)
Definition fill_second (st : front_state) : front_state :=
  if (id2 st =? -1)%Z
  then set_slot2 st (o1 st) (shiftby1 st) (id1 st) (mat1 st)
  else st.

(** The condition of the second [return false]: a material function is
    involved. *)
Definition variable_involved (default_material : material_type D)
           (st : front_state) : bool :=
  object_variable (o1 st) || object_variable (o2 st) ||
  (variable_material (which_subclass default_material) &&
   (object_null (o1 st) || object_null (o2 st) ||
    object_self (o1 st) || object_self (o2 st))).

(** The two final [if]s, which write the outputs. *)
Definition front_assign (u : uninit) (p : vector3 D) (st : front_state)
  : front_result :=
  let r := {| pcenter := p; o_front := u_o_front u;
              shiftby_front := u_shiftby_front u;
              mat_front := u_mat_front u; mat_behind := u_mat_behind u |} in
  let r :=
    if (id1 st >=? id2 st)%Z
    then {| pcenter := p; o_front := o1 st; shiftby_front := shiftby1 st;
            mat_front := mat1 st;
            mat_behind := if (id1 st =? id2 st)%Z then mat1 st else mat2 st |}
    else r in
  let r :=
    if (id2 st >? id1 st)%Z
    then {| pcenter := p; o_front := o2 st; shiftby_front := shiftby2 st;
            mat_front := mat2 st; mat_behind := mat1 st |}
    else r in
  r.

(** The code after the loop. *)
Definition front_finish (default_material : material_type D) (u : uninit)
           (p : vector3 D) (st : front_state) : option front_result :=
  let st := fill_second st in
  if variable_involved default_material st then None
  else Some (front_assign u p st).

(** The offsets the loop visits: the first [num_neighbors[dimensions - 1]]
    entries of [neighbors[dimensions - 1]]. *)
Definition stencil (dimensions : Z) : result (list (Z * Z * Z)) :=
  if (1 <=? dimensions)%Z && (dimensions <=? 3)%Z then
    let i := Z.to_nat (dimensions - 1) in
    Ok (firstn (Z.to_nat (nth i num_neighbors 0%Z)) (nth i neighbors []))
  else Fail (Undefined "neighbors[dimensions - 1] out of bounds").

Definition get_front_object (g : globals D) (u : uninit)
           (gv : geometric_volume D) (geometry_tree : T)
  : result (option front_result) :=
  let pixel := gv2box gv in
  let p := vec_to_vector3 (center gv) in
  let d1 := (vx (high pixel) - vx (low pixel)) * n_half in
  let d2 := (vy (high pixel) - vy (low pixel)) * n_half in
  let d3 := (vz (high pixel) - vz (low pixel)) * n_half in
  (ns <- stencil (dimensions (g_dim g)) ;;
   Ok (match front_loop (default_material g) geometry_tree p d1 d2 d3
                        (front_init u) ns with
       | Some st => front_finish (default_material g) u p st
       | None => None
       end))%result.

(** *** The loop as a fold over the results of the queries *)

Definition s_o (s : sample) : option O := fst (fst s).
Definition s_shiftby (s : sample) : vector3 D := snd (fst s).
Definition s_id (s : sample) : Z := snd s.

Fixpoint front_fold (dm : material_type D) (st : front_state) (ss : list sample)
  : option front_state :=
  match ss with
  | [] => Some st
  | s :: ss' =>
      match front_update dm st s with
      | Some st' => front_fold dm st' ss'
      | None => None
      end
  end.

(** The results of the queries of the loop over the offsets [ns]. *)
Definition stencil_samples (t : T) (p : vector3 D) (d1 d2 d3 : D)
           (ns : list (Z * Z * Z)) : list sample :=
  map (fun n => object_of_point_in_tree (stencil_point p d1 d2 d3 n) t) ns.

(** The results of the queries [get_front_object] makes for a pixel. *)
Definition front_samples (g : globals D) (gv : geometric_volume D) (t : T)
  : list sample :=
  let pixel := gv2box gv in
  let p := vec_to_vector3 (center gv) in
  let d1 := (vx (high pixel) - vx (low pixel)) * n_half in
  let d2 := (vy (high pixel) - vy (low pixel)) * n_half in
  let d3 := (vz (high pixel) - vz (low pixel)) * n_half in
  match stencil (dimensions (g_dim g)) with
  | Ok ns => stencil_samples t p d1 d2 d3 ns
  | Fail _ => []
  end.

(** The object the first sample of precedence [i] names. *)
Definition object_of_id (ss : list sample) (i : Z) : option O :=
  match find (fun s => (s_id s =? i)%Z) ss with
  | Some s => s_o s
  | None => None
  end.

(** One precedence names one object. *)
Definition consistent (ss : list sample) : Prop :=
  forall s s', In s ss -> In s' ss -> s_id s = s_id s' -> s_o s = s_o s'.

(** The material and the shift of a sample compare equal to themselves:
    none of their numbers is a NaN. *)
Definition defined_sample (dm : material_type D) (s : sample) : Prop :=
  material_type_equal (sample_material dm (s_o s)) (sample_material dm (s_o s)) = true /\
  vector3_equal (s_shiftby s) (s_shiftby s) = true.

(** [s] is the image of the front object that [r] names. *)
Definition is_front_image (r : front_result) (s : sample) : Prop :=
  s_o s = o_front r /\
  vector3_equal (s_shiftby s) (shiftby_front r) = true.

(** The material at [s] equals the material behind. *)
Definition is_behind (dm : material_type D) (r : front_result) (s : sample) : Prop :=
  material_type_equal (sample_material dm (s_o s)) (mat_behind r) = true.

(** ** Theory *)

Lemma front_loop_fold dm (t : T) p d1 d2 d3 st ns :
  front_loop dm t p d1 d2 d3 st ns =
  front_fold dm st (stencil_samples t p d1 d2 d3 ns).
Proof.
  revert st. induction ns as [|n ns IH]; intros st; simpl; [reflexivity|].
  unfold front_step. destruct (front_update _ _ _); auto.
Qed.


(** The four ways an iteration of the loop continues. *)
Inductive update_case (dm : material_type D) (st : front_state) (s : sample)
    : front_state -> Prop :=
  | case_skip :
      (s_id s = id1 st /\ vector3_equal (s_shiftby s) (shiftby1 st) = true) \/
      (s_id s = id2 st /\ vector3_equal (s_shiftby s) (shiftby2 st) = true) ->
      update_case dm st s st
  | case_first :
      id1 st = -1 ->
      update_case dm st s
        (set_slot1 st (s_o s) (s_shiftby s) (s_id s) (sample_material dm (s_o s)))
  | case_second :
      id1 st <> -1 ->
      (id2 st = -1 \/
       (id1 st <= s_id s /\ id2 st <= s_id s /\
        (id1 st = id2 st \/ material_type_equal (mat1 st) (mat2 st) = true))) ->
      update_case dm st s
        (set_slot2 st (s_o s) (s_shiftby s) (s_id s) (sample_material dm (s_o s)))
  | case_behind :
      id1 st <> -1 -> id2 st <> -1 ->
      (id1 st < id2 st /\
       (id1 st = s_id s \/
        material_type_equal (mat1 st) (sample_material dm (s_o s)) = true)) \/
      (id2 st < id1 st /\
       (id2 st = s_id s \/
        material_type_equal (mat2 st) (sample_material dm (s_o s)) = true)) ->
      update_case dm st s st.

Lemma front_update_case dm st s st' :
  front_update dm st s = Some st' -> update_case dm st s st'.
Proof.
  destruct s as [[o sh] id]. unfold front_update.
  repeat case_goal; intros [= <-]; bool_to_prop.
  - apply case_skip. simpl. intuition auto.
  - now apply case_first.
  - apply case_second; simpl; [assumption|]. intuition lia.
  - apply case_behind; simpl; try assumption; intuition auto.
Qed.

Section Behind.
Context {L : NumberLaws D}.
Variable dm : material_type D.
(** The object each precedence names. *)
Variable Oof : Z -> option O.

Definition M (i : Z) : material_type D := sample_material dm (Oof i).

(** A sample the theorems apply to: its precedence is not the marker -1
    of an empty slot and names its object, and its material and shift
    compare equal to themselves. *)
Definition good (s : sample) : Prop :=
  0 <= s_id s /\ s_o s = Oof (s_id s) /\
  material_type_equal (M (s_id s)) (M (s_id s)) = true /\
  vector3_equal (s_shiftby s) (s_shiftby s) = true.

Definition slot1_ok (st : front_state) : Prop :=
  o1 st = Oof (id1 st) /\ mat1 st = M (id1 st).
Definition slot2_ok (st : front_state) : Prop :=
  o2 st = Oof (id2 st) /\ mat2 st = M (id2 st).

Definition image1 (st : front_state) (s : sample) : Prop :=
  s_id s = id1 st /\ vector3_equal (s_shiftby s) (shiftby1 st) = true.
Definition image2 (st : front_state) (s : sample) : Prop :=
  s_id s = id2 st /\ vector3_equal (s_shiftby s) (shiftby2 st) = true.
Definition like (m : material_type D) (s : sample) : Prop :=
  material_type_equal (M (s_id s)) m = true.

Definition P2 (st : front_state) (s : sample) : Prop :=
  (id2 st < id1 st -> image1 st s \/ like (mat2 st) s) /\
  (id1 st < id2 st -> image2 st s \/ like (mat1 st) s) /\
  (id1 st = id2 st -> like (mat1 st) s).

Definition Inv (st : front_state) (seen : list sample) : Prop :=
  (id1 st = -1 /\ id2 st = -1 /\ seen = []) \/
  (0 <= id1 st /\ id2 st = -1 /\ slot1_ok st /\ Forall (image1 st) seen) \/
  (0 <= id1 st /\ 0 <= id2 st /\ slot1_ok st /\ slot2_ok st /\
   Forall (P2 st) seen).

Lemma good_material s : good s -> sample_material dm (s_o s) = M (s_id s).
Proof. intros (_ & -> & _). reflexivity. Qed.

Lemma like_refl s : good s -> like (M (s_id s)) s.
Proof. intros (_ & _ & H & _). exact H. Qed.

Lemma like_id s i : good s -> s_id s = i -> like (M i) s.
Proof. intros Hg <-. now apply like_refl. Qed.

Lemma like_trans m m' s : like m s -> material_type_equal m m' = true -> like m' s.
Proof. unfold like. intros. eapply material_type_equal_trans; eauto. Qed.

Lemma like_trans' m m' s : like m s -> material_type_equal m' m = true -> like m' s.
Proof. intros H H'. eapply like_trans; eauto. now rewrite material_type_equal_sym. Qed.


Lemma good_like1 st s :
  good s -> slot1_ok st -> s_id s = id1 st -> like (mat1 st) s.
Proof. intros Hg [_ ->] <-. now apply like_refl. Qed.

Lemma good_like2 st s :
  good s -> slot2_ok st -> s_id s = id2 st -> like (mat2 st) s.
Proof. intros Hg [_ ->] <-. now apply like_refl. Qed.

Lemma Inv_skip st seen s :
  Inv st seen -> good s -> image1 st s \/ image2 st s -> Inv st (s :: seen).
Proof.
  intros [(E1 & E2 & ->) | [(G1 & E2 & M1 & HF) | (G1 & G2 & M1 & M2 & HF)]] Hg Hi;
    pose proof Hg as (Hid & _).
  - destruct Hi as [[Hi _]|[Hi _]]; lia.
  - right; left. split_and; auto. constructor; auto.
    destruct Hi as [Hi|[Hi _]]; [assumption | lia].
  - right; right. split_and; auto. constructor; auto.
    pose proof (good_like1 st s Hg M1). pose proof (good_like2 st s Hg M2).
    unfold P2. destruct Hi as [Hi|Hi]; pose proof Hi as [Hi' _];
      repeat split; intros; auto; first [apply H; lia | apply H0; lia].
Qed.

Lemma Inv_first st seen s :
  Inv st seen -> good s -> id1 st = -1 ->
  Inv (set_slot1 st (s_o s) (s_shiftby s) (s_id s) (sample_material dm (s_o s)))
      (s :: seen).
Proof.
  intros [(E1 & E2 & ->) | [(G1 & _) | (G1 & _)]] Hg E; try lia.
  pose proof (good_material _ Hg). destruct Hg as (Hid & Hm & Hr & Hv).
  right; left. unfold slot1_ok. simpl. repeat split; auto.
  constructor; [|constructor]. split; auto.
Qed.

Lemma P2_second_new st s :
  good s -> slot1_ok st ->
  P2 (set_slot2 st (s_o s) (s_shiftby s) (s_id s) (sample_material dm (s_o s))) s.
Proof.
  intros Hg M1. pose proof (good_material _ Hg) as Hm.
  pose proof Hg as (Hid & Ho & Hr & Hv).
  unfold P2, image1, image2; simpl. repeat split; intros; auto.
  - right. rewrite Hm. now apply like_refl.
  - now apply good_like1.
Qed.

Lemma Inv_second st seen s :
  Inv st seen -> Forall good seen -> good s -> id1 st <> -1 ->
  (id2 st = -1 \/
   (id1 st <= s_id s /\ id2 st <= s_id s /\
    (id1 st = id2 st \/ material_type_equal (mat1 st) (mat2 st) = true))) ->
  Inv (set_slot2 st (s_o s) (s_shiftby s) (s_id s) (sample_material dm (s_o s)))
      (s :: seen).
Proof.
  intros [(E1 & E2 & ->) | [(G1 & E2 & M1 & HF) | (G1 & G2 & M1 & M2 & HF)]]
         Hgs Hg Hn1 Hc; try lia; pose proof (good_material _ Hg) as Hm;
    pose proof Hg as (Hid & Ho & Hr & Hv);
    right; right; unfold slot1_ok, slot2_ok in *; simpl; repeat split;
    try tauto; auto;
    (constructor; [now apply P2_second_new|]).
  - rewrite Forall_forall in *. intros a Ha. destruct (HF a Ha) as [Hai Hav].
    specialize (Hgs a Ha).
    assert (like (mat1 st) a) by (now apply good_like1).
    unfold P2, image1; simpl. repeat split; intros; auto.
  - destruct Hc as [Hc|(Hc1 & Hc2 & Hc3)]; [lia|].
    rewrite Forall_forall in *. intros a Ha. specialize (HF a Ha).
    specialize (Hgs a Ha).
    assert (like (mat1 st) a).
    { destruct HF as (F1 & F2 & F3).
      destruct (Z.lt_trichotomy (id1 st) (id2 st)) as [Hlt|[Heq|Hgt]].
      - destruct (F2 Hlt) as [[Hi _]|Hl]; auto.
        destruct Hc3 as [Hc3|Hc3]; [lia|].
        eapply like_trans'; [|exact Hc3]. now apply good_like2.
      - auto.
      - destruct (F1 Hgt) as [[Hi _]|Hl].
        + now apply good_like1.
        + destruct Hc3 as [Hc3|Hc3]; [lia|]. eapply like_trans'; eauto. }
    unfold P2, image1; simpl. repeat split; intros; auto. lia.
Qed.

Lemma Inv_behind st seen s :
  Inv st seen -> good s -> id1 st <> -1 -> id2 st <> -1 ->
  (id1 st < id2 st /\
   (id1 st = s_id s \/
    material_type_equal (mat1 st) (sample_material dm (s_o s)) = true)) \/
  (id2 st < id1 st /\
   (id2 st = s_id s \/
    material_type_equal (mat2 st) (sample_material dm (s_o s)) = true)) ->
  Inv st (s :: seen).
Proof.
  intros [(E1 & E2 & ->) | [(G1 & E2 & M1 & HF) | (G1 & G2 & M1 & M2 & HF)]]
         Hg Hn1 Hn2 Hc; try lia; pose proof (good_material _ Hg) as Hm.
  right; right. split_and; auto. constructor; auto.
  rewrite Hm in Hc. unfold P2. repeat split; intros Hlt.
  - right. destruct Hc as [[Hc _]|[_ [Hc|Hc]]]; [lia| |].
    + now apply good_like2.
    + unfold like. now rewrite material_type_equal_sym.
  - right. destruct Hc as [[_ [Hc|Hc]]|[Hc _]]; [| |lia].
    + now apply good_like1.
    + unfold like. now rewrite material_type_equal_sym.
  - lia.
Qed.

Lemma Inv_step st seen s st' :
  Inv st seen -> Forall good seen -> good s ->
  front_update dm st s = Some st' -> Inv st' (s :: seen).
Proof.
  intros HI Hgs Hg Hu. apply front_update_case in Hu.
  destruct Hu; eauto using Inv_skip, Inv_first, Inv_second, Inv_behind.
Qed.

Lemma Inv_fold ss st seen st' :
  Inv st seen -> Forall good seen -> Forall good ss ->
  front_fold dm st ss = Some st' -> Inv st' (rev ss ++ seen).
Proof.
  revert st seen. induction ss as [|s ss IH]; intros st seen HI Hgs Hg; simpl.
  - now intros [= <-].
  - inv Hg. destruct (front_update dm st s) as [st1|] eqn:Hu; [|discriminate].
    intros Hf. rewrite <- app_assoc. simpl.
    eapply IH; eauto using Inv_step.
Qed.

Lemma image1_front st s r :
  good s -> slot1_ok st -> image1 st s ->
  o_front r = o1 st -> shiftby_front r = shiftby1 st -> is_front_image r s.
Proof.
  unfold is_front_image. intros (_ & Ho & _) [Ho1 _] [Hi Hv] -> ->.
  split; [congruence | assumption].
Qed.

Lemma image2_front st s r :
  good s -> slot2_ok st -> image2 st s ->
  o_front r = o2 st -> shiftby_front r = shiftby2 st -> is_front_image r s.
Proof.
  unfold is_front_image. intros (_ & Ho & _) [Ho2 _] [Hi Hv] -> ->.
  split; [congruence | assumption].
Qed.

Lemma like_behind m s r : good s -> like m s -> mat_behind r = m -> is_behind dm r s.
Proof.
  unfold is_behind. intros Hg Hl ->. now rewrite (good_material _ Hg).
Qed.

(** The outputs are those of the slot with the larger precedence. *)
Lemma front_assign_cases u p st :
  (id2 st <= id1 st /\
   front_assign u p st =
   {| pcenter := p; o_front := o1 st; shiftby_front := shiftby1 st;
      mat_front := mat1 st;
      mat_behind := if (id1 st =? id2 st)%Z then mat1 st else mat2 st |}) \/
  (id1 st < id2 st /\
   front_assign u p st =
   {| pcenter := p; o_front := o2 st; shiftby_front := shiftby2 st;
      mat_front := mat2 st; mat_behind := mat1 st |}).
Proof.
  unfold front_assign.
  destruct (Z.geb_spec (id1 st) (id2 st)) as [Hge|Hlt].
  - left. split; [lia|]. replace (id2 st >? id1 st)%Z with false; [reflexivity|].
    symmetry. rewrite Z.gtb_ltb. apply Z.ltb_ge. lia.
  - right. split; [lia|]. replace (id2 st >? id1 st)%Z with true; [reflexivity|].
    symmetry. rewrite Z.gtb_ltb. apply Z.ltb_lt. lia.
Qed.

Lemma front_finish_Some u p st r :
  front_finish dm u p st = Some r <->
  variable_involved dm (fill_second st) = false /\
  r = front_assign u p (fill_second st).
Proof.
  unfold front_finish. destruct (variable_involved _ _); split.
  - discriminate.
  - intros [? _]. discriminate.
  - intros [= <-]. auto.
  - intros [_ ->]. reflexivity.
Qed.

(** The result for a state with the first slot only. *)
Lemma front_assign_single u p st :
  id2 st = -1 ->
  front_assign u p (fill_second st) =
  {| pcenter := p; o_front := o1 st; shiftby_front := shiftby1 st;
     mat_front := mat1 st; mat_behind := mat1 st |}.
Proof.
  intros He. unfold fill_second. rewrite He. simpl.
  destruct (front_assign_cases u p
              (set_slot2 st (o1 st) (shiftby1 st) (id1 st) (mat1 st)))
    as [[_ ->]|[Hlt _]]; simpl in *; [|lia].
  now rewrite Z.eqb_refl.
Qed.

Lemma fill_second_filled st : id2 st <> -1 -> fill_second st = st.
Proof. intros H. unfold fill_second. apply Z.eqb_neq in H. now rewrite H. Qed.

Lemma Inv_finish u p st seen r :
  Inv st seen -> seen <> [] -> Forall good seen ->
  front_finish dm u p st = Some r ->
  Forall (fun s => is_front_image r s \/ is_behind dm r s) seen.
Proof.
  intros [(E1 & E2 & ->) | [(G1 & E2 & M1 & HF) | (G1 & G2 & M1 & M2 & HF)]]
         Hne Hgs Hr; [congruence | |]; rewrite Forall_forall in *;
    intros s Hs; specialize (HF s Hs); specialize (Hgs s Hs);
    apply front_finish_Some in Hr as [_ ->].
  - rewrite front_assign_single by assumption.
    left. eapply image1_front; eauto.
  - rewrite fill_second_filled by lia. destruct HF as (F1 & F2 & F3).
    destruct (front_assign_cases u p st) as [[Hle ->]|[Hlt ->]].
    + destruct (Z.eqb_spec (id1 st) (id2 st)) as [He|Hn].
      * right. eapply like_behind; eauto.
      * destruct F1 as [F1|F1]; [lia| |].
        -- left. eapply image1_front; eauto.
        -- right. eapply like_behind; eauto.
    + destruct (F2 Hlt) as [F|F].
      * left. eapply image2_front; eauto.
      * right. eapply like_behind; eauto.
Qed.

Lemma Inv_init u : Inv (front_init u) [].
Proof. left. auto. Qed.

Lemma front_fold_behind u p ss st r :
  ss <> [] -> Forall good ss ->
  front_fold dm (front_init u) ss = Some st ->
  front_finish dm u p st = Some r ->
  Forall (fun s => is_front_image r s \/ is_behind dm r s) ss.
Proof.
  intros Hne Hg Hf Hr.
  assert (HI : Inv st (rev ss ++ [])) by (eapply Inv_fold; eauto using Inv_init).
  rewrite app_nil_r in HI.
  apply Forall_rev in Hg.
  assert (Hne' : rev ss <> []).
  { intros E. apply Hne. rewrite <- (rev_involutive ss), E. reflexivity. }
  pose proof (Inv_finish u p _ _ _ HI Hne' Hg Hr) as H.
  apply Forall_rev in H. now rewrite rev_involutive in H.
Qed.
End Behind.

(** ** Samples of one geometry *)

Lemma object_of_id_In (ss : list sample) (s : sample) :
  consistent ss -> In s ss -> object_of_id ss (s_id s) = s_o s.
Proof.
  intros Hc Hs. unfold object_of_id.
  destruct (find _ ss) as [s'|] eqn:E.
  - apply find_some in E as [H1 H2]. apply Z.eqb_eq in H2. now apply Hc.
  - apply find_none with (x := s) in E; [|assumption].
    now rewrite Z.eqb_refl in E.
Qed.

Lemma good_of_consistent (dm : material_type D) (ss : list sample) :
  consistent ss ->
  Forall (fun s => 0 <= s_id s) ss -> Forall (defined_sample dm) ss ->
  Forall (good dm (object_of_id ss)) ss.
Proof.
  intros Hc Hid Hd. rewrite Forall_forall in *. intros s Hs.
  destruct (Hd s Hs) as [Hm Hv]. unfold good, M.
  rewrite object_of_id_In by assumption. auto.
Qed.

(** ** The slots hold samples *)

Section Slots.
Variable dm : material_type D.

(** The first slot holds the sample [s]. *)
Definition slot1_from (st : front_state) (s : sample) : Prop :=
  o1 st = s_o s /\ shiftby1 st = s_shiftby s /\ id1 st = s_id s /\
  mat1 st = sample_material dm (s_o s).

Definition slot2_from (st : front_state) (s : sample) : Prop :=
  o2 st = s_o s /\ shiftby2 st = s_shiftby s /\ id2 st = s_id s /\
  mat2 st = sample_material dm (s_o s).

(** A slot that is not empty holds one of the samples seen, and after a first
    sample the first slot is not empty. *)
Definition Slots (st : front_state) (seen : list sample) : Prop :=
  (seen <> [] -> id1 st <> -1) /\
  (id1 st <> -1 -> exists s, In s seen /\ slot1_from st s) /\
  (id2 st <> -1 -> exists s, In s seen /\ slot2_from st s).

Lemma Slots_init u : Slots (front_init u) [].
Proof. unfold Slots. simpl. intuition congruence. Qed.

Lemma Slots_weaken st seen s :
  Slots st seen -> id1 st <> -1 -> Slots st (s :: seen).
Proof.
  intros (_ & H1 & H2) Hn. split; [auto|]. split; intros H;
    [destruct (H1 H) as (x & ? & ?) | destruct (H2 H) as (x & ? & ?)];
    exists x; simpl; auto.
Qed.

Lemma Slots_step st seen s st' :
  Slots st seen -> s_id s <> -1 ->
  front_update dm st s = Some st' -> Slots st' (s :: seen).
Proof.
  intros HS Hid Hu. apply front_update_case in Hu.
  destruct Hu as [Hd | He | Hn Hc | Hn1 Hn2 Hc].
  - apply Slots_weaken; [assumption|]. destruct HS as (H0 & _ & H2).
    destruct Hd as [[Hd _]|[Hd _]]; [congruence|].
    assert (E2 : id2 st <> -1) by congruence.
    destruct (H2 E2) as (x & Hx & _). apply H0. intros ->. contradiction.
  - destruct HS as (_ & _ & H2). split; [auto|]. split; simpl.
    + intros _. exists s. unfold slot1_from. simpl. auto.
    + intros H. destruct (H2 H) as (x & ? & ?). exists x. auto.
  - destruct HS as (_ & H1 & _). split; [auto|]. split; simpl.
    + intros H. destruct (H1 H) as (x & ? & ?). exists x. auto.
    + intros _. exists s. unfold slot2_from. simpl. auto.
  - now apply Slots_weaken.
Qed.

Lemma Slots_fold ss st seen st' :
  Slots st seen -> Forall (fun s => s_id s <> -1) ss ->
  front_fold dm st ss = Some st' -> Slots st' (rev ss ++ seen).
Proof.
  revert st seen. induction ss as [|s ss IH]; intros st seen HS Hid; simpl.
  - now intros [= <-].
  - inv Hid. destruct (front_update dm st s) as [st1|] eqn:Hu; [|discriminate].
    intros Hf. rewrite <- app_assoc. simpl. eapply IH; eauto using Slots_step.
Qed.

(** After the loop over the samples [ss] the slots hold samples of [ss]. *)
Lemma Slots_loop u ss st :
  Forall (fun s => s_id s <> -1) ss ->
  front_fold dm (front_init u) ss = Some st ->
  (ss <> [] -> id1 st <> -1) /\
  (id1 st <> -1 -> exists s, In s ss /\ slot1_from st s) /\
  (id2 st <> -1 -> exists s, In s ss /\ slot2_from st s).
Proof.
  intros Hid Hf.
  destruct (Slots_fold ss _ _ _ (Slots_init u) Hid Hf) as (H0 & H1 & H2).
  rewrite app_nil_r in *. split; [|split].
  - intros Hne. apply H0. intros E. apply Hne.
    rewrite <- (rev_involutive ss), E. reflexivity.
  - intros H. destruct (H1 H) as (x & Hx & ?). exists x.
    split; [now apply in_rev | assumption].
  - intros H. destruct (H2 H) as (x & Hx & ?). exists x.
    split; [now apply in_rev | assumption].
Qed.
End Slots.

(** After a loop over at least one sample, both slots of the state the
    final code works on hold samples. *)
Lemma fill_second_slots (dm : material_type D) u ss st :
  ss <> [] -> Forall (fun s => s_id s <> -1) ss ->
  front_fold dm (front_init u) ss = Some st ->
  exists s1 s2, In s1 ss /\ In s2 ss /\
    slot1_from dm (fill_second st) s1 /\ slot2_from dm (fill_second st) s2.
Proof.
  intros Hne Hid Hf. destruct (Slots_loop dm u _ _ Hid Hf) as (H0 & H1 & H2).
  destruct (H1 (H0 Hne)) as (s1 & Hs1 & F1). exists s1.
  unfold fill_second. destruct (Z.eqb_spec (id2 st) (-1)) as [E|E].
  - exists s1. unfold slot1_from, slot2_from in *. simpl. tauto.
  - destruct (H2 E) as (s2 & Hs2 & F2). exists s2. tauto.
Qed.

(** A sample whose object passes the test of [variable_involved] has a
    material that is not a material function. *)
Lemma sample_material_fixed (dm : material_type D) (o : option O) :
  object_variable o = false ->
  variable_material (which_subclass dm) && (object_null o || object_self o) = false ->
  which_subclass (sample_material dm o) <> MATERIAL_FUNCTION.
Proof.
  unfold sample_material, object_variable, object_null, object_self, variable_material.
  destruct o as [ob|]; simpl.
  - destruct (which_subclass (material ob)) eqn:E; simpl; try discriminate;
      try (intros _ _; rewrite E; discriminate).
    rewrite andb_true_r. destruct (which_subclass dm); simpl; congruence.
  - rewrite andb_true_r. destruct (which_subclass dm); simpl; congruence.
Qed.

Lemma variable_involved_false (dm : material_type D) (st : front_state) :
  variable_involved dm st = false ->
  which_subclass (sample_material dm (o1 st)) <> MATERIAL_FUNCTION /\
  which_subclass (sample_material dm (o2 st)) <> MATERIAL_FUNCTION.
Proof.
  unfold variable_involved. intros H.
  apply orb_false_iff in H as [H Hd]. apply orb_false_iff in H as [Hv1 Hv2].
  assert (Hd' : variable_material (which_subclass dm) = false \/
                (object_null (o1 st) = false /\ object_null (o2 st) = false /\
                 object_self (o1 st) = false /\ object_self (o2 st) = false)).
  { destruct (variable_material _); [right | now left]. simpl in Hd.
    repeat (apply orb_false_iff in Hd as [Hd ?]). auto. }
  split; apply sample_material_fixed; auto;
    destruct Hd' as [->|(E1 & E2 & E3 & E4)]; auto;
    first [rewrite E1, E3 | rewrite E2, E4]; apply andb_false_r.
Qed.

(** ** The uninitialised variables are never observed *)

(** Two states that differ only in the contents of empty slots. *)
Definition slots_agree (a b : front_state) : Prop :=
  o1 a = o1 b /\ id1 a = id1 b /\ o2 a = o2 b /\ id2 a = id2 b /\
  (id1 a <> -1 -> shiftby1 a = shiftby1 b /\ mat1 a = mat1 b) /\
  (id2 a <> -1 -> shiftby2 a = shiftby2 b /\ mat2 a = mat2 b).

Definition option_agree (a b : option front_state) : Prop :=
  match a, b with
  | Some a', Some b' => slots_agree a' b'
  | None, None => True
  | _, _ => False
  end.

Lemma slots_agree_init (u u' : uninit) : slots_agree (front_init u) (front_init u').
Proof. unfold slots_agree. simpl. intuition congruence. Qed.

(** A slot that is empty in a state never matches a sample, whatever it
    holds. *)
Lemma empty_slot_no_match (id i : Z) (b : bool) :
  id <> -1 -> i = -1 -> (id =? i)%Z && b = false.
Proof. intros Hid ->. apply andb_false_iff. left. now apply Z.eqb_neq. Qed.

Lemma front_update_agree (dm : material_type D) (a b : front_state) (s : sample) :
  slots_agree a b -> s_id s <> -1 ->
  option_agree (front_update dm a s) (front_update dm b s).
Proof.
  destruct s as [[o sh] id]. destruct a as [ao1 as1 ai1 am1 ao2 as2 ai2 am2].
  destruct b as [bo1 bs1 bi1 bm1 bo2 bs2 bi2 bm2].
  unfold slots_agree, front_update. simpl.
  intros (-> & -> & -> & -> & H1 & H2) Hid.
  destruct (Z.eq_dec bi1 (-1)) as [E1|E1]; destruct (Z.eq_dec bi2 (-1)) as [E2|E2];
    try (destruct (H1 E1) as [-> ->]); try (destruct (H2 E2) as [-> ->]);
    try rewrite !(empty_slot_no_match _ _ _ Hid E1);
    try rewrite !(empty_slot_no_match _ _ _ Hid E2);
    try (rewrite E1; simpl); try (rewrite E2; simpl);
    repeat case_goal; simpl; unfold slots_agree; simpl;
    try tauto; bool_to_prop; try lia; intuition congruence.
Qed.

Lemma front_fold_agree (dm : material_type D) (ss : list sample) (a b : front_state) :
  slots_agree a b -> Forall (fun s => s_id s <> -1) ss ->
  option_agree (front_fold dm a ss) (front_fold dm b ss).
Proof.
  revert a b. induction ss as [|s ss IH]; intros a b Hab Hid; simpl; [exact Hab|].
  apply Forall_cons_iff in Hid as [Hs Hid].
  pose proof (front_update_agree dm _ _ s Hab Hs) as Hu.
  destruct (front_update dm a s), (front_update dm b s); simpl in Hu; auto; contradiction.
Qed.

(** The final code returns the same outputs for two such states, once the
    first slot is filled. *)
Lemma front_finish_agree (dm : material_type D) (u u' : uninit) (p : vector3 D)
      (a b : front_state) :
  slots_agree a b -> id1 a <> -1 ->
  front_finish dm u p a = front_finish dm u' p b.
Proof.
  destruct a as [ao1 as1 ai1 am1 ao2 as2 ai2 am2].
  destruct b as [bo1 bs1 bi1 bm1 bo2 bs2 bi2 bm2].
  unfold slots_agree, front_finish, fill_second, variable_involved, front_assign.
  simpl. intros (-> & -> & -> & -> & H1 & H2) Hn. destruct (H1 Hn) as [-> ->].
  destruct (Z.eqb_spec bi2 (-1)) as [E|E]; simpl.
  - destruct (_ || _ || _); [reflexivity|].
    rewrite Z.eqb_refl. replace (bi1 >=? bi1)%Z with true; [|symmetry; rewrite Z.geb_leb; apply Z.leb_refl].
    replace (bi1 >? bi1)%Z with false; [reflexivity|]. symmetry. rewrite Z.gtb_ltb. apply Z.ltb_irrefl.
  - destruct (H2 E) as [-> ->]. destruct (_ || _ || _); [reflexivity|].
    destruct (Z.geb_spec bi1 bi2).
    + replace (bi2 >? bi1)%Z with false; [reflexivity|]. symmetry. rewrite Z.gtb_ltb. apply Z.ltb_ge. lia.
    + replace (bi2 >? bi1)%Z with true; [reflexivity|]. symmetry. rewrite Z.gtb_ltb. apply Z.ltb_lt. lia.
Qed.

(** ** A pixel whose stencil lies in one object *)

(** What the function returns when every query returns [s0]. *)
Definition homogeneous_result (dm : material_type D) (p : vector3 D) (s0 : sample)
  : option front_result :=
  let o := s_o s0 in
  if object_variable o ||
     (variable_material (which_subclass dm) && (object_null o || object_self o))
  then None
  else Some {| pcenter := p; o_front := o; shiftby_front := s_shiftby s0;
               mat_front := sample_material dm o;
               mat_behind := sample_material dm o |}.

(** The first slot holds [s0] and the second is empty or holds [s0] too. *)
Definition single_state (dm : material_type D) (s0 : sample) (st : front_state)
  : Prop :=
  slot1_from dm st s0 /\ (id2 st = -1 \/ slot2_from dm st s0).

Lemma single_state_first (dm : material_type D) (u : uninit) (s0 : sample) :
  s_id s0 <> -1 ->
  exists st, front_update dm (front_init u) s0 = Some st /\ single_state dm s0 st.
Proof.
  intros Hid. destruct s0 as [[o sh] id]. unfold front_update. simpl in *.
  rewrite !(empty_slot_no_match _ _ _ Hid eq_refl). simpl.
  eexists. split; [reflexivity|]. unfold single_state, slot1_from. simpl. auto.
Qed.

Lemma single_state_step (dm : material_type D) (s0 : sample) (st : front_state) :
  s_id s0 <> -1 -> single_state dm s0 st ->
  exists st', front_update dm st s0 = Some st' /\ single_state dm s0 st'.
Proof.
  intros Hid Hst. pose proof Hst as [(O1 & S1 & I1 & M1) H2].
  destruct s0 as [[o sh] id]. unfold front_update. simpl in *.
  destruct (_ || _); [exists st; split; [reflexivity | exact Hst]|].
  replace (id1 st =? -1)%Z with false by (symmetry; apply Z.eqb_neq; lia).
  assert (Hc : (id2 st =? -1)%Z ||
               ((id >=? id1 st)%Z && (id >=? id2 st)%Z &&
                ((id1 st =? id2 st)%Z || material_type_equal (mat1 st) (mat2 st))) = true).
  { destruct H2 as [->|(_ & _ & I2 & _)]; [reflexivity|]. simpl in I2.
    rewrite I1, I2, Z.eqb_refl. simpl.
    replace (id >=? id)%Z with true by (symmetry; rewrite Z.geb_leb; apply Z.leb_refl).
    apply orb_true_r. }
  rewrite Hc. eexists. split; [reflexivity|].
  unfold single_state, slot1_from, slot2_from. simpl. auto 10.
Qed.

Lemma single_state_fold (dm : material_type D) (s0 : sample) (ss : list sample)
      (st : front_state) :
  s_id s0 <> -1 -> single_state dm s0 st -> Forall (eq s0) ss ->
  exists st', front_fold dm st ss = Some st' /\ single_state dm s0 st'.
Proof.
  intros Hid. revert st. induction ss as [|s ss IH]; intros st Hst Hs; simpl.
  - eauto.
  - apply Forall_cons_iff in Hs as [<- Hs].
    destruct (single_state_step dm s0 st Hid Hst) as (st1 & -> & H1). auto.
Qed.

Lemma front_finish_single_state (dm : material_type D) (u : uninit) (p : vector3 D)
      (s0 : sample) (st : front_state) :
  single_state dm s0 st -> front_finish dm u p st = homogeneous_result dm p s0.
Proof.
  destruct st as [ao1 as1 ai1 am1 ao2 as2 ai2 am2].
  unfold single_state, slot1_from, slot2_from, front_finish, fill_second,
    variable_involved, front_assign, homogeneous_result. simpl.
  intros [(-> & -> & -> & ->) [->|(-> & -> & -> & ->)]]; simpl;
    try rewrite Z.eqb_refl;
    replace (s_id s0 >=? s_id s0)%Z with true
      by (symmetry; rewrite Z.geb_leb; apply Z.leb_refl);
    replace (s_id s0 >? s_id s0)%Z with false
      by (symmetry; rewrite Z.gtb_ltb; apply Z.ltb_irrefl).
  - now destruct (object_variable _), (variable_material _), (object_null _),
      (object_self _).
  - destruct (s_id s0 =? -1)%Z; simpl; rewrite ?Z.eqb_refl;
      replace (s_id s0 >=? s_id s0)%Z with true
        by (symmetry; rewrite Z.geb_leb; apply Z.leb_refl);
      replace (s_id s0 >? s_id s0)%Z with false
        by (symmetry; rewrite Z.gtb_ltb; apply Z.ltb_irrefl);
      now destruct (object_variable _), (variable_material _), (object_null _),
        (object_self _).
Qed.

Lemma front_fold_homogeneous (dm : material_type D) (u : uninit) (p : vector3 D)
      (s0 : sample) (ss : list sample) :
  s_id s0 <> -1 -> ss <> [] -> Forall (eq s0) ss ->
  exists st, front_fold dm (front_init u) ss = Some st /\
             front_finish dm u p st = homogeneous_result dm p s0.
Proof.
  intros Hid Hne Hs. destruct ss as [|s ss]; [congruence|].
  apply Forall_cons_iff in Hs as [<- Hs]. simpl.
  destruct (single_state_first dm u s0 Hid) as (st1 & -> & H1).
  destruct (single_state_fold dm s0 ss st1 Hid H1 Hs) as (st & Hf & Hst).
  exists st. split; [assumption|]. now apply front_finish_single_state.
Qed.

(** ** More than two materials *)

(** Three samples of different precedences whose materials differ pairwise
    make the loop return [false] at the third. *)
Lemma front_fold_three (dm : material_type D) (u : uninit) (a b c : sample)
      (rest : list sample) :
  s_id a <> -1 -> s_id b <> -1 ->
  s_id a <> s_id b -> s_id a <> s_id c -> s_id b <> s_id c ->
  material_type_equal (sample_material dm (s_o a)) (sample_material dm (s_o b)) = false ->
  material_type_equal (sample_material dm (s_o a)) (sample_material dm (s_o c)) = false ->
  material_type_equal (sample_material dm (s_o b)) (sample_material dm (s_o c)) = false ->
  front_fold dm (front_init u) (a :: b :: c :: rest) = None.
Proof.
  destruct a as [[oa sa] ia], b as [[ob sb] ib], c as [[oc sc] ic]. simpl.
  intros Ha Hb Hab Hac Hbc Mab Mac Mbc. unfold s_o, s_id in *. simpl in *.
  assert (Hf : forall x y : Z, x <> y -> (x =? y)%Z = false)
    by (intros; now apply Z.eqb_neq).
  unfold front_update. simpl.
  rewrite !(empty_slot_no_match _ _ _ Ha eq_refl). simpl.
  rewrite (Hf ib ia), (empty_slot_no_match _ _ _ Hb eq_refl), (Hf ia (-1)) by auto.
  simpl.
  rewrite (Hf ic ia), (Hf ic ib), (Hf ia (-1)), (Hf ib (-1)), (Hf ia ib),
    (Hf ia ic), (Hf ib ic), Mab, Mac, Mbc by auto.
  simpl. now rewrite !andb_false_r.
Qed.

(** ** The stencil *)

Lemma stencil_cases (dimensions : Z) (ns : list (Z * Z * Z)) :
  stencil dimensions = Ok ns ->
  (dimensions = 1 /\ ns = [ (0,0,0); (-1,0,0); (1,0,0) ]) \/
  (dimensions = 2 /\ ns = [ (0,0,0); (-1,-1,0); (1,1,0); (-1,1,0); (1,-1,0) ]) \/
  (dimensions = 3 /\
   ns = [ (0,0,0); (1,1,1); (1,1,-1); (1,-1,1); (1,-1,-1);
          (-1,1,1); (-1,1,-1); (-1,-1,1); (-1,-1,-1) ]).
Proof.
  unfold stencil. case_goal; [|discriminate]. bool_to_prop.
  assert (dimensions = 1 \/ dimensions = 2 \/ dimensions = 3)
    as [-> | [-> | ->]] by lia; intros [= <-]; auto.
Qed.

Lemma stencil_nonempty (dimensions : Z) (ns : list (Z * Z * Z)) :
  stencil dimensions = Ok ns -> ns <> [].
Proof.
  intros H. apply stencil_cases in H as [[_ ->] | [[_ ->] | [_ ->]]]; discriminate.
Qed.

(** The points the loop visits for a pixel. *)
Definition stencil_points (g : globals D) (gv : geometric_volume D)
  : list (vector3 D) :=
  let pixel := gv2box gv in
  let p := vec_to_vector3 (center gv) in
  let d1 := (vx (high pixel) - vx (low pixel)) * n_half in
  let d2 := (vy (high pixel) - vy (low pixel)) * n_half in
  let d3 := (vz (high pixel) - vz (low pixel)) * n_half in
  match stencil (dimensions (g_dim g)) with
  | Ok ns => map (stencil_point p d1 d2 d3) ns
  | Fail _ => []
  end.

Lemma front_samples_points (g : globals D) (gv : geometric_volume D) (t : T) :
  front_samples g gv t =
  map (fun q => object_of_point_in_tree q t) (stencil_points g gv).
Proof.
  unfold front_samples, stencil_points, stencil_samples.
  destruct (stencil _); [|reflexivity]. now rewrite map_map.
Qed.

(** For 1, 2 or 3 dimensions [get_front_object] returns: its loop is
    bounded by the tables and nothing in it aborts. *)
Lemma get_front_object_returns (g : globals D) (u : uninit)
      (gv : geometric_volume D) (t : T) :
  (1 <= dimensions (g_dim g) <= 3)%Z ->
  exists r, get_front_object g u gv t = Ok r.
Proof.
  intros H. unfold get_front_object, stencil.
  destruct (Z.leb_spec 1 (dimensions (g_dim g))); [|lia].
  destruct (Z.leb_spec (dimensions (g_dim g)) 3); [|lia]. simpl. eauto.
Qed.


(** The loop makes 3, 5 or 9 queries for 1, 2 or 3 dimensions, and the
    first query is at the centre offset (0,0,0). *)
Theorem stencil_size (dimensions : Z) (ns : list (Z * Z * Z)) :
  stencil dimensions = Ok ns ->
  (Z.of_nat (length ns) = 2 ^ dimensions + 1)%Z /\ hd_error ns = Some (0, 0, 0)%Z.
Proof.
  intros H. apply stencil_cases in H as [[-> ->] | [[-> ->] | [-> ->]]];
    split; reflexivity.
Qed.

(** ** [get_front_object] in terms of the fold *)

Lemma get_front_object_Some (g : globals D) (u : uninit)
      (gv : geometric_volume D) (t : T) (r : front_result) :
  get_front_object g u gv t = Ok (Some r) ->
  front_samples g gv t <> [] /\
  exists st,
    front_fold (default_material g) (front_init u) (front_samples g gv t) = Some st /\
    front_finish (default_material g) u (vec_to_vector3 (center gv)) st = Some r.
Proof.
  unfold get_front_object, front_samples.
  destruct (stencil _) as [ns|e] eqn:Hs; simpl; [|discriminate].
  rewrite front_loop_fold. intros [= H]. split.
  - unfold stencil_samples. apply stencil_nonempty in Hs.
    destruct ns; [congruence | discriminate].
  - destruct (front_fold _ _ _) as [st|]; [eauto | discriminate].
Qed.

Section WithGeomLaws.
Context {L : NumberLaws D} {GL : GeomLaws G}.

Lemma stencil_samples_In (t : T) (p : vector3 D) (d1 d2 d3 : D)
      (ns : list (Z * Z * Z)) (s : sample) :
  In s (stencil_samples t p d1 d2 d3 ns) ->
  exists q, object_of_point_in_tree q t = s.
Proof.
  unfold stencil_samples. rewrite in_map_iff. intros (n & H & _). eauto.
Qed.

Lemma front_samples_In (g : globals D) (gv : geometric_volume D) (t : T)
      (s : sample) :
  In s (front_samples g gv t) -> exists q, object_of_point_in_tree q t = s.
Proof.
  unfold front_samples. destruct (stencil _); [|contradiction].
  apply stencil_samples_In.
Qed.

Lemma front_samples_nonneg (g : globals D) (gv : geometric_volume D) (t : T) :
  valid_tree t -> Forall (fun s => 0 <= s_id s) (front_samples g gv t).
Proof.
  intros Hv. apply Forall_forall. intros [[o sh] id] Hs.
  apply front_samples_In in Hs as [q Hq].
  eapply precedence_nonneg; eassumption.
Qed.

Lemma front_samples_consistent (g : globals D) (gv : geometric_volume D) (t : T) :
  valid_tree t -> consistent (front_samples g gv t).
Proof.
  intros Hv [[o sh] id] [[o' sh'] id'] Hs Hs'. simpl. intros <-.
  apply front_samples_In in Hs as [q Hq], Hs' as [q' Hq'].
  eapply precedence_same_object; eassumption.
Qed.

(** C1: when [get_front_object] returns [true], every point of the stencil
    either lies in the image of the front object that it returns, or
    carries a material equal to [mat_behind]: the material behind the
    front object is constant over the stencil.  The materials and shifts
    at the sample points are assumed free of NaN. *)
Theorem get_front_object_behind_constant (g : globals D) (u : uninit)
      (gv : geometric_volume D) (t : T) (r : front_result) :
  valid_tree t ->
  Forall (defined_sample (default_material g)) (front_samples g gv t) ->
  get_front_object g u gv t = Ok (Some r) ->
  Forall (fun s => is_front_image r s \/ is_behind (default_material g) r s)
         (front_samples g gv t).
Proof.
  intros Hv Hd Hr. apply get_front_object_Some in Hr as (Hne & st & Hf & Hr).
  eapply front_fold_behind; eauto.
  apply good_of_consistent;
    auto using front_samples_consistent, front_samples_nonneg.
Qed.

Lemma front_samples_filled (g : globals D) (gv : geometric_volume D) (t : T) :
  valid_tree t -> Forall (fun s => s_id s <> -1) (front_samples g gv t).
Proof.
  intros Hv. eapply Forall_impl; [|apply front_samples_nonneg; eassumption].
  simpl. intros s Hs. lia.
Qed.

(** What a successful call returns, in terms of the samples: the front
    outputs are those of a sample [f]; [mat_behind] is [mat_front] when the
    two slots hold the same precedence, and otherwise the material of a
    sample [b] of smaller precedence; neither material is a material
    function. *)
Lemma get_front_object_result (g : globals D) (u : uninit)
      (gv : geometric_volume D) (t : T) (r : front_result) :
  valid_tree t ->
  get_front_object g u gv t = Ok (Some r) ->
  exists f b,
    In f (front_samples g gv t) /\ In b (front_samples g gv t) /\
    o_front r = s_o f /\ shiftby_front r = s_shiftby f /\
    mat_front r = sample_material (default_material g) (s_o f) /\
    which_subclass (mat_front r) <> MATERIAL_FUNCTION /\
    which_subclass (mat_behind r) <> MATERIAL_FUNCTION /\
    ((s_id b = s_id f /\ mat_behind r = mat_front r) \/
     (s_id b < s_id f /\
      mat_behind r = sample_material (default_material g) (s_o b))).
Proof.
  intros Hv Hr. apply get_front_object_Some in Hr as (Hne & st & Hf & Hr).
  apply front_finish_Some in Hr as [Hg ->].
  edestruct fill_second_slots
    as (s1 & s2 & Hs1 & Hs2 & (O1 & S1 & I1 & M1) & (O2 & S2 & I2 & M2));
    [exact Hne | apply front_samples_filled; exact Hv | exact Hf |].
  apply variable_involved_false in Hg as [V1 V2].
  rewrite O1, <- M1 in V1. rewrite O2, <- M2 in V2.
  destruct (front_assign_cases u (vec_to_vector3 (center gv)) (fill_second st))
    as [[Hle ->]|[Hlt ->]]; simpl.
  - destruct (Z.eqb_spec (id1 (fill_second st)) (id2 (fill_second st))).
    + exists s1, s1. split_and; auto.
    + exists s1, s2. split_and; auto. right. split; [lia | assumption].
  - exists s2, s1. split_and; auto. right. split; [lia | assumption].
Qed.

(** C14: when [get_front_object] returns [true], neither [mat_front] nor
    [mat_behind] is a material function: both can be handed to
    [material_eps], which cannot evaluate a material function. *)
Theorem get_front_object_not_variable (g : globals D) (u : uninit)
      (gv : geometric_volume D) (t : T) (r : front_result) :
  valid_tree t ->
  get_front_object g u gv t = Ok (Some r) ->
  which_subclass (mat_front r) <> MATERIAL_FUNCTION /\
  which_subclass (mat_behind r) <> MATERIAL_FUNCTION.
Proof.
  intros Hv Hr.
  destruct (get_front_object_result g u gv t r Hv Hr)
    as (f & b & _ & _ & _ & _ & _ & Hf & Hb & _).
  auto.
Qed.

(** C13: when [get_front_object] returns [true], the front object, its shift
    and [mat_front] are those of one stencil sample, [mat_behind] is the
    material of a stencil sample, and the precedence of the front sample is
    at least that of the one behind: of the two candidates kept, the one of
    larger precedence is in front. *)
Theorem get_front_object_front_precedes (g : globals D) (u : uninit)
      (gv : geometric_volume D) (t : T) (r : front_result) :
  valid_tree t ->
  get_front_object g u gv t = Ok (Some r) ->
  exists f b,
    In f (front_samples g gv t) /\ In b (front_samples g gv t) /\
    o_front r = s_o f /\ shiftby_front r = s_shiftby f /\
    mat_front r = sample_material (default_material g) (s_o f) /\
    mat_behind r = sample_material (default_material g) (s_o b) /\
    s_id b <= s_id f.
Proof.
  intros Hv Hr.
  destruct (get_front_object_result g u gv t r Hv Hr)
    as (f & b & Hf & Hb & Ho & Hs & Hm & _ & _ & [[Hid Hmb]|[Hid Hmb]]).
  - exists f, f. split_and; auto; [congruence | lia].
  - exists f, b. split_and; auto. lia.
Qed.

(** C27: the result of [get_front_object] does not depend on the contents of
    the variables it leaves uninitialised ([shiftby1], [shiftby2], [mat1],
    [mat2]) nor on what the caller's output variables held: no
    uninitialised value is observed. *)
Theorem get_front_object_uninit (g : globals D) (u u' : uninit)
      (gv : geometric_volume D) (t : T) :
  valid_tree t ->
  get_front_object g u gv t = get_front_object g u' gv t.
Proof.
  intros Hv. pose proof (front_samples_filled g gv t Hv) as Hid.
  unfold get_front_object, front_samples in *.
  destruct (stencil _) as [ns|e] eqn:Hs; simpl; [|reflexivity].
  rewrite !front_loop_fold. f_equal.
  pose proof (front_fold_agree (default_material g) _ _ _ (slots_agree_init u u') Hid) as Ha.
  destruct (front_fold _ (front_init u) _) as [a|] eqn:Hfa,
           (front_fold _ (front_init u') _) as [b|]; simpl in Ha;
    try contradiction; [|reflexivity].
  apply front_finish_agree; [assumption|].
  apply (Slots_loop (default_material g) u _ _ Hid Hfa).
  apply stencil_nonempty in Hs. unfold stencil_samples.
  destruct ns; [congruence | discriminate].
Qed.

(** [get_front_object] when its queries are the non-empty list [ss]. *)
Lemma get_front_object_samples (g : globals D) (u : uninit)
      (gv : geometric_volume D) (t : T) :
  front_samples g gv t <> [] ->
  get_front_object g u gv t =
  Ok (match front_fold (default_material g) (front_init u) (front_samples g gv t) with
      | Some st => front_finish (default_material g) u (vec_to_vector3 (center gv)) st
      | None => None
      end).
Proof.
  unfold get_front_object, front_samples.
  destruct (stencil _); simpl; [|congruence]. now rewrite front_loop_fold.
Qed.

(** The precedence all queries return is not the initial -1. *)
Lemma uniform_samples_id (g : globals D) (gv : geometric_volume D) (t : T)
      (s0 : sample) :
  valid_tree t -> front_samples g gv t <> [] ->
  Forall (eq s0) (front_samples g gv t) -> s_id s0 <> -1.
Proof.
  intros Hv Hne Hs. pose proof (front_samples_filled g gv t Hv) as Hf.
  destruct (front_samples g gv t) as [|s ss]; [congruence|].
  apply Forall_cons_iff in Hs as [<- _]. now apply Forall_cons_iff in Hf.
Qed.

(** If every query of the stencil returns the same object, shift and
    precedence, [get_front_object] returns that object as the front one with
    [mat_behind] equal to [mat_front] (the trivial case of one material), or
    [false] if that material is a material function. *)
Lemma get_front_object_uniform (g : globals D) (u : uninit)
      (gv : geometric_volume D) (t : T) (s0 : sample) :
  valid_tree t -> front_samples g gv t <> [] ->
  Forall (eq s0) (front_samples g gv t) ->
  get_front_object g u gv t =
  Ok (homogeneous_result (default_material g) (vec_to_vector3 (center gv)) s0).
Proof.
  intros Hv Hne Hs. rewrite get_front_object_samples by assumption.
  pose proof (uniform_samples_id g gv t s0 Hv Hne Hs) as Hid.
  destruct (front_fold_homogeneous (default_material g) u
              (vec_to_vector3 (center gv)) s0 _ Hid Hne Hs) as (st & -> & ->).
  reflexivity.
Qed.

(** If the first three queries of the stencil return three different
    precedences whose materials differ pairwise, [get_front_object] returns
    [false]: more than two materials meet in the pixel. *)
Theorem get_front_object_three_materials (g : globals D) (u : uninit)
      (gv : geometric_volume D) (t : T) (a b c : sample) (rest : list sample) :
  valid_tree t -> front_samples g gv t = a :: b :: c :: rest ->
  s_id a <> s_id b -> s_id a <> s_id c -> s_id b <> s_id c ->
  material_type_equal (sample_material (default_material g) (s_o a))
                      (sample_material (default_material g) (s_o b)) = false ->
  material_type_equal (sample_material (default_material g) (s_o a))
                      (sample_material (default_material g) (s_o c)) = false ->
  material_type_equal (sample_material (default_material g) (s_o b))
                      (sample_material (default_material g) (s_o c)) = false ->
  get_front_object g u gv t = Ok None.
Proof.
  intros Hv Hss Hab Hac Hbc Mab Mac Mbc.
  pose proof (front_samples_filled g gv t Hv) as Hf.
  rewrite get_front_object_samples by (rewrite Hss; discriminate).
  rewrite Hss in *. apply Forall_cons_iff in Hf as [Ha Hf].
  apply Forall_cons_iff in Hf as [Hb _].
  now rewrite front_fold_three.
Qed.
End WithGeomLaws.
End FrontObject.

Arguments uninit D O : clear implicits.
Arguments front_result D O : clear implicits.
Arguments front_state D O : clear implicits.
Arguments sample D O : clear implicits.

(** ** A pixel whose stencil meets two images *)

Section TwoImages.
Context {D : Type} {N : Number D} {O T : Type} {G : Geom D O T}.
Context {L : NumberLaws D} {GL : GeomLaws G}.
Variable dm : material_type D.

(** What the function returns when every query returns [a] or [b], both
    occur, and [b] has the larger precedence: [b] is in front of [a]. *)
Definition two_images_result (p : vector3 D) (a b : sample D O)
  : option (front_result D O) :=
  if object_variable (s_o a) || object_variable (s_o b) ||
     (variable_material (which_subclass dm) &&
      (object_null (s_o a) || object_null (s_o b) ||
       object_self (s_o a) || object_self (s_o b)))
  then None
  else Some {| pcenter := p; o_front := s_o b; shiftby_front := s_shiftby b;
               mat_front := sample_material dm (s_o b);
               mat_behind := sample_material dm (s_o a) |}.

(** The states of the loop on such a pixel after the samples [seen]: no
    sample yet; the first slot filled from the only sample seen so far;
    both slots filled, one from [a] and one from [b]. *)
Inductive pair_state (u : uninit D O) (a b : sample D O)
  : list (sample D O) -> front_state D O -> Prop :=
  | pair_none : pair_state u a b [] (front_init u)
  | pair_one x st seen :
      x = a \/ x = b -> slot1_from dm st x -> id2 st = -1 -> Forall (eq x) seen ->
      pair_state u a b seen st
  | pair_both x y st seen :
      (x = a /\ y = b) \/ (x = b /\ y = a) ->
      slot1_from dm st x -> slot2_from dm st y ->
      pair_state u a b seen st.

Variables (u : uninit D O) (a b : sample D O).
Hypothesis Ha : s_id a <> -1.
Hypothesis Hb : s_id b <> -1.
Hypothesis Hab : s_id a < s_id b.
Hypothesis Da : vector3_equal (s_shiftby a) (s_shiftby a) = true.
Hypothesis Db : vector3_equal (s_shiftby b) (s_shiftby b) = true.

Lemma pair_state_step (st : front_state D O) (s : sample D O) (seen : list (sample D O)) :
  s = a \/ s = b -> pair_state u a b seen st ->
  exists st', front_update dm st s = Some st' /\ pair_state u a b (s :: seen) st'.
Proof.
  intros Hs Hst.
  assert (Hid : s_id s <> -1) by (destruct Hs as [->| ->]; assumption).
  assert (Hd : vector3_equal (s_shiftby s) (s_shiftby s) = true)
    by (destruct Hs as [->| ->]; assumption).
  destruct s as [[o sh] id]. unfold s_id, s_shiftby in Hid, Hd. simpl in Hid, Hd.
  destruct Hst as [|x st seen Hx (O1 & S1 & I1 & M1) I2 Hseen
                  |x y st seen Hxy (O1 & S1 & I1 & M1) (O2 & S2 & I2 & M2)];
    unfold front_update.
  - simpl. rewrite !(empty_slot_no_match _ _ _ Hid eq_refl). simpl.
    eexists. split; [reflexivity|]. apply pair_one with (o, sh, id); auto.
    repeat split.
  - rewrite I2, (empty_slot_no_match _ _ _ Hid eq_refl), orb_false_r.
    destruct (Z.eqb_spec id (id1 st)) as [E|E]; simpl.
    + assert (x = (o, sh, id)) as ->.
      { destruct Hx as [->| ->], Hs as [Es|Es]; rewrite <- Es in *;
          unfold s_id in *; simpl in *; try reflexivity; lia. }
      rewrite S1. unfold s_shiftby. simpl. rewrite Hd.
      exists st. split; [reflexivity|]. apply pair_one with (o, sh, id); auto.
      repeat split; auto.
    + replace (id1 st =? -1) with false
        by (symmetry; apply Z.eqb_neq; destruct Hx as [->| ->]; lia).
      simpl. eexists. split; [reflexivity|].
      apply pair_both with x (o, sh, id); [| repeat split; auto | repeat split].
      destruct Hx as [->| ->], Hs as [Es|Es]; rewrite <- Es in *; auto;
        unfold s_id in *; simpl in *; congruence.
  - assert (Hskip : ((id =? id1 st) && vector3_equal sh (shiftby1 st)) ||
                    ((id =? id2 st) && vector3_equal sh (shiftby2 st)) = true).
    { destruct Hxy as [[-> ->]|[-> ->]], Hs as [Es|Es]; rewrite <- Es in *;
        unfold s_id, s_shiftby in *; simpl in *;
        rewrite ?I1, ?I2, ?S1, ?S2, Z.eqb_refl, Hd; simpl; auto using orb_true_r. }
    rewrite Hskip. exists st. split; [reflexivity|].
    apply pair_both with x y; auto; repeat split; auto.
Qed.

Lemma pair_state_fold (ss seen : list (sample D O)) (st : front_state D O) :
  Forall (fun s => s = a \/ s = b) ss -> pair_state u a b seen st ->
  exists st', front_fold dm st ss = Some st' /\ pair_state u a b (rev ss ++ seen) st'.
Proof.
  revert seen st. induction ss as [|s ss IH]; intros seen st Hs Hst; simpl; [eauto|].
  apply Forall_cons_iff in Hs as [Hs Hss].
  destruct (pair_state_step st s seen Hs Hst) as (st1 & -> & H1).
  rewrite <- app_assoc. simpl. now apply IH.
Qed.

(** Once both samples were seen both slots are filled. *)
Lemma pair_state_both (seen : list (sample D O)) (st : front_state D O) :
  pair_state u a b seen st -> In a seen -> In b seen ->
  exists x y, ((x = a /\ y = b) \/ (x = b /\ y = a)) /\
              slot1_from dm st x /\ slot2_from dm st y.
Proof.
  intros [|x st' seen' _ _ _ Hseen|x y st' seen' Hxy H1 H2] Hia Hib; [contradiction| |eauto].
  rewrite Forall_forall in Hseen. rewrite <- (Hseen a Hia), <- (Hseen b Hib) in Hab. lia.
Qed.

Lemma front_finish_pair (p : vector3 D) (x y : sample D O) (st : front_state D O) :
  (x = a /\ y = b) \/ (x = b /\ y = a) -> slot1_from dm st x -> slot2_from dm st y ->
  front_finish dm u p st = two_images_result p a b.
Proof.
  destruct st as [ao1 as1 ai1 am1 ao2 as2 ai2 am2].
  unfold slot1_from, slot2_from, front_finish, fill_second, variable_involved,
    front_assign, two_images_result. simpl.
  intros Hxy (-> & -> & -> & ->) (-> & -> & -> & ->).
  destruct Hxy as [[-> ->]|[-> ->]].
  - replace (s_id b =? -1) with false by (symmetry; now apply Z.eqb_neq). simpl.
    replace (s_id a >=? s_id b) with false by (symmetry; rewrite Z.geb_leb; apply Z.leb_gt; lia).
    replace (s_id b >? s_id a) with true by (symmetry; rewrite Z.gtb_ltb; apply Z.ltb_lt; lia).
    reflexivity.
  - replace (s_id a =? -1) with false by (symmetry; now apply Z.eqb_neq). simpl.
    replace (s_id b >=? s_id a) with true by (symmetry; rewrite Z.geb_leb; apply Z.leb_le; lia).
    replace (s_id a >? s_id b) with false by (symmetry; rewrite Z.gtb_ltb; apply Z.ltb_ge; lia).
    replace (s_id b =? s_id a) with false by (symmetry; apply Z.eqb_neq; lia).
    now destruct (object_variable (s_o a)), (object_variable (s_o b)),
      (variable_material _), (object_null (s_o a)), (object_null (s_o b)),
      (object_self (s_o a)), (object_self (s_o b)).
Qed.

Lemma front_fold_two_images (p : vector3 D) (ss : list (sample D O)) :
  Forall (fun s => s = a \/ s = b) ss -> In a ss -> In b ss ->
  exists st, front_fold dm (front_init u) ss = Some st /\
             front_finish dm u p st = two_images_result p a b.
Proof.
  intros Hs Hia Hib.
  destruct (pair_state_fold ss [] _ Hs (pair_none u a b)) as (st & Hf & Hst).
  exists st. split; [exact Hf|].
  assert (Ia : In a (rev ss ++ [])) by (apply in_or_app; left; now apply -> in_rev).
  assert (Ib : In b (rev ss ++ [])) by (apply in_or_app; left; now apply -> in_rev).
  destruct (pair_state_both _ st Hst Ia Ib) as (x & y & Hxy & H1 & H2).
  now apply front_finish_pair with x y.
Qed.

(** The pixels on an interface: when every query of the stencil returns one
    of two images, both occur, and their shifts are no NaN, the function
    returns the image of larger precedence as the front object and the
    material of the other as the material behind. *)
Lemma get_front_object_two_images (g : globals D) (gv : geometric_volume D) (t : T) :
  dm = default_material g -> valid_tree t ->
  Forall (fun s => s = a \/ s = b) (front_samples g gv t) ->
  In a (front_samples g gv t) -> In b (front_samples g gv t) ->
  get_front_object g u gv t =
  Ok (two_images_result (vec_to_vector3 (center gv)) a b).
Proof.
  intros Hdm Hv Hs Hia Hib.
  rewrite get_front_object_samples by (intros E; now rewrite E in Hia).
  rewrite <- Hdm.
  now destruct (front_fold_two_images (vec_to_vector3 (center gv)) _ Hs Hia Hib)
    as (st & -> & ->).
Qed.
End TwoImages.

(** ** Two indexes that give the same answers *)

Section TwoIndexes.
Context {D : Type} {N : Number D} {O T1 T2 : Type}.
Variables (G1 : Geom D O T1) (G2 : Geom D O T2).
Hypothesis Hs : same_shapes G1 G2.

Lemma front_update_same :
  front_update (G := G1) = front_update (G := G2).
Proof. unfold front_update, sample_material. now rewrite (same_material Hs). Qed.

Lemma front_fold_same (dm : material_type D) (st : front_state D O) (ss : list (sample D O)) :
  front_fold (G := G1) dm st ss = front_fold (G := G2) dm st ss.
Proof.
  revert st. induction ss as [|s ss IH]; intros st; simpl; [reflexivity|].
  rewrite front_update_same. destruct (front_update _ _ _); auto.
Qed.

Lemma front_finish_same :
  front_finish (G := G1) = front_finish (G := G2).
Proof.
  unfold front_finish, variable_involved, object_variable, object_self.
  now rewrite (same_material Hs).
Qed.

(** [get_front_object] depends on the tree through the answers at the
    points of the stencil only. *)
Lemma get_front_object_same (g : globals D) (u : uninit D O)
      (gv : geometric_volume D) (t1 : T1) (t2 : T2) :
  Forall (same_answers G1 G2 t1 t2) (stencil_points g gv) ->
  get_front_object (G := G1) g u gv t1 = get_front_object (G := G2) g u gv t2.
Proof.
  intros Ha. unfold get_front_object.
  assert (Hss : front_samples (G := G1) g gv t1 = front_samples (G := G2) g gv t2).
  { rewrite !front_samples_points. apply map_ext_in. intros q Hq.
    rewrite Forall_forall in Ha. exact (Ha q Hq). }
  unfold front_samples in Hss. destruct (stencil _) as [ns|]; [|reflexivity].
  cbn [bind]. rewrite !front_loop_fold. cbv zeta in Hss.
  now rewrite Hss, front_fold_same, front_finish_same.
Qed.
End TwoIndexes.

(** ** Concrete pixels *)

Section Witnesses.
Import Slabs.
Local Open Scope float_scope.

(** Junk for the uninitialised variables: NaN shifts, and a material that no
    object of the examples has. *)
Definition junk : uninit float (geometric_object float) :=
  {| u_shiftby1 := V3 nan nan nan; u_mat1 := perfect_metal_data;
     u_shiftby2 := V3 nan nan nan; u_mat2 := material_function_data 7%Z;
     u_o_front := None; u_shiftby_front := V3 nan nan nan;
     u_mat_front := material_type_self_data;
     u_mat_behind := material_type_self_data |}.

(** A block of epsilon 12 on [-1, 1] and, in front of it, a block of
    epsilon 4 on [0.75, 3]. *)
Definition two_slabs : list (geometric_object float) :=
  [ slab (diel 12) (-1) 1; slab (diel 4) 0.75 3 ].

Lemma get_front_object_behind_constant_witness :
  Forall (fun s => is_front_image
                     {| pcenter := V3 1 0.5 0;
                        o_front := Some (slab (diel 4) 0.75 3);
                        shiftby_front := V3 0 0 0;
                        mat_front := diel 4; mat_behind := diel 12 |} s \/
                   is_behind (diel 1)
                     {| pcenter := V3 1 0.5 0;
                        o_front := Some (slab (diel 4) 0.75 3);
                        shiftby_front := V3 0 0 0;
                        mat_front := diel 4; mat_behind := diel 12 |} s)
         (front_samples (globals_of 2 (diel 1)) (pixel2 0.5 1.5 0 1) (tree two_slabs)).
Proof.
  apply (get_front_object_behind_constant (globals_of 2 (diel 1)) junk).
  - apply valid_create.
  - vm_compute. repeat constructor.
  - vm_compute. reflexivity.
Defined.

Lemma get_front_object_not_variable_witness :
  which_subclass (diel 4) <> MATERIAL_FUNCTION /\
  which_subclass (diel 12) <> MATERIAL_FUNCTION.
Proof.
  apply (get_front_object_not_variable (globals_of 2 (diel 1)) junk
           (pixel2 0.5 1.5 0 1) (tree two_slabs)
           {| pcenter := V3 1 0.5 0; o_front := Some (slab (diel 4) 0.75 3);
              shiftby_front := V3 0 0 0; mat_front := diel 4;
              mat_behind := diel 12 |}).
  - apply valid_create.
  - vm_compute. reflexivity.
Defined.

Lemma get_front_object_front_precedes_witness :
  exists f b,
    In f (front_samples (globals_of 2 (diel 1)) (pixel2 0.5 1.5 0 1) (tree two_slabs)) /\
    In b (front_samples (globals_of 2 (diel 1)) (pixel2 0.5 1.5 0 1) (tree two_slabs)) /\
    Some (slab (diel 4) 0.75 3) = s_o f /\ V3 0 0 0 = s_shiftby f /\
    diel 4 = sample_material (diel 1) (s_o f) /\
    diel 12 = sample_material (diel 1) (s_o b) /\
    (s_id b <= s_id f)%Z.
Proof.
  apply (get_front_object_front_precedes (globals_of 2 (diel 1)) junk
           (pixel2 0.5 1.5 0 1) (tree two_slabs)
           {| pcenter := V3 1 0.5 0; o_front := Some (slab (diel 4) 0.75 3);
              shiftby_front := V3 0 0 0; mat_front := diel 4;
              mat_behind := diel 12 |}).
  - apply valid_create.
  - vm_compute. reflexivity.
Defined.

(** Other junk: zero shifts and metal everywhere. *)
Definition junk' : uninit float (geometric_object float) :=
  {| u_shiftby1 := V3 0 0 0; u_mat1 := diel 12;
     u_shiftby2 := V3 0 0 0; u_mat2 := diel 4;
     u_o_front := Some (slab (diel 4) 0.75 3); u_shiftby_front := V3 1 1 1;
     u_mat_front := perfect_metal_data; u_mat_behind := perfect_metal_data |}.

Lemma get_front_object_uninit_witness :
  get_front_object (globals_of 2 (diel 1)) junk (pixel2 0.5 1.5 0 1) (tree two_slabs) =
  get_front_object (globals_of 2 (diel 1)) junk' (pixel2 0.5 1.5 0 1) (tree two_slabs).
Proof.
  apply (get_front_object_uninit (globals_of 2 (diel 1)) junk junk').
  apply valid_create.
Defined.

(** A pixel inside the block of epsilon 12. *)
Example get_front_object_uniform_example :
  get_front_object (globals_of 2 (diel 1)) junk (pixel2 0 0.5 0 1) (tree two_slabs) =
  Ok (Some {| pcenter := V3 0.25 0.5 0; o_front := Some (slab (diel 12) (-1) 1);
              shiftby_front := V3 0 0 0; mat_front := diel 12;
              mat_behind := diel 12 |}).
Proof.
  rewrite (get_front_object_uniform (globals_of 2 (diel 1)) junk
             (pixel2 0 0.5 0 1) (tree two_slabs)
             (Some (slab (diel 12) (-1) 1), V3 0 0 0, 1%Z)).
  - vm_compute. reflexivity.
  - apply valid_create.
  - vm_compute. discriminate.
  - vm_compute. repeat constructor.
Qed.

(** Three blocks of different materials side by side, the pixel over the
    middle one and reaching into both neighbours. *)
Definition three_slabs : list (geometric_object float) :=
  [ slab (diel 2) (-1) 0.625; slab (diel 4) 0.75 1.25; slab (diel 12) 1.375 3 ].

Lemma get_front_object_three_materials_witness :
  get_front_object (globals_of 2 (diel 1)) junk (pixel2 0.5 1.5 0 1) (tree three_slabs)
  = Ok None.
Proof.
  eapply (get_front_object_three_materials (globals_of 2 (diel 1)) junk
            (pixel2 0.5 1.5 0 1) (tree three_slabs)).
  - apply valid_create.
  - vm_compute. reflexivity.
  - vm_compute. discriminate.
  - vm_compute. discriminate.
  - vm_compute. discriminate.
  - vm_compute. reflexivity.
  - vm_compute. reflexivity.
  - vm_compute. reflexivity.
Defined.

(** ** Two pixels that are mirror images of each other *)

(** A background block of epsilon 2 everywhere, a block of epsilon 12 over the
    left corners of the pixel, and in front of both a block of epsilon 2 over
    its right corners. *)
Definition left_heavy : list (geometric_object float) :=
  [ slab (diel 2) (-10) 10; slab (diel 12) (-10) 0.625; slab (diel 2) 1.375 10 ].

(** The mirror image in the plane x = 1 through the centre of the pixel. *)
Definition right_heavy : list (geometric_object float) :=
  [ slab (diel 2) (-10) 10; slab (diel 12) 1.375 10; slab (diel 2) (-10) 0.625 ].

(** The answer of [get_front_object] depends on the order in which the
    corners of the stencil are visited.  For a pixel with epsilon 12 over its
    left corners it returns that block as the front object; for the mirror
    image of the same geometry it returns [false]. *)
Example get_front_object_mirror_images :
  get_front_object (globals_of 2 (diel 1)) junk (pixel2 0.5 1.5 0 1) (tree left_heavy) =
  Ok (Some {| pcenter := V3 1 0.5 0; o_front := Some (slab (diel 12) (-10) 0.625);
              shiftby_front := V3 0 0 0; mat_front := diel 12;
              mat_behind := diel 2 |}) /\
  get_front_object (globals_of 2 (diel 1)) junk (pixel2 0.5 1.5 0 1) (tree right_heavy) =
  Ok None.
Proof. split; vm_compute; reflexivity. Qed.

(** ** A one-dimensional pixel *)

(** A block of epsilon 12 on z <= 1. *)
Definition half_space : list (geometric_object float) :=
  [ slab_along AZ (diel 12) (-10) 1 ].

(** In one dimension the three points of the stencil coincide.  meep
    keeps the coordinate of a one-dimensional [vec] in z, and the stencil of
    [neighbors[0]] moves along x, where the pixel has no extent.  For the
    pixel [0.5, 1.5] that the block of epsilon 12 fills to one half,
    [get_front_object] reports one material, the one at the centre. *)
Example get_front_object_one_dimension :
  front_samples (globals_of 1 (diel 1)) (pixel1 0.5 1.5) (tree half_space) =
  [ (Some (slab_along AZ (diel 12) (-10) 1), V3 0 0 0, 1%Z);
    (Some (slab_along AZ (diel 12) (-10) 1), V3 0 0 0, 1%Z);
    (Some (slab_along AZ (diel 12) (-10) 1), V3 0 0 0, 1%Z) ] /\
  get_front_object (globals_of 1 (diel 1)) junk (pixel1 0.5 1.5) (tree half_space) =
  Ok (Some {| pcenter := V3 0 0 1;
              o_front := Some (slab_along AZ (diel 12) (-10) 1);
              shiftby_front := V3 0 0 0; mat_front := diel 12;
              mat_behind := diel 12 |}).
Proof. split; vm_compute; reflexivity. Qed.
End Witnesses.

(** ** The stencil in exact arithmetic *)

Section ExactStencil.
Local Open Scope Q_scope.

(** A one-dimensional pixel: meep keeps its only coordinate in z. *)
Definition volume1 (z0 z1 : Q) : geometric_volume Q :=
  {| gv_dim := D1; get_min_corner := vec1 z0; get_max_corner := vec1 z1;
     center := vec1 ((z0 + z1) * (1 # 2)) |}.

(** A cylindrical pixel [r0, r1] x [z0, z1]. *)
Definition volume_cyl (r0 r1 z0 z1 : Q) : geometric_volume Q :=
  {| gv_dim := Dcyl; get_min_corner := veccyl r0 z0; get_max_corner := veccyl r1 z1;
     center := veccyl ((r0 + r1) * (1 # 2)) ((z0 + z1) * (1 # 2)) |}.

Lemma Qeq_bool_intro (a b : Q) : a == b -> Qeq_bool a b = true.
Proof. apply Qeq_bool_iff. Qed.

(** C35: in one dimension every point of the stencil is the centre of the
    pixel.  The offsets of [neighbors[0]] are along x, and a one-dimensional
    pixel extends along z only, so the half-width [d1] that scales them is
    zero: the loop never probes the two ends of the pixel. *)
Theorem stencil_one_dimension (g : globals Q) (z0 z1 : Q) :
  g_dim g = set_dimensions 1 ->
  Forall (fun q => vector3_equal q (vec_to_vector3 (center (volume1 z0 z1))) = true)
         (stencil_points g (volume1 z0 z1)).
Proof.
  intros Hg. unfold stencil_points. rewrite Hg. simpl.
  repeat (apply Forall_cons || apply Forall_nil);
    apply vector3_equal_intro; apply Qeq_bool_intro; simpl; unfold inject_Z; ring.
Qed.

(** C36: in cylindrical coordinates no point of the stencil leaves the plane
    z = const of the centre.  [set_dimensions] selects the two-dimensional
    stencil, whose offsets are along x and y, and a cylindrical pixel extends
    along x (the radius) and z: the loop never probes the pixel along z. *)
Theorem stencil_cylindrical (g : globals Q) (r0 r1 z0 z1 : Q) :
  g_dim g = set_dimensions CYLINDRICAL ->
  Forall (fun q => neqb (vz q) (vz (vec_to_vector3 (center (volume_cyl r0 r1 z0 z1)))) = true
                   /\ neqb (vy q) 0 = true)
         (stencil_points g (volume_cyl r0 r1 z0 z1)).
Proof.
  intros Hg. unfold stencil_points. rewrite Hg. simpl.
  repeat (apply Forall_cons || apply Forall_nil);
    split; apply Qeq_bool_intro; simpl; unfold inject_Z; ring.
Qed.
Definition globals_Q (dims : Z) : globals Q :=
  {| g_dim := set_dimensions dims; default_material := perfect_metal_data;
     ensure_periodicity := false |}.

Lemma stencil_size_witness :
  exists ns, stencil 3 = Ok ns /\
             (Z.of_nat (length ns) = 9)%Z /\ hd_error ns = Some (0, 0, 0)%Z.
Proof.
  eexists. split; [reflexivity|]. apply (stencil_size 3). reflexivity.
Defined.

Lemma stencil_one_dimension_witness :
  Forall (fun q => vector3_equal q (vec_to_vector3 (center (volume1 0 1))) = true)
         (stencil_points (globals_Q 1) (volume1 0 1)).
Proof. apply (stencil_one_dimension (globals_Q 1) 0 1). reflexivity. Defined.

Lemma stencil_cylindrical_witness :
  Forall (fun q => neqb (vz q) (vz (vec_to_vector3 (center (volume_cyl 0 1 0 1)))) = true
                   /\ neqb (vy q) 0 = true)
         (stencil_points (globals_Q CYLINDRICAL) (volume_cyl 0 1 0 1)).
Proof.
  apply (stencil_cylindrical (globals_Q CYLINDRICAL) 0 1 0 1). reflexivity.
Defined.
End ExactStencil.

(** ** Two images of one object *)

Section Images.
Context {D : Type} {N : Number D} {O T : Type} {G : Geom D O T}.

(** C40: a sample with the precedence of the first slot and a different
    shift, another periodic image of the same object, is not skipped: it
    fills the empty second slot. *)
Theorem front_update_second_image (dm : material_type D) (st : front_state D O)
        (o : option O) (s : vector3 D) (id : Z) :
  id1 st = id -> id <> (-1)%Z -> id2 st = (-1)%Z ->
  vector3_equal s (shiftby1 st) = false ->
  front_update dm st (o, s, id) = Some (set_slot2 st o s id (sample_material dm o)).
Proof.
  intros H1 Hid H2 Hs. unfold front_update. rewrite H1, H2, Hs, Z.eqb_refl. simpl.
  destruct (Z.eqb_spec id (-1)) as [E|_]; [contradiction | reflexivity].
Qed.
End Images.

Section ImagesWitness.
Import Slabs.
Local Open Scope float_scope.

Lemma front_update_second_image_witness :
  front_update (diel 1)
    (set_slot1 (front_init junk) (Some (slab (diel 4) 0 1)) (V3 0 0 0) 1 (diel 4))
    (Some (slab (diel 4) 0 1), V3 2 0 0, 1%Z)
  = Some (set_slot2
            (set_slot1 (front_init junk) (Some (slab (diel 4) 0 1)) (V3 0 0 0) 1 (diel 4))
            (Some (slab (diel 4) 0 1)) (V3 2 0 0) 1
            (sample_material (diel 1) (Some (slab (diel 4) 0 1)))).
Proof.
  apply (front_update_second_image (diel 1)
           (set_slot1 (front_init junk) (Some (slab (diel 4) 0 1)) (V3 0 0 0) 1 (diel 4))
           (Some (slab (diel 4) 0 1)) (V3 2 0 0) 1%Z);
    [reflexivity | discriminate | reflexivity | vm_compute; reflexivity].
Defined.
End ImagesWitness.
