(* ===== verification/Polarizability.v ===== *)
(** * Polarizability: the unique polarizabilities of a geometry

    Models lines 623-682 of src/libctl/structure.cpp: the linked list
    [struct pol], [add_pol] (insert unless an equal entry is present),
    [add_pols] (insert every entry of a [polarizability_list]) and
    [geom_epsilon::add_polarizabilities], which collects the polarizabilities
    of the dielectric materials of all objects and of the default material
    and registers each of them once with the [meep::structure].

    The list [pol *] is a [list pol], head first.  The structure is seen
    through the calls it receives: [add_polarizabilities] returns the
    arguments of its calls to [s->add_polarizability], in order.  Entries
    are compared with [==] on doubles, so an entry with a NaN equals nothing,
    not even itself.  The nodes, their allocation and their deletion are in
    PolList.v, and the lines printed in Output.v. *)

From Stdlib Require Import ZArith Bool List Lia SetoidList Floats.
From S2P Require Import Prelude Number Vector3 Material Geometry.
Import ListNotations.

Section Pol.
Context {D : Type} {N : Number D}.
Local Open Scope num_scope.

(** [struct pol] without its [next] pointer. *)
Record pol : Type := {
  p_omega : D;
  p_gamma : D;
  p_deps : D;
  p_esat : D
}.

(** The test of the search loop:
    [p->omega == omega && p->gamma == gamma && p->deps == deps && p->esat == esat]. *)
Definition pol_match (p : pol) (omega gamma deps esat : D) : bool :=
  (p_omega p == omega) && (p_gamma p == gamma) &&
  (p_deps p == deps) && (p_esat p == esat).

(** [while (p && !(...)) p = p->next]: the rest of the list from the first
    matching entry on, or the empty list (the null pointer). *)
Fixpoint pol_search (p : list pol) (omega gamma deps esat : D) : list pol :=
  match p with
  | [] => []
  | x :: next => if negb (pol_match x omega gamma deps esat)
                 then pol_search next omega gamma deps esat
                 else p
  end.

Definition add_pol (pols : list pol) (omega gamma deps esat : D) : list pol :=
  match pol_search pols omega gamma deps esat with
  | [] => {| p_omega := omega; p_gamma := gamma; p_deps := deps; p_esat := esat |}
          :: pols
  | _ :: _ => pols
  end.

Fixpoint add_pols (pols : list pol) (plist : list (polarizability D)) : list pol :=
  match plist with
  | [] => pols
  | item :: rest =>
      add_pols (add_pol pols (omega item) (gamma item) (delta_epsilon item)
                        (energy_saturation item))
               rest
  end.

(** The first loop of [add_polarizabilities], over the materials of the
    objects. *)
Fixpoint add_materials (pols : list pol) (materials : list (material_type D))
  : list pol :=
  match materials with
  | [] => pols
  | dielectric_data d :: rest => add_materials (add_pols pols (polarizations d)) rest
  | _ :: rest => add_materials pols rest
  end.

(** The list [pols] before it is traversed: the objects, then the default
    material. *)
Definition collect_pols (materials : list (material_type D))
           (default_material : material_type D) : list pol :=
  let pols := add_materials [] materials in
  match default_material with
  | dielectric_data d => add_pols pols (polarizations d)
  | _ => pols
  end.

Section WithGeom.
Context {O T : Type} {G : Geom D O T}.

(** [add_polarizabilities]: the arguments of the calls
    to [s->add_polarizability], without the field itself, in order. *)
Definition add_polarizabilities (geometry : list O)
           (default_material : material_type D) : list (D * D * D * D) :=
  map (fun p => (p_omega p, p_gamma p, p_deps p, p_esat p))
      (collect_pols (map material geometry) default_material).
End WithGeom.

(** *** Specification *)

(** The entry a polarizability contributes. *)
Definition pol_of (item : polarizability D) : pol :=
  {| p_omega := omega item; p_gamma := gamma item;
     p_deps := delta_epsilon item; p_esat := energy_saturation item |}.

(** Equality of entries, as the search tests it. *)
Definition pol_eqb (p q : pol) : bool :=
  pol_match p (p_omega q) (p_gamma q) (p_deps q) (p_esat q).

Definition pol_eq (p q : pol) : Prop := pol_eqb p q = true.

(** All the polarizabilities of the dielectric materials, in the order of
    traversal. *)
Fixpoint all_polarizabilities (materials : list (material_type D))
  : list (polarizability D) :=
  match materials with
  | [] => []
  | dielectric_data d :: rest => polarizations d ++ all_polarizabilities rest
  | _ :: rest => all_polarizabilities rest
  end.

(** [q] is in the list or an entry equal to it is. *)
Definition represented (q : pol) (pols : list pol) : Prop :=
  In q pols \/ InA pol_eq q pols.

(** *** [add_pol] *)

Lemma pol_search_nil (p : list pol) (omega gamma deps esat : D) :
  pol_search p omega gamma deps esat = [] <->
  Forall (fun x => pol_match x omega gamma deps esat = false) p.
Proof.
  induction p as [|x p IH]; simpl.
  - split; auto.
  - destruct (pol_match x omega gamma deps esat) eqn:E; simpl.
    + split; [discriminate|]. intros H. apply Forall_cons_iff in H as [H _].
      congruence.
    + rewrite IH. split; [now constructor | intros H; now apply Forall_cons_iff in H].
Qed.

Lemma pol_search_cons (p : list pol) (omega gamma deps esat : D) (y : pol)
      (rest : list pol) :
  pol_search p omega gamma deps esat = y :: rest ->
  In y p /\ pol_match y omega gamma deps esat = true.
Proof.
  induction p as [|x p IH]; simpl; [discriminate|].
  destruct (pol_match x omega gamma deps esat) eqn:E; simpl.
  - intros H. injection H as -> _. auto.
  - intros H. apply IH in H as [H1 H2]. auto.
Qed.

Lemma add_pol_cases (pols : list pol) (q : pol) :
  (Forall (fun x => pol_eqb x q = false) pols /\
   add_pol pols (p_omega q) (p_gamma q) (p_deps q) (p_esat q) = q :: pols) \/
  (Exists (fun x => pol_eqb x q = true) pols /\
   add_pol pols (p_omega q) (p_gamma q) (p_deps q) (p_esat q) = pols).
Proof.
  unfold add_pol.
  destruct (pol_search pols _ _ _ _) as [|y rest] eqn:E.
  - left. apply pol_search_nil in E. split; [exact E | now destruct q].
  - right. split; [|reflexivity]. apply Exists_exists. exists y.
    eapply pol_search_cons. exact E.
Qed.

Section WithLaws.
Context {L : NumberLaws D}.

Lemma pol_eqb_sym (p q : pol) : pol_eqb p q = pol_eqb q p.
Proof.
  unfold pol_eqb, pol_match.
  now rewrite (neqb_sym (p_omega p)), (neqb_sym (p_gamma p)),
    (neqb_sym (p_deps p)), (neqb_sym (p_esat p)).
Qed.

Lemma pol_eqb_trans (p q r : pol) :
  pol_eqb p q = true -> pol_eqb q r = true -> pol_eqb p r = true.
Proof.
  unfold pol_eqb, pol_match. intros H1 H2. bool_to_prop.
  repeat (apply andb_true_iff; split); eapply neqb_trans; eassumption.
Qed.

Lemma InA_pol_eq_iff (q : pol) (pols : list pol) :
  InA pol_eq q pols <-> Exists (fun x => pol_eqb x q = true) pols.
Proof.
  rewrite InA_alt, Exists_exists. unfold pol_eq.
  split; intros (x & Hx & E); exists x; split; auto; now rewrite pol_eqb_sym.
Qed.

(** [add_pol] adds no duplicate to a list that has none. *)
Lemma add_pol_NoDupA (pols : list pol) (q : pol) :
  NoDupA pol_eq pols ->
  NoDupA pol_eq (add_pol pols (p_omega q) (p_gamma q) (p_deps q) (p_esat q)).
Proof.
  intros Hn. destruct (add_pol_cases pols q) as [[Hf ->]|[_ ->]]; [|assumption].
  constructor; [|assumption]. rewrite InA_pol_eq_iff, Exists_exists.
  intros (x & Hx & E). rewrite Forall_forall in Hf. rewrite (Hf x Hx) in E.
  discriminate.
Qed.

(** After [add_pol] the entry is represented, and so is everything that
    was. *)
Lemma add_pol_represented (pols : list pol) (q r : pol) :
  r = q \/ represented r pols ->
  represented r (add_pol pols (p_omega q) (p_gamma q) (p_deps q) (p_esat q)).
Proof.
  unfold represented.
  destruct (add_pol_cases pols q) as [[_ ->]|[He ->]].
  - intros [->|[H|H]]; [left; now left | left; now right | right; now right].
  - intros [->|H]; [|assumption]. right. now apply InA_pol_eq_iff.
Qed.

(** [add_pol] adds nothing but the entry. *)
Lemma add_pol_In (pols : list pol) (q r : pol) :
  In r (add_pol pols (p_omega q) (p_gamma q) (p_deps q) (p_esat q)) ->
  r = q \/ In r pols.
Proof.
  destruct (add_pol_cases pols q) as [[_ ->]|[_ ->]]; simpl; intuition auto.
Qed.

(** *** [add_pols] *)

Lemma add_pols_NoDupA (plist : list (polarizability D)) (pols : list pol) :
  NoDupA pol_eq pols -> NoDupA pol_eq (add_pols pols plist).
Proof.
  revert pols. induction plist as [|item rest IH]; intros pols Hn; simpl; [assumption|].
  apply IH. exact (add_pol_NoDupA pols (pol_of item) Hn).
Qed.

Lemma add_pols_represented (plist : list (polarizability D)) (pols : list pol)
      (r : pol) :
  In r (map pol_of plist) \/ represented r pols ->
  represented r (add_pols pols plist).
Proof.
  revert pols. induction plist as [|item rest IH]; intros pols; simpl.
  - intros [[]|H]. exact H.
  - intros H. apply IH.
    destruct H as [[<-|H]|H]; auto; right;
      apply (add_pol_represented pols (pol_of item)); auto.
Qed.

Lemma add_pols_In (plist : list (polarizability D)) (pols : list pol) (r : pol) :
  In r (add_pols pols plist) -> In r (map pol_of plist) \/ In r pols.
Proof.
  revert pols. induction plist as [|item rest IH]; intros pols; simpl; [auto|].
  intros H. apply IH in H as [H|H]; [auto|].
  apply (add_pol_In pols (pol_of item)) in H as [->|H]; auto.
Qed.

(** *** The traversal of the materials *)

Lemma add_materials_NoDupA (materials : list (material_type D)) (pols : list pol) :
  NoDupA pol_eq pols -> NoDupA pol_eq (add_materials pols materials).
Proof.
  revert pols. induction materials as [|[d| | |f] rest IH]; intros pols Hn; simpl;
    auto using add_pols_NoDupA.
Qed.

Lemma add_materials_represented (materials : list (material_type D))
      (pols : list pol) (r : pol) :
  In r (map pol_of (all_polarizabilities materials)) \/ represented r pols ->
  represented r (add_materials pols materials).
Proof.
  revert pols. induction materials as [|[d| | |f] rest IH]; intros pols; simpl; auto.
  - intros [[]|H]. exact H.
  - rewrite map_app, in_app_iff. intros H. apply IH.
    destruct H as [[H|H]|H]; auto; right; apply add_pols_represented; auto.
Qed.

Lemma add_materials_In (materials : list (material_type D)) (pols : list pol)
      (r : pol) :
  In r (add_materials pols materials) ->
  In r (map pol_of (all_polarizabilities materials)) \/ In r pols.
Proof.
  revert pols. induction materials as [|[d| | |f] rest IH]; intros pols; simpl; auto.
  rewrite map_app, in_app_iff. intros H. apply IH in H as [H|H]; [auto|].
  apply add_pols_In in H as [H|H]; auto.
Qed.

Lemma add_materials_app (m1 m2 : list (material_type D)) (pols : list pol) :
  add_materials pols (m1 ++ m2) = add_materials (add_materials pols m1) m2.
Proof.
  revert pols. induction m1 as [|[d| | |f] rest IH]; intros pols; simpl; auto.
Qed.

(** The default material is treated as one more object at the end. *)
Lemma collect_pols_app (materials : list (material_type D))
      (default_material : material_type D) :
  collect_pols materials default_material =
  add_materials [] (materials ++ [default_material]).
Proof.
  unfold collect_pols. rewrite add_materials_app.
  now destruct default_material.
Qed.

(** *** Counting the entries equal to a given one *)

Lemma NoDupA_count_le (q : pol) (pols : list pol) :
  NoDupA pol_eq pols ->
  (length (filter (fun p => pol_eqb p q) pols) <= 1)%nat.
Proof.
  induction 1 as [|x l Hx Hn IH]; simpl; [lia|].
  destruct (pol_eqb x q) eqn:E; [|exact IH]. simpl.
  destruct (filter (fun p => pol_eqb p q) l) as [|y ys] eqn:F; [simpl; lia|].
  exfalso. apply Hx. apply InA_alt. exists y.
  assert (Hy : In y (filter (fun p => pol_eqb p q) l)) by (rewrite F; now left).
  apply filter_In in Hy as [Hy1 Hy2]. split; [|exact Hy1].
  apply pol_eqb_trans with q; [exact E | now rewrite pol_eqb_sym].
Qed.

Lemma represented_count_ge (q : pol) (pols : list pol) :
  pol_eqb q q = true -> represented q pols ->
  (1 <= length (filter (fun p => pol_eqb p q) pols))%nat.
Proof.
  intros Hq Hr.
  assert (H : exists y, In y (filter (fun p => pol_eqb p q) pols)).
  { destruct Hr as [H|H].
    - exists q. apply filter_In. auto.
    - apply InA_alt in H as (y & Hy & Hin). exists y. apply filter_In.
      split; [exact Hin | now rewrite pol_eqb_sym]. }
  destruct H as [y Hy]. destruct (filter _ pols); [destruct Hy | simpl; lia].
Qed.
(** A tuple with a NaN among its numbers equals no entry, itself
    included: [add_pol] inserts it whatever the list holds, so a
    polarizability with a NaN is registered once for each occurrence. *)
Theorem add_pol_undefined (pols : list pol) (omega gamma deps esat : D) :
  (omega == omega) && (gamma == gamma) && (deps == deps) && (esat == esat) = false ->
  add_pol pols omega gamma deps esat =
  {| p_omega := omega; p_gamma := gamma; p_deps := deps; p_esat := esat |} :: pols.
Proof.
  intros Hu. unfold add_pol.
  assert (E : pol_search pols omega gamma deps esat = []); [|now rewrite E].
  apply pol_search_nil, Forall_forall. intros x _. unfold pol_match.
  destruct (p_omega x == omega) eqn:Eo, (p_gamma x == gamma) eqn:Eg,
    (p_deps x == deps) eqn:Ed, (p_esat x == esat) eqn:Ee; try reflexivity.
  apply neqb_defined_r in Eo, Eg, Ed, Ee. unfold defined in *.
  now rewrite Eo, Eg, Ed, Ee in Hu.
Qed.
End WithLaws.
End Pol.

Arguments pol D : clear implicits.

(** ** What [add_polarizabilities] registers *)

Section Registration.
Context {D : Type} {N : Number D} {L : NumberLaws D}.

(** No two entries of the list [add_polarizabilities] traverses are
    equal (omega, gamma, delta-epsilon and saturation energy compared with
    [==]): the structure never receives the same polarizability twice. *)
Theorem collect_pols_unique (materials : list (material_type D))
        (default_material : material_type D) :
  NoDupA pol_eq (collect_pols materials default_material).
Proof.
  rewrite collect_pols_app. apply add_materials_NoDupA. constructor.
Qed.

(** Every entry that is registered is the polarizability of a dielectric
    material of an object or of the default material. *)
Theorem collect_pols_sound (materials : list (material_type D))
        (default_material : material_type D) (p : pol D) :
  In p (collect_pols materials default_material) ->
  In p (map pol_of (all_polarizabilities (materials ++ [default_material]))).
Proof.
  rewrite collect_pols_app. intros H.
  apply add_materials_In in H as [H|[]]. exact H.
Qed.

(** C5: a polarizability of a dielectric material of an object or of the
    default material whose four numbers are defined is registered exactly
    once, however often it occurs. *)
Theorem collect_pols_once (materials : list (material_type D))
        (default_material : material_type D) (item : polarizability D) :
  pol_eqb (pol_of item) (pol_of item) = true ->
  In item (all_polarizabilities (materials ++ [default_material])) ->
  length (filter (fun p => pol_eqb p (pol_of item))
                 (collect_pols materials default_material)) = 1%nat.
Proof.
  intros Hd Hin.
  assert (Hle : (length (filter (fun p => pol_eqb p (pol_of item))
                                (collect_pols materials default_material)) <= 1)%nat).
  { apply NoDupA_count_le. rewrite collect_pols_app.
    apply add_materials_NoDupA. constructor. }
  assert (Hge : (1 <= length (filter (fun p => pol_eqb p (pol_of item))
                                (collect_pols materials default_material)))%nat).
  { apply represented_count_ge; [exact Hd|]. rewrite collect_pols_app.
    apply add_materials_represented. left. now apply in_map. }
  lia.
Qed.

(** [geom_fix_objects0] leaves the materials of the objects alone: the
    polarizabilities of the normalised objects are those of the objects. *)
Lemma add_polarizabilities_fix {O T : Type} {G : Geom D O T} {GL : GeomLaws G}
      (geometry : list O) (default_material : material_type D) :
  add_polarizabilities (geom_fix_objects0 geometry) default_material =
  add_polarizabilities geometry default_material.
Proof. unfold add_polarizabilities. now rewrite fix_material. Qed.
End Registration.

(** ** Concrete geometries *)

Section PolExamples.
Local Open Scope float_scope.

Definition lorentz (w g s : float) : polarizability float :=
  {| omega := w; gamma := g; delta_epsilon := s; sigma := s;
     energy_saturation := 0 |}.

Definition medium (items : list (polarizability float)) : material_type float :=
  dielectric_data {| epsilon := 1; chi2 := 0; chi3 := 0; polarizations := items |}.

(** Three objects sharing one polarizability, a fourth with another, and
    the vacuum as default material. *)
Definition four_objects : list (material_type float) :=
  [ medium [lorentz 1 0.125 2]; medium [lorentz 1 0.125 2];
    medium [lorentz 1 0.125 2]; medium [lorentz 2 0.25 1] ].

Definition vacuum : material_type float := medium [].

(** Two objects whose polarizability has an undefined frequency. *)
Definition nan_objects : list (material_type float) :=
  [ medium [lorentz nan 0.125 2]; medium [lorentz nan 0.125 2] ].
End PolExamples.

Section PolWitnesses.
Local Open Scope float_scope.

Lemma collect_pols_sound_witness :
  In (pol_of (lorentz 2 0.25 1))
     (map pol_of (all_polarizabilities (four_objects ++ [vacuum]))).
Proof.
  apply (collect_pols_sound four_objects vacuum). vm_compute. auto.
Defined.

Lemma collect_pols_once_witness :
  length (filter (fun p => pol_eqb p (pol_of (lorentz 1 0.125 2)))
                 (collect_pols four_objects vacuum)) = 1%nat.
Proof.
  apply (collect_pols_once four_objects vacuum (lorentz 1 0.125 2)).
  - vm_compute. reflexivity.
  - vm_compute. auto.
Defined.

(** Three objects with the polarizability (1, 0.125, 2, 0) and one with
    (2, 0.25, 1, 0) give exactly two registrations, the later one first. *)
Example add_polarizabilities_two :
  map (fun p => (p_omega p, p_gamma p, p_deps p, p_esat p))
      (collect_pols four_objects vacuum) =
  [ (2, 0.25, 1, 0); (1, 0.125, 2, 0) ].
Proof. vm_compute. reflexivity. Qed.

(** A polarizability with a NaN among its numbers equals no entry, so it
    is registered once for each occurrence. *)
Example add_polarizabilities_nan :
  length (collect_pols nan_objects vacuum) = 2%nat.
Proof. vm_compute. reflexivity. Qed.
Lemma add_pol_undefined_witness :
  add_pol [pol_of (lorentz nan 0.125 2)] nan 0.125 2 0 =
  [ pol_of (lorentz nan 0.125 2); pol_of (lorentz nan 0.125 2) ].
Proof.
  apply (add_pol_undefined [pol_of (lorentz nan 0.125 2)] nan 0.125 2 0).
  reflexivity.
Defined.
End PolWitnesses.

Section PolWitnesses2.
Lemma collect_pols_unique_witness :
  NoDupA pol_eq (collect_pols four_objects vacuum).
Proof. exact (collect_pols_unique four_objects vacuum). Defined.
End PolWitnesses2.
