(* ===== verification/PolList.v ===== *)
(** * PolList: the linked list of [struct pol] in the heap

    Polarizability.v models the list that [add_pol], [add_pols] and
    [geom_epsilon::add_polarizabilities] (lines 623-682 of
    src/libctl/structure.cpp) build as a [list pol].  The source builds it
    from nodes it allocates with [new pol], chains through [next], follows
    in two loops and frees with [delete] in a third.  This file models the
    nodes in a heap, a finite map from addresses to nodes in which the null
    pointer is [None]: following a pointer that is not allocated is undefined
    behaviour, a failure of the model, and so is deleting one.

    The loops that follow [next] are bounded by a fuel: on a chain that
    returns to one of its nodes they would not end.  [pol_list h0 h p l]
    says that the heap [h] is the heap [h0] and, apart from it, a chain
    from [p] that holds the entries [l]; a chain of [n] nodes needs the fuel
    [n].

    The theorems show that every operation keeps [pol_list] and computes
    what the operation on lists computes, and that
    [add_polarizabilities] makes the calls of the model on lists and
    returns the heap as it found it: every node is deleted once, and none
    is read after it was deleted. *)

From stdpp Require Import gmap.
From Stdlib Require Import ZArith Bool String List Lia Floats.
From S2P Require Import Prelude Number Vector3 Material Geometry Polarizability.
Import ListNotations.

Local Open Scope result_scope.

Section Nodes.
Context {D : Type} {N : Number D}.

(** [struct pol]: the four numbers and the pointer [next]. *)
Record pol_node : Type := {
  node_pol : pol D;
  next : option nat
}.

(** Reading [*p]. *)
Definition node_at (a : nat) (h : gmap nat pol_node) : result pol_node :=
  match h !! a with
  | Some node => Ok node
  | None => Fail (Undefined "dangling pol pointer")
  end.

(** [while (p && !(...)) p = p->next]: the pointer the loop ends with. *)
Fixpoint pol_find (fuel : nat) (h : gmap nat pol_node) (p : option nat)
         (omega gamma deps esat : D) : result (option nat) :=
  match p with
  | None => Ok None
  | Some a =>
      node <- node_at a h ;;
      if negb (pol_match (node_pol node) omega gamma deps esat) then
        match fuel with
        | 0%nat => Fail OutOfFuel
        | S fuel' => pol_find fuel' h (next node) omega gamma deps esat
        end
      else Ok p
  end.

(** [p = new pol] with its five assignments. *)
Definition new_pol (pols : option nat) (omega gamma deps esat : D)
           (h : gmap nat pol_node) : nat * gmap nat pol_node :=
  let p := fresh (dom h) in
  (p, <[p := {| node_pol := {| p_omega := omega; p_gamma := gamma;
                               p_deps := deps; p_esat := esat |};
                next := pols |}]> h).

Definition add_pol_heap (fuel : nat) (pols : option nat) (omega gamma deps esat : D)
           (h : gmap nat pol_node) : result (option nat * gmap nat pol_node) :=
  p <- pol_find fuel h pols omega gamma deps esat ;;
  match p with
  | None =>
      let '(p, h) := new_pol pols omega gamma deps esat h in
      Ok (Some p, h)
  | Some _ => Ok (pols, h)
  end.

Fixpoint add_pols_heap (fuel : nat) (pols : option nat)
         (plist : list (polarizability D)) (h : gmap nat pol_node)
  : result (option nat * gmap nat pol_node) :=
  match plist with
  | [] => Ok (pols, h)
  | item :: rest =>
      r <- add_pol_heap fuel pols (omega item) (gamma item) (delta_epsilon item)
                        (energy_saturation item) h ;;
      add_pols_heap fuel r.1 rest r.2
  end.

(** The first loop of [add_polarizabilities], over the materials of the
    objects. *)
Fixpoint add_materials_heap (fuel : nat) (pols : option nat)
         (materials : list (material_type D)) (h : gmap nat pol_node)
  : result (option nat * gmap nat pol_node) :=
  match materials with
  | [] => Ok (pols, h)
  | dielectric_data d :: rest =>
      r <- add_pols_heap fuel pols (polarizations d) h ;;
      add_materials_heap fuel r.1 rest r.2
  | _ :: rest => add_materials_heap fuel pols rest h
  end.

(** [for (struct pol *p = pols; p; p = p->next)]: the arguments of the
    calls of [s->add_polarizability], in order. *)
Fixpoint register_pols (fuel : nat) (h : gmap nat pol_node) (p : option nat)
  : result (list (D * D * D * D)) :=
  match p with
  | None => Ok []
  | Some a =>
      match fuel with
      | 0%nat => Fail OutOfFuel
      | S fuel' =>
          node <- node_at a h ;;
          let q := node_pol node in
          rest <- register_pols fuel' h (next node) ;;
          Ok ((p_omega q, p_gamma q, p_deps q, p_esat q) :: rest)
      end
  end.

(** [delete p]. *)
Definition delete_pol (a : nat) (h : gmap nat pol_node) : result (gmap nat pol_node) :=
  match h !! a with
  | Some _ => Ok (delete a h)
  | None => Fail (Undefined "delete of a pol that is not allocated")
  end.

(** [while (pols) { p = pols; pols = pols->next; delete p; }]. *)
Fixpoint delete_pols (fuel : nat) (pols : option nat) (h : gmap nat pol_node)
  : result (gmap nat pol_node) :=
  match pols with
  | None => Ok h
  | Some p =>
      match fuel with
      | 0%nat => Fail OutOfFuel
      | S fuel' =>
          node <- node_at p h ;;
          h <- delete_pol p h ;;
          delete_pols fuel' (next node) h
      end
  end.

(** The list [pols] before it is traversed: the objects, then the default
    material. *)
Definition collect_pols_heap (fuel : nat) (materials : list (material_type D))
           (default_material : material_type D) (h : gmap nat pol_node)
  : result (option nat * gmap nat pol_node) :=
  r <- add_materials_heap fuel None materials h ;;
  match default_material with
  | dielectric_data d => add_pols_heap fuel r.1 (polarizations d) r.2
  | _ => Ok r
  end.

Section WithGeom.
Context {O T : Type} {G : Geom D O T}.

(** [add_polarizabilities]: the calls of [s->add_polarizability] and the
    heap on return. *)
Definition add_polarizabilities_heap (fuel : nat) (geometry : list O)
           (default_material : material_type D) (h : gmap nat pol_node)
  : result (list (D * D * D * D) * gmap nat pol_node) :=
  r <- collect_pols_heap fuel (map material geometry) default_material h ;;
  cs <- register_pols fuel r.2 r.1 ;;
  h <- delete_pols fuel r.1 r.2 ;;
  Ok (cs, h).
End WithGeom.

(** ** The chain a pointer leads to *)

(** [pol_list h0 h p l]: [h] is [h0] and the nodes of a chain from [p]
    with the entries [l], each at an address of its own. *)
Inductive pol_list (h0 : gmap nat pol_node)
  : gmap nat pol_node -> option nat -> list (pol D) -> Prop :=
  | pol_list_nil : pol_list h0 h0 None []
  | pol_list_cons h a x p l :
      pol_list h0 h p l -> h !! a = None ->
      pol_list h0 (<[a := {| node_pol := x; next := p |}]> h) (Some a) (x :: l).

(** The tuple [add_polarizability] is called with. *)
Definition pol_tuple (q : pol D) : D * D * D * D :=
  (p_omega q, p_gamma q, p_deps q, p_esat q).

(** *** Frame: a new node does not change what a loop finds *)

Lemma node_at_insert_ne (a b : nat) (node node' : pol_node) (h : gmap nat pol_node) :
  h !! a = None -> node_at b h = Ok node' -> node_at b (<[a := node]> h) = Ok node'.
Proof.
  unfold node_at. intros Ha. destruct (h !! b) eqn:E; [|discriminate].
  rewrite lookup_insert_ne by congruence. now rewrite E.
Qed.

Lemma pol_find_insert (fuel : nat) (h : gmap nat pol_node) (a : nat) (node : pol_node)
      (p r : option nat) (omega gamma deps esat : D) :
  h !! a = None ->
  pol_find fuel h p omega gamma deps esat = Ok r ->
  pol_find fuel (<[a := node]> h) p omega gamma deps esat = Ok r.
Proof.
  intros Ha. revert p. induction fuel as [|fuel IH]; intros [b|]; simpl; auto;
    intros H; apply bind_Ok_inv in H as (nd & Hn & H);
    rewrite (node_at_insert_ne _ _ _ _ _ Ha Hn); simpl;
    destruct (negb _); auto; discriminate.
Qed.

Lemma register_pols_insert (fuel : nat) (h : gmap nat pol_node) (a : nat)
      (node : pol_node) (p : option nat) (cs : list (D * D * D * D)) :
  h !! a = None ->
  register_pols fuel h p = Ok cs -> register_pols fuel (<[a := node]> h) p = Ok cs.
Proof.
  intros Ha. revert p cs. induction fuel as [|fuel IH]; intros [b|] cs; simpl; auto.
  intros H. apply bind_Ok_inv in H as (nd & Hn & H).
  apply bind_Ok_inv in H as (rest & Hr & H).
  rewrite (node_at_insert_ne _ _ _ _ _ Ha Hn). simpl.
  now rewrite (IH _ _ Hr).
Qed.

(** *** The loops on a chain *)

(** The search ends at the null pointer exactly when no entry matches. *)
Lemma pol_find_list (h0 h : gmap nat pol_node) (p : option nat) (l : list (pol D))
      (fuel : nat) (omega gamma deps esat : D) :
  pol_list h0 h p l -> length l <= fuel ->
  exists r, pol_find fuel h p omega gamma deps esat = Ok r /\
            (r = None <-> pol_search l omega gamma deps esat = []).
Proof.
  intros Hl. revert fuel. induction Hl as [|h a x p l Hl IH Ha]; intros fuel Hf.
  - exists None. now destruct fuel.
  - assert (E : pol_find fuel (<[a := {| node_pol := x; next := p |}]> h) (Some a)
                         omega gamma deps esat =
                if negb (pol_match x omega gamma deps esat)
                then match fuel with
                     | 0%nat => Fail OutOfFuel
                     | S fuel' => pol_find fuel' (<[a := {| node_pol := x; next := p |}]> h)
                                            p omega gamma deps esat
                     end
                else Ok (Some a)).
    { destruct fuel; simpl; unfold node_at; now rewrite lookup_insert_eq. }
    rewrite E. simpl. destruct (negb (pol_match x omega gamma deps esat)).
    + destruct fuel as [|fuel]; [simpl in Hf; lia|].
      destruct (IH fuel) as (r & Hr & Hn); [simpl in Hf; lia|].
      exists r. split; [|exact Hn]. now apply pol_find_insert.
    + exists (Some a). split; [reflexivity|]. split; discriminate.
Qed.

(** [add_pol] keeps the chain and adds what [add_pol] on lists adds. *)
Lemma add_pol_heap_list (h0 h : gmap nat pol_node) (p : option nat) (l : list (pol D))
      (fuel : nat) (omega gamma deps esat : D) :
  pol_list h0 h p l -> length l <= fuel ->
  exists r, add_pol_heap fuel p omega gamma deps esat h = Ok r /\
            pol_list h0 r.2 r.1 (add_pol l omega gamma deps esat).
Proof.
  intros Hl Hf. unfold add_pol_heap, add_pol.
  destruct (pol_find_list _ _ _ _ _ omega gamma deps esat Hl Hf) as (r & -> & Hn).
  simpl. destruct r as [b|].
  - exists (p, h). split; [reflexivity|].
    destruct (pol_search l omega gamma deps esat) eqn:E; [|exact Hl].
    discriminate (proj2 Hn eq_refl).
  - rewrite (proj1 Hn) by reflexivity. eexists. split; [reflexivity|].
    simpl. constructor; [exact Hl|]. apply not_elem_of_dom, is_fresh.
Qed.

Lemma add_pol_length (l : list (pol D)) (omega gamma deps esat : D) :
  length (add_pol l omega gamma deps esat) <= S (length l).
Proof. unfold add_pol. destruct (pol_search _ _ _ _ _); simpl; lia. Qed.

Lemma add_pols_heap_list (plist : list (polarizability D)) (h0 h : gmap nat pol_node)
      (p : option nat) (l : list (pol D)) (fuel : nat) :
  pol_list h0 h p l -> length l + length plist <= fuel ->
  exists r, add_pols_heap fuel p plist h = Ok r /\
            pol_list h0 r.2 r.1 (add_pols l plist) /\
            length (add_pols l plist) <= length l + length plist.
Proof.
  revert h p l. induction plist as [|item rest IH]; intros h p l Hl Hf; simpl in *.
  - exists (p, h). split; [reflexivity|]. split; [exact Hl | lia].
  - destruct (add_pol_heap_list _ _ _ _ fuel (omega item) (gamma item)
                (delta_epsilon item) (energy_saturation item) Hl) as (r & -> & Hr); [lia|].
    simpl. pose proof (add_pol_length l (omega item) (gamma item) (delta_epsilon item)
                                      (energy_saturation item)) as Hle.
    destruct (IH _ _ _ Hr) as (r' & E & Hr' & Hle'); [lia|].
    exists r'. split; [exact E|]. split; [exact Hr' | lia].
Qed.

Lemma add_materials_heap_list (materials : list (material_type D))
      (h0 h : gmap nat pol_node) (p : option nat) (l : list (pol D)) (fuel : nat) :
  pol_list h0 h p l -> length l + length (all_polarizabilities materials) <= fuel ->
  exists r, add_materials_heap fuel p materials h = Ok r /\
            pol_list h0 r.2 r.1 (add_materials l materials) /\
            length (add_materials l materials) <=
            length l + length (all_polarizabilities materials).
Proof.
  revert h p l. induction materials as [|m rest IH]; intros h p l Hl Hf; simpl in *.
  - exists (p, h). split; [reflexivity|]. split; [exact Hl | lia].
  - destruct m as [d| | |f]; try (apply IH; assumption).
    rewrite length_app in *.
    destruct (add_pols_heap_list (polarizations d) _ _ _ _ fuel Hl)
      as (r & -> & Hr & Hle); [lia|].
    simpl. destruct (IH _ _ _ Hr) as (r' & E & Hr' & Hle'); [lia|].
    exists r'. split; [exact E|]. split; [exact Hr' | lia].
Qed.

(** The second loop reads the entries in the order of the chain. *)
Lemma register_pols_list (h0 h : gmap nat pol_node) (p : option nat) (l : list (pol D))
      (fuel : nat) :
  pol_list h0 h p l -> length l <= fuel ->
  register_pols fuel h p = Ok (map pol_tuple l).
Proof.
  intros Hl. revert fuel. induction Hl as [|h a x p l Hl IH Ha]; intros fuel Hf.
  - now destruct fuel.
  - destruct fuel as [|fuel]; [simpl in Hf; lia|]. simpl.
    unfold node_at. rewrite lookup_insert_eq. simpl.
    rewrite (register_pols_insert _ _ _ _ _ _ Ha (IH fuel ltac:(simpl in Hf; lia))).
    reflexivity.
Qed.

(** The third loop deletes every node of the chain, once. *)
Lemma delete_pols_list (h0 h : gmap nat pol_node) (p : option nat) (l : list (pol D))
      (fuel : nat) :
  pol_list h0 h p l -> length l <= fuel -> delete_pols fuel p h = Ok h0.
Proof.
  intros Hl. revert fuel. induction Hl as [|h a x p l Hl IH Ha]; intros fuel Hf.
  - now destruct fuel.
  - destruct fuel as [|fuel]; [simpl in Hf; lia|]. simpl.
    unfold node_at, delete_pol. rewrite lookup_insert_eq. simpl.
    rewrite delete_insert_id by exact Ha. apply IH. simpl in Hf. lia.
Qed.

(** The nodes of a chain are those the heap has more than [h0]. *)
Lemma pol_list_size (h0 h : gmap nat pol_node) (p : option nat) (l : list (pol D)) :
  pol_list h0 h p l -> size h = (size h0 + length l)%nat.
Proof.
  induction 1 as [|h a x p l Hl IH Ha]; simpl; [lia|].
  rewrite map_size_insert_None by exact Ha. lia.
Qed.

(** ** [add_polarizabilities] on the heap and on lists *)

Section Refines.
Context {O T : Type} {G : Geom D O T}.

Lemma all_polarizabilities_app (m1 m2 : list (material_type D)) :
  all_polarizabilities (m1 ++ m2) = all_polarizabilities m1 ++ all_polarizabilities m2.
Proof.
  induction m1 as [|[d| | |f] rest IH]; simpl; auto. now rewrite IH, app_assoc.
Qed.

(** The chain after the two collecting steps holds [collect_pols]. *)
Lemma collect_pols_heap_list (fuel : nat) (materials : list (material_type D))
      (default_material : material_type D) (h0 : gmap nat pol_node) :
  length (all_polarizabilities (materials ++ [default_material])) <= fuel ->
  exists r,
    collect_pols_heap fuel materials default_material h0 = Ok r /\
    pol_list h0 r.2 r.1 (collect_pols materials default_material) /\
    length (collect_pols materials default_material) <= fuel.
Proof.
  rewrite all_polarizabilities_app, length_app. intros Hf. unfold collect_pols_heap.
  destruct (add_materials_heap_list materials h0 h0 None [] fuel (pol_list_nil h0))
    as (r & -> & Hr & Hle); [simpl; lia|].
  unfold collect_pols. simpl in *.
  destruct default_material as [d| | |f];
    try (exists r; split; [reflexivity|]; split; [exact Hr | lia]).
  simpl in Hf. rewrite app_nil_r in Hf.
  destruct (add_pols_heap_list (polarizations d) _ _ _ _ fuel Hr) as (r' & E & Hr' & Hle');
    [lia|].
  exists r'. split; [exact E|]. split; [exact Hr' | lia].
Qed.

(** C10: [add_polarizabilities] on the heap makes the calls of
    [add_polarizabilities] on lists and returns the heap it was given: no
    node is read or deleted that is not allocated, and every node allocated
    is deleted.  The fuel is the number of polarizabilities of the
    geometry. *)
Theorem add_polarizabilities_heap_list (fuel : nat) (geometry : list O)
        (default_material : material_type D) (h0 : gmap nat pol_node) :
  length (all_polarizabilities (map material geometry ++ [default_material])) <= fuel ->
  add_polarizabilities_heap fuel geometry default_material h0 =
  Ok (add_polarizabilities geometry default_material, h0).
Proof.
  intros Hf. unfold add_polarizabilities_heap, add_polarizabilities.
  destruct (collect_pols_heap_list fuel _ _ h0 Hf) as (r & -> & Hr & Hle). simpl.
  rewrite (register_pols_list _ _ _ _ _ Hr Hle). simpl.
  now rewrite (delete_pols_list _ _ _ _ _ Hr Hle).
Qed.
End Refines.
End Nodes.

(** A chain that returns to its first node: the search for a tuple that is
    not in it does not end.  The chains [add_pol] builds are never of this
    kind ([pol_list]). *)
Lemma pol_find_cycle {D : Type} {N : Number D} (fuel : nat) (h : gmap nat pol_node)
      (a : nat) (x : pol D) (omega gamma deps esat : D) :
  h !! a = Some {| node_pol := x; next := Some a |} ->
  pol_match x omega gamma deps esat = false ->
  pol_find fuel h (Some a) omega gamma deps esat = Fail OutOfFuel.
Proof.
  intros Ha Hx.
  induction fuel as [|fuel IH]; simpl; unfold node_at; rewrite Ha; simpl; now rewrite Hx.
Qed.

(** ** Examples *)

Section NodesWitness.
Import Slabs.
Local Open Scope float_scope.

(** Three slabs: two media that share a polarizability, and a metal. *)
Definition three_media : list (geometric_object float) :=
  [ slab (medium [lorentz 1 0.125 2]) 0 1;
    slab (medium [lorentz 1 0.125 2; lorentz 2 0.25 1]) 1 2;
    slab perfect_metal_data 2 3 ].

Lemma add_polarizabilities_heap_list_witness :
  add_polarizabilities_heap 4 three_media (medium [lorentz 2 0.25 1]) ∅ =
  Ok (add_polarizabilities three_media (medium [lorentz 2 0.25 1]), ∅).
Proof. apply add_polarizabilities_heap_list. vm_compute. lia. Defined.

(** Two nodes are allocated for the four polarizabilities, and the calls
    are in the order of the chain, last inserted first. *)
Example add_polarizabilities_heap_calls :
  add_polarizabilities_heap 4 three_media (medium [lorentz 2 0.25 1]) ∅ =
  Ok ([(2, 0.25, 1, 0); (1, 0.125, 2, 0)], ∅).
Proof. vm_compute. reflexivity. Qed.
End NodesWitness.
