(* ===== verification/Epsilon.v ===== *)
(** * Epsilon: the class geom_epsilon, its trees and its point queries

    Models the parts of [class geom_epsilon] of src/libctl/structure.cpp
    that are not subpixel averaging: the constructor and the destructor
    (lines 111-150), [unset_volume] and [set_volume] (152-166), [eps]
    (217-253), [has_chi3], [chi3], [has_chi2], [chi2] (485-583) and [sigma]
    (585-621).

    The trees live in a store [gmap nat T] from addresses to trees:
    [create_geom_box_tree0] allocates, [destroy_geom_box_tree] frees, and the
    two members [geometry_tree] and [restricted_tree] are addresses, compared
    as the pointers are.  Freeing or reading an address that is not
    allocated is undefined behaviour, a failure of the model.  The theorems
    show that an object that is used through its methods never does either,
    owns at most two trees, and gives back what it allocated.

    A sequence of calls of [set_volume] and [unset_volume] leaves the object
    restricted to a region ([region_of]) whose tree is known without
    running the calls ([trees_of]); inside that region [eps] is what the
    object as constructed returns, and two indexes that answer alike at a
    point give the same [eps] there.  For materials that need no Scheme
    procedure the four point queries return a value at every point, and
    [has_chi3] and [has_chi2] say whether [chi3] and [chi2] can be other
    than zero. *)

From stdpp Require Import gmap.
From Stdlib Require Import ZArith Bool String List Lia Floats.
From S2P Require Import Prelude Number Vector3 Material Geometry.
Import ListNotations.

Local Open Scope result_scope.

Section Store.
Context {T : Type}.

(** [create_geom_box_tree0] returns a pointer to a new tree. *)
Definition new_tree (t : T) (h : gmap nat T) : nat * gmap nat T :=
  let a := fresh (dom h) in (a, <[a := t]> h).

Definition destroy_geom_box_tree (a : nat) (h : gmap nat T) : result (gmap nat T) :=
  match h !! a with
  | Some _ => Ok (delete a h)
  | None => Fail (Undefined "destroy_geom_box_tree: dangling pointer")
  end.

(** Dereferencing a tree pointer. *)
Definition tree_at (a : nat) (h : gmap nat T) : result T :=
  match h !! a with
  | Some t => Ok t
  | None => Fail (Undefined "dangling tree pointer")
  end.
End Store.

Section Epsilon.
Context {D : Type} {N : Number D} {O T : Type} {G : Geom D O T}.

(** The Scheme evaluator and the fuel of [eval_material_func]. *)
Variable call_material_func : function -> vector3 D -> material_type D.
Variable fuel : nat.

(** The data members of the class. *)
Record geom_epsilon : Type := {
  geometry : list O;
  geometry_tree : nat;
  restricted_tree : nat
}.

(** The constructor.  [geom_fix_objects0] normalises the objects in place:
    the member [geometry] holds the normalised objects.  What the
    constructor prints is in Output.v. *)
Definition geom_epsilon_ctor (g : globals D) (geometry : list O)
           (gv : geometric_volume D) (h : gmap nat T)
  : geom_epsilon * gmap nat T :=
  let geometry := geom_fix_objects0 geometry in
  let box := gv2box gv in
  let '(a, h) := new_tree (create_geom_box_tree0 (ensure_periodicity g) geometry box) h in
  ({| geometry := geometry; geometry_tree := a; restricted_tree := a |}, h).

Definition unset_volume (this : geom_epsilon) (h : gmap nat T)
  : result (geom_epsilon * gmap nat T) :=
  if negb (restricted_tree this =? geometry_tree this)%nat then
    h <- destroy_geom_box_tree (restricted_tree this) h ;;
    Ok ({| geometry := geometry this; geometry_tree := geometry_tree this;
           restricted_tree := geometry_tree this |}, h)
  else Ok (this, h).

Definition set_volume (g : globals D) (this : geom_epsilon)
           (gv : geometric_volume D) (h : gmap nat T)
  : result (geom_epsilon * gmap nat T) :=
  r <- unset_volume this h ;;
  let '(this, h) := r in
  let box := gv2box gv in
  let '(a, h) := new_tree (create_geom_box_tree0 (ensure_periodicity g)
                                                 (geometry this) box) h in
  Ok ({| geometry := geometry this; geometry_tree := geometry_tree this;
         restricted_tree := a |}, h).

(** The destructor. *)
Definition geom_epsilon_dtor (this : geom_epsilon) (h : gmap nat T)
  : result (gmap nat T) :=
  r <- unset_volume this h ;;
  let '(this, h) := r in
  destroy_geom_box_tree (geometry_tree this) h.

(** *** Point queries *)

(** The material at [p], as [eps], [chi3], [chi2] and [sigma] all find it:
    the material of the tree, the default material for MATERIAL_TYPE_SELF,
    and the result of the Scheme procedure for a material function. *)
Definition point_material (g : globals D) (p : vector3 D) (t : T)
  : result (material_type D) :=
  let '(material, inobject) :=
    material_of_unshifted_point_in_tree_inobject (default_material g) p t in
  let material :=
    if subclass_tag_eqb (which_subclass material) MATERIAL_TYPE_SELF
    then default_material g else material in
  match material with
  | material_function_data material_func =>
      eval_material_func call_material_func fuel (default_material g) material_func p
  | _ => Ok material
  end.

(** [eps]; [debug] says whether the code was compiled with DEBUG, which adds
    the test that the point is inside the box of the tree. *)
Definition eps (debug : bool) (g : globals D) (this : geom_epsilon)
           (h : gmap nat T) (r : vec D) : result D :=
  let p := vec_to_vector3 r in
  t <- tree_at (restricted_tree this) h ;;
  CK (negb debug || point_in_box p (tree_box t)) "invalid point" ;;;
  material <- point_material g p t ;;
  e <- material_eps material ;;
  let '(eps, eps_inv) := e in
  Ok eps.

(** The loops of [has_chi3] and [has_chi2] over the objects, for the
    coefficient [chi]. *)
Fixpoint has_chi (chi : dielectric D -> D) (geometry : list O) : bool :=
  match geometry with
  | [] => false
  | o :: rest =>
      match material o with
      | dielectric_data d => if negb (neqb (chi d) n_zero) then true else has_chi chi rest
      | _ => has_chi chi rest
      end
  end.

Definition default_has_chi (chi : dielectric D -> D) (g : globals D) : bool :=
  match default_material g with
  | dielectric_data d => negb (neqb (chi d) n_zero)
  | _ => false
  end.

Definition has_chi3 (g : globals D) (this : geom_epsilon) : bool :=
  if has_chi (@chi3 D) (geometry this) then true else default_has_chi (@chi3 D) g.

Definition has_chi2 (g : globals D) (this : geom_epsilon) : bool :=
  if has_chi (@chi2 D) (geometry this) then true else default_has_chi (@chi2 D) g.

(** The [switch] of [chi3] and [chi2]. *)
Definition chi_val (chi : dielectric D -> D) (material : material_type D) : D :=
  match material with
  | dielectric_data d => chi d
  | _ => n_zero
  end.

Definition geom_epsilon_chi3 (g : globals D) (this : geom_epsilon)
           (h : gmap nat T) (r : vec D) : result D :=
  let p := vec_to_vector3 r in
  t <- tree_at (restricted_tree this) h ;;
  material <- point_material g p t ;;
  Ok (chi_val (@chi3 D) material).

Definition geom_epsilon_chi2 (g : globals D) (this : geom_epsilon)
           (h : gmap nat T) (r : vec D) : result D :=
  let p := vec_to_vector3 r in
  t <- tree_at (restricted_tree this) h ;;
  material <- point_material g p t ;;
  Ok (chi_val (@chi2 D) material).

(** The loop of [sigma] over the polarizabilities, with its [break]. *)
Fixpoint sigma_search (plist : list (polarizability D))
         (omega0 gamma0 deps energy_sat : D) : D :=
  match plist with
  | [] => n_zero
  | item :: rest =>
      if neqb (omega item) omega0 && neqb (gamma item) gamma0 &&
         neqb (delta_epsilon item) deps && neqb (energy_saturation item) energy_sat
      then sigma item
      else sigma_search rest omega0 gamma0 deps energy_sat
  end.

(** [sigma]; [omega0], [gamma0], [deps] and [energy_sat] are the members of
    [meep::material_function] that [add_polarizability] sets before it
    calls. *)
Definition geom_epsilon_sigma (omega0 gamma0 deps energy_sat : D) (g : globals D)
           (this : geom_epsilon) (h : gmap nat T) (r : vec D) : result D :=
  let p := vec_to_vector3 r in
  t <- tree_at (restricted_tree this) h ;;
  material <- point_material g p t ;;
  Ok (match material with
      | dielectric_data d =>
          sigma_search (polarizations d) omega0 gamma0 deps energy_sat
      | _ => n_zero
      end).
End Epsilon.

Arguments geom_epsilon O : clear implicits.


(** ** The trees an object owns *)

Section Ownership.
Context {D : Type} {N : Number D} {O T : Type} {G : Geom D O T}.

(** [owned per h0 this h]: the store [h] is the store [h0] in which the
    object was constructed plus the trees of the object, which are trees of
    its [geometry]: one tree when the object is not restricted, two
    different trees when it is. *)
Inductive owned (per : bool) (h0 : gmap nat T) : geom_epsilon O -> gmap nat T -> Prop :=
  | owned_one geo a bx :
      h0 !! a = None ->
      owned per h0 {| geometry := geo; geometry_tree := a; restricted_tree := a |}
            (<[a := create_geom_box_tree0 per geo bx]> h0)
  | owned_two geo a b bx bx' :
      h0 !! a = None -> h0 !! b = None -> a <> b ->
      owned per h0 {| geometry := geo; geometry_tree := a; restricted_tree := b |}
            (<[b := create_geom_box_tree0 per geo bx']>
               (<[a := create_geom_box_tree0 per geo bx]> h0)).

(** The sequences of calls a client makes between construction and
    destruction. *)
Inductive method : Type :=
  | SetVolume (gv : geometric_volume D)
  | UnsetVolume.

Definition call (g : globals D) (m : method) (s : geom_epsilon O * gmap nat T)
  : result (geom_epsilon O * gmap nat T) :=
  match m with
  | SetVolume gv => set_volume g (fst s) gv (snd s)
  | UnsetVolume => unset_volume (fst s) (snd s)
  end.

Fixpoint calls (g : globals D) (ms : list method) (s : geom_epsilon O * gmap nat T)
  : result (geom_epsilon O * gmap nat T) :=
  match ms with
  | [] => Ok s
  | m :: ms => s <- call g m s ;; calls g ms s
  end.

(** Calls in sequence. *)
Lemma calls_app (g : globals D) (ms ms' : list method)
      (s : geom_epsilon O * gmap nat T) :
  calls g (ms ++ ms') s = (s' <- calls g ms s ;; calls g ms' s').
Proof.
  revert s. induction ms as [|m ms IH]; intros s; simpl; [reflexivity|].
  destruct (call g m s); simpl; [apply IH | reflexivity].
Qed.

Lemma new_tree_fresh (t : T) (h : gmap nat T) :
  h !! (new_tree t h).1 = None /\ (new_tree t h).2 = <[(new_tree t h).1 := t]> h.
Proof.
  unfold new_tree. simpl. split; [|reflexivity].
  apply not_elem_of_dom, is_fresh.
Qed.

Lemma destroy_insert (a : nat) (t : T) (h : gmap nat T) :
  h !! a = None -> destroy_geom_box_tree a (<[a := t]> h) = Ok h.
Proof.
  intros Ha. unfold destroy_geom_box_tree.
  now rewrite lookup_insert_eq, delete_insert_id.
Qed.

Lemma geom_epsilon_ctor_owned (g : globals D) (geo : list O)
      (gv : geometric_volume D) (h0 : gmap nat T) :
  owned (ensure_periodicity g) h0 (geom_epsilon_ctor g geo gv h0).1
        (geom_epsilon_ctor g geo gv h0).2 /\
  geometry (geom_epsilon_ctor g geo gv h0).1 = geom_fix_objects0 geo.
Proof.
  unfold geom_epsilon_ctor, new_tree. simpl. split; [|reflexivity].
  constructor. apply not_elem_of_dom, is_fresh.
Qed.

(** [unset_volume] succeeds and leaves the object with its first tree
    only. *)
Lemma unset_volume_owned (per : bool) (h0 h : gmap nat T) (this : geom_epsilon O) :
  owned per h0 this h ->
  exists this' h',
    unset_volume this h = Ok (this', h') /\ owned per h0 this' h' /\
    geometry this' = geometry this /\
    geometry_tree this' = geometry_tree this /\
    restricted_tree this' = geometry_tree this /\
    h' !! geometry_tree this = h !! geometry_tree this.
Proof.
  intros [geo a bx Ha | geo a b bx bx' Ha Hb Hab]; unfold unset_volume; simpl.
  - rewrite Nat.eqb_refl. simpl. eexists _, _. split; [reflexivity|].
    split; [now constructor | auto].
  - apply not_eq_sym, Nat.eqb_neq in Hab as Hba. rewrite Hba. simpl.
    rewrite destroy_insert by now rewrite lookup_insert_ne.
    simpl. eexists _, _. split; [reflexivity|].
    split; [now constructor|]. simpl. now rewrite (lookup_insert_ne _ b a).
Qed.

(** [set_volume] succeeds and leaves the object with its first tree and a
    new second tree. *)
Lemma set_volume_owned (g : globals D) (h0 h : gmap nat T) (this : geom_epsilon O)
      (gv : geometric_volume D) :
  owned (ensure_periodicity g) h0 this h ->
  exists this' h',
    set_volume g this gv h = Ok (this', h') /\
    owned (ensure_periodicity g) h0 this' h' /\
    geometry this' = geometry this /\
    geometry_tree this' = geometry_tree this /\
    h' !! restricted_tree this' =
    Some (create_geom_box_tree0 (ensure_periodicity g) (geometry this) (gv2box gv)) /\
    h' !! geometry_tree this = h !! geometry_tree this.
Proof.
  intros Ho. unfold set_volume.
  destruct (unset_volume_owned _ _ _ _ Ho) as (t1 & h1 & -> & Ho1 & Hg & Ha & Hr & Hh).
  unfold new_tree. simpl.
  assert (Hb : h1 !! fresh (dom h1) = None) by apply not_elem_of_dom, is_fresh.
  generalize dependent (fresh (dom h1)). intros b Hb.
  eexists _, _. split; [reflexivity|]. simpl.
  destruct Ho1 as [geo a bx Ha1 | geo a c bx bx' Ha1 Hc Hac];
    simpl in *; [|congruence]. subst geo. rewrite <- Hh, <- Ha.
  apply lookup_insert_None in Hb as [Hb Hab].
  split; [now constructor|]. rewrite lookup_insert_eq, lookup_insert_ne by auto. auto.
Qed.

Lemma geom_epsilon_dtor_owned (per : bool) (h0 h : gmap nat T) (this : geom_epsilon O) :
  owned per h0 this h -> geom_epsilon_dtor this h = Ok h0.
Proof.
  intros Ho. unfold geom_epsilon_dtor.
  destruct (unset_volume_owned _ _ _ _ Ho) as (t1 & h1 & -> & Ho1 & _ & Hg & Hr & _).
  simpl. destruct Ho1 as [geo a bx Ha | geo a b bx bx' Ha Hb Hab]; simpl in *.
  - now apply destroy_insert.
  - congruence.
Qed.

Lemma calls_owned (g : globals D) (h0 : gmap nat T) (ms : list method)
      (s : geom_epsilon O * gmap nat T) :
  owned (ensure_periodicity g) h0 s.1 s.2 ->
  exists s', calls g ms s = Ok s' /\ owned (ensure_periodicity g) h0 s'.1 s'.2 /\
             geometry s'.1 = geometry s.1.
Proof.
  revert s. induction ms as [|m ms IH]; intros s Ho; simpl; [eauto|].
  assert (H1 : exists s1, call g m s = Ok s1 /\
                          owned (ensure_periodicity g) h0 s1.1 s1.2 /\
                          geometry s1.1 = geometry s.1).
  { destruct m as [gv|]; simpl.
    - destruct (set_volume_owned g _ _ _ gv Ho) as (t & h & E & Ho' & Hg & _).
      exists (t, h). auto.
    - destruct (unset_volume_owned _ _ _ _ Ho) as (t & h & E & Ho' & Hg & _).
      exists (t, h). auto. }
  destruct H1 as (s1 & -> & Ho1 & Hg1). simpl.
  destruct (IH s1 Ho1) as (s' & E & Ho' & Hg'). exists s'.
  split; [exact E|]. split; [exact Ho'|]. now rewrite Hg'.
Qed.

(** A local object: constructed, used through the calls [ms], and destroyed
    when its scope ends.  Nothing fails and the store is back to what it
    was. *)
Lemma geom_epsilon_scope (g : globals D) (geo : list O) (gv : geometric_volume D)
      (h : gmap nat T) (ms : list method) :
  exists s, calls g ms (geom_epsilon_ctor g geo gv h) = Ok s /\
            geom_epsilon_dtor s.1 s.2 = Ok h /\
            geometry s.1 = geom_fix_objects0 geo.
Proof.
  destruct (geom_epsilon_ctor_owned g geo gv h) as [Ho Hg].
  destruct (calls_owned g h ms _ Ho) as (s & E & Ho' & Hg').
  exists s. split; [exact E|]. split; [|congruence].
  eapply geom_epsilon_dtor_owned, Ho'.
Qed.

(** In every state the two pointers of the object are allocated, and their
    trees are trees of its geometry. *)
Lemma owned_trees (per : bool) (h0 h : gmap nat T) (this : geom_epsilon O) :
  owned per h0 this h ->
  exists bx bx',
    h !! geometry_tree this = Some (create_geom_box_tree0 per (geometry this) bx) /\
    h !! restricted_tree this = Some (create_geom_box_tree0 per (geometry this) bx').
Proof.
  intros [geo a bx Ha | geo a b bx bx' Ha Hb Hab]; simpl.
  - exists bx, bx. now rewrite lookup_insert_eq.
  - exists bx, bx'. now rewrite lookup_insert_eq, lookup_insert_ne, lookup_insert_eq.
Qed.

(** C4: an object that is constructed, used through any sequence of
    [set_volume] and [unset_volume] and then destroyed never fails (it frees
    no tree twice and no tree it does not own), and the store of trees is
    afterwards what it was before the construction: nothing leaks. *)
Theorem geom_epsilon_lifecycle (g : globals D) (geo : list O)
        (gv : geometric_volume D) (h0 : gmap nat T) (ms : list method) :
  exists s, calls g ms (geom_epsilon_ctor g geo gv h0) = Ok s /\
            geom_epsilon_dtor s.1 s.2 = Ok h0.
Proof.
  destruct (geom_epsilon_ctor_owned g geo gv h0) as [Ho _].
  destruct (calls_owned g h0 ms _ Ho) as (s & E & Ho' & _).
  exists s. split; [exact E|]. eapply geom_epsilon_dtor_owned, Ho'.
Qed.

(** [set_volume] followed by [unset_volume] brings an unrestricted object
    and the store back to exactly the state before: every later query
    gives the result it gave before the restriction. *)
Lemma set_volume_unset_volume (g : globals D) (h0 h : gmap nat T)
        (this : geom_epsilon O) (gv : geometric_volume D) :
  owned (ensure_periodicity g) h0 this h ->
  restricted_tree this = geometry_tree this ->
  (s <- set_volume g this gv h ;; unset_volume s.1 s.2) = Ok (this, h).
Proof.
  intros Ho Hr. destruct Ho as [geo a bx Ha | geo a b bx bx' Ha Hb Hab];
    simpl in Hr; [|congruence].
  set (h1 := <[a := create_geom_box_tree0 (ensure_periodicity g) geo bx]> h0).
  assert (Hb : h1 !! fresh (dom h1) = None) by apply not_elem_of_dom, is_fresh.
  assert (Hab : (fresh (dom h1) =? a)%nat = false).
  { apply Nat.eqb_neq. intros E. rewrite E in Hb. unfold h1 in Hb.
    now rewrite lookup_insert_eq in Hb. }
  unfold set_volume, unset_volume, new_tree. simpl.
  rewrite Nat.eqb_refl. simpl. fold h1. rewrite Hab. simpl.
  now rewrite destroy_insert.
Qed.
End Ownership.

(** ** The region an object is restricted to *)

Section Regions.
Context {D : Type} {N : Number D} {O T : Type} {G : Geom D O T}.

(** The box of the restricted tree after a call, [bx] being the box of the
    constructor and [bx'] the box before the call. *)
Definition region_after (m : method) (bx bx' : geom_box D) : geom_box D :=
  match m with
  | SetVolume gv => gv2box gv
  | UnsetVolume => bx
  end.

Fixpoint region_of (ms : list method) (bx bx' : geom_box D) : geom_box D :=
  match ms with
  | [] => bx'
  | m :: ms => region_of ms bx (region_after m bx bx')
  end.

(** The two trees of the object are the trees of its geometry for the
    boxes [bx] and [bx']. *)
Definition trees_of (per : bool) (s : geom_epsilon O * gmap nat T)
           (bx bx' : geom_box D) : Prop :=
  s.2 !! geometry_tree s.1 = Some (create_geom_box_tree0 per (geometry s.1) bx) /\
  s.2 !! restricted_tree s.1 = Some (create_geom_box_tree0 per (geometry s.1) bx').

Lemma ctor_trees (g : globals D) (geo : list O) (gv : geometric_volume D)
      (h0 : gmap nat T) :
  trees_of (ensure_periodicity g) (geom_epsilon_ctor g geo gv h0) (gv2box gv) (gv2box gv).
Proof.
  unfold trees_of, geom_epsilon_ctor, new_tree. simpl. now rewrite lookup_insert_eq.
Qed.

Lemma call_trees (g : globals D) (h0 : gmap nat T) (m : method)
      (s : geom_epsilon O * gmap nat T) (bx bx' : geom_box D) :
  owned (ensure_periodicity g) h0 s.1 s.2 -> trees_of (ensure_periodicity g) s bx bx' ->
  exists s', call g m s = Ok s' /\ owned (ensure_periodicity g) h0 s'.1 s'.2 /\
             geometry s'.1 = geometry s.1 /\
             trees_of (ensure_periodicity g) s' bx (region_after m bx bx').
Proof.
  intros Ho [Hg Hr]. destruct m as [gv|]; simpl.
  - destruct (set_volume_owned g _ _ _ gv Ho) as (t & h & E & Ho' & Hgeo & Ha & Ht & Hh).
    exists (t, h). repeat split; auto; simpl; rewrite Hgeo; [|exact Ht].
    now rewrite Ha, Hh.
  - destruct (unset_volume_owned _ _ _ _ Ho) as (t & h & E & Ho' & Hgeo & Ha & Hr' & Hh).
    exists (t, h). repeat split; auto; simpl; rewrite Hgeo, ?Hr', ?Ha, Hh; exact Hg.
Qed.

(** After any sequence of calls the object queries the tree of its geometry
    for the region of the last [set_volume] that no [unset_volume]
    followed, and for the box of the constructor if there is none. *)
Lemma calls_trees (g : globals D) (h0 : gmap nat T) (ms : list method)
      (s : geom_epsilon O * gmap nat T) (bx bx' : geom_box D) :
  owned (ensure_periodicity g) h0 s.1 s.2 -> trees_of (ensure_periodicity g) s bx bx' ->
  exists s', calls g ms s = Ok s' /\ geometry s'.1 = geometry s.1 /\
             trees_of (ensure_periodicity g) s' bx (region_of ms bx bx').
Proof.
  revert s bx'. induction ms as [|m ms IH]; intros s bx' Ho Ht; simpl; [eauto|].
  destruct (call_trees g h0 m s bx bx' Ho Ht) as (s1 & -> & Ho1 & <- & Ht1). simpl.
  exact (IH s1 _ Ho1 Ht1).
Qed.

(** The calls [ms] on a new object succeed, and the state after them. *)
Lemma calls_ctor (g : globals D) (geo : list O) (gv : geometric_volume D)
      (h0 : gmap nat T) (ms : list method) :
  exists s,
    calls g ms (geom_epsilon_ctor g geo gv h0) = Ok s /\
    s.2 !! restricted_tree s.1 =
    Some (create_geom_box_tree0 (ensure_periodicity g) (geom_fix_objects0 geo)
                                (region_of ms (gv2box gv) (gv2box gv))) /\
    s.2 !! geometry_tree s.1 =
    Some (create_geom_box_tree0 (ensure_periodicity g) (geom_fix_objects0 geo)
                                (gv2box gv)).
Proof.
  destruct (geom_epsilon_ctor_owned g geo gv h0) as [Ho Hg].
  destruct (calls_trees g h0 ms _ _ _ Ho (ctor_trees g geo gv h0))
    as (s & E & Hg' & Hgt & Ht).
  rewrite Hg', Hg in Ht, Hgt. eauto.
Qed.
End Regions.

(** ** The point queries *)

Section Queries.
Context {D : Type} {N : Number D} {L : NumberLaws D}.
Context {O T : Type} {G : Geom D O T} {GL : GeomLaws G}.
Variable call_material_func : function -> vector3 D -> material_type D.
Variable fuel : nat.

(** The material the index finds at [p]: that of the object in front, or
    the default material. *)
Definition found_material (g : globals D) (p : vector3 D) (t : T) : material_type D :=
  match object_of_point_in_tree p t with
  | (Some o, _, _) => material o
  | (None, _, _) => default_material g
  end.

(** A material that needs no Scheme procedure and is no reference to the
    default material. *)
Definition fixed (m : material_type D) : bool :=
  match m with
  | dielectric_data _ | perfect_metal_data => true
  | _ => false
  end.

Lemma point_material_found (g : globals D) (p : vector3 D) (t : T) :
  point_material call_material_func fuel g p t =
  match (if subclass_tag_eqb (which_subclass (found_material g p t)) MATERIAL_TYPE_SELF
         then default_material g else found_material g p t) with
  | material_function_data f =>
      eval_material_func call_material_func fuel (default_material g) f p
  | m => Ok m
  end.
Proof.
  unfold point_material, found_material. rewrite material_of_point.
  destruct (object_of_point_in_tree p t) as [[[o|] s] id]; simpl;
    destruct (if subclass_tag_eqb _ _ then _ else _); reflexivity.
Qed.

Lemma point_material_fixed (g : globals D) (p : vector3 D) (t : T) :
  fixed (found_material g p t) = true ->
  point_material call_material_func fuel g p t = Ok (found_material g p t).
Proof.
  rewrite point_material_found. now destruct (found_material g p t).
Qed.

(** The material found in a tree of the objects [geo] is the material of
    one of them or the default material. *)
Lemma found_material_In (g : globals D) (per : bool) (geo : list O)
      (bx : geom_box D) (p : vector3 D) :
  In (found_material g p (create_geom_box_tree0 per geo bx))
     (default_material g :: map material geo).
Proof.
  unfold found_material.
  destruct (object_of_point_in_tree p _) as [[[o|] s] id] eqn:E; [|now left].
  right. apply in_map. apply create_position in E. eapply nth_error_In, E.
Qed.

(** Inside both boxes the material found does not depend on the box the
    tree was built for. *)
Lemma found_material_restrict (g : globals D) (per : bool) (geo : list O)
      (bx bx' : geom_box D) (p : vector3 D) :
  point_in_box p bx = true -> point_in_box p bx' = true ->
  found_material g p (create_geom_box_tree0 per geo bx) =
  found_material g p (create_geom_box_tree0 per geo bx').
Proof.
  intros H H'. unfold found_material. now rewrite (create_restrict per geo bx bx' p).
Qed.

Lemma eps_at (debug : bool) (g : globals D) (this : geom_epsilon O)
      (h : gmap nat T) (r : vec D) (t : T) :
  h !! restricted_tree this = Some t ->
  negb debug || point_in_box (vec_to_vector3 r) (tree_box t) = true ->
  eps call_material_func fuel debug g this h r =
  (material <- point_material call_material_func fuel g (vec_to_vector3 r) t ;;
   e <- material_eps material ;; Ok e.1).
Proof.
  intros Ht Hb. unfold eps, tree_at. rewrite Ht. simpl. rewrite Hb. simpl.
  destruct (point_material _ _ _ _ _); simpl; [|reflexivity].
  now destruct (material_eps _) as [[e1 e2]|].
Qed.

(** A dielectric with a coefficient [chi] that is not zero. *)
Definition chi_nonzero (chi : dielectric D -> D) (m : material_type D) : bool :=
  match m with
  | dielectric_data d => negb (neqb (chi d) n_zero)
  | _ => false
  end.

Lemma has_chi_existsb (chi : dielectric D -> D) (geo : list O) :
  has_chi chi geo = existsb (chi_nonzero chi) (map material geo).
Proof.
  induction geo as [|o geo IH]; simpl; [reflexivity|].
  rewrite IH. destruct (material o); simpl; try reflexivity;
    now destruct (negb _).
Qed.

Lemma chi_val_zero (chi : dielectric D -> D) (m : material_type D) :
  chi_nonzero chi m = false -> neqb (chi_val chi m) n_zero = true.
Proof.
  destruct m; simpl; try (intros _; apply neqb_zero).
  now intros H%negb_false_iff.
Qed.

(** [eps] at a point inside an object with a dielectric material is
    the [epsilon] of that material, the object being the one the index
    reports for the point. *)
Theorem eps_front_object (g : globals D) (this : geom_epsilon O) (h : gmap nat T)
        (r : vec D) (t : T) (o : O) (s : vector3 D) (id : Z) (d : dielectric D) :
  h !! restricted_tree this = Some t ->
  object_of_point_in_tree (vec_to_vector3 r) t = (Some o, s, id) ->
  material o = dielectric_data d ->
  eps call_material_func fuel false g this h r = Ok (epsilon d).
Proof.
  intros Ht Ho Hm. rewrite (eps_at false g this h r t Ht eq_refl).
  rewrite point_material_fixed; unfold found_material; rewrite Ho, Hm; reflexivity.
Qed.

(** When neither the default material nor the material of any object
    is a material function or MATERIAL_TYPE_SELF, [eps] returns a value at
    every point, in every state of the object. *)
Lemma eps_defined (per : bool) (g : globals D) (this : geom_epsilon O)
        (h0 h : gmap nat T) (r : vec D) :
  owned per h0 this h ->
  forallb fixed (default_material g :: map material (geometry this)) = true ->
  is_ok (eps call_material_func fuel false g this h r) = true.
Proof.
  intros Ho Hf. destruct (owned_trees _ _ _ _ Ho) as (bx & bx' & _ & Ht).
  rewrite (eps_at false g this h r _ Ht eq_refl).
  rewrite forallb_forall in Hf.
  pose proof (Hf _ (found_material_In g per (geometry this) bx' (vec_to_vector3 r))) as Hm.
  rewrite (point_material_fixed _ _ _ Hm). simpl.
  now destruct (found_material _ _ _).
Qed.

(** A point outside every object, with MATERIAL_TYPE_SELF as the
    default material, makes [eps] abort with "unknown material type". *)
Theorem eps_default_self (g : globals D) (this : geom_epsilon O) (h : gmap nat T)
        (r : vec D) (t : T) (s : vector3 D) (id : Z) :
  h !! restricted_tree this = Some t ->
  object_of_point_in_tree (vec_to_vector3 r) t = (None, s, id) ->
  default_material g = material_type_self_data ->
  eps call_material_func fuel false g this h r = Fail (Aborted "unknown material type").
Proof.
  intros Ht Ho Hm. rewrite (eps_at false g this h r t Ht eq_refl).
  rewrite point_material_found. unfold found_material. rewrite Ho, Hm. reflexivity.
Qed.

(** The test that [has_chi3] and [has_chi2] make, for the coefficient
    [chi]. *)
Definition has_chi_test (chi : dielectric D -> D) (g : globals D)
           (this : geom_epsilon O) : bool :=
  if has_chi chi (geometry this) then true else default_has_chi chi g.

Lemma has_chi_test_existsb (chi : dielectric D -> D) (g : globals D)
      (this : geom_epsilon O) :
  has_chi_test chi g this =
  existsb (chi_nonzero chi) (map material (geometry this) ++ [default_material g]).
Proof.
  unfold has_chi_test, default_has_chi. rewrite has_chi_existsb, existsb_app. simpl.
  rewrite orb_false_r. now destruct (existsb _ _).
Qed.

Lemma has_chi_test_iff (chi : dielectric D -> D) (g : globals D)
      (this : geom_epsilon O) :
  has_chi_test chi g this = true <->
  exists d, In (dielectric_data d) (map material (geometry this) ++ [default_material g])
            /\ neqb (chi d) n_zero = false.
Proof.
  rewrite has_chi_test_existsb, existsb_exists. split.
  - intros ([d| | |f] & Hin & Hc); try discriminate.
    exists d. split; [exact Hin | now apply negb_true_iff].
  - intros (d & Hin & Hc). exists (dielectric_data d).
    split; [exact Hin | now apply negb_true_iff].
Qed.

(** C30: [has_chi3] is true exactly when the material of an object or the
    default material is a dielectric whose chi3 is not zero, and [has_chi2]
    exactly when one has a chi2 that is not zero; material functions are
    not looked into. *)
Theorem has_chi3_iff (g : globals D) (this : geom_epsilon O) :
  (has_chi3 g this = true <->
   exists d, In (dielectric_data d) (map material (geometry this) ++ [default_material g])
             /\ neqb (chi3 d) n_zero = false) /\
  (has_chi2 g this = true <->
   exists d, In (dielectric_data d) (map material (geometry this) ++ [default_material g])
             /\ neqb (chi2 d) n_zero = false).
Proof. split; apply has_chi_test_iff. Qed.

(** The material at a point is zero in a coefficient that the test for the
    coefficient did not find. *)
Lemma chi_val_untested (chi : dielectric D -> D) (per : bool) (g : globals D)
      (this : geom_epsilon O) (bx : geom_box D) (p : vector3 D) :
  has_chi_test chi g this = false ->
  neqb (chi_val chi (found_material g p (create_geom_box_tree0 per (geometry this) bx)))
       n_zero = true.
Proof.
  intros Hc. apply chi_val_zero. rewrite has_chi_test_existsb in Hc.
  eapply existsb_false_In; [exact Hc|]. apply in_app_iff. simpl.
  destruct (found_material_In g per (geometry this) bx p) as [<-|Hin];
    [right; now left | now left].
Qed.

(** C31: when [has_chi3] is false and no material function is involved,
    [chi3] is zero at every point, and likewise [chi2] when [has_chi2] is
    false: the solver may skip the nonlinear terms. *)
Theorem chi3_zero (per : bool) (g : globals D) (this : geom_epsilon O)
        (h0 h : gmap nat T) (r : vec D) :
  owned per h0 this h ->
  forallb fixed (default_material g :: map material (geometry this)) = true ->
  (has_chi3 g this = false ->
   exists v, geom_epsilon_chi3 call_material_func fuel g this h r = Ok v /\
             neqb v n_zero = true) /\
  (has_chi2 g this = false ->
   exists v, geom_epsilon_chi2 call_material_func fuel g this h r = Ok v /\
             neqb v n_zero = true).
Proof.
  intros Ho Hf. destruct (owned_trees _ _ _ _ Ho) as (bx & bx' & _ & Ht).
  unfold geom_epsilon_chi3, geom_epsilon_chi2, tree_at. rewrite Ht. simpl.
  rewrite forallb_forall in Hf.
  pose proof (found_material_In g per (geometry this) bx' (vec_to_vector3 r)) as Hin.
  rewrite (point_material_fixed _ _ _ (Hf _ Hin)). simpl.
  split; intros Hc; (eexists; split; [reflexivity|]); now apply chi_val_untested.
Qed.

(** Two objects that query trees of the same objects, for two boxes that
    both contain the point, have the same [eps] there. *)
Lemma eps_restrict (debug : bool) (g : globals D) (per : bool) (geo : list O)
      (this this' : geom_epsilon O) (h h' : gmap nat T) (bx bx' : geom_box D)
      (r : vec D) :
  h !! restricted_tree this = Some (create_geom_box_tree0 per geo bx) ->
  h' !! restricted_tree this' = Some (create_geom_box_tree0 per geo bx') ->
  point_in_box (vec_to_vector3 r) bx = true ->
  point_in_box (vec_to_vector3 r) bx' = true ->
  eps call_material_func fuel debug g this' h' r =
  eps call_material_func fuel debug g this h r.
Proof.
  intros Ht Ht' Hb Hb'.
  rewrite (eps_at debug g this' h' r _ Ht'), (eps_at debug g this h r _ Ht);
    rewrite ?tree_box_create, ?Hb, ?Hb'; auto using orb_true_r.
  rewrite !point_material_found.
  now rewrite (found_material_restrict g _ _ _ _ _ Hb' Hb).
Qed.

(** Restricting the object to a volume does not change [eps] at a point
    that lies in the volume and in the box of the tree it had. *)
Lemma eps_set_volume (debug : bool) (g : globals D) (this this' : geom_epsilon O)
      (h0 h h' : gmap nat T) (gv : geometric_volume D) (r : vec D) (t : T) :
  owned (ensure_periodicity g) h0 this h ->
  h !! restricted_tree this = Some t ->
  point_in_box (vec_to_vector3 r) (tree_box t) = true ->
  point_in_box (vec_to_vector3 r) (gv2box gv) = true ->
  set_volume g this gv h = Ok (this', h') ->
  eps call_material_func fuel debug g this' h' r =
  eps call_material_func fuel debug g this h r.
Proof.
  intros Ho Ht Hb Hb' Hs.
  destruct (set_volume_owned g _ _ _ gv Ho) as (t1 & h1 & E & _ & _ & _ & Ht' & _).
  rewrite Hs in E. injection E as <- <-.
  destruct (owned_trees _ _ _ _ Ho) as (bx & bx' & _ & Hbx).
  rewrite Ht in Hbx. injection Hbx as ->. rewrite tree_box_create in Hb.
  exact (eps_restrict debug g _ _ _ _ _ _ _ _ r Ht Ht' Hb Hb').
Qed.

(** The material at a point does not depend on the box the tree was built
    for, inside both boxes. *)
Lemma point_material_restrict (g : globals D) (per : bool) (geo : list O)
      (bx bx' : geom_box D) (p : vector3 D) :
  point_in_box p bx = true -> point_in_box p bx' = true ->
  point_material call_material_func fuel g p (create_geom_box_tree0 per geo bx) =
  point_material call_material_func fuel g p (create_geom_box_tree0 per geo bx').
Proof.
  intros Hb Hb'. rewrite !point_material_found.
  now rewrite (found_material_restrict g _ _ _ _ _ Hb Hb').
Qed.

(** [chi3], [chi2] and [sigma] of two objects that query trees of the same
    objects, at a point of both boxes. *)
Lemma chi_sigma_restrict (g : globals D) (per : bool) (geo : list O)
      (this this' : geom_epsilon O) (h h' : gmap nat T) (bx bx' : geom_box D)
      (r : vec D) :
  h !! restricted_tree this = Some (create_geom_box_tree0 per geo bx) ->
  h' !! restricted_tree this' = Some (create_geom_box_tree0 per geo bx') ->
  point_in_box (vec_to_vector3 r) bx = true ->
  point_in_box (vec_to_vector3 r) bx' = true ->
  geom_epsilon_chi3 call_material_func fuel g this' h' r =
    geom_epsilon_chi3 call_material_func fuel g this h r /\
  geom_epsilon_chi2 call_material_func fuel g this' h' r =
    geom_epsilon_chi2 call_material_func fuel g this h r /\
  forall omega0 gamma0 deps energy_sat,
    geom_epsilon_sigma call_material_func fuel omega0 gamma0 deps energy_sat g this' h' r =
    geom_epsilon_sigma call_material_func fuel omega0 gamma0 deps energy_sat g this h r.
Proof.
  intros Ht Ht' Hb Hb'.
  unfold geom_epsilon_chi3, geom_epsilon_chi2, geom_epsilon_sigma, tree_at.
  rewrite Ht, Ht'. cbn [bind].
  now rewrite (point_material_restrict g per geo bx' bx _ Hb' Hb).
Qed.

(** The trees an object queries before and after [set_volume]. *)
Lemma set_volume_trees (g : globals D) (this this' : geom_epsilon O)
      (h0 h h' : gmap nat T) (gv : geometric_volume D) :
  owned (ensure_periodicity g) h0 this h ->
  set_volume g this gv h = Ok (this', h') ->
  exists bx bx',
    h !! geometry_tree this =
      Some (create_geom_box_tree0 (ensure_periodicity g) (geometry this) bx) /\
    h !! restricted_tree this =
      Some (create_geom_box_tree0 (ensure_periodicity g) (geometry this) bx') /\
    h' !! geometry_tree this' = h !! geometry_tree this /\
    h' !! restricted_tree this' =
      Some (create_geom_box_tree0 (ensure_periodicity g) (geometry this) (gv2box gv)).
Proof.
  intros Ho Hs.
  destruct (set_volume_owned g _ _ _ gv Ho) as (t1 & h1 & E & _ & _ & Ha & Ht' & Hh).
  rewrite Hs in E. injection E as <- <-.
  destruct (owned_trees _ _ _ _ Ho) as (bx & bx' & Hg & Hr).
  exists bx, bx'. rewrite Ha. auto.
Qed.

(** C17: whatever sequence of [set_volume] and [unset_volume] an object
    goes through after its construction, [eps] at a point of its current
    region that lies in the box of the constructor is what [eps] of the new
    object is: the restrictions do not change the permittivity. *)
Theorem eps_calls (debug : bool) (g : globals D) (geo : list O)
        (gv : geometric_volume D) (h0 : gmap nat T) (ms : list method) (r : vec D) :
  point_in_box (vec_to_vector3 r) (gv2box gv) = true ->
  point_in_box (vec_to_vector3 r) (region_of ms (gv2box gv) (gv2box gv)) = true ->
  (s <- calls g ms (geom_epsilon_ctor g geo gv h0) ;;
   eps call_material_func fuel debug g s.1 s.2 r) =
  eps call_material_func fuel debug g (geom_epsilon_ctor g geo gv h0).1
      (geom_epsilon_ctor g geo gv h0).2 r.
Proof.
  intros Hb Hr. destruct (calls_ctor g geo gv h0 ms) as (s & -> & Ht & _).
  destruct (calls_ctor g geo gv h0 []) as (s0 & [= <-] & Ht0 & _).
  exact (eps_restrict debug g _ _ _ _ _ _ _ _ r Ht0 Ht Hb Hr).
Qed.

(** *** [sigma] *)

(** The test of the loop of [sigma], on an entry of the list. *)
Definition sigma_match (omega0 gamma0 deps energy_sat : D) (item : polarizability D)
  : bool :=
  neqb (omega item) omega0 && neqb (gamma item) gamma0 &&
  neqb (delta_epsilon item) deps && neqb (energy_saturation item) energy_sat.

(** The loop of [sigma] returns the [sigma] of the first polarizability of
    the list that equals the four numbers, and zero when there is none. *)
Lemma sigma_search_find (plist : list (polarizability D))
        (omega0 gamma0 deps energy_sat : D) :
  sigma_search plist omega0 gamma0 deps energy_sat =
  match find (sigma_match omega0 gamma0 deps energy_sat) plist with
  | Some item => sigma item
  | None => n_zero
  end.
Proof.
  induction plist as [|item rest IH]; simpl; [reflexivity|].
  unfold sigma_match at 1. now destruct (_ && _).
Qed.

(** For a polarizability of the list whose numbers are defined, the
    loop of [sigma], asked for its four numbers, returns the [sigma] of a
    polarizability of the list with these numbers; asked for numbers no
    polarizability of the list has, it returns zero. *)
Theorem sigma_search_In (plist : list (polarizability D)) (item : polarizability D) :
  In item plist ->
  sigma_match (omega item) (gamma item) (delta_epsilon item)
              (energy_saturation item) item = true ->
  exists item',
    In item' plist /\
    sigma_match (omega item) (gamma item) (delta_epsilon item)
                (energy_saturation item) item' = true /\
    sigma_search plist (omega item) (gamma item) (delta_epsilon item)
                 (energy_saturation item) = sigma item'.
Proof.
  intros Hin Hd. rewrite sigma_search_find.
  destruct (find _ plist) as [item'|] eqn:E.
  - apply find_some in E as [H1 H2]. eauto.
  - apply find_none with (x := item) in E; [congruence | exact Hin].
Qed.

(** C39: when neither the default material nor the material of any object
    is a material function or MATERIAL_TYPE_SELF, the four point queries
    return a value at every point, in every state of the object, and
    [sigma] returns zero or the [sigma] of a polarizability, with the four
    numbers asked for, of a dielectric of the geometry. *)
Theorem point_queries_defined (per : bool) (g : globals D) (this : geom_epsilon O)
        (h0 h : gmap nat T) (r : vec D) (omega0 gamma0 deps energy_sat : D) :
  owned per h0 this h ->
  forallb fixed (default_material g :: map material (geometry this)) = true ->
  is_ok (eps call_material_func fuel false g this h r) = true /\
  is_ok (geom_epsilon_chi3 call_material_func fuel g this h r) = true /\
  is_ok (geom_epsilon_chi2 call_material_func fuel g this h r) = true /\
  exists v,
    geom_epsilon_sigma call_material_func fuel omega0 gamma0 deps energy_sat g this h r
    = Ok v /\
    (v = n_zero \/
     exists d item,
       In (dielectric_data d) (default_material g :: map material (geometry this)) /\
       In item (polarizations d) /\
       sigma_match omega0 gamma0 deps energy_sat item = true /\ v = sigma item).
Proof.
  intros Ho Hf. split; [exact (eps_defined per g this h0 h r Ho Hf)|].
  destruct (owned_trees _ _ _ _ Ho) as (bx & bx' & _ & Ht).
  unfold geom_epsilon_chi3, geom_epsilon_chi2, geom_epsilon_sigma, tree_at.
  rewrite Ht. simpl. rewrite forallb_forall in Hf.
  pose proof (found_material_In g per (geometry this) bx' (vec_to_vector3 r)) as Hin.
  rewrite (point_material_fixed _ _ _ (Hf _ Hin)). simpl.
  repeat split. eexists. split; [reflexivity|].
  destruct (found_material _ _ _) as [d| | |f] eqn:Em; auto.
  rewrite sigma_search_find.
  destruct (find _ (polarizations d)) as [item|] eqn:Ef; auto.
  apply find_some in Ef as [Hi Hs]. right. exists d, item. auto.
Qed.

Lemma sigma_search_none (plist : list (polarizability D))
      (omega0 gamma0 deps energy_sat : D) :
  forallb (fun item => negb (sigma_match omega0 gamma0 deps energy_sat item)) plist = true ->
  sigma_search plist omega0 gamma0 deps energy_sat = n_zero.
Proof.
  intros H. rewrite sigma_search_find.
  destruct (find _ plist) as [item|] eqn:E; [|reflexivity].
  apply find_some in E as [H1 H2]. rewrite forallb_forall in H.
  apply H in H1. rewrite H2 in H1. discriminate.
Qed.
End Queries.

(** ** Two indexes that give the same answers *)

Section TwoIndexes.
Context {D : Type} {N : Number D} {L : NumberLaws D} {O T1 T2 : Type}.
Variables (G1 : Geom D O T1) (G2 : Geom D O T2).
Context {GL1 : GeomLaws G1} {GL2 : GeomLaws G2}.
Hypothesis Hs : same_shapes G1 G2.
Variable call_material_func : function -> vector3 D -> material_type D.
Variable fuel : nat.

Lemma point_material_same (g : globals D) (p : vector3 D) (t1 : T1) (t2 : T2) :
  same_answers G1 G2 t1 t2 p ->
  point_material (G := G1) call_material_func fuel g p t1 =
  point_material (G := G2) call_material_func fuel g p t2.
Proof.
  intros Ha. unfold point_material.
  now rewrite (same_answers_material (default_material g) Hs Ha).
Qed.

(** Two objects whose restricted trees cover the same box and give the
    same answer at the point have the same [eps] there. *)
Lemma eps_same (debug : bool) (g : globals D) (this1 this2 : geom_epsilon O)
      (h1 : gmap nat T1) (h2 : gmap nat T2) (t1 : T1) (t2 : T2) (r : vec D) :
  h1 !! restricted_tree this1 = Some t1 -> h2 !! restricted_tree this2 = Some t2 ->
  tree_box (Geom := G1) t1 = tree_box (Geom := G2) t2 ->
  same_answers G1 G2 t1 t2 (vec_to_vector3 r) ->
  eps (G := G1) call_material_func fuel debug g this1 h1 r =
  eps (G := G2) call_material_func fuel debug g this2 h2 r.
Proof.
  intros H1 H2 Hb Ha. unfold eps, tree_at. rewrite H1, H2. simpl.
  now rewrite Hb, (point_material_same g _ _ _ Ha).
Qed.

(** The same calls on two new objects of the same geometry, one for each
    index: where the two indexes give the same answer, the two objects have
    the same [eps]. *)
Lemma eps_two_indexes (debug : bool) (g : globals D) (geo : list O)
      (gv : geometric_volume D) (h1 : gmap nat T1) (h2 : gmap nat T2)
      (ms : list method) (r : vec D) :
  same_answers G1 G2
    (create_geom_box_tree0 (Geom := G1) (ensure_periodicity g)
                           (geom_fix_objects0 (Geom := G1) geo)
                           (region_of ms (gv2box gv) (gv2box gv)))
    (create_geom_box_tree0 (Geom := G2) (ensure_periodicity g)
                           (geom_fix_objects0 (Geom := G1) geo)
                           (region_of ms (gv2box gv) (gv2box gv)))
    (vec_to_vector3 r) ->
  (s <- calls (G := G1) g ms (geom_epsilon_ctor (G := G1) g geo gv h1) ;;
   eps (G := G1) call_material_func fuel debug g s.1 s.2 r) =
  (s <- calls (G := G2) g ms (geom_epsilon_ctor (G := G2) g geo gv h2) ;;
   eps (G := G2) call_material_func fuel debug g s.1 s.2 r).
Proof.
  intros Ha.
  destruct (calls_ctor (G := G1) g geo gv h1 ms) as (s1 & -> & H1 & _).
  destruct (calls_ctor (G := G2) g geo gv h2 ms) as (s2 & -> & H2 & _).
  rewrite <- (same_fix Hs) in H2.
  apply (eps_same debug g _ _ _ _ _ _ r H1 H2); [|exact Ha].
  now rewrite !tree_box_create.
Qed.
End TwoIndexes.

(** ** The reference index: later objects are in front *)

Section LinearEps.
Context {D : Type} {N : Number D}.
Variable lattice_shifts : list (vector3 D).
Variable unit : vector3 D -> vector3 D.
Variable call_material_func : function -> vector3 D -> material_type D.
Variable fuel : nat.

#[local] Instance linear_geom : Geom D (geometric_object D) (geom_box_tree D) :=
  LinearGeom lattice_shifts unit.

(** With the reference index and no periodicity, [eps] at a point is
    the permittivity of the dielectric object that contains the point and
    comes last in the list of objects among those that do: later objects
    lie in front of earlier ones. *)
Theorem eps_highest_precedence (g : globals D) (this : geom_epsilon (geometric_object D))
        (h : gmap nat (geom_box_tree D)) (r : vec D)
        (geo : list (geometric_object D)) (bx : geom_box D) (i : nat)
        (o : geometric_object D) (d : dielectric D) :
  h !! restricted_tree this =
    Some (linear_create_geom_box_tree0 lattice_shifts false geo bx) ->
  nth_error geo i = Some o -> contains o (vec_to_vector3 r) = true ->
  (forall j o', (i < j)%nat -> nth_error geo j = Some o' ->
                contains o' (vec_to_vector3 r) = false) ->
  o_material o = dielectric_data d ->
  eps call_material_func fuel false g this h r = Ok (epsilon d).
Proof.
  intros Ht Hi Hc Hlast Hm.
  rewrite (eps_at call_material_func fuel false g this h r _ Ht eq_refl).
  assert (Hf : found_material g (vec_to_vector3 r)
                 (linear_create_geom_box_tree0 lattice_shifts false geo bx)
               = dielectric_data d).
  { unfold found_material. simpl. rewrite linear_object_last.
    rewrite last_containing_highest with (i := i) (o := o) by assumption.
    simpl. exact Hm. }
  rewrite point_material_fixed; rewrite Hf; reflexivity.
Qed.
End LinearEps.

(** ** A concrete object *)

Section EpsilonWitnesses.
Import Slabs.
Local Open Scope float_scope.

(** A slab of glass between x = 0 and x = 1 in air. *)
Definition glass_slab : list (geometric_object float) :=
  [slab (diel 2.25) 0 1].

Definition air_globals : globals float := globals_of 2 (diel 1).

Definition cell : geometric_volume float := pixel2 (-4) 4 (-4) 4.

Definition half_cell : geometric_volume float := pixel2 0 4 (-4) 4.

(** The object after its construction in the empty store, and after
    [set_volume half_cell]. *)
Definition constructed : geom_epsilon (geometric_object float) * gmap nat (geom_box_tree float) :=
  geom_epsilon_ctor air_globals glass_slab cell ∅.

Definition restricted : geom_epsilon (geometric_object float) * gmap nat (geom_box_tree float) :=
  match set_volume air_globals constructed.1 half_cell constructed.2 with
  | Ok s => s
  | Fail _ => constructed
  end.

Lemma constructed_owned :
  owned false ∅ constructed.1 constructed.2.
Proof. apply (geom_epsilon_ctor_owned air_globals glass_slab cell ∅). Qed.

Lemma eps_front_object_witness :
  eps example_call 10 false air_globals constructed.1 constructed.2 (vec2 0.5 0)
  = Ok 2.25.
Proof.
  apply (eps_front_object example_call 10 air_globals constructed.1 constructed.2
           (vec2 0.5 0) (create_geom_box_tree0 false glass_slab (gv2box cell))
           (slab (diel 2.25) 0 1) (V3 0 0 0) 1%Z
           {| epsilon := 2.25; chi2 := 0; chi3 := 0; polarizations := [] |});
    vm_compute; reflexivity.
Defined.

Lemma restricted_owned : owned false ∅ restricted.1 restricted.2.
Proof.
  destruct (set_volume_owned air_globals ∅ _ _ half_cell constructed_owned)
    as (t & h & E & Ho & _).
  unfold restricted. rewrite E. exact Ho.
Qed.

Lemma point_queries_defined_witness :
  is_ok (eps example_call 10 false air_globals restricted.1 restricted.2 (vec2 3 0))
  = true.
Proof.
  apply (point_queries_defined example_call 10 false air_globals restricted.1 ∅
           restricted.2 (vec2 3 0) 1 0.125 2 0 restricted_owned).
  reflexivity.
Defined.

(** Globals whose default material is MATERIAL_TYPE_SELF. *)
Definition self_globals : globals float := globals_of 2 material_type_self_data.

Lemma eps_default_self_witness :
  eps example_call 10 false self_globals constructed.1 constructed.2 (vec2 3 0)
  = Fail (Aborted "unknown material type").
Proof.
  apply (eps_default_self example_call 10 self_globals constructed.1 constructed.2
           (vec2 3 0) (create_geom_box_tree0 false glass_slab (gv2box cell))
           (V3 0 0 0) 0%Z); vm_compute; reflexivity.
Defined.

Lemma chi3_zero_witness :
  exists v, geom_epsilon_chi3 example_call 10 air_globals constructed.1
                              constructed.2 (vec2 0.5 0) = Ok v /\
            neqb v n_zero = true.
Proof.
  apply (chi3_zero example_call 10 false air_globals constructed.1 ∅ constructed.2
           (vec2 0.5 0)).
  - exact constructed_owned.
  - reflexivity.
  - reflexivity.
Defined.

Lemma eps_calls_witness :
  (s <- calls air_globals [SetVolume cell; UnsetVolume; SetVolume half_cell] constructed ;;
   eps example_call 10 true air_globals s.1 s.2 (vec2 3 0)) =
  eps example_call 10 true air_globals constructed.1 constructed.2 (vec2 3 0).
Proof.
  apply (eps_calls example_call 10 true air_globals glass_slab cell ∅
           [SetVolume cell; UnsetVolume; SetVolume half_cell] (vec2 3 0));
    vm_compute; reflexivity.
Defined.

(** A medium with two polarizabilities. *)
Definition two_lines : list (polarizability float) :=
  [ {| omega := 1; gamma := 0.125; delta_epsilon := 2; sigma := 3;
       energy_saturation := 0 |};
    {| omega := 2; gamma := 0.25; delta_epsilon := 1; sigma := 5;
       energy_saturation := 0 |} ].

Lemma sigma_search_In_witness :
  exists item',
    In item' two_lines /\ sigma_match 2 0.25 1 0 item' = true /\
    sigma_search two_lines 2 0.25 1 0 = sigma item'.
Proof.
  apply (sigma_search_In two_lines
           {| omega := 2; gamma := 0.25; delta_epsilon := 1; sigma := 5;
              energy_saturation := 0 |}).
  - right. left. reflexivity.
  - reflexivity.
Defined.

(** An object whose material is the procedure 3 of [example_call], which
    returns a Kerr medium. *)
Definition kerr_call (f : function) (p : vector3 float) : material_type float :=
  dielectric_data {| epsilon := 2.25; chi2 := 0; chi3 := 0.5; polarizations := [] |}.

Definition function_slab : list (geometric_object float) :=
  [slab (material_function_data 3%Z) 0 1].

Definition constructed_function : geom_epsilon (geometric_object float) * gmap nat (geom_box_tree float) :=
  geom_epsilon_ctor air_globals function_slab cell ∅.

(** [has_chi3] does not look into material functions: with an object
    whose material function returns a medium with chi3 = 0.5, [has_chi3] is
    false and [chi3] is 0.5 inside the object. *)
Example has_chi3_material_function :
  has_chi3 air_globals constructed_function.1 = false /\
  geom_epsilon_chi3 kerr_call 10 air_globals constructed_function.1
                    constructed_function.2 (vec2 0.5 0) = Ok 0.5.
Proof. split; vm_compute; reflexivity. Qed.

(** A block of permittivity 12 on [-1, 1] and, later in the list, a block
    of permittivity 4 on [0.5, 3]. *)
Definition overlapping : list (geometric_object float) :=
  [ slab (diel 12) (-1) 1; slab (diel 4) 0.5 3 ].

Lemma eps_highest_precedence_witness :
  eps example_call 10 false air_globals
      (geom_epsilon_ctor air_globals overlapping cell ∅).1
      (geom_epsilon_ctor air_globals overlapping cell ∅).2 (vec2 0.75 0) = Ok 4.
Proof.
  apply (eps_highest_precedence [] (fun v => v) example_call 10 air_globals
           (geom_epsilon_ctor air_globals overlapping cell ∅).1
           (geom_epsilon_ctor air_globals overlapping cell ∅).2 (vec2 0.75 0)
           overlapping (gv2box cell) 1%nat (slab (diel 4) 0.5 3)
           {| epsilon := 4; chi2 := 0; chi3 := 0; polarizations := [] |}).
  - vm_compute. reflexivity.
  - reflexivity.
  - vm_compute. reflexivity.
  - intros j o' Hj. do 2 (destruct j as [|j]; [lia|]). destruct j; discriminate.
  - reflexivity.
Defined.
End EpsilonWitnesses.
