(* ===== verification/Descriptors.v ===== *)
(** * Descriptors: the materials a point query creates and destroys

    [eps], [chi3], [chi2] and [sigma] (lines 217-253 and 502-621 of
    src/libctl/structure.cpp) hold the material at the point in a local
    [material_type], a tag and a pointer to the data of the subclass.  For
    an ordinary material the pointer is the one of the object or of
    [default_material]: the data belongs to the geometry.  For a material
    function, [eval_material_func] (168-195) returns a material that
    [material_type_input] or [material_type_copy] allocated, and the query
    sets [destroy_material] and passes it to [material_type_destroy] before
    it returns; inside its loop [eval_material_func] destroys each material
    it replaces.  Epsilon.v and Material.v model the values only.

    This file models the data in a store, a finite map from addresses to
    the data allocated and not yet destroyed.  libctl generates the three
    routines; as the source uses them, [material_type_input] and
    [material_type_copy] allocate the data of the subclass (none for
    MATERIAL_TYPE_SELF, the class itself) and [material_type_destroy] frees
    it.  Destroying data twice, destroying data of the geometry and reading
    data that was destroyed are failures of the model.

    The theorems show that each query returns the value of the model of
    values and the store it was given: what a query allocates it destroys,
    once, it reads nothing it destroyed, and it destroys nothing of the
    geometry. *)

From stdpp Require Import gmap.
From Stdlib Require Import ZArith Bool String List Lia Floats.
From S2P Require Import Prelude Number Vector3 Material Geometry Epsilon.
Import ListNotations.

Local Open Scope result_scope.

Section Store.
Context {D : Type} {N : Number D}.

(** Where the data that [subclass] points to lives: nowhere
    (MATERIAL_TYPE_SELF has none), in the geometry (the material of an
    object or [default_material]), or at an address of the store. *)
Inductive place : Type :=
  | no_data
  | of_geometry
  | allocated (a : nat).

(** A [material_type] held in a local variable: the value and the place of
    its data. *)
Record descriptor : Type := {
  d_material : material_type D;
  d_place : place
}.

Definition material_type_input (m : material_type D) (h : gmap nat (material_type D))
  : descriptor * gmap nat (material_type D) :=
  match m with
  | material_type_self_data => ({| d_material := m; d_place := no_data |}, h)
  | _ =>
      let a := fresh (dom h) in
      ({| d_material := m; d_place := allocated a |}, <[a := m]> h)
  end.

(** [material_type_copy(&src, &dst)] allocates a copy of the data. *)
Definition material_type_copy (src : material_type D) (h : gmap nat (material_type D))
  : descriptor * gmap nat (material_type D) :=
  material_type_input src h.

Definition material_type_destroy (d : descriptor) (h : gmap nat (material_type D))
  : result (gmap nat (material_type D)) :=
  match d_place d with
  | no_data => Ok h
  | of_geometry => Fail (Undefined "material_type_destroy of a material of the geometry")
  | allocated a =>
      match h !! a with
      | Some _ => Ok (delete a h)
      | None => Fail (Undefined "material_type_destroy of destroyed data")
      end
  end.

(** The material as the code reads it: the fields of a dielectric and the
    procedure of a material function are read through the pointer. *)
Definition view (d : descriptor) (h : gmap nat (material_type D))
  : result (material_type D) :=
  match d_material d, d_place d with
  | (dielectric_data _ | material_function_data _), allocated a =>
      match h !! a with
      | Some m => Ok m
      | None => Fail (Undefined "material read after material_type_destroy")
      end
  | m, _ => Ok m
  end.

(** [material.subclass.material_function_data->material_func]. *)
Definition material_func_of (d : descriptor) (h : gmap nat (material_type D))
  : result function :=
  m <- view d h ;;
  match m with
  | material_function_data material_func => Ok material_func
  | _ => Fail (Undefined "material_function_data of another subclass")
  end.
End Store.

Arguments descriptor D : clear implicits.

Section Queries.
Context {D : Type} {N : Number D} {O T : Type} {G : Geom D O T}.

Variable call_material_func : function -> vector3 D -> material_type D.
Variable fuel : nat.

(** The loop of [eval_material_func]: each round reads a new material and
    destroys the one it replaces. *)
Fixpoint eval_descriptor_loop (fuel : nat) (material : descriptor D) (p : vector3 D)
         (h : gmap nat (material_type D))
  : result (descriptor D * gmap nat (material_type D)) :=
  match d_material material with
  | material_function_data _ =>
      match fuel with
      | 0%nat => Fail OutOfFuel
      | S fuel' =>
          material_func <- material_func_of material h ;;
          let '(m, h) := material_type_input (call_material_func material_func p) h in
          h <- material_type_destroy material h ;;
          eval_descriptor_loop fuel' m p h
      end
  | _ => Ok (material, h)
  end.

(** [eval_material_func] with the store. *)
Definition eval_descriptor (default_material : material_type D)
           (material_func : function) (p : vector3 D) (h : gmap nat (material_type D))
  : result (descriptor D * gmap nat (material_type D)) :=
  let '(material, h) := material_type_input (call_material_func material_func p) h in
  r <- eval_descriptor_loop fuel material p h ;;
  let r :=
    if subclass_tag_eqb (which_subclass (d_material r.1)) MATERIAL_TYPE_SELF
    then material_type_copy default_material r.2 else r in
  CK (negb (subclass_tag_eqb (which_subclass (d_material r.1)) MATERIAL_FUNCTION))
     "infinite loop in material functions" ;;;
  Ok r.

(** The material at [p] with the flag [destroy_material], as the four
    queries find them. *)
Definition point_descriptor (g : globals D) (p : vector3 D) (t : T)
           (h : gmap nat (material_type D))
  : result (descriptor D * bool * gmap nat (material_type D)) :=
  let '(material, inobject) :=
    material_of_unshifted_point_in_tree_inobject (default_material g) p t in
  let material :=
    if subclass_tag_eqb (which_subclass material) MATERIAL_TYPE_SELF
    then default_material g else material in
  let material := {| d_material := material; d_place := of_geometry |} in
  if variable_material (which_subclass (d_material material)) then
    material_func <- material_func_of material h ;;
    r <- eval_descriptor (default_material g) material_func p h ;;
    Ok (r.1, true, r.2)
  else Ok (material, false, h).

(** [if (destroy_material) material_type_destroy(material)]. *)
Definition destroy_if (destroy_material : bool) (material : descriptor D)
           (h : gmap nat (material_type D)) : result (gmap nat (material_type D)) :=
  if destroy_material then material_type_destroy material h else Ok h.

(** [eps] with the store of materials [h]; [ht] is the store of trees. *)
Definition eps_descriptor (debug : bool) (g : globals D) (this : geom_epsilon O)
           (ht : gmap nat T) (h : gmap nat (material_type D)) (r : vec D)
  : result (D * gmap nat (material_type D)) :=
  let p := vec_to_vector3 r in
  t <- tree_at (restricted_tree this) ht ;;
  CK (negb debug || point_in_box p (tree_box t)) "invalid point" ;;;
  r <- point_descriptor g p t h ;;
  let '(material, destroy_material, h) := r in
  m <- view material h ;;
  e <- material_eps m ;;
  h <- destroy_if destroy_material material h ;;
  Ok (e.1, h).

(** [chi3] and [chi2], for the coefficient [chi]. *)
Definition chi_descriptor (chi : dielectric D -> D) (g : globals D)
           (this : geom_epsilon O) (ht : gmap nat T) (h : gmap nat (material_type D))
           (r : vec D) : result (D * gmap nat (material_type D)) :=
  let p := vec_to_vector3 r in
  t <- tree_at (restricted_tree this) ht ;;
  r <- point_descriptor g p t h ;;
  let '(material, destroy_material, h) := r in
  m <- view material h ;;
  let chi_val := chi_val chi m in
  h <- destroy_if destroy_material material h ;;
  Ok (chi_val, h).

Definition chi3_descriptor : globals D -> geom_epsilon O -> gmap nat T ->
  gmap nat (material_type D) -> vec D -> result (D * gmap nat (material_type D)) :=
  chi_descriptor (@chi3 D).

Definition chi2_descriptor : globals D -> geom_epsilon O -> gmap nat T ->
  gmap nat (material_type D) -> vec D -> result (D * gmap nat (material_type D)) :=
  chi_descriptor (@chi2 D).

Definition sigma_descriptor (omega0 gamma0 deps energy_sat : D) (g : globals D)
           (this : geom_epsilon O) (ht : gmap nat T) (h : gmap nat (material_type D))
           (r : vec D) : result (D * gmap nat (material_type D)) :=
  let p := vec_to_vector3 r in
  t <- tree_at (restricted_tree this) ht ;;
  r <- point_descriptor g p t h ;;
  let '(material, destroy_material, h) := r in
  m <- view material h ;;
  let sigma :=
    match m with
    | dielectric_data d => sigma_search (polarizations d) omega0 gamma0 deps energy_sat
    | _ => n_zero
    end in
  h <- destroy_if destroy_material material h ;;
  Ok (sigma, h).

(** ** What a query holds *)

(** [held h d destroy h']: over the store [h], the query holds the
    material [d] with the flag [destroy] in the store [h']: data of the
    geometry with the flag clear and the store unchanged, or, with the flag
    set, data of its own at an address that [h] does not have, or no
    data. *)
Inductive held (h : gmap nat (material_type D))
  : descriptor D -> bool -> gmap nat (material_type D) -> Prop :=
  | held_geometry m : held h {| d_material := m; d_place := of_geometry |} false h
  | held_allocated m a :
      h !! a = None -> m <> material_type_self_data ->
      held h {| d_material := m; d_place := allocated a |} true (<[a := m]> h)
  | held_no_data :
      held h {| d_material := material_type_self_data; d_place := no_data |} true h.

Lemma held_view (h h' : gmap nat (material_type D)) (d : descriptor D) (b : bool) :
  held h d b h' -> view d h' = Ok (d_material d).
Proof.
  intros [m|m a Ha Hm|]; unfold view; simpl; [now destruct m | | reflexivity].
  destruct m; rewrite ?lookup_insert_eq; reflexivity.
Qed.

Lemma held_destroy (h h' : gmap nat (material_type D)) (d : descriptor D) (b : bool) :
  held h d b h' -> destroy_if b d h' = Ok h.
Proof.
  intros [m|m a Ha Hm|]; unfold destroy_if, material_type_destroy; simpl; auto.
  now rewrite lookup_insert_eq, delete_insert_id.
Qed.

Lemma material_type_input_held (m : material_type D) (h : gmap nat (material_type D)) :
  held h (material_type_input m h).1 true (material_type_input m h).2 /\
  d_material (material_type_input m h).1 = m.
Proof.
  unfold material_type_input.
  destruct m; simpl; split; try reflexivity; constructor;
    try discriminate; apply not_elem_of_dom, is_fresh.
Qed.

(** A round of the loop: the new material is read into a store that holds
    the old one, which is then destroyed. *)
Lemma replace_held (h h1 : gmap nat (material_type D)) (d : descriptor D)
      (m : material_type D) :
  held h d true h1 ->
  exists h',
    material_type_destroy d (material_type_input m h1).2 = Ok h' /\
    held h (material_type_input m h1).1 true h'.
Proof.
  intros Hd. destruct (material_type_input_held m h1) as [Hh _].
  destruct (material_type_input m h1) as [d' h2]. simpl in *.
  inversion Hd as [|m0 a Ha Hm0|]; subst; unfold material_type_destroy; simpl.
  - inversion Hh as [|m1 b Hb Hm1|]; subst.
    + apply lookup_insert_None in Hb as [Hb Hab].
      rewrite lookup_insert_ne, lookup_insert_eq by congruence.
      rewrite delete_insert_ne, delete_insert_id by congruence.
      eexists. split; [reflexivity | now constructor].
    + rewrite lookup_insert_eq, delete_insert_id by exact Ha.
      eexists. split; [reflexivity | constructor].
  - eauto.
Qed.

(** *** The store follows the values *)

(** What a step with the store returns, given what the step on values
    returns: the same failure, or the same material, held. *)
Definition follows {A : Type} (h : gmap nat (material_type D))
           (c : result (material_type D)) (c' : result A)
           (out : A -> descriptor D * bool * gmap nat (material_type D)) : Prop :=
  match c with
  | Ok m => exists a, c' = Ok a /\ held h (out a).1.1 (out a).1.2 (out a).2 /\
                      d_material (out a).1.1 = m
  | Fail e => c' = Fail e
  end.

Lemma eval_descriptor_loop_held (fuel0 : nat) (h h1 : gmap nat (material_type D))
      (d : descriptor D) (p : vector3 D) :
  held h d true h1 ->
  follows h (eval_material_loop call_material_func fuel0 (d_material d) p)
          (eval_descriptor_loop fuel0 d p h1) (fun r => (r.1, true, r.2)).
Proof.
  unfold follows.
  revert d h1. induction fuel0 as [|fuel0 IH]; intros d h1 Hd; simpl;
    destruct (d_material d) as [x| | |f] eqn:E; simpl.
  all: try reflexivity; try (exists (d, h1); simpl; now auto).
  unfold material_func_of. rewrite (held_view _ _ _ _ Hd), E. simpl.
  destruct (replace_held _ _ _ (call_material_func f p) Hd) as (h' & Hx & Hh).
  pose proof (proj2 (material_type_input_held (call_material_func f p) h1)) as Hm.
  destruct (material_type_input (call_material_func f p) h1) as [d' h2]. simpl in *.
  rewrite Hx. simpl. rewrite <- Hm. now apply IH.
Qed.

Lemma eval_descriptor_held (default_material : material_type D) (f : function)
      (p : vector3 D) (h : gmap nat (material_type D)) :
  follows h (eval_material_func call_material_func fuel default_material f p)
          (eval_descriptor default_material f p h) (fun r => (r.1, true, r.2)).
Proof.
  unfold eval_material_func, eval_descriptor.
  destruct (material_type_input_held (call_material_func f p) h) as [Hh Hm].
  destruct (material_type_input (call_material_func f p) h) as [d1 h1]. simpl in *.
  pose proof (eval_descriptor_loop_held fuel _ _ _ p Hh) as H. rewrite Hm in H.
  destruct (eval_material_loop _ _ _ _) as [m|e]; simpl in *; [|now rewrite H].
  destruct H as ([d2 h2] & -> & Hh2 & <-). simpl in *.
  destruct (subclass_tag_eqb_spec (which_subclass (d_material d2)) MATERIAL_TYPE_SELF)
    as [Hs|Hs].
  - assert (h2 = h) as ->.
    { inversion Hh2 as [|m1 a Ha Hm1|]; subst; simpl in *; [|reflexivity].
      destruct m1; try discriminate; congruence. }
    destruct (material_type_input_held default_material h) as [Hh3 Hm3].
    unfold material_type_copy. rewrite Hm3.
    destruct (CK _ _) as [[]|e]; simpl; [|reflexivity]. eauto.
  - destruct (CK _ _) as [[]|e]; simpl; [|reflexivity]. exists (d2, h2). auto.
Qed.

Lemma point_descriptor_held (g : globals D) (p : vector3 D) (t : T)
      (h : gmap nat (material_type D)) :
  follows h (point_material call_material_func fuel g p t)
          (point_descriptor g p t h) (fun r => r).
Proof.
  unfold point_material, point_descriptor.
  destruct (material_of_unshifted_point_in_tree_inobject _ _ _) as [m0 inobject].
  set (m := if subclass_tag_eqb _ _ then _ else _). simpl.
  destruct m as [x| | |f]; simpl;
    try (eexists (_, false, h); split; [reflexivity|]; split; [constructor | reflexivity]).
  pose proof (eval_descriptor_held (default_material g) f p h) as H.
  destruct (eval_material_func _ _ _ _ _) as [m|e]; simpl in *; [|now rewrite H].
  destruct H as (r & -> & Hh & Hm). simpl. exists (r.1, true, r.2). auto.
Qed.

(** A query: the material is found, a value is computed from it, and the
    material is destroyed when the flag says so. *)
Lemma query_held {A B : Type} (f : material_type D -> result A) (k : A -> B)
      (g : globals D) (p : vector3 D) (t : T) (h : gmap nat (material_type D)) :
  (r <- point_descriptor g p t h ;;
   let '(material, destroy_material, h) := r in
   m <- view material h ;;
   v <- f m ;;
   h <- destroy_if destroy_material material h ;;
   Ok (k v, h)) =
  (m <- point_material call_material_func fuel g p t ;; v <- f m ;; Ok (k v, h)).
Proof.
  pose proof (point_descriptor_held g p t h) as H.
  destruct (point_material _ _ _ _ _) as [m|e]; simpl in *; [|now rewrite H].
  destruct H as ([[d b] h'] & -> & Hh & <-). simpl in *.
  rewrite (held_view _ _ _ _ Hh). simpl. destruct (f (d_material d)); simpl; auto.
  now rewrite (held_destroy _ _ _ _ Hh).
Qed.

Lemma eps_descriptor_eps (debug : bool) (g : globals D) (this : geom_epsilon O)
      (ht : gmap nat T) (h : gmap nat (material_type D)) (r : vec D) :
  eps_descriptor debug g this ht h r =
  (e <- eps call_material_func fuel debug g this ht r ;; Ok (e, h)).
Proof.
  unfold eps_descriptor, eps.
  destruct (tree_at _ _) as [t|e]; simpl; [|reflexivity].
  destruct (CK _ _) as [[]|e]; simpl; [|reflexivity].
  rewrite (query_held material_eps fst).
  destruct (point_material _ _ _ _ _) as [m|e]; simpl; [|reflexivity].
  now destruct (material_eps m) as [[]|].
Qed.

Lemma chi_descriptor_chi (chi : dielectric D -> D) (g : globals D)
      (this : geom_epsilon O) (ht : gmap nat T) (h : gmap nat (material_type D))
      (r : vec D) :
  chi_descriptor chi g this ht h r =
  (t <- tree_at (restricted_tree this) ht ;;
   m <- point_material call_material_func fuel g (vec_to_vector3 r) t ;;
   Ok (chi_val chi m, h)).
Proof.
  unfold chi_descriptor.
  destruct (tree_at _ _) as [t|e]; simpl; [|reflexivity].
  apply (query_held (fun m => Ok m) (chi_val chi)).
Qed.

Lemma sigma_descriptor_sigma (omega0 gamma0 deps energy_sat : D) (g : globals D)
      (this : geom_epsilon O) (ht : gmap nat T) (h : gmap nat (material_type D))
      (r : vec D) :
  sigma_descriptor omega0 gamma0 deps energy_sat g this ht h r =
  (s <- geom_epsilon_sigma call_material_func fuel omega0 gamma0 deps energy_sat
                           g this ht r ;;
   Ok (s, h)).
Proof.
  unfold sigma_descriptor, geom_epsilon_sigma.
  destruct (tree_at _ _) as [t|e]; simpl; [|reflexivity].
  etransitivity;
    [exact (query_held (fun m => Ok m)
              (fun m => match m with
                        | dielectric_data d =>
                            sigma_search (polarizations d) omega0 gamma0 deps energy_sat
                        | _ => n_zero
                        end) g _ t h)|].
  now destruct (point_material _ _ _ _ _).
Qed.

(** C9: each of the four point queries, run with the store of materials,
    returns what the query on values returns, failures included, and the
    store it was given, whatever the store, the state of the object and the
    point: the material [eval_material_func] returns is destroyed once,
    after the query has read it, the materials its loop replaces are
    destroyed once, and no material of the geometry is destroyed. *)
Theorem point_queries_store (debug : bool) (g : globals D) (this : geom_epsilon O)
        (ht : gmap nat T) (h : gmap nat (material_type D)) (r : vec D)
        (omega0 gamma0 deps energy_sat : D) :
  eps_descriptor debug g this ht h r =
    (e <- eps call_material_func fuel debug g this ht r ;; Ok (e, h)) /\
  chi3_descriptor g this ht h r =
    (c <- geom_epsilon_chi3 call_material_func fuel g this ht r ;; Ok (c, h)) /\
  chi2_descriptor g this ht h r =
    (c <- geom_epsilon_chi2 call_material_func fuel g this ht r ;; Ok (c, h)) /\
  sigma_descriptor omega0 gamma0 deps energy_sat g this ht h r =
    (s <- geom_epsilon_sigma call_material_func fuel omega0 gamma0 deps energy_sat
                             g this ht r ;;
     Ok (s, h)).
Proof.
  split; [apply eps_descriptor_eps|].
  unfold chi3_descriptor, chi2_descriptor, geom_epsilon_chi3, geom_epsilon_chi2.
  rewrite !chi_descriptor_chi.
  repeat split; try apply sigma_descriptor_sigma;
    (destruct (tree_at _ _) as [t|e]; simpl; [|reflexivity]);
    now destruct (point_material call_material_func fuel g (vec_to_vector3 r) t).
Qed.
End Queries.

(** ** Examples *)

Section DescriptorExamples.
Import Slabs.
Local Open Scope float_scope.

(** A slab whose material is procedure 0 of [example_call]: it defers to
    procedure 1, which answers MATERIAL_TYPE_SELF.  [eps] reads two
    materials, destroys the first, copies the default material, reads its
    permittivity and destroys the copy. *)
Definition deferring_slab : list (geometric_object float) :=
  [slab (material_function_data 0%Z) 0 1].

Example eps_descriptor_deferring :
  eps_descriptor example_call 10 false air_globals
    (geom_epsilon_ctor air_globals deferring_slab cell ∅).1
    (geom_epsilon_ctor air_globals deferring_slab cell ∅).2 ∅ (vec2 0.5 0) =
  Ok (1, ∅).
Proof. vm_compute. reflexivity. Qed.

(** The material the procedure leaves in the store before [eps] destroys
    it: the copy of the default material, alone. *)
Example eval_descriptor_deferring :
  exists d, eval_descriptor example_call 10 (diel 1) 0%Z (V3 0.5 0 0) ∅ =
            Ok (d, {[ 0%nat := diel 1 ]}) /\ d_place d = allocated 0.
Proof. eexists. split; vm_compute; reflexivity. Qed.
End DescriptorExamples.
