(* ===== verification/MeanEps.v ===== *)
(** * MeanEps: subpixel averaging

    Models [geom_epsilon::normal_vector] (lines 356-371 of
    src/libctl/structure.cpp), [geom_epsilon::meaneps] (373-410), the
    integrands [eps_func] and [inveps_func] (427-444, the build without
    CTL_HAS_COMPLEX_INTEGRATION) and [geom_epsilon::fallback_meaneps]
    (448-483).

    Two routines of other libraries are parameters: the default normal of
    [meep::material_function::normal_vector] and libctl's
    [adaptive_integration].  The integrand calls [eps], which may abort, so
    the integrator takes and returns a [result].  The outputs [meps],
    [minveps] and [n] of [meaneps] are returned as a triple. *)

From stdpp Require Import gmap.
From Stdlib Require Import ZArith QArith Bool String List Lia Floats Lqa.
From S2P Require Import Prelude Number Vector3 Material Geometry FrontObject Epsilon.
Import ListNotations.

Local Open Scope result_scope.

Section MeanEps.
Context {D : Type} {N : Number D} {O T : Type} {G : Geom D O T}.
Local Open Scope num_scope.

Variable call_material_func : function -> vector3 D -> material_type D.
Variable fuel : nat.

(** [meep::material_function::normal_vector]. *)
Variable default_normal_vector : geometric_volume D -> vec D.

(** [adaptive_integration f xmin xmax n tol maxeval]; the absolute
    tolerance is always 0 and the outputs [esterr] and [errflag] are never
    read. *)
Variable adaptive_integration :
  (Z -> list D -> result D) -> list D -> list D -> Z -> D -> Z -> result D.

(** Reading [*o]. *)
Definition deref (o : option O) : result O :=
  match o with
  | Some ob => Ok ob
  | None => Fail (Undefined "null object")
  end.

Definition normal_vector (g : globals D) (u : uninit D O) (this : geom_epsilon O)
           (h : gmap nat T) (gv : geometric_volume D) : result (vec D) :=
  t <- tree_at (geometry_tree this) h ;;
  front <- get_front_object g u gv t ;;
  match front with
  | None => Ok (default_normal_vector gv)
  | Some r =>
      if material_type_equal (mat_front r) (mat_behind r)
      then Ok (zero_vec (gv_dim gv))
      else
        o <- deref (o_front r) ;;
        let normal :=
          normal_to_fixed_object (vector3_minus (pcenter r) (shiftby_front r)) o in
        vector3_to_vec (dim (g_dim g)) (unit_vector3 normal)
  end.

(** [x[i]] for an array that holds [n] numbers. *)
Definition coordinate (x : list D) (i : nat) : D := nth i x n_zero.

(** The point and the scale factor [s] the two integrands compute from
    [x]. *)
Definition integrand_point (g : globals D) (n : Z) (x : list D) : vector3 D * D :=
  let p := V3 (coordinate x 0)
              (if (n >? 1)%Z then coordinate x 1 else n_zero)
              (if (n >? 2)%Z then coordinate x 2 else n_zero) in
  match dim (g_dim g) with
  | Some Dcyl => (V3 (vx p) (vz p) (vy p), vx p)
  | _ => (p, n_one)
  end.

Definition eps_func (debug : bool) (g : globals D) (this : geom_epsilon O)
           (h : gmap nat T) (n : Z) (x : list D) : result D :=
  let '(p, s) := integrand_point g n x in
  r <- vector3_to_vec (dim (g_dim g)) p ;;
  e <- eps call_material_func fuel debug g this h r ;;
  Ok (e * s).

Definition inveps_func (debug : bool) (g : globals D) (this : geom_epsilon O)
           (h : gmap nat T) (n : Z) (x : list D) : result D :=
  let '(p, s) := integrand_point g n x in
  r <- vector3_to_vec (dim (g_dim g)) p ;;
  e <- eps call_material_func fuel debug g this h r ;;
  Ok (s / e).

(** The arrays [xmin] and [xmax] of [fallback_meaneps]. *)
Definition integration_corner (g : globals D) (c : vector3 D) : list D :=
  match dim (g_dim g) with
  | Some Dcyl => [vx c; vz c; vy c]
  | _ => [vx c; vy c; vz c]
  end.

(** The number [n] of dimensions that are integrated over. *)
Definition integration_dims (xmin xmax : list D) : Z :=
  if coordinate xmin 2 == coordinate xmax 2
  then (if coordinate xmin 1 == coordinate xmax 1 then 1 else 2)%Z
  else 3%Z.

(** [for (int i = 0; i < n; ++i) vol *= xmax[i] - xmin[i]], from [i]. *)
Fixpoint vol_loop (count : nat) (i : nat) (xmin xmax : list D) (vol : D) : D :=
  match count with
  | 0%nat => vol
  | S count' =>
      vol_loop count' (S i) xmin xmax (vol * (coordinate xmax i - coordinate xmin i))
  end.

(** The volume the integrals are divided by. *)
Definition integration_vol (g : globals D) (xmin xmax : list D) (n : Z) : D :=
  let vol := vol_loop (Z.to_nat n) 0 xmin xmax n_one in
  match dim (g_dim g) with
  | Some Dcyl => vol * ((coordinate xmin 0 + coordinate xmax 0) * n_half)
  | _ => vol
  end.

Definition fallback_meaneps (debug : bool) (g : globals D) (this : geom_epsilon O)
           (h : gmap nat T) (gv : geometric_volume D) (tol : D) (maxeval : Z)
  : result (D * D) :=
  let gvmin := vec_to_vector3 (get_min_corner gv) in
  let gvmax := vec_to_vector3 (get_max_corner gv) in
  let xmin := integration_corner g gvmin in
  let xmax := integration_corner g gvmax in
  let n := integration_dims xmin xmax in
  let vol := integration_vol g xmin xmax n in
  meps <- adaptive_integration (eps_func debug g this h) xmin xmax n tol maxeval ;;
  minveps <- adaptive_integration (inveps_func debug g this h) xmin xmax n tol maxeval ;;
  Ok (meps / vol, minveps / vol).

(** The pixel in the coordinates of the object: both corners minus
    [shiftby]. *)
Definition shifted_pixel (gv : geometric_volume D) (shiftby : vector3 D) : geom_box D :=
  let pixel := gv2box gv in
  {| low := vector3_minus (low pixel) shiftby;
     high := vector3_minus (high pixel) shiftby |}.

Definition meaneps (debug : bool) (g : globals D) (u : uninit D O)
           (this : geom_epsilon O) (h : gmap nat T) (gv : geometric_volume D)
           (tol : D) (maxeval : Z) : result (D * D * vec D) :=
  t <- tree_at (geometry_tree this) h ;;
  front <- get_front_object g u gv t ;;
  match front with
  | None =>
      m <- fallback_meaneps debug g this h gv tol maxeval ;;
      Ok (m.1, m.2, default_normal_vector gv)
  | Some r =>
      e <- material_eps (mat_front r) ;;
      let '(meps, minveps) := e in
      if material_type_equal (mat_front r) (mat_behind r)
      then Ok (meps, minveps, zero_vec (gv_dim gv))
      else
        o <- deref (o_front r) ;;
        let normal :=
          normal_to_fixed_object (vector3_minus (pcenter r) (shiftby_front r)) o in
        n <- vector3_to_vec (dim (g_dim g)) (unit_vector3 normal) ;;
        let pixel := shifted_pixel gv (shiftby_front r) in
        let fill := n_one - box_overlap_with_object pixel o tol maxeval in
        eb <- material_eps (mat_behind r) ;;
        let '(epsb, epsinvb) := eb in
        Ok (meps + fill * (epsb - meps), minveps + fill * (epsinvb - minveps), n)
  end.
End MeanEps.

(** A one-point cubature, the midpoint rule, to run the fallback on concrete
    pixels: the integrand at the centre of the box times the volume of the
    box. *)
Definition midpoint_integration {D : Type} {N : Number D}
           (f : Z -> list D -> result D) (xmin xmax : list D) (n : Z)
           (tol : D) (maxeval : Z) : result D :=
  v <- f n (map (fun ab => (ab.1 + ab.2) * n_half)%num (combine xmin xmax)) ;;
  Ok (v * vol_loop (Z.to_nat n) 0 xmin xmax n_one)%num.

(** ** The path through [get_front_object] *)

Section MeanEpsFacts.
Context {D : Type} {N : Number D} {L : NumberLaws D}.
Context {O T : Type} {G : Geom D O T} {GL : GeomLaws G}.
Local Open Scope num_scope.

Variable call_material_func : function -> vector3 D -> material_type D.
Variable fuel : nat.
Variable default_normal_vector : geometric_volume D -> vec D.
Variable adaptive_integration :
  (Z -> list D -> result D) -> list D -> list D -> Z -> D -> Z -> result D.

Abbreviation meaneps :=
  (meaneps call_material_func fuel default_normal_vector adaptive_integration).

Lemma integration_corner_length (g : globals D) (c : vector3 D) :
  length (integration_corner g c) = 3%nat.
Proof. unfold integration_corner. now destruct (dim (g_dim g)) as [[]|]. Qed.

Lemma sample_material_not_self (dm : material_type D) (o : option O) :
  which_subclass dm <> MATERIAL_TYPE_SELF ->
  which_subclass (sample_material dm o) <> MATERIAL_TYPE_SELF.
Proof.
  intros Hd. unfold sample_material. destruct o as [ob|]; [|exact Hd].
  destruct (subclass_tag_eqb_spec (which_subclass (material ob)) MATERIAL_TYPE_SELF);
    simpl; assumption.
Qed.

Lemma material_eps_fixed (m : material_type D) :
  which_subclass m <> MATERIAL_FUNCTION -> which_subclass m <> MATERIAL_TYPE_SELF ->
  exists e, material_eps m = Ok e.
Proof. destruct m; simpl; intros; try congruence; eauto. Qed.

(** When the materials in front and behind differ, the front object is an
    object, not the null pointer that stands for the default material. *)
Lemma front_object_not_null (g : globals D) (u : uninit D O)
      (gv : geometric_volume D) (t : T) (r : front_result D O) :
  valid_tree t ->
  get_front_object g u gv t = Ok (Some r) ->
  material_type_equal (default_material g) (default_material g) = true ->
  material_type_equal (mat_front r) (mat_behind r) = false ->
  exists o, o_front r = Some o.
Proof.
  intros Hv Hr Hd Hne.
  destruct (get_front_object_result g u gv t r Hv Hr)
    as (f & b & Hf & Hb & Ho & _ & Hm & _ & _ & Hc).
  destruct (s_o f) as [o|] eqn:E; [rewrite Ho; eauto|]. exfalso.
  destruct Hc as [[_ Hmb]|[Hid _]].
  - rewrite Hmb, Hm in Hne. simpl in Hne. congruence.
  - pose proof (front_samples_nonneg g gv t Hv) as Hn.
    rewrite Forall_forall in Hn. apply Hn in Hb.
    apply front_samples_In in Hf as [q Hq]. destruct f as [[fo fs] fi].
    unfold s_o, s_id in *. simpl in *. subst fo. apply precedence_none in Hq as [-> _]; [lia | exact Hv].
Qed.

(** The materials a successful [get_front_object] returns have a
    permittivity, unless the default material is MATERIAL_TYPE_SELF. *)
Lemma front_materials_eps (g : globals D) (u : uninit D O)
      (gv : geometric_volume D) (t : T) (r : front_result D O) :
  valid_tree t ->
  get_front_object g u gv t = Ok (Some r) ->
  which_subclass (default_material g) <> MATERIAL_TYPE_SELF ->
  (exists e, material_eps (mat_front r) = Ok e) /\
  (exists e, material_eps (mat_behind r) = Ok e).
Proof.
  intros Hv Hr Hd.
  destruct (get_front_object_result g u gv t r Hv Hr)
    as (f & b & _ & _ & _ & _ & Hm & Vf & Vb & Hc).
  assert (Sf : which_subclass (mat_front r) <> MATERIAL_TYPE_SELF)
    by (rewrite Hm; now apply sample_material_not_self).
  split; apply material_eps_fixed; auto.
  destruct Hc as [[_ ->]|[_ ->]]; [exact Sf | now apply sample_material_not_self].
Qed.

(** C2: for a pixel whose stencil lies in one image of one object with a
    dielectric material, [meaneps] returns the permittivity of that
    material, its inverse and the zero normal, whatever the tolerance and
    the number of evaluations allowed. *)
Theorem meaneps_homogeneous (debug : bool) (g : globals D) (u : uninit D O)
        (this : geom_epsilon O) (h : gmap nat T) (gv : geometric_volume D)
        (tol : D) (maxeval : Z) (t : T) (o : O) (s : vector3 D) (id : Z)
        (d : dielectric D) :
  h !! geometry_tree this = Some t ->
  valid_tree t -> front_samples g gv t <> [] ->
  Forall (eq (Some o, s, id)) (front_samples g gv t) ->
  material o = dielectric_data d -> dielectric_equal d d = true ->
  meaneps debug g u this h gv tol maxeval =
  Ok (epsilon d, n_one / epsilon d, zero_vec (gv_dim gv)).
Proof.
  intros Ht Hv Hne Hs Hm Hd. unfold MeanEps.meaneps, tree_at. rewrite Ht. simpl.
  rewrite (get_front_object_uniform g u gv t _ Hv Hne Hs). simpl.
  unfold homogeneous_result, s_o. simpl. rewrite Hm. simpl.
  rewrite andb_false_r. simpl. now rewrite Hd.
Qed.

(** When [get_front_object] succeeds, [meaneps] returns a result: it
    reads no null object and no material without a permittivity, provided
    the default material equals itself and is not MATERIAL_TYPE_SELF and the
    dimensionality is one that [vector3_to_vec] knows. *)
Theorem meaneps_defined (debug : bool) (g : globals D) (u : uninit D O)
        (this : geom_epsilon O) (h : gmap nat T) (gv : geometric_volume D)
        (tol : D) (maxeval : Z) (t : T) (r : front_result D O) (d : ndim) :
  h !! geometry_tree this = Some t -> valid_tree t ->
  get_front_object g u gv t = Ok (Some r) ->
  material_type_equal (default_material g) (default_material g) = true ->
  which_subclass (default_material g) <> MATERIAL_TYPE_SELF ->
  dim (g_dim g) = Some d ->
  is_ok (meaneps debug g u this h gv tol maxeval) = true.
Proof.
  intros Ht Hv Hr He Hd Hdim. unfold MeanEps.meaneps, tree_at. rewrite Ht. simpl.
  rewrite Hr. simpl.
  destruct (front_materials_eps g u gv t r Hv Hr Hd) as [[[e1 e2] ->] [[b1 b2] Hb]].
  simpl. destruct (material_type_equal (mat_front r) (mat_behind r)) eqn:E;
    [reflexivity|].
  destruct (front_object_not_null g u gv t r Hv Hr He E) as [o ->]. simpl.
  rewrite Hdim, Hb. now destruct d.
Qed.

(** With a default material that does not equal itself (one of its
    numbers is a NaN), a pixel in no object makes [meaneps] read the null
    object: the test for the one-material case fails, and the normal of the
    front object, which is null, is asked for. *)
Theorem meaneps_null_object (debug : bool) (g : globals D) (u : uninit D O)
        (this : geom_epsilon O) (h : gmap nat T) (gv : geometric_volume D)
        (tol : D) (maxeval : Z) (t : T) (s : vector3 D) (id : Z) (d : dielectric D) :
  h !! geometry_tree this = Some t ->
  valid_tree t -> front_samples g gv t <> [] ->
  Forall (eq (None, s, id)) (front_samples g gv t) ->
  default_material g = dielectric_data d -> dielectric_equal d d = false ->
  meaneps debug g u this h gv tol maxeval = Fail (Undefined "null object").
Proof.
  intros Ht Hv Hne Hs Hm Hd. unfold MeanEps.meaneps, tree_at. rewrite Ht. simpl.
  rewrite (get_front_object_uniform g u gv t _ Hv Hne Hs). simpl.
  unfold homogeneous_result, s_o. simpl. rewrite Hm. simpl. now rewrite Hd.
Qed.
End MeanEpsFacts.

(** ** Pixels without extent *)

Section Degenerate.
Context {D : Type} {N : Number D} {L : NumberLaws D}.
Context {O T : Type} {G : Geom D O T}.
Local Open Scope num_scope.
Variable call_material_func : function -> vector3 D -> material_type D.
Variable fuel : nat.

(** C33: for a pixel of a two-dimensional simulation without extent along
    y, the fallback integrates along x only, and its integrand takes [eps]
    on the line y = 0, not on the line of the pixel. *)
Theorem eps_func_degenerate (debug : bool) (g : globals D) (this : geom_epsilon O)
        (h : gmap nat T) (x0 x1 y : D) (x : list D) :
  dim (g_dim g) = Some D2 -> defined y ->
  let xmin := integration_corner g (vec_to_vector3 (vec2 x0 y)) in
  let xmax := integration_corner g (vec_to_vector3 (vec2 x1 y)) in
  integration_dims xmin xmax = 1%Z /\
  eps_func call_material_func fuel debug g this h (integration_dims xmin xmax) x =
  (e <- eps call_material_func fuel debug g this h (vec2 (coordinate x 0) n_zero) ;;
   Ok (e * n_one)).
Proof.
  intros Hd Hy. unfold integration_corner, integration_dims, eps_func, integrand_point.
  rewrite Hd. unfold coordinate. simpl. rewrite neqb_zero, Hy. auto.
Qed.
End Degenerate.

(** ** Exact arithmetic *)

Section ExactMeanEps.
Context {O T : Type} {G : Geom Q O T} {GL : GeomLaws G}.
Local Open Scope Q_scope.

Variable call_material_func : function -> vector3 Q -> material_type Q.
Variable fuel : nat.
Variable default_normal_vector : geometric_volume Q -> vec Q.
Variable adaptive_integration :
  (Z -> list Q -> result Q) -> list Q -> list Q -> Z -> Q -> Z -> result Q.

(** A value between two bounds given in either order. *)
Definition between (a b x : Q) : Prop :=
  (a <= b -> a <= x <= b) /\ (b <= a -> b <= x <= a).

Lemma blend_between (a b fill : Q) :
  0 <= fill <= 1 -> between a b (a + fill * (b - a)).
Proof. intros H. split; intros Hab; nra. Qed.

(** For a pixel that straddles a front object with permittivity [ef]
    and a material behind with permittivity [eb], [meaneps] computes
    [ef * overlap + eb * (1 - overlap)] and the same blend of the inverses,
    where [overlap] is the fraction of the pixel, shifted into the
    coordinates of the object, that lies in the object; when that fraction
    is between 0 and 1 the mean permittivity lies between [ef] and [eb]. *)
Lemma meaneps_blend (debug : bool) (g : globals Q) (u : uninit Q O)
        (this : geom_epsilon O) (h : gmap nat T) (gv : geometric_volume Q)
        (tol : Q) (maxeval : Z) (t : T) (r : front_result Q O) (o : O)
        (df db : dielectric Q) (d : ndim) :
  h !! geometry_tree this = Some t ->
  get_front_object g u gv t = Ok (Some r) ->
  material_type_equal (mat_front r) (mat_behind r) = false ->
  o_front r = Some o ->
  mat_front r = dielectric_data df -> mat_behind r = dielectric_data db ->
  dim (g_dim g) = Some d ->
  let overlap :=
    box_overlap_with_object (shifted_pixel gv (shiftby_front r)) o tol maxeval in
  exists meps minveps n,
    meaneps call_material_func fuel default_normal_vector adaptive_integration
            debug g u this h gv tol maxeval = Ok (meps, minveps, n) /\
    meps == epsilon df * overlap + epsilon db * (1 - overlap) /\
    minveps == (1 / epsilon df) * overlap + (1 / epsilon db) * (1 - overlap) /\
    (0 <= overlap <= 1 -> between (epsilon df) (epsilon db) meps).
Proof.
  intros Ht Hr Hne Ho Hf Hb Hd overlap. unfold meaneps, tree_at.
  rewrite Ht. simpl. rewrite Hr. simpl. rewrite Hne, Ho, Hf, Hb. simpl.
  rewrite Hd.
  destruct d; simpl; (eexists _, _, _; split; [reflexivity|]); fold overlap;
    (split; [ring|]); (split; [ring|]); intros Hov; apply blend_between; lra.
Qed.

(** The result of [get_front_object] on an interface between a dielectric
    object and a dielectric behind it. *)
Lemma two_images_dielectric (dm : material_type Q) (p : vector3 Q) (a b : sample Q O)
      (ob : O) (df db : dielectric Q) :
  s_o b = Some ob -> material ob = dielectric_data df ->
  sample_material dm (s_o a) = dielectric_data db ->
  two_images_result dm p a b =
  Some {| pcenter := p; o_front := Some ob; shiftby_front := s_shiftby b;
          mat_front := dielectric_data df; mat_behind := dielectric_data db |}.
Proof.
  intros Hb Hm Ha. unfold two_images_result. rewrite Hb, Ha. simpl. rewrite Hm. simpl.
  unfold sample_material, object_variable, object_self, object_null in *.
  destruct (s_o a) as [oa|]; [|now rewrite Ha].
  destruct (subclass_tag_eqb_spec (which_subclass (material oa)) MATERIAL_TYPE_SELF)
    as [E|E]; simpl in Ha.
  - rewrite E, Ha. reflexivity.
  - rewrite Ha. simpl. now rewrite andb_false_r.
Qed.

(** C3: for a pixel on the interface between a dielectric object and a
    dielectric behind it (every query of the stencil returns one of two
    images, the object having the larger precedence), [meaneps] computes
    [ef * overlap + eb * (1 - overlap)] and the same blend of the inverses,
    where [overlap] is the fraction of the pixel, shifted into the
    coordinates of the object, that lies in the object; when that fraction
    is between 0 and 1 the mean permittivity lies between [ef] and [eb]. *)
Theorem meaneps_interface (debug : bool) (g : globals Q) (u : uninit Q O)
        (this : geom_epsilon O) (h : gmap nat T) (gv : geometric_volume Q)
        (tol : Q) (maxeval : Z) (t : T) (a b : sample Q O) (ob : O)
        (df db : dielectric Q) (d : ndim) :
  h !! geometry_tree this = Some t -> valid_tree t ->
  Forall (fun s => s = a \/ s = b) (front_samples g gv t) ->
  In a (front_samples g gv t) -> In b (front_samples g gv t) ->
  (s_id a < s_id b)%Z ->
  s_o b = Some ob -> material ob = dielectric_data df ->
  sample_material (default_material g) (s_o a) = dielectric_data db ->
  dielectric_equal df db = false ->
  dim (g_dim g) = Some d ->
  let overlap :=
    box_overlap_with_object (shifted_pixel gv (s_shiftby b)) ob tol maxeval in
  exists meps minveps n,
    meaneps call_material_func fuel default_normal_vector adaptive_integration
            debug g u this h gv tol maxeval = Ok (meps, minveps, n) /\
    meps == epsilon df * overlap + epsilon db * (1 - overlap) /\
    minveps == (1 / epsilon df) * overlap + (1 / epsilon db) * (1 - overlap) /\
    (0 <= overlap <= 1 -> between (epsilon df) (epsilon db) meps).
Proof.
  intros Ht Hv Hs Hia Hib Hab Hob Hm Hma Hne Hd.
  pose proof (front_samples_filled g gv t Hv) as Hf. rewrite Forall_forall in Hf.
  assert (Hr : get_front_object g u gv t =
               Ok (Some {| pcenter := vec_to_vector3 (center gv); o_front := Some ob;
                           shiftby_front := s_shiftby b;
                           mat_front := dielectric_data df;
                           mat_behind := dielectric_data db |})).
  { rewrite <- (two_images_dielectric (default_material g) _ a b ob df db Hob Hm Hma).
    apply get_front_object_two_images; auto;
      apply vector3_equal_refl; repeat split; apply Q_defined. }
  exact (meaneps_blend debug g u this h gv tol maxeval t _ ob df db d Ht Hr Hne
                       eq_refl eq_refl eq_refl Hd).
Qed.

(** *** The fallback *)

(** What the fallback needs of the cubature: over a box given by two arrays
    of three numbers, of which one, two or three are integrated over,
    integrands that are affine in the first coordinate are integrated
    exactly.  Every cubature rule of degree one or more is. *)
Class ExactCubature : Prop :=
  exact_affine : forall f xmin xmax n tol maxeval a b,
    length xmin = 3%nat -> length xmax = 3%nat -> (1 <= n <= 3)%Z ->
    (forall x, exists v, f n x = Ok v /\ v == a + b * coordinate x 0) ->
    exists v, adaptive_integration f xmin xmax n tol maxeval = Ok v /\
              v == (a + b * ((coordinate xmin 0 + coordinate xmax 0) * (1 # 2))) *
                   vol_loop (Z.to_nat n) 0 xmin xmax 1.

(** The weight of the volume element: the radius in cylindrical
    coordinates, one otherwise. *)
Definition cyl (d : ndim) : bool :=
  match d with Dcyl => true | _ => false end.

Lemma integrand_affine (debug : bool) (g : globals Q) (this : geom_epsilon O)
      (h : gmap nat T) (d : ndim) (c : Q) (n : Z) (x : list Q) :
  dim (g_dim g) = Some d ->
  (forall r, eps call_material_func fuel debug g this h r = Ok c) ->
  (exists v, eps_func call_material_func fuel debug g this h n x = Ok v /\
             v == (if cyl d then 0 else c) + (if cyl d then c else 0) * coordinate x 0) /\
  (exists v, inveps_func call_material_func fuel debug g this h n x = Ok v /\
             v == (if cyl d then 0 else 1 / c) +
                  (if cyl d then 1 / c else 0) * coordinate x 0).
Proof.
  intros Hd He. unfold eps_func, inveps_func, integrand_point. rewrite Hd.
  destruct d; simpl; rewrite He; simpl;
    split; eexists; (split; [reflexivity|]); unfold coordinate, Qdiv; simpl; ring.
Qed.

Lemma div_cancel (c v vol : Q) : ~ vol == 0 -> v == c * vol -> v / vol == c.
Proof. intros Hvol ->. now field. Qed.

(** The integral of an integrand [a + b * x0] with [a] and [b] as in
    [integrand_affine] is [c] times the volume [fallback_meaneps] divides
    by. *)
Lemma affine_integral_vol (g : globals Q) (d : ndim) (c v : Q)
      (xmin xmax : list Q) (n : Z) :
  dim (g_dim g) = Some d ->
  v == ((if cyl d then 0 else c) +
        (if cyl d then c else 0) * ((coordinate xmin 0 + coordinate xmax 0) * (1 # 2))) *
       vol_loop (Z.to_nat n) 0 xmin xmax 1 ->
  v == c * integration_vol g xmin xmax n.
Proof.
  intros Hd ->. unfold integration_vol. rewrite Hd. destruct d; simpl; ring.
Qed.

Lemma integration_dims_range (xmin xmax : list Q) :
  (1 <= integration_dims xmin xmax <= 3)%Z.
Proof. unfold integration_dims. repeat case_goal; lia. Qed.

Context {E : ExactCubature}.

(** C28: over a pixel in which the permittivity is the constant [c], the
    fallback returns [c] and [1 / c], in Cartesian and in cylindrical
    coordinates, provided the volume it divides by is not zero: the weight
    of the integrands and the volume agree. *)
Theorem fallback_meaneps_constant (debug : bool) (g : globals Q)
        (this : geom_epsilon O) (h : gmap nat T) (gv : geometric_volume Q)
        (tol : Q) (maxeval : Z) (d : ndim) (c : Q) :
  dim (g_dim g) = Some d ->
  (forall r, eps call_material_func fuel debug g this h r = Ok c) ->
  let xmin := integration_corner g (vec_to_vector3 (get_min_corner gv)) in
  let xmax := integration_corner g (vec_to_vector3 (get_max_corner gv)) in
  ~ integration_vol g xmin xmax (integration_dims xmin xmax) == 0 ->
  exists meps minveps,
    fallback_meaneps call_material_func fuel adaptive_integration
                     debug g this h gv tol maxeval = Ok (meps, minveps) /\
    meps == c /\ minveps == 1 / c.
Proof.
  intros Hd He xmin xmax Hvol. unfold fallback_meaneps. fold xmin xmax.
  set (n := integration_dims xmin xmax) in *.
  destruct (exact_affine (eps_func call_material_func fuel debug g this h)
              xmin xmax n tol maxeval _ _
              (integration_corner_length g _) (integration_corner_length g _)
              (integration_dims_range _ _)
              (fun x => proj1 (integrand_affine debug g this h d c n x Hd He)))
    as (v & -> & Hv).
  destruct (exact_affine (inveps_func call_material_func fuel debug g this h)
              xmin xmax n tol maxeval _ _
              (integration_corner_length g _) (integration_corner_length g _)
              (integration_dims_range _ _)
              (fun x => proj2 (integrand_affine debug g this h d c n x Hd He)))
    as (w & -> & Hw).
  simpl. eexists _, _. split; [reflexivity|].
  split; apply div_cancel; try exact Hvol; eapply affine_integral_vol; eassumption.
Qed.

(** C34: in one dimension the fallback divides by zero.  The only
    coordinate of a one-dimensional pixel is z, which the fallback takes as
    its third axis: it integrates over three axes, two of them of extent
    zero, and the volume it divides the integrals by is zero. *)
Theorem fallback_one_dimension (g : globals Q) (z0 z1 : Q) :
  g_dim g = set_dimensions 1 -> ~ z0 == z1 ->
  let xmin := integration_corner g (vec_to_vector3 (get_min_corner (volume1 z0 z1))) in
  let xmax := integration_corner g (vec_to_vector3 (get_max_corner (volume1 z0 z1))) in
  integration_dims xmin xmax = 3%Z /\
  integration_vol g xmin xmax (integration_dims xmin xmax) == 0.
Proof.
  intros Hg Hz xmin xmax.
  assert (Hn : integration_dims xmin xmax = 3%Z).
  { unfold integration_dims, xmin, xmax, integration_corner. rewrite Hg. simpl.
    unfold coordinate. simpl.
    destruct (Qeq_bool z0 z1) eqn:Eq; [|reflexivity].
    now apply Qeq_bool_iff in Eq. }
  split; [exact Hn|]. rewrite Hn.
  unfold integration_vol, xmin, xmax, integration_corner. rewrite Hg. simpl.
  unfold coordinate. simpl. ring.
Qed.
End ExactMeanEps.

(** The midpoint rule is exact on affine integrands. *)
#[export] Instance midpoint_exact : ExactCubature (@midpoint_integration Q _).
Proof.
  intros f xmin xmax n tol maxeval a b Hmin Hmax _ Hf. unfold midpoint_integration.
  destruct xmin as [|x0 xmin]; [discriminate|].
  destruct xmax as [|x1 xmax]; [discriminate|].
  destruct (Hf (map (fun ab => (ab.1 + ab.2) * n_half)%num
                    (combine (x0 :: xmin) (x1 :: xmax)))) as (v & -> & Hv).
  simpl. eexists. split; [reflexivity|]. rewrite Hv. unfold coordinate. simpl.
  ring.
Qed.

(** ** Concrete pixels over the slab of glass *)

Section MeanEpsWitnesses.
Import Slabs.
Local Open Scope float_scope.

Definition no_normal (gv : geometric_volume float) : vec float := zero_vec (gv_dim gv).

(** A pixel inside the slab and a pixel across its face x = 1. *)
Definition inside : geometric_volume float := pixel2 0.25 0.75 0 1.

Definition across : geometric_volume float := pixel2 0.5 1.5 0 1.

Lemma meaneps_homogeneous_witness :
  meaneps example_call 10 no_normal midpoint_integration false air_globals junk
          constructed.1 constructed.2 inside 0.125 100
  = Ok (2.25, n_one / 2.25, zero_vec D2)%num.
Proof.
  apply (meaneps_homogeneous example_call 10 no_normal midpoint_integration false
           air_globals junk constructed.1 constructed.2 inside 0.125 100%Z
           (create_geom_box_tree0 false glass_slab (gv2box cell))
           (slab (diel 2.25) 0 1) (V3 0 0 0) 1%Z
           {| epsilon := 2.25; chi2 := 0; chi3 := 0; polarizations := [] |}).
  - vm_compute. reflexivity.
  - apply valid_create.
  - vm_compute. discriminate.
  - vm_compute. repeat constructor.
  - reflexivity.
  - vm_compute. reflexivity.
Defined.

Lemma meaneps_defined_witness :
  is_ok (meaneps example_call 10 no_normal midpoint_integration false air_globals
                 junk constructed.1 constructed.2 across 0.125 100) = true.
Proof.
  eapply (meaneps_defined example_call 10 no_normal midpoint_integration false
            air_globals junk constructed.1 constructed.2 across 0.125 100%Z
            (create_geom_box_tree0 false glass_slab (gv2box cell)) _ D2).
  - vm_compute. reflexivity.
  - apply valid_create.
  - vm_compute. reflexivity.
  - vm_compute. reflexivity.
  - discriminate.
  - reflexivity.
Defined.

(** Across the face of the slab the mean permittivity is the blend of
    2.25 and 1 in equal parts, and the normal points along x. *)
Example meaneps_across :
  meaneps example_call 10 no_normal midpoint_integration false air_globals junk
          constructed.1 constructed.2 across 0.125 100
  = Ok (1.625, n_one / 2.25 + 0.5 * (1 - n_one / 2.25), vec2 1 0)%num.
Proof. vm_compute. reflexivity. Qed.

(** In doubles the blend can leave the interval between the two
    permittivities.  A slab of permittivity 12 that touches the pixel along
    its edge x = 1 is in front at two corners of the stencil and covers
    nothing of the pixel; behind it is the double nearest to 1.1, and
    [12 + 1 * (1.1 - 12)] is smaller than that by two units in the last
    place, because the difference is rounded. *)
Definition touching : geom_epsilon (geometric_object float) * gmap nat (geom_box_tree float) :=
  geom_epsilon_ctor (globals_of 2 (diel 0x1.199999999999ap+0)) [slab (diel 12) 1 2] cell ∅.

Example meaneps_rounding :
  exists meps minveps n,
    meaneps example_call 10 no_normal midpoint_integration false
            (globals_of 2 (diel 0x1.199999999999ap+0)) junk touching.1 touching.2
            (pixel2 0 1 0 1) 0.125 100
    = Ok (meps, minveps, n) /\
    meps = 0x1.1999999999998p+0 /\ (meps <? 0x1.199999999999ap+0) = true.
Proof. eexists _, _, _. split; [vm_compute; reflexivity|]. split; reflexivity. Qed.
End MeanEpsWitnesses.

(** ** Concrete pixels in exact arithmetic *)

Section ExactWitnesses.
Local Open Scope Q_scope.

#[local] Instance GQ : Geom Q (geometric_object Q) (geom_box_tree Q) :=
  LinearGeom [] (fun v => v).

Definition dielQ (e : Q) : material_type Q :=
  dielectric_data {| epsilon := e; chi2 := 0; chi3 := 0; polarizations := [] |}.

Definition globalsQ (dims : Z) (dm : material_type Q) : globals Q :=
  {| g_dim := set_dimensions dims; default_material := dm;
     ensure_periodicity := false |}.

Definition pixelQ (x0 x1 y0 y1 : Q) : geometric_volume Q :=
  {| gv_dim := D2; get_min_corner := vec2 x0 y0; get_max_corner := vec2 x1 y1;
     center := vec2 ((x0 + x1) * (1 # 2)) ((y0 + y1) * (1 # 2)) |}.

Definition slabQ : geometric_object Q := slab (dielQ 4) 0 1.

Definition junkQ : uninit Q (geometric_object Q) :=
  {| u_shiftby1 := V3 7 7 7; u_mat1 := perfect_metal_data;
     u_shiftby2 := V3 8 8 8; u_mat2 := perfect_metal_data;
     u_o_front := None; u_shiftby_front := V3 9 9 9;
     u_mat_front := perfect_metal_data; u_mat_behind := perfect_metal_data |}.

Definition no_normalQ (gv : geometric_volume Q) : vec Q := zero_vec (gv_dim gv).

Definition callQ (f : function) (p : vector3 Q) : material_type Q := dielQ 2.

(** The slab in a medium of permittivity 1, and the empty geometry in a
    medium of permittivity 2. *)
Definition constructedQ : geom_epsilon (geometric_object Q) * gmap nat (geom_box_tree Q) :=
  geom_epsilon_ctor (globalsQ 2 (dielQ 1)) [slabQ] (pixelQ (-4) 4 (-4) 4) ∅.

Definition emptyQ : geom_epsilon (geometric_object Q) * gmap nat (geom_box_tree Q) :=
  geom_epsilon_ctor (globalsQ 2 (dielQ 2)) [] (pixelQ (-4) 4 (-4) 4) ∅.

Definition acrossQ : geometric_volume Q := pixelQ (1 # 2) (3 # 2) 0 1.

Definition overlapQ : Q :=
  box_overlap_with_object (shifted_pixel acrossQ (V3 0 0 0)) slabQ (1 # 8) 100.

Lemma meaneps_blend_witness :
  exists meps minveps n,
    meaneps callQ 10 no_normalQ midpoint_integration false (globalsQ 2 (dielQ 1))
            junkQ constructedQ.1 constructedQ.2 acrossQ (1 # 8) 100
    = Ok (meps, minveps, n) /\
    meps == 4 * overlapQ + 1 * (1 - overlapQ) /\
    minveps == (1 / 4) * overlapQ + (1 / 1) * (1 - overlapQ) /\
    (0 <= overlapQ <= 1 -> between 4 1 meps).
Proof.
  apply (meaneps_blend callQ 10 no_normalQ midpoint_integration false
           (globalsQ 2 (dielQ 1)) junkQ constructedQ.1 constructedQ.2 acrossQ
           (1 # 8) 100%Z
           (create_geom_box_tree0 false [slabQ] (gv2box (pixelQ (-4) 4 (-4) 4)))
           {| pcenter := vec_to_vector3 (center acrossQ); o_front := Some slabQ;
              shiftby_front := V3 0 0 0; mat_front := dielQ 4; mat_behind := dielQ 1 |}
           slabQ
           {| epsilon := 4; chi2 := 0; chi3 := 0; polarizations := [] |}
           {| epsilon := 1; chi2 := 0; chi3 := 0; polarizations := [] |} D2);
    vm_compute; reflexivity.
Defined.

Lemma meaneps_interface_witness :
  exists meps minveps n,
    meaneps callQ 10 no_normalQ midpoint_integration false (globalsQ 2 (dielQ 1))
            junkQ constructedQ.1 constructedQ.2 acrossQ (1 # 8) 100
    = Ok (meps, minveps, n) /\
    meps == 4 * overlapQ + 1 * (1 - overlapQ) /\
    minveps == (1 / 4) * overlapQ + (1 / 1) * (1 - overlapQ) /\
    (0 <= overlapQ <= 1 -> between 4 1 meps).
Proof.
  apply (meaneps_interface callQ 10 no_normalQ midpoint_integration false
           (globalsQ 2 (dielQ 1)) junkQ constructedQ.1 constructedQ.2 acrossQ
           (1 # 8) 100%Z
           (create_geom_box_tree0 false [slabQ] (gv2box (pixelQ (-4) 4 (-4) 4)))
           (None, V3 0 0 0, 0%Z) (Some slabQ, V3 0 0 0, 1%Z) slabQ
           {| epsilon := 4; chi2 := 0; chi3 := 0; polarizations := [] |}
           {| epsilon := 1; chi2 := 0; chi3 := 0; polarizations := [] |} D2);
    try reflexivity.
  - apply valid_create.
  - vm_compute.
    repeat (apply Forall_cons; [first [left; reflexivity | right; reflexivity]|]).
    apply Forall_nil.
  - vm_compute. auto 10.
  - vm_compute. auto 10.
Defined.

Lemma fallback_meaneps_constant_witness :
  exists meps minveps,
    fallback_meaneps callQ 10 midpoint_integration false (globalsQ 2 (dielQ 2))
                     emptyQ.1 emptyQ.2 acrossQ (1 # 8) 100 = Ok (meps, minveps) /\
    meps == 2 /\ minveps == 1 / 2.
Proof.
  apply (fallback_meaneps_constant callQ 10 midpoint_integration false
           (globalsQ 2 (dielQ 2)) emptyQ.1 emptyQ.2 acrossQ (1 # 8) 100%Z D2 2).
  - reflexivity.
  - intros r. vm_compute. reflexivity.
  - vm_compute. discriminate.
Defined.

Lemma fallback_one_dimension_witness :
  integration_dims
    (integration_corner (globalsQ 1 (dielQ 1))
                        (vec_to_vector3 (get_min_corner (volume1 0 1))))
    (integration_corner (globalsQ 1 (dielQ 1))
                        (vec_to_vector3 (get_max_corner (volume1 0 1)))) = 3%Z /\
  integration_vol (globalsQ 1 (dielQ 1))
    (integration_corner (globalsQ 1 (dielQ 1))
                        (vec_to_vector3 (get_min_corner (volume1 0 1))))
    (integration_corner (globalsQ 1 (dielQ 1))
                        (vec_to_vector3 (get_max_corner (volume1 0 1))))
    (integration_dims
       (integration_corner (globalsQ 1 (dielQ 1))
                           (vec_to_vector3 (get_min_corner (volume1 0 1))))
       (integration_corner (globalsQ 1 (dielQ 1))
                           (vec_to_vector3 (get_max_corner (volume1 0 1))))) == 0.
Proof.
  apply (fallback_one_dimension (globalsQ 1 (dielQ 1)) 0 1).
  - reflexivity.
  - vm_compute. discriminate.
Defined.
End ExactWitnesses.

(** ** Two pixels on which the averaging goes wrong *)

Section MeanEpsFindings.
Import Slabs.
Local Open Scope float_scope.

(** No objects, and a material function as default material; procedure 3
    of [example_call] returns glass everywhere. *)
Definition function_globals (dims : Z) : globals float :=
  globals_of dims (material_function_data 3%Z).

Definition nothing (dims : Z) (gv : geometric_volume float)
  : geom_epsilon (geometric_object float) * gmap nat (geom_box_tree float) :=
  geom_epsilon_ctor (function_globals dims) [] gv ∅.

(** In one dimension, when a material function sends [meaneps] to the
    fallback, the mean permittivity is a NaN: the integral over a box of
    extent zero in x and y, divided by the volume zero. *)
Example meaneps_one_dimension_nan :
  exists meps minveps n,
    meaneps example_call 10 no_normal midpoint_integration false (function_globals 1)
            junk (nothing 1 (pixel1 0 1)).1 (nothing 1 (pixel1 0 1)).2 (pixel1 0 1)
            0.125 100 = Ok (meps, minveps, n) /\
    PrimFloat.eqb meps meps = false.
Proof. eexists _, _, _. split; vm_compute; reflexivity. Qed.

(** The same pixel in two dimensions is averaged to the permittivity of
    glass. *)
Example meaneps_two_dimensions_glass :
  meaneps example_call 10 no_normal midpoint_integration false (function_globals 2)
          junk (nothing 2 inside).1 (nothing 2 inside).2 inside 0.125 100
  = Ok (2.25, 1 / 2.25, vec2 0 0).
Proof. vm_compute. reflexivity. Qed.

(** With a default material whose permittivity is a NaN, a pixel in no
    object makes [meaneps] read the null object: the material equals
    nothing, itself included, so the test for the one-material case fails
    and the normal of the front object, which is null, is asked for. *)
Lemma meaneps_null_object_witness :
  meaneps example_call 10 no_normal midpoint_integration false (globals_of 2 (diel nan))
          junk (geom_epsilon_ctor (globals_of 2 (diel nan)) [] cell ∅).1
          (geom_epsilon_ctor (globals_of 2 (diel nan)) [] cell ∅).2 inside 0.125 100
  = Fail (Undefined "null object").
Proof.
  apply (meaneps_null_object example_call 10 no_normal midpoint_integration false
           (globals_of 2 (diel nan)) junk _ _ inside 0.125 100%Z
           (create_geom_box_tree0 false [] (gv2box cell)) (V3 0 0 0) 0%Z
           {| epsilon := nan; chi2 := 0; chi3 := 0; polarizations := [] |}).
  - vm_compute. reflexivity.
  - apply valid_create.
  - vm_compute. discriminate.
  - vm_compute. repeat constructor.
  - reflexivity.
  - vm_compute. reflexivity.
Defined.
(** A slab along y between y = 1 and y = 2 whose material is a material
    function, in air; procedure 3 of [kerr_call] returns a medium of
    permittivity 2.25. *)
Definition function_strip : list (geometric_object float) :=
  [slab_along AY (material_function_data 3%Z) 1 2].

Definition line_in_strip : geometric_volume float := pixel2 0 1 1.5 1.5.

Lemma eps_func_degenerate_witness :
  integration_dims (integration_corner air_globals (vec_to_vector3 (vec2 0 1.5)))
                   (integration_corner air_globals (vec_to_vector3 (vec2 1 1.5))) = 1%Z /\
  eps_func kerr_call 10 false air_globals
           (geom_epsilon_ctor air_globals function_strip cell ∅).1
           (geom_epsilon_ctor air_globals function_strip cell ∅).2
           (integration_dims (integration_corner air_globals (vec_to_vector3 (vec2 0 1.5)))
                             (integration_corner air_globals (vec_to_vector3 (vec2 1 1.5))))
           [0.5; 1.5; 0] =
  (e <- eps kerr_call 10 false air_globals
            (geom_epsilon_ctor air_globals function_strip cell ∅).1
            (geom_epsilon_ctor air_globals function_strip cell ∅).2
            (vec2 (coordinate [0.5; 1.5; 0] 0) n_zero) ;;
   Ok (e * n_one)%num).
Proof.
  apply (eps_func_degenerate kerr_call 10 false air_globals
           (geom_epsilon_ctor air_globals function_strip cell ∅).1
           (geom_epsilon_ctor air_globals function_strip cell ∅).2 0 1 1.5 [0.5; 1.5; 0]);
    reflexivity.
Defined.

(** The pixel lies in the strip, where the permittivity is 2.25, and its
    mean permittivity comes out as that of the air at y = 0. *)
Example meaneps_line_in_strip :
  eps kerr_call 10 false air_globals
      (geom_epsilon_ctor air_globals function_strip cell ∅).1
      (geom_epsilon_ctor air_globals function_strip cell ∅).2 (vec2 0.5 1.5) = Ok 2.25 /\
  meaneps kerr_call 10 no_normal midpoint_integration false air_globals junk
          (geom_epsilon_ctor air_globals function_strip cell ∅).1
          (geom_epsilon_ctor air_globals function_strip cell ∅).2
          line_in_strip 0.125 100 = Ok (1, 1, vec2 0 0).
Proof. split; vm_compute; reflexivity. Qed.
End MeanEpsFindings.

(** ** [normal_vector] and [meaneps] *)

Section NormalVector.
Context {D : Type} {N : Number D} {O T : Type} {G : Geom D O T}.

Variable call_material_func : function -> vector3 D -> material_type D.
Variable fuel : nat.
Variable default_normal_vector : geometric_volume D -> vec D.
Variable adaptive_integration :
  (Z -> list D -> result D) -> list D -> list D -> Z -> D -> Z -> result D.

(** The normal [meaneps] returns is the one [normal_vector] returns for
    the same pixel. *)
Theorem normal_vector_meaneps (debug : bool) (g : globals D) (u : uninit D O)
        (this : geom_epsilon O) (h : gmap nat T) (gv : geometric_volume D)
        (tol : D) (maxeval : Z) (meps minveps : D) (n : vec D) :
  meaneps call_material_func fuel default_normal_vector adaptive_integration
          debug g u this h gv tol maxeval = Ok (meps, minveps, n) ->
  normal_vector default_normal_vector g u this h gv = Ok n.
Proof.
  unfold meaneps, normal_vector.
  destruct (tree_at _ _) as [t|]; simpl; [|discriminate].
  destruct (get_front_object g u gv t) as [[r|]|]; simpl; try discriminate.
  - destruct (material_eps (mat_front r)) as [[e1 e2]|]; simpl; [|discriminate].
    destruct (material_type_equal _ _); [congruence|].
    destruct (deref (o_front r)) as [o|]; simpl; [|discriminate].
    destruct (vector3_to_vec _ _) as [v|]; simpl; [|discriminate].
    destruct (material_eps (mat_behind r)) as [[b1 b2]|]; simpl; congruence.
  - destruct (fallback_meaneps _ _ _ _ _ _ _ _ _ _) as [[m1 m2]|]; simpl; congruence.
Qed.

Lemma zero_vec_dim (d : ndim) : vec_dim (zero_vec (D := D) d) = d.
Proof. now destruct d. Qed.

(** The normal is made in three places: by [meep::zero_vec] for the
    dimensionality of the pixel, by [vector3_to_vec] for the static [dim],
    and by the default of [meep::material_function]. *)
Lemma normal_vector_dim (g : globals D) (u : uninit D O) (this : geom_epsilon O)
      (h : gmap nat T) (gv : geometric_volume D) (n : vec D) :
  normal_vector default_normal_vector g u this h gv = Ok n ->
  n = default_normal_vector gv \/ vec_dim n = gv_dim gv \/
  dim (g_dim g) = Some (vec_dim n).
Proof.
  unfold normal_vector.
  destruct (tree_at _ _) as [t|]; simpl; [|discriminate].
  destruct (get_front_object g u gv t) as [[r|]|]; simpl; try discriminate.
  - destruct (material_type_equal _ _).
    + intros [= <-]. right. left. apply zero_vec_dim.
    + destruct (deref (o_front r)) as [o|]; simpl; [|discriminate].
      destruct (dim (g_dim g)) as [d|] eqn:E; [|discriminate].
      intros H%vector3_to_vec_dim. right. right. now rewrite H.
  - intros [= <-]. now left.
Qed.

(** C25: when the static [dim] is the dimensionality of the pixel, as it is
    for the volumes [make_structure] makes, and the default normal of meep
    has the dimensionality of its argument, the normal that [meaneps]
    returns has the dimensionality of the pixel on each of its three
    paths, and so has the result of [normal_vector]. *)
Theorem meaneps_dim (debug : bool) (g : globals D) (u : uninit D O)
        (this : geom_epsilon O) (h : gmap nat T) (gv : geometric_volume D)
        (tol : D) (maxeval : Z) (meps minveps : D) (n : vec D) :
  dim (g_dim g) = Some (gv_dim gv) ->
  vec_dim (default_normal_vector gv) = gv_dim gv ->
  meaneps call_material_func fuel default_normal_vector adaptive_integration
          debug g u this h gv tol maxeval = Ok (meps, minveps, n) ->
  vec_dim n = gv_dim gv /\
  exists n', normal_vector default_normal_vector g u this h gv = Ok n' /\
             vec_dim n' = gv_dim gv.
Proof.
  intros Hd Hn H%normal_vector_meaneps.
  assert (Hv : vec_dim n = gv_dim gv).
  { destruct (normal_vector_dim _ _ _ _ _ _ H) as [->|[E|E]]; auto. congruence. }
  eauto.
Qed.
End NormalVector.

Section NormalVectorWitness.
Import Slabs.
Local Open Scope float_scope.

Lemma normal_vector_meaneps_witness :
  normal_vector no_normal air_globals junk constructed.1 constructed.2 across
  = Ok (vec2 1 0).
Proof.
  apply (normal_vector_meaneps example_call 10 no_normal midpoint_integration false
           air_globals junk constructed.1 constructed.2 across 0.125 100%Z
           1.625 (n_one / 2.25 + 0.5 * (1 - n_one / 2.25))%num (vec2 1 0)).
  vm_compute. reflexivity.
Defined.

Lemma meaneps_dim_witness :
  vec_dim (vec2 1 0 : vec float) = D2 /\
  exists n', normal_vector no_normal air_globals junk constructed.1 constructed.2 across
             = Ok n' /\ vec_dim n' = D2.
Proof.
  apply (meaneps_dim example_call 10 no_normal midpoint_integration false
           air_globals junk constructed.1 constructed.2 across 0.125 100%Z
           1.625 (n_one / 2.25 + 0.5 * (1 - n_one / 2.25))%num (vec2 1 0));
    vm_compute; reflexivity.
Defined.

(** With the static [dim] at its initial value, three dimensions, a
    two-dimensional pixel on an interface gets a normal of three
    coordinates: the dimensionality of the normal is that of the pixel on
    the other two paths only. *)
Example meaneps_dim_static :
  exists meps minveps,
    meaneps example_call 10 no_normal midpoint_integration false
            {| g_dim := {| dimensions := 2; dim := Some D3 |};
               default_material := diel 1; ensure_periodicity := false |}
            junk constructed.1 constructed.2 across 0.125 100
    = Ok (meps, minveps, vec3 1 0 0).
Proof. eexists _, _. vm_compute. reflexivity. Qed.
End NormalVectorWitness.
