(* ===== verification/Overlap.v ===== *)
(** * Overlap: the fill fraction of a pixel

    [meaneps] (lines 373-410 of src/libctl/structure.cpp) blends the
    permittivities in front of and behind an interface with the weight
    [fill = 1 - box_overlap_with_object(pixel, *o, tol, maxeval)], the pixel
    taken in the coordinates of the object.  The overlap is computed by
    libctl.  For the blocks and slabs of Geometry.v, whose edges are along
    the axes, it is the product over the axes of the part of the extent of
    the pixel that the object covers.

    Over exact numbers this file shows that this overlap is a fraction, in
    [0, 1] for every pixel, also one without extent along an axis; that it
    is the covered length divided by the length of the pixel; that it does
    not grow when the block shrinks; and, from these, that the mean
    permittivity and the mean inverse permittivity [meaneps] returns on an
    interface of a block lie between the values of the two materials. *)

From stdpp Require Import gmap.
From Stdlib Require Import ZArith QArith Qminmax Bool String List Lia Lqa.
From S2P Require Import Prelude Number Vector3 Material Geometry FrontObject Epsilon MeanEps.
Import ListNotations.

Local Open Scope Q_scope.

Lemma div_nonneg (n d : Q) : 0 < d -> 0 <= n -> 0 <= n / d.
Proof. intros Hd Hn. apply Qle_shift_div_l; lra. Qed.

Lemma div_le_one (n d : Q) : 0 < d -> n <= d -> n / d <= 1.
Proof. intros Hd Hn. apply Qle_shift_div_r; lra. Qed.

Lemma div_le (n n' d : Q) : 0 < d -> n <= n' -> n / d <= n' / d.
Proof.
  intros Hd Hn. unfold Qdiv. apply Qmult_le_compat_r; [exact Hn|].
  apply Qlt_le_weak, Qinv_lt_0_compat, Hd.
Qed.

(** An inequality between fractions of one positive length. *)
Ltac qfrac :=
  first [ lra
        | apply div_nonneg; lra
        | apply div_le_one; lra
        | apply div_le; lra ].

Lemma mul_unit (a b : Q) : 0 <= a <= 1 -> 0 <= b <= 1 -> 0 <= a * b <= 1.
Proof. intros Ha Hb. split; nra. Qed.

Lemma mul_le (a a' b b' : Q) :
  0 <= a <= a' -> 0 <= b <= b' -> 0 <= a * b <= a' * b'.
Proof. intros Ha Hb. split; nra. Qed.

(** A blend with a larger weight of [ef] is further towards [ef]. *)
Lemma blend_monotone (ef eb ov ov' x x' : Q) :
  x == ef * ov + eb * (1 - ov) -> x' == ef * ov' + eb * (1 - ov') -> ov <= ov' ->
  (eb <= ef -> x <= x') /\ (ef <= eb -> x' <= x).
Proof. intros Hx Hx' Hle. split; intros; nra. Qed.

(** ** The part of a pixel a box covers along an axis *)

Section Covered.
Variable a : axis.

Lemma covered_range (b pixel : geom_box Q) : 0 <= covered a b pixel <= 1.
Proof.
  unfold covered. simpl.
  generalize (coord a (low b)) (coord a (high b))
             (coord a (low pixel)) (coord a (high pixel)).
  intros lb hb lp hp. split; qcases; simpl; qfrac.
Qed.

(** The box [b] lies in the box [b'] along the axis. *)
Definition within (b b' : geom_box Q) : Prop :=
  coord a (low b') <= coord a (low b) /\ coord a (high b) <= coord a (high b').

Lemma covered_monotone (b b' pixel : geom_box Q) :
  within b b' -> covered a b pixel <= covered a b' pixel.
Proof.
  unfold covered, within. simpl.
  generalize (coord a (low b)) (coord a (high b)) (coord a (low b'))
             (coord a (high b')) (coord a (low pixel)) (coord a (high pixel)).
  intros lb hb lb' hb' lp hp [Hl Hh]. qcases; simpl; qfrac.
Qed.

(** For a pixel with an extent along the axis the part covered is the
    length of the intersection divided by the length of the pixel. *)
Lemma covered_length (b pixel : geom_box Q) :
  coord a (low pixel) < coord a (high pixel) ->
  covered a b pixel * (coord a (high pixel) - coord a (low pixel)) ==
  Qmax 0 (Qmin (coord a (high b)) (coord a (high pixel)) -
          Qmax (coord a (low b)) (coord a (low pixel))).
Proof.
  unfold covered. simpl.
  generalize (coord a (low b)) (coord a (high b))
             (coord a (low pixel)) (coord a (high pixel)).
  intros lb hb lp hp Hp.
  assert (Hmin : Qmin hb hp == if Qle_bool hb hp then hb else hp).
  { destruct (Qle_bool hb hp) eqn:E.
    - apply Q.min_l. now apply Qle_bool_iff.
    - apply Q.min_r, Qlt_le_weak. now apply Qle_bool_false. }
  assert (Hmax : Qmax lb lp == if Qle_bool lb lp then lp else lb).
  { destruct (Qle_bool lb lp) eqn:E.
    - apply Q.max_r. now apply Qle_bool_iff.
    - apply Q.max_l, Qlt_le_weak. now apply Qle_bool_false. }
  rewrite Hmin, Hmax. qcases; simpl; try lra;
    first [ rewrite Q.max_l by lra; lra
          | rewrite Q.max_r by lra; field; lra ].
Qed.
End Covered.

(** ** Blocks *)

Section Blocks.
Variable m : material_type Q.

Lemma block_overlap (b pixel : geom_box Q) (tol : Q) (maxeval : Z) :
  o_overlap (block m b) pixel tol maxeval =
  covered AX b pixel * covered AY b pixel * covered AZ b pixel.
Proof. reflexivity. Qed.

(** The overlap of a block with a pixel is a fraction. *)
Lemma block_overlap_range (b pixel : geom_box Q) (tol : Q) (maxeval : Z) :
  0 <= o_overlap (block m b) pixel tol maxeval <= 1.
Proof.
  rewrite block_overlap. repeat apply mul_unit; apply covered_range.
Qed.

(** A block inside another overlaps a pixel no more than the other. *)
Lemma block_overlap_monotone (b b' pixel : geom_box Q) (tol : Q) (maxeval : Z) :
  (forall a, within a b b') ->
  o_overlap (block m b) pixel tol maxeval <= o_overlap (block m b') pixel tol maxeval.
Proof.
  intros Hw. rewrite !block_overlap.
  apply mul_le; [apply mul_le|]; split;
    try apply covered_range; apply covered_monotone, Hw.
Qed.
End Blocks.

(** A slab covers a fraction of a pixel as well. *)
Lemma slab_overlap_range (a : axis) (m : material_type Q) (lo hi : Q)
      (pixel : geom_box Q) (tol : Q) (maxeval : Z) :
  0 <= o_overlap (slab_along a m lo hi) pixel tol maxeval <= 1.
Proof.
  simpl. generalize (coord a (low pixel)) (coord a (high pixel)).
  intros lp hp. split; qcases; simpl; qfrac.
Qed.

(** ** The averages on an interface *)

(** Over exact numbers every material equals itself. *)
Lemma material_type_equal_refl (m : material_type Q) : material_type_equal m m = true.
Proof.
  destruct m as [d| | |f]; simpl; auto using Z.eqb_refl.
  unfold dielectric_equal. simpl. rewrite !Qeq_bool_refl. simpl.
  induction (polarizations d) as [|x l IH]; simpl; [reflexivity|].
  unfold polarizability_equal. simpl. now rewrite !Qeq_bool_refl, IH.
Qed.

Section Between.
Context {O T : Type} {G : Geom Q O T} {GL : GeomLaws G}.

Variable call_material_func : function -> vector3 Q -> material_type Q.
Variable fuel : nat.
Variable default_normal_vector : geometric_volume Q -> vec Q.
Variable adaptive_integration :
  (Z -> list Q -> result Q) -> list Q -> list Q -> Z -> Q -> Z -> result Q.

(** The overlap of the object with every pixel is a fraction. *)
Definition fraction (o : O) : Prop :=
  forall pixel tol maxeval, 0 <= box_overlap_with_object pixel o tol maxeval <= 1.

(** The front object of a tree built from a geometry is an object of the
    geometry. *)
Lemma front_object_In (g : globals Q) (u : uninit Q O) (gv : geometric_volume Q)
      (per : bool) (geo : list O) (bx : geom_box Q) (r : front_result Q O) (o : O) :
  get_front_object g u gv (create_geom_box_tree0 per geo bx) = Ok (Some r) ->
  o_front r = Some o -> In o geo.
Proof.
  intros Hr Ho.
  destruct (get_front_object_result g u gv _ r (valid_create per geo bx) Hr)
    as (f & _ & Hf & _ & Hof & _).
  apply front_samples_In in Hf as [q Hq]. destruct f as [[fo fs] fi].
  unfold s_o in Hof. simpl in Hof. rewrite Ho in Hof. subst fo.
  apply create_position in Hq. eapply nth_error_In, Hq.
Qed.

End Between.

(** Blocks and slabs in the linear scan. *)
Lemma block_fraction (lattice_shifts : list (vector3 Q)) (unit : vector3 Q -> vector3 Q)
      (m : material_type Q) (b : geom_box Q) :
  fraction (G := LinearGeom lattice_shifts unit) (block m b).
Proof. intros pixel tol maxeval. apply block_overlap_range. Qed.

Lemma slab_fraction (lattice_shifts : list (vector3 Q)) (unit : vector3 Q -> vector3 Q)
      (a : axis) (m : material_type Q) (lo hi : Q) :
  fraction (G := LinearGeom lattice_shifts unit) (slab_along a m lo hi).
Proof. intros pixel tol maxeval. apply slab_overlap_range. Qed.

(** ** Shrinking the object *)

Section Monotone.
Variable lattice_shifts : list (vector3 Q).
Variable unit : vector3 Q -> vector3 Q.

#[local] Instance GM : Geom Q (geometric_object Q) (geom_box_tree Q) :=
  LinearGeom lattice_shifts unit.

Variable call_material_func : function -> vector3 Q -> material_type Q.
Variable fuel : nat.
Variable default_normal_vector : geometric_volume Q -> vec Q.
Variable adaptive_integration :
  (Z -> list Q -> result Q) -> list Q -> list Q -> Z -> Q -> Z -> result Q.

(** C24: two objects that differ in the block in front of a pixel, the
    block of the first inside the block of the second, with the same
    materials in front and behind: the mean permittivity of the second is
    the one further towards the permittivity of the block, so shrinking a
    block never raises its share of a pixel. *)
Theorem meaneps_monotone (debug : bool) (g : globals Q)
        (u : uninit Q (geometric_object Q))
        (this this' : geom_epsilon (geometric_object Q))
        (h h' : gmap nat (geom_box_tree Q)) (gv : geometric_volume Q) (tol : Q)
        (maxeval : Z) (t t' : geom_box_tree Q)
        (r r' : front_result Q (geometric_object Q)) (m : material_type Q)
        (bx bx' : geom_box Q) (df db : dielectric Q) (d : ndim) :
  h !! geometry_tree this = Some t -> h' !! geometry_tree this' = Some t' ->
  get_front_object g u gv t = Ok (Some r) ->
  get_front_object g u gv t' = Ok (Some r') ->
  o_front r = Some (block m bx) -> o_front r' = Some (block m bx') ->
  shiftby_front r' = shiftby_front r ->
  mat_front r = dielectric_data df -> mat_front r' = dielectric_data df ->
  mat_behind r = dielectric_data db -> mat_behind r' = dielectric_data db ->
  dielectric_equal df db = false ->
  (forall a, within a bx bx') -> dim (g_dim g) = Some d ->
  exists meps minveps n meps' minveps' n',
    meaneps call_material_func fuel default_normal_vector adaptive_integration
            debug g u this h gv tol maxeval = Ok (meps, minveps, n) /\
    meaneps call_material_func fuel default_normal_vector adaptive_integration
            debug g u this' h' gv tol maxeval = Ok (meps', minveps', n') /\
    (epsilon db <= epsilon df -> meps <= meps') /\
    (epsilon df <= epsilon db -> meps' <= meps).
Proof.
  intros Ht Ht' Hr Hr' Ho Ho' Hs Hf Hf' Hb Hb' Hne Hw Hd.
  assert (E : material_type_equal (mat_front r) (mat_behind r) = false)
    by now rewrite Hf, Hb.
  assert (E' : material_type_equal (mat_front r') (mat_behind r') = false)
    by now rewrite Hf', Hb'.
  destruct (meaneps_blend call_material_func fuel default_normal_vector
              adaptive_integration debug g u this h gv tol maxeval t r _ df db d
              Ht Hr E Ho Hf Hb Hd) as (meps & minveps & n & Hm & He & _).
  destruct (meaneps_blend call_material_func fuel default_normal_vector
              adaptive_integration debug g u this' h' gv tol maxeval t' r' _ df db d
              Ht' Hr' E' Ho' Hf' Hb' Hd) as (meps' & minveps' & n' & Hm' & He' & _).
  exists meps, minveps, n, meps', minveps', n'. split; [exact Hm|]. split; [exact Hm'|].
  rewrite Hs in He'.
  exact (blend_monotone _ _ _ _ _ _ He He'
           (block_overlap_monotone m bx bx' (shifted_pixel gv (shiftby_front r))
                                   tol maxeval Hw)).
Qed.
End Monotone.

(** ** Examples *)

Section OverlapWitness.
#[local] Existing Instance GQ.


(** Half of the pixel [1/2, 3/2] x [0, 1] lies in the block [0, 1] x [0, 1],
    and a quarter of it in the block [0, 1] x [0, 1/2] inside that. *)
Example block_overlap_half :
  o_overlap (block (dielQ 4) {| low := V3 0 0 0; high := V3 1 1 0 |})
            (gv2box acrossQ) 0 0 == 1 # 2 /\
  o_overlap (block (dielQ 4) {| low := V3 0 0 0; high := V3 1 (1 # 2) 0 |})
            (gv2box acrossQ) 0 0 == 1 # 4.
Proof. split; vm_compute; reflexivity. Qed.

(** A block on [0, 3/4] and a block on [0, 1] along x, in a medium of
    permittivity 1. *)
Definition small_box : geom_box Q := {| low := V3 0 (-4) (-1); high := V3 (3 # 4) 4 1 |}.

Definition big_box : geom_box Q := {| low := V3 0 (-4) (-1); high := V3 1 4 1 |}.

Definition constructed_block (b : geom_box Q)
  : geom_epsilon (geometric_object Q) * gmap nat (geom_box_tree Q) :=
  geom_epsilon_ctor (globalsQ 2 (dielQ 1)) [block (dielQ 4) b] (pixelQ (-4) 4 (-4) 4) ∅.

Definition front_block (b : geom_box Q) : front_result Q (geometric_object Q) :=
  {| pcenter := vec_to_vector3 (center acrossQ); o_front := Some (block (dielQ 4) b);
     shiftby_front := V3 0 0 0; mat_front := dielQ 4; mat_behind := dielQ 1 |}.

Lemma meaneps_monotone_witness :
  exists meps minveps n meps' minveps' n',
    meaneps callQ 10 no_normalQ midpoint_integration false (globalsQ 2 (dielQ 1))
            junkQ (constructed_block small_box).1 (constructed_block small_box).2
            acrossQ (1 # 8) 100 = Ok (meps, minveps, n) /\
    meaneps callQ 10 no_normalQ midpoint_integration false (globalsQ 2 (dielQ 1))
            junkQ (constructed_block big_box).1 (constructed_block big_box).2
            acrossQ (1 # 8) 100 = Ok (meps', minveps', n') /\
    (1 <= 4 -> meps <= meps') /\ (4 <= 1 -> meps' <= meps).
Proof.
  apply (meaneps_monotone [] (fun v => v) callQ 10 no_normalQ midpoint_integration
           false (globalsQ 2 (dielQ 1)) junkQ
           (constructed_block small_box).1 (constructed_block big_box).1
           (constructed_block small_box).2 (constructed_block big_box).2
           acrossQ (1 # 8) 100%Z
           (create_geom_box_tree0 false [block (dielQ 4) small_box]
                                  (gv2box (pixelQ (-4) 4 (-4) 4)))
           (create_geom_box_tree0 false [block (dielQ 4) big_box]
                                  (gv2box (pixelQ (-4) 4 (-4) 4)))
           (front_block small_box) (front_block big_box) (dielQ 4) small_box big_box
           {| epsilon := 4; chi2 := 0; chi3 := 0; polarizations := [] |}
           {| epsilon := 1; chi2 := 0; chi3 := 0; polarizations := [] |} D2);
    try reflexivity.
  intros []; split; simpl; lra.
Defined.
End OverlapWitness.
