(* ===== verification/ComplexIntegration.v ===== *)
(** * ComplexIntegration: the fallback of the build with complex integration

    With CTL_HAS_COMPLEX_INTEGRATION, src/libctl/structure.cpp integrates
    the permittivity and its inverse in one call of libctl's
    [cadaptive_integration], as the real and the imaginary part of the
    integrand [ceps_func] (lines 412-425), instead of in two calls of
    [adaptive_integration] on [eps_func] and [inveps_func].  This file
    models that integrand and the fallback of that build (lines 473-477 in
    the function of lines 448-483), and shows that the two builds return the
    same averages when the complex cubature integrates the two parts as the
    real cubature integrates each of them. *)

From stdpp Require Import gmap.
From Stdlib Require Import ZArith Bool String List Lia Floats.
From S2P Require Import Prelude Number Vector3 Material Geometry FrontObject Epsilon MeanEps.
Import ListNotations.

Local Open Scope result_scope.

Section ComplexIntegration.
Context {D : Type} {N : Number D} {O T : Type} {G : Geom D O T}.
Local Open Scope num_scope.

Variable call_material_func : function -> vector3 D -> material_type D.
Variable fuel : nat.

(** libctl's [cnumber]. *)
Record cnumber : Type := { re : D; im : D }.

(** [cadaptive_integration f xmin xmax n tol maxeval], with the absolute
    tolerance 0 and the unread outputs left out as for the real one. *)
Variable cadaptive_integration :
  (Z -> list D -> result cnumber) -> list D -> list D -> Z -> D -> Z -> result cnumber.

Definition ceps_func (debug : bool) (g : globals D) (this : geom_epsilon O)
           (h : gmap nat T) (n : Z) (x : list D) : result cnumber :=
  let '(p, s) := integrand_point g n x in
  r <- vector3_to_vec (dim (g_dim g)) p ;;
  ep <- eps call_material_func fuel debug g this h r ;;
  Ok {| re := ep * s; im := s / ep |}.

(** [fallback_meaneps] as compiled with CTL_HAS_COMPLEX_INTEGRATION. *)
Definition cfallback_meaneps (debug : bool) (g : globals D) (this : geom_epsilon O)
           (h : gmap nat T) (gv : geometric_volume D) (tol : D) (maxeval : Z)
  : result (D * D) :=
  let gvmin := vec_to_vector3 (get_min_corner gv) in
  let gvmax := vec_to_vector3 (get_max_corner gv) in
  let xmin := integration_corner g gvmin in
  let xmax := integration_corner g gvmax in
  let n := integration_dims xmin xmax in
  let vol := integration_vol g xmin xmax n in
  ret <- cadaptive_integration (ceps_func debug g this h) xmin xmax n tol maxeval ;;
  Ok (re ret / vol, im ret / vol).

(** The two parts of a complex integrand. *)
Definition re_part (f : Z -> list D -> result cnumber) (n : Z) (x : list D) : result D :=
  c <- f n x ;; Ok (re c).

Definition im_part (f : Z -> list D -> result cnumber) (n : Z) (x : list D) : result D :=
  c <- f n x ;; Ok (im c).

(** The real part of [ceps_func] is [eps_func] and its imaginary part is
    [inveps_func]. *)
Lemma ceps_func_re (debug : bool) (g : globals D) (this : geom_epsilon O)
      (h : gmap nat T) (n : Z) (x : list D) :
  re_part (ceps_func debug g this h) n x =
  eps_func call_material_func fuel debug g this h n x.
Proof.
  unfold re_part, ceps_func, eps_func. destruct (integrand_point g n x) as [p s].
  destruct (vector3_to_vec _ p) as [r|]; simpl; [|reflexivity].
  now destruct (eps _ _ _ _ _ _ r).
Qed.

Lemma ceps_func_im (debug : bool) (g : globals D) (this : geom_epsilon O)
      (h : gmap nat T) (n : Z) (x : list D) :
  im_part (ceps_func debug g this h) n x =
  inveps_func call_material_func fuel debug g this h n x.
Proof.
  unfold im_part, ceps_func, inveps_func. destruct (integrand_point g n x) as [p s].
  destruct (vector3_to_vec _ p) as [r|]; simpl; [|reflexivity].
  now destruct (eps _ _ _ _ _ _ r).
Qed.

Variable adaptive_integration :
  (Z -> list D -> result D) -> list D -> list D -> Z -> D -> Z -> result D.

(** A complex cubature that integrates the two parts of its integrand as
    the real cubature integrates each of them, and a real cubature that
    depends on the values of the integrand only. *)
Class Componentwise : Prop := {
    cadaptive_parts : forall f xmin xmax n tol maxeval,
      cadaptive_integration f xmin xmax n tol maxeval =
      (a <- adaptive_integration (re_part f) xmin xmax n tol maxeval ;;
       b <- adaptive_integration (im_part f) xmin xmax n tol maxeval ;;
       Ok {| re := a; im := b |});
    adaptive_ext : forall f f' xmin xmax n tol maxeval,
      (forall x, f n x = f' n x) ->
      adaptive_integration f xmin xmax n tol maxeval =
      adaptive_integration f' xmin xmax n tol maxeval
  }.

(** C21: the build with CTL_HAS_COMPLEX_INTEGRATION and the build without
    compute the same averages in [fallback_meaneps], and fail alike, for
    cubatures that integrate the two parts of a complex integrand as the
    real cubature integrates each of them. *)
Theorem cfallback_meaneps_fallback_meaneps {CW : Componentwise}
        (debug : bool) (g : globals D) (this : geom_epsilon O)
        (h : gmap nat T) (gv : geometric_volume D) (tol : D) (maxeval : Z) :
  cfallback_meaneps debug g this h gv tol maxeval =
  fallback_meaneps call_material_func fuel adaptive_integration
                   debug g this h gv tol maxeval.
Proof.
  unfold cfallback_meaneps, fallback_meaneps. rewrite cadaptive_parts.
  rewrite (adaptive_ext _ _ _ _ _ _ _ (ceps_func_re debug g this h _)).
  rewrite (adaptive_ext _ _ _ _ _ _ _ (ceps_func_im debug g this h _)).
  destruct (adaptive_integration (eps_func _ _ _ _ _ _) _ _ _ _ _); [|reflexivity].
  simpl. now destruct (adaptive_integration _ _ _ _ _ _).
Qed.
End ComplexIntegration.

Arguments cnumber D : clear implicits.

(** The midpoint rule for complex integrands. *)
Definition cmidpoint_integration {D : Type} {N : Number D}
           (f : Z -> list D -> result (cnumber D)) (xmin xmax : list D) (n : Z)
           (tol : D) (maxeval : Z) : result (cnumber D) :=
  c <- f n (map (fun ab => (ab.1 + ab.2) * n_half)%num (combine xmin xmax)) ;;
  let vol := vol_loop (Z.to_nat n) 0 xmin xmax n_one in
  Ok {| re := re c * vol; im := im c * vol |}%num.

#[export] Instance midpoint_componentwise {D : Type} {N : Number D} :
  Componentwise (D := D) cmidpoint_integration midpoint_integration.
Proof.
  split.
  - intros f xmin xmax n tol maxeval.
    unfold cmidpoint_integration, midpoint_integration, re_part, im_part.
    now destruct (f n _).
  - intros f f' xmin xmax n tol maxeval H. unfold midpoint_integration. now rewrite H.
Qed.

Section ComplexWitness.
Import Slabs.
Local Open Scope float_scope.

(** A pixel across the face of a slab whose material is a material
    function: [meaneps] takes the fallback. *)
Lemma cfallback_meaneps_fallback_meaneps_witness :
  cfallback_meaneps kerr_call 10 cmidpoint_integration false air_globals
                    constructed_function.1 constructed_function.2
                    (pixel2 0.5 1.5 0 1) 0.125 100 =
  fallback_meaneps kerr_call 10 midpoint_integration false air_globals
                   constructed_function.1 constructed_function.2
                   (pixel2 0.5 1.5 0 1) 0.125 100.
Proof.
  apply (cfallback_meaneps_fallback_meaneps kerr_call 10 cmidpoint_integration
           midpoint_integration (CW := midpoint_componentwise)).
Defined.

Example cfallback_meaneps_value :
  cfallback_meaneps kerr_call 10 cmidpoint_integration false air_globals
                    constructed_function.1 constructed_function.2
                    (pixel2 0.5 1.5 0 1) 0.125 100 = Ok (2.25, 1 / 2.25).
Proof. vm_compute. reflexivity. Qed.
End ComplexWitness.
