(* ===== verification/Refinement.v ===== *)
(** * Refinement: the queries over two implementations of the index

    The queries of [geom_epsilon] reach the index through the class [Geom].
    This file shows that they depend on it through the answers at the
    points they sample only ([meaneps_same], with [get_front_object_same]
    of FrontObject.v and [eps_same] of Epsilon.v), and concludes that an
    object that uses the hierarchy of bounding boxes of BoxTree.v returns
    what an object that uses the linear scan of Geometry.v returns: the
    same [eps] at every point of its region, after any sequence of
    [set_volume] and [unset_volume], and the same [meaneps] for every pixel
    in its region.

    The fallback of [meaneps] integrates [eps]; the cubature is a
    parameter, of which the theorem needs that it looks at the integrand
    inside the box of integration only ([LocalCubature]).  The midpoint
    rule is such a cubature. *)

From stdpp Require Import gmap.
From Stdlib Require Import ZArith QArith Bool String List Lia Lqa.
From S2P Require Import Prelude Number Vector3 Material Geometry BoxTree FrontObject Epsilon MeanEps.
Import ListNotations.

Local Open Scope result_scope.

Section Cubature.
Context {D : Type} {N : Number D}.
Local Open Scope num_scope.

(** [x] is a point of the box of integration: each of its first [n]
    coordinates is between those of the two corners. *)
Definition in_cell (n : Z) (xmin xmax x : list D) : Prop :=
  forall i, (i < Z.to_nat n)%nat ->
    ((coordinate xmin i <=? coordinate x i) = true /\
     (coordinate x i <=? coordinate xmax i) = true) \/
    ((coordinate xmax i <=? coordinate x i) = true /\
     (coordinate x i <=? coordinate xmin i) = true).

(** A cubature that evaluates the integrand inside the box of integration
    only: two integrands that agree there have the same integral. *)
Class LocalCubature
      (adaptive_integration :
         (Z -> list D -> result D) -> list D -> list D -> Z -> D -> Z -> result D)
  : Prop :=
  cubature_local : forall f f' xmin xmax n tol maxeval,
    length xmin = 3%nat -> length xmax = 3%nat ->
    (forall x, in_cell n xmin xmax x -> f n x = f' n x) ->
    adaptive_integration f xmin xmax n tol maxeval =
    adaptive_integration f' xmin xmax n tol maxeval.

(** The points at which the integrands of [fallback_meaneps] evaluate
    [eps] for the pixel [gv]. *)
Definition fallback_points (g : globals D) (gv : geometric_volume D)
           (q : vector3 D) : Prop :=
  let xmin := integration_corner g (vec_to_vector3 (get_min_corner gv)) in
  let xmax := integration_corner g (vec_to_vector3 (get_max_corner gv)) in
  let n := integration_dims xmin xmax in
  exists x r, in_cell n xmin xmax x /\
              vector3_to_vec (dim (g_dim g)) (integrand_point g n x).1 = Ok r /\
              q = vec_to_vector3 r.
End Cubature.


(** ** The fallback reads the object through [eps] at its points *)

Section FallbackPoints.
Context {D : Type} {N : Number D} {O T1 T2 : Type}.
Variables (G1 : Geom D O T1) (G2 : Geom D O T2).
Variable call_material_func : function -> vector3 D -> material_type D.
Variable fuel : nat.
Variable adaptive_integration :
  (Z -> list D -> result D) -> list D -> list D -> Z -> D -> Z -> result D.
Hypothesis LC : LocalCubature adaptive_integration.

(** Two objects, over the same index or not, with the same [eps] at the
    points at which the integrands evaluate it have the same fallback
    averages. *)
Lemma fallback_meaneps_ext (debug : bool) (g : globals D)
      (this1 this2 : geom_epsilon O) (h1 : gmap nat T1) (h2 : gmap nat T2)
      (gv : geometric_volume D) (tol : D) (maxeval : Z) :
  (forall r, fallback_points g gv (vec_to_vector3 r) ->
             eps (G := G1) call_material_func fuel debug g this1 h1 r =
             eps (G := G2) call_material_func fuel debug g this2 h2 r) ->
  fallback_meaneps (G := G1) call_material_func fuel adaptive_integration
                   debug g this1 h1 gv tol maxeval =
  fallback_meaneps (G := G2) call_material_func fuel adaptive_integration
                   debug g this2 h2 gv tol maxeval.
Proof.
  intros He. unfold fallback_meaneps.
  set (xmin := integration_corner g (vec_to_vector3 (get_min_corner gv))).
  set (xmax := integration_corner g (vec_to_vector3 (get_max_corner gv))).
  set (n := integration_dims xmin xmax).
  rewrite (cubature_local (eps_func (G := G1) _ _ debug g this1 h1)
                          (eps_func (G := G2) call_material_func fuel debug g this2 h2)),
          (cubature_local (inveps_func (G := G1) _ _ debug g this1 h1)
                          (inveps_func (G := G2) call_material_func fuel debug g this2 h2));
    [reflexivity| | | | | |]; try apply integration_corner_length;
    intros x Hx; unfold inveps_func, eps_func;
    destruct (integrand_point g n x) as [p s] eqn:Ep;
    (destruct (vector3_to_vec _ p) as [r|] eqn:Er; [|reflexivity]); simpl;
    (rewrite (He r); [reflexivity|]); exists x, r; fold xmin xmax n; now rewrite Ep.
Qed.
End FallbackPoints.

(** ** Two indexes that give the same answers *)

Section TwoIndexes.
Context {D : Type} {N : Number D} {L : NumberLaws D} {O T1 T2 : Type}.
Variables (G1 : Geom D O T1) (G2 : Geom D O T2).
Context {GL1 : GeomLaws G1} {GL2 : GeomLaws G2}.
Hypothesis Hs : same_shapes G1 G2.
Variable call_material_func : function -> vector3 D -> material_type D.
Variable fuel : nat.
Variable default_normal_vector : geometric_volume D -> vec D.
Variable adaptive_integration :
  (Z -> list D -> result D) -> list D -> list D -> Z -> D -> Z -> result D.
Context {LC : LocalCubature adaptive_integration}.

Variables (g : globals D) (this1 this2 : geom_epsilon O).
Variables (h1 : gmap nat T1) (h2 : gmap nat T2) (gv : geometric_volume D).
Variables (tg1 tr1 : T1) (tg2 tr2 : T2).
Hypothesis Hg1 : h1 !! geometry_tree this1 = Some tg1.
Hypothesis Hg2 : h2 !! geometry_tree this2 = Some tg2.
Hypothesis Hr1 : h1 !! restricted_tree this1 = Some tr1.
Hypothesis Hr2 : h2 !! restricted_tree this2 = Some tr2.
Hypothesis Hbox : tree_box (Geom := G1) tr1 = tree_box (Geom := G2) tr2.
Hypothesis Hstencil : Forall (same_answers G1 G2 tg1 tg2) (stencil_points g gv).
Hypothesis Hfallback : forall q, fallback_points g gv q -> same_answers G1 G2 tr1 tr2 q.

Lemma fallback_meaneps_same (debug : bool) (tol : D) (maxeval : Z) :
  fallback_meaneps (G := G1) call_material_func fuel adaptive_integration
                   debug g this1 h1 gv tol maxeval =
  fallback_meaneps (G := G2) call_material_func fuel adaptive_integration
                   debug g this2 h2 gv tol maxeval.
Proof.
  apply fallback_meaneps_ext; [exact LC|]. intros r Hr.
  apply (eps_same G1 G2 Hs _ _ debug g _ _ _ _ _ _ r Hr1 Hr2 Hbox).
  apply Hfallback, Hr.
Qed.

Lemma normal_vector_same (u : uninit D O) :
  normal_vector (G := G1) default_normal_vector g u this1 h1 gv =
  normal_vector (G := G2) default_normal_vector g u this2 h2 gv.
Proof.
  unfold normal_vector, tree_at. rewrite Hg1, Hg2. simpl.
  rewrite (get_front_object_same G1 G2 Hs g u gv _ _ Hstencil).
  now rewrite (same_normal Hs), (same_unit Hs).
Qed.

(** Two objects whose trees give the same answers at the points that
    [meaneps] samples for a pixel return the same averages and the same
    normal. *)
Lemma meaneps_same (debug : bool) (u : uninit D O) (tol : D) (maxeval : Z) :
  meaneps (G := G1) call_material_func fuel default_normal_vector adaptive_integration
          debug g u this1 h1 gv tol maxeval =
  meaneps (G := G2) call_material_func fuel default_normal_vector adaptive_integration
          debug g u this2 h2 gv tol maxeval.
Proof.
  unfold meaneps, tree_at. rewrite Hg1, Hg2. simpl.
  rewrite (get_front_object_same G1 G2 Hs g u gv _ _ Hstencil).
  rewrite fallback_meaneps_same.
  now rewrite (same_normal Hs), (same_unit Hs), (same_overlap Hs).
Qed.
End TwoIndexes.

(** ** The hierarchy against the linear scan *)

Section BoxLinear.
Context {D : Type} {N : Number D} {L : NumberLaws D} {OL : OrderLaws D}.
Variable partition : geom_box D -> list (geom_box_object D) -> option (axis * D).
Variable lattice_shifts : list (vector3 D).
Variable unit : vector3 D -> vector3 D.
Variable call_material_func : function -> vector3 D -> material_type D.
Variable fuel : nat.
Variable default_normal_vector : geometric_volume D -> vec D.
Variable adaptive_integration :
  (Z -> list D -> result D) -> list D -> list D -> Z -> D -> Z -> result D.
Context {LC : LocalCubature adaptive_integration}.

Abbreviation box := (BoxGeom partition lattice_shifts unit).
Abbreviation lin := (LinearGeom lattice_shifts unit).

Lemma box_linear_shapes : same_shapes box lin.
Proof. split; reflexivity. Qed.

Lemma box_linear_answers (per : bool) (geo : list (geometric_object D))
      (b : geom_box D) (p : vector3 D) :
  Forall box_sound geo -> geom_box_contains_point b p = true ->
  same_answers box lin (create_geom_box_tree0 (Geom := box) per geo b)
               (create_geom_box_tree0 (Geom := lin) per geo b) p.
Proof. intros Hs Hb. now apply box_object_linear. Qed.

(** C8: an object that uses the hierarchy of bounding boxes and an object
    that uses the linear scan, constructed for the same objects (each in
    its bounding box) and taken through the same calls of [set_volume] and
    [unset_volume], have the same [eps] at every point of the current
    region. *)
Theorem eps_box_tree (debug : bool) (g : globals D) (geo : list (geometric_object D))
        (gv : geometric_volume D) (h1 : gmap nat (box_tree D))
        (h2 : gmap nat (geom_box_tree D)) (ms : list method) (r : vec D) :
  Forall box_sound geo ->
  geom_box_contains_point (region_of ms (gv2box gv) (gv2box gv)) (vec_to_vector3 r) = true ->
  (s <- calls (G := box) g ms (geom_epsilon_ctor (G := box) g geo gv h1) ;;
   eps (G := box) call_material_func fuel debug g s.1 s.2 r) =
  (s <- calls (G := lin) g ms (geom_epsilon_ctor (G := lin) g geo gv h2) ;;
   eps (G := lin) call_material_func fuel debug g s.1 s.2 r).
Proof.
  intros Hs Hr. apply (eps_two_indexes box lin box_linear_shapes).
  now apply box_linear_answers.
Qed.

(** C7: the two objects also return the same averages and the same normal
    from [meaneps], for every pixel whose stencil lies in the box of the
    constructor and whose points of integration lie in the current region,
    whichever path [meaneps] takes. *)
Theorem meaneps_box_tree (debug : bool) (g : globals D)
        (u : uninit D (geometric_object D)) (geo : list (geometric_object D))
        (gv0 gv : geometric_volume D) (h1 : gmap nat (box_tree D))
        (h2 : gmap nat (geom_box_tree D)) (ms : list method) (tol : D) (maxeval : Z) :
  Forall box_sound geo ->
  forallb (geom_box_contains_point (gv2box gv0)) (stencil_points g gv) = true ->
  (forall q, fallback_points g gv q ->
             geom_box_contains_point (region_of ms (gv2box gv0) (gv2box gv0)) q = true) ->
  (s <- calls (G := box) g ms (geom_epsilon_ctor (G := box) g geo gv0 h1) ;;
   meaneps (G := box) call_material_func fuel default_normal_vector
           adaptive_integration debug g u s.1 s.2 gv tol maxeval) =
  (s <- calls (G := lin) g ms (geom_epsilon_ctor (G := lin) g geo gv0 h2) ;;
   meaneps (G := lin) call_material_func fuel default_normal_vector
           adaptive_integration debug g u s.1 s.2 gv tol maxeval).
Proof.
  intros Hs Hst Hfb.
  destruct (calls_ctor (G := box) g geo gv0 h1 ms) as (s1 & -> & Hr1 & Hg1).
  destruct (calls_ctor (G := lin) g geo gv0 h2 ms) as (s2 & -> & Hr2 & Hg2).
  apply (meaneps_same box lin box_linear_shapes _ _ _ _ g _ _ _ _ gv _ _ _ _
                      Hg1 Hg2 Hr1 Hr2).
  - simpl. apply box_tree_box_divide.
  - apply Forall_forall. intros q Hq. apply box_linear_answers; [exact Hs|].
    rewrite forallb_forall in Hst. now apply Hst.
  - intros q Hq. apply box_linear_answers; auto.
Qed.

(** The hierarchy answers a query at a point of its box with the object in
    front there. *)
Lemma box_object_front (per : bool) (geo : list (geometric_object D)) (b : geom_box D)
      (p : vector3 D) :
  Forall box_sound geo -> geom_box_contains_point b p = true ->
  object_of_point_in_tree (Geom := box) p (create_geom_box_tree0 (Geom := box) per geo b) =
  match front_image (image_shifts lattice_shifts per) geo 1 p with
  | Some (o, s, i) => (Some o, s, i)
  | None => (None, vector3_zero, 0%Z)
  end.
Proof.
  intros Hs Hb. simpl. rewrite (box_object_linear partition lattice_shifts per geo b p Hs Hb).
  apply linear_object_front.
Qed.

(** C22: the index keeps its contract through the whole object: after any
    calls of [set_volume] and [unset_volume], with or without periodic
    images, [eps] over the hierarchy at a point of the current region is
    the permittivity of the last object of the list that has an image
    containing the point. *)
Theorem eps_front_image (debug : bool) (g : globals D) (geo : list (geometric_object D))
        (gv : geometric_volume D) (h : gmap nat (box_tree D)) (ms : list method)
        (r : vec D) (j : nat) (o : geometric_object D) (s : vector3 D) (d : dielectric D) :
  Forall box_sound geo ->
  geom_box_contains_point (region_of ms (gv2box gv) (gv2box gv)) (vec_to_vector3 r) = true ->
  nth_error geo j = Some o ->
  In s (image_shifts lattice_shifts (ensure_periodicity g)) ->
  point_in_fixed_objectp o (vector3_minus (vec_to_vector3 r) s) = true ->
  outside (image_shifts lattice_shifts (ensure_periodicity g)) (skipn (S j) geo)
          (vec_to_vector3 r) ->
  o_material o = dielectric_data d ->
  (s <- calls (G := box) g ms (geom_epsilon_ctor (G := box) g geo gv h) ;;
   eps (G := box) call_material_func fuel debug g s.1 s.2 r) = Ok (epsilon d).
Proof.
  intros Hs Hb Hj Hin Hc Hout Hm.
  destruct (calls_ctor (G := box) g geo gv h ms) as (s1 & -> & Ht & _). cbn [bind].
  rewrite (eps_at (G := box) call_material_func fuel debug g _ _ r _ Ht).
  - rewrite point_material_fixed; unfold found_material;
      rewrite (box_object_front _ geo _ _ Hs Hb);
      destruct (front_image_highest geo 1%Z j s Hj Hin Hc Hout) as (s' & _ & _ & ->);
      simpl; rewrite Hm; reflexivity.
  - apply orb_true_iff. right. now rewrite point_in_box_contains, tree_box_create.
Qed.
End BoxLinear.

(** The midpoint rule looks at the middle of the box only. *)
#[export] Instance midpoint_local : LocalCubature (@midpoint_integration Q _).
Proof.
  intros f f' xmin xmax n tol maxeval Hmin Hmax Hf. unfold midpoint_integration.
  rewrite Hf; [reflexivity|].
  destruct xmin as [|a0 [|a1 [|a2 [|]]]]; try discriminate.
  destruct xmax as [|b0 [|b1 [|b2 [|]]]]; try discriminate.
  intros i _. unfold coordinate. destruct (Nat.lt_ge_cases i 3) as [Hi|Hi].
  - destruct i as [|[|[|i]]]; [| | |lia]; simpl;
      match goal with
      | |- context [Qle_bool ?a ((?a + ?b) * _)] =>
          destruct (Qlt_le_dec a b); [left|right]; split; apply Qle_bool_iff; lra
      end.
  - rewrite !nth_overflow by (simpl; lia). left. split; reflexivity.
Qed.

Section RefinementWitnesses.
Local Open Scope Q_scope.

(** Four blocks in the cell [-4, 4] x [-4, 4], the last two overlapping:
    the hierarchy divides the cell at x = 0 into a box that two of them
    meet and a box that three of them meet. *)
Definition rect (x0 x1 y0 y1 : Q) : geom_box Q :=
  {| low := V3 x0 y0 (-1); high := V3 x1 y1 1 |}.

Definition four_blocks : list (geometric_object Q) :=
  [ block (dielQ 2) (rect (-3) (-2) (-1) 1);
    block (dielQ 3) (rect (-1) 0 (-1) 1);
    block (dielQ 4) (rect 1 2 (-1) 1);
    block (dielQ 5) (rect (3 # 2) 3 (-1) 1) ].

Lemma four_blocks_sound : Forall box_sound four_blocks.
Proof. repeat constructor; apply block_sound. Qed.

Definition cellQ : geometric_volume Q := pixelQ (-4) 4 (-4) 4.

Definition right_half : geometric_volume Q := pixelQ 0 4 (-4) 4.

Definition BoxQ : Geom Q (geometric_object Q) (box_tree Q) :=
  BoxGeom partition_middle [] (fun v => v).

Definition LinQ : Geom Q (geometric_object Q) (geom_box_tree Q) :=
  LinearGeom [] (fun v => v).

Example four_blocks_divided :
  match create_geom_box_tree0 (Geom := BoxQ) false four_blocks (gv2box cellQ) with
  | Node _ _ _ (Node _ _ _ Null Null objects1) (Node _ _ _ Null Null objects2) [] =>
      map (@gbo_precedence Q) objects1 = [2; 1]%Z /\
      map (@gbo_precedence Q) objects2 = [4; 3; 2]%Z
  | _ => False
  end.
Proof. vm_compute. split; reflexivity. Qed.

Definition newQ {T : Type} (G : Geom Q (geometric_object Q) T)
  : geom_epsilon (geometric_object Q) * gmap nat T :=
  geom_epsilon_ctor (globalsQ 2 (dielQ 1)) four_blocks cellQ ∅.

Lemma eps_box_tree_witness :
  (s <- calls (G := BoxQ) (globalsQ 2 (dielQ 1)) [SetVolume right_half] (newQ BoxQ) ;;
   eps (G := BoxQ) callQ 10 true (globalsQ 2 (dielQ 1)) s.1 s.2 (vec2 (7 # 4) 0)) =
  (s <- calls (G := LinQ) (globalsQ 2 (dielQ 1)) [SetVolume right_half] (newQ LinQ) ;;
   eps (G := LinQ) callQ 10 true (globalsQ 2 (dielQ 1)) s.1 s.2 (vec2 (7 # 4) 0)).
Proof.
  apply (eps_box_tree partition_middle [] (fun v => v) callQ 10 true
           (globalsQ 2 (dielQ 1)) four_blocks cellQ ∅ ∅ [SetVolume right_half]
           (vec2 (7 # 4) 0) four_blocks_sound).
  vm_compute. reflexivity.
Defined.

(** The permittivity there is that of the last block. *)
Example eps_box_tree_value :
  (s <- calls (G := BoxQ) (globalsQ 2 (dielQ 1)) [SetVolume right_half] (newQ BoxQ) ;;
   eps (G := BoxQ) callQ 10 true (globalsQ 2 (dielQ 1)) s.1 s.2 (vec2 (7 # 4) 0)) = Ok 5.
Proof. vm_compute. reflexivity. Qed.

(** A pixel across the face x = 3/2 of the last block, inside the third. *)
Definition across_blocks : geometric_volume Q := pixelQ 1 2 0 (1 # 2).

(** The points of the fallback for this pixel lie in every box that
    contains its corners. *)
Lemma fallback_points_across_in (b : geom_box Q) (q : vector3 Q) :
  geom_box_contains_point b (V3 1 0 0) = true ->
  geom_box_contains_point b (V3 2 (1 # 2) 0) = true ->
  fallback_points (globalsQ 2 (dielQ 1)) across_blocks q ->
  geom_box_contains_point b q = true.
Proof.
  unfold geom_box_contains_point. simpl. rewrite !andb_true_iff, !Qle_bool_iff.
  intros Hlo Hhi (x & r & Hx & Hr & ->).
  destruct (Hx 0%nat) as [[H0 H0']|[H0 H0']]; [vm_compute; lia | |];
    (destruct (Hx 1%nat) as [[H1 H1']|[H1 H1']]; [vm_compute; lia | |]);
    injection Hr as <-; unfold coordinate in *; simpl in *;
    apply Qle_bool_iff in H0, H0', H1, H1';
    simpl in *; repeat split; lra.
Qed.

Lemma fallback_points_across (q : vector3 Q) :
  fallback_points (globalsQ 2 (dielQ 1)) across_blocks q ->
  geom_box_contains_point (gv2box cellQ) q = true.
Proof. now apply fallback_points_across_in. Qed.

Lemma meaneps_box_tree_witness :
  (s <- calls (G := BoxQ) (globalsQ 2 (dielQ 1)) [] (newQ BoxQ) ;;
   meaneps (G := BoxQ) callQ 10 no_normalQ midpoint_integration true
           (globalsQ 2 (dielQ 1)) junkQ s.1 s.2 across_blocks (1 # 8) 100) =
  (s <- calls (G := LinQ) (globalsQ 2 (dielQ 1)) [] (newQ LinQ) ;;
   meaneps (G := LinQ) callQ 10 no_normalQ midpoint_integration true
           (globalsQ 2 (dielQ 1)) junkQ s.1 s.2 across_blocks (1 # 8) 100).
Proof.
  apply (meaneps_box_tree partition_middle [] (fun v => v) callQ 10 no_normalQ
           midpoint_integration true (globalsQ 2 (dielQ 1)) junkQ four_blocks cellQ
           across_blocks ∅ ∅ [] (1 # 8) 100%Z four_blocks_sound).
  - vm_compute. reflexivity.
  - exact fallback_points_across.
Defined.
(** There the front object is the last block, which covers half of the
    pixel, in front of the third block: the average of the permittivities 5
    and 4 and the normal of the face x = 3/2. *)
Example meaneps_box_tree_value :
  (s <- calls (G := BoxQ) (globalsQ 2 (dielQ 1)) [] (newQ BoxQ) ;;
   meaneps (G := BoxQ) callQ 10 no_normalQ midpoint_integration true
           (globalsQ 2 (dielQ 1)) junkQ s.1 s.2 across_blocks (1 # 8) 100) =
  Ok (18 # 4, 90 # 400, vec2 (-1) 0).
Proof. vm_compute. reflexivity. Qed.
(** A lattice of period 8 along x: the block between x = 3 and x = 5
    reaches out of the cell, and its image shifted by -8 covers the points
    of the cell with x between -4 and -3. *)
Definition periodicQ : globals Q :=
  {| g_dim := set_dimensions 2; default_material := dielQ 1; ensure_periodicity := true |}.

Definition lattice8 : list (vector3 Q) := [V3 8 0 0; V3 (-8) 0 0].

Definition periodic_blocks : list (geometric_object Q) :=
  [ block (dielQ 3) (rect 3 5 (-1) 1); block (dielQ 2) (rect (-1) 1 (-1) 1) ].

Definition left_half : geometric_volume Q := pixelQ (-4) 0 (-4) 4.

Lemma eps_front_image_witness :
  (s <- calls (G := BoxGeom partition_middle lattice8 (fun v => v)) periodicQ
              [SetVolume left_half]
              (geom_epsilon_ctor (G := BoxGeom partition_middle lattice8 (fun v => v))
                                 periodicQ periodic_blocks cellQ ∅) ;;
   eps (G := BoxGeom partition_middle lattice8 (fun v => v)) callQ 10 true periodicQ
       s.1 s.2 (vec2 (-7 # 2) 0)) = Ok 3.
Proof.
  apply (eps_front_image partition_middle lattice8 (fun v => v) callQ 10 true periodicQ
           periodic_blocks cellQ ∅ [SetVolume left_half] (vec2 (-7 # 2) 0) 0
           (block (dielQ 3) (rect 3 5 (-1) 1)) (V3 (-8) 0 0)
           {| epsilon := 3; chi2 := 0; chi3 := 0; polarizations := [] |});
    try reflexivity.
  - repeat constructor; apply block_sound.
  - simpl. auto.
  - intros o s [<-|[]] [<-|[<-|[<-|[]]]]; reflexivity.
Defined.
End RefinementWitnesses.

(** ** The choice of the dividing planes *)

Section Partitions.
Context {D : Type} {N : Number D} {L : NumberLaws D} {OL : OrderLaws D}.
Variables partition partition' :
  geom_box D -> list (geom_box_object D) -> option (axis * D).
Variable lattice_shifts : list (vector3 D).
Variable unit : vector3 D -> vector3 D.
Variable call_material_func : function -> vector3 D -> material_type D.
Variable fuel : nat.
Variable default_normal_vector : geometric_volume D -> vec D.
Variable adaptive_integration :
  (Z -> list D -> result D) -> list D -> list D -> Z -> D -> Z -> result D.
Context {LC : LocalCubature adaptive_integration}.

Abbreviation box := (BoxGeom partition lattice_shifts unit).
Abbreviation box' := (BoxGeom partition' lattice_shifts unit).

Lemma partition_shapes : same_shapes box box'.
Proof. split; reflexivity. Qed.

Lemma partition_answers (per : bool) (geo : list (geometric_object D))
      (b : geom_box D) (p : vector3 D) :
  same_answers box box' (create_geom_box_tree0 (Geom := box) per geo b)
               (create_geom_box_tree0 (Geom := box') per geo b) p.
Proof.
  unfold same_answers. simpl. now rewrite (create_equiv partition partition').
Qed.

(** C29: the averages and the normal that [meaneps] returns do not depend on
    where the hierarchy puts its dividing planes. *)
Theorem meaneps_partition (debug : bool) (g : globals D)
        (u : uninit D (geometric_object D)) (geo : list (geometric_object D))
        (gv0 gv : geometric_volume D) (h1 h2 : gmap nat (box_tree D))
        (ms : list method) (tol : D) (maxeval : Z) :
  (s <- calls (G := box) g ms (geom_epsilon_ctor (G := box) g geo gv0 h1) ;;
   meaneps (G := box) call_material_func fuel default_normal_vector
           adaptive_integration debug g u s.1 s.2 gv tol maxeval) =
  (s <- calls (G := box') g ms (geom_epsilon_ctor (G := box') g geo gv0 h2) ;;
   meaneps (G := box') call_material_func fuel default_normal_vector
           adaptive_integration debug g u s.1 s.2 gv tol maxeval).
Proof.
  destruct (calls_ctor (G := box) g geo gv0 h1 ms) as (s1 & -> & Hr1 & Hg1).
  destruct (calls_ctor (G := box') g geo gv0 h2 ms) as (s2 & -> & Hr2 & Hg2).
  apply (meaneps_same box box' partition_shapes _ _ _ _ g _ _ _ _ gv _ _ _ _
                      Hg1 Hg2 Hr1 Hr2).
  - etransitivity; [|symmetry]; apply box_tree_box_divide.
  - apply Forall_forall. intros q _. apply partition_answers.
  - intros q _. apply partition_answers.
Qed.
End Partitions.

Section PartitionWitness.
Local Open Scope Q_scope.

(** A choice of the dividing planes that never divides: the tree is one
    leaf with all the entries. *)
Definition partition_none (b : geom_box Q) (objects : list (geom_box_object Q))
  : option (axis * Q) := None.

Lemma meaneps_partition_witness :
  (s <- calls (G := BoxQ) (globalsQ 2 (dielQ 1)) [SetVolume right_half] (newQ BoxQ) ;;
   meaneps (G := BoxQ) callQ 10 no_normalQ midpoint_integration true
           (globalsQ 2 (dielQ 1)) junkQ s.1 s.2 across_blocks (1 # 8) 100) =
  (s <- calls (G := BoxGeom partition_none [] (fun v => v)) (globalsQ 2 (dielQ 1))
              [SetVolume right_half]
              (newQ (BoxGeom partition_none [] (fun v => v))) ;;
   meaneps (G := BoxGeom partition_none [] (fun v => v)) callQ 10 no_normalQ
           midpoint_integration true (globalsQ 2 (dielQ 1)) junkQ s.1 s.2
           across_blocks (1 # 8) 100).
Proof.
  apply (meaneps_partition partition_middle partition_none [] (fun v => v) callQ 10
           no_normalQ midpoint_integration (LC := midpoint_local) true
           (globalsQ 2 (dielQ 1)) junkQ four_blocks cellQ across_blocks ∅ ∅
           [SetVolume right_half] (1 # 8) 100%Z).
Defined.
End PartitionWitness.
