(* ===== verification/Cubature.v ===== *)
(** * Cubature: the adaptive integration the fallback calls

    [fallback_meaneps] (lines 448-483 of src/libctl/structure.cpp) calls
    libctl's [adaptive_integration(f, xmin, xmax, n, fdata, abstol, reltol,
    maxeval, &esterr, &errflag)] with the absolute tolerance 0, and reads
    neither [esterr] nor [errflag].  libctl is not part of the sources.  The
    specification gives the contract of the routine (5, 6, 7): it returns
    an estimate, an error and a status; it always returns, with its best
    estimate, when it has converged or when its budget of evaluations is
    spent; a spent budget is not a failure.

    This file holds an integrator with that contract: a rule that compares
    the midpoint estimate of a box with that of its two halves, and a loop
    that halves the region of the largest error until the sum of the errors
    is within the tolerance or the budget is spent.  It is a reference for
    the contract, not libctl's rule.

    The theorems on the source are proved against the contract, as classes
    of which the integrator is an instance.  [BudgetedCubature]: with a
    positive budget the integration returns wherever the integrand does,
    whatever the numbers are (doubles included); from it, [meaneps] and
    [normal_vector] return for every pixel.  [PositiveCubature] (over
    exact numbers): the integral of an integrand that is not negative is
    not negative; from it, the means of the fallback are not negative.
    The integrator is also an instance of [LocalCubature] (it looks at the
    integrand inside the pixel only) and of [ExactCubature] (it integrates
    affine integrands exactly), the classes of Refinement.v and
    MeanEps.v. *)

From stdpp Require Import gmap.
From Stdlib Require Import ZArith QArith Qminmax Floats Bool String List Lia Lqa.
From S2P Require Import Prelude Number Vector3 Material Geometry FrontObject Epsilon MeanEps Refinement.
Import ListNotations.

Local Open Scope result_scope.

(** ** The integrator *)

Section Integrator.
Context {D : Type} {N : Number D}.
Local Open Scope num_scope.

Definition nmax (a b : D) : D := if a <? b then b else a.

(** A box of the subdivision with the estimate and the error of the rule
    on it; [b_depth] counts the halvings that made it. *)
Record subregion : Type := {
  b_lo : list D;
  b_hi : list D;
  b_depth : nat;
  b_val : D;
  b_err : D
}.

(** What the contract returns, and the number of evaluations of the
    integrand that were made. *)
Record integral : Type := {
  estimate : D;
  esterr : D;
  errflag : Z;
  nfe : Z
}.

Definition centre (lo hi : list D) : list D :=
  map (fun ab => (ab.1 + ab.2) * n_half) (combine lo hi).

(** Boxes are halved along the axes in turn. *)
Definition axis_of (n : Z) (depth : nat) : nat := (depth mod Z.to_nat n)%nat.

Definition lower_half (k : nat) (lo hi : list D) : list D * list D :=
  (lo, <[k := coordinate (centre lo hi) k]> hi).

Definition upper_half (k : nat) (lo hi : list D) : list D * list D :=
  (<[k := coordinate (centre lo hi) k]> lo, hi).

(** The rule: the midpoint estimates of the two halves of the box, and
    their distance from the midpoint estimate of the box.  Three
    evaluations. *)
Definition rule (f : Z -> list D -> result D) (n : Z) (lo hi : list D) (depth : nat)
  : result subregion :=
  let k := axis_of n depth in
  coarse <- midpoint_integration f lo hi n n_zero 0 ;;
  a <- midpoint_integration f (lower_half k lo hi).1 (lower_half k lo hi).2 n n_zero 0 ;;
  b <- midpoint_integration f (upper_half k lo hi).1 (upper_half k lo hi).2 n n_zero 0 ;;
  Ok {| b_lo := lo; b_hi := hi; b_depth := depth;
        b_val := a + b; b_err := nabs (a + b - coarse) |}.

(** The region of the largest error among [r :: rs], the first of them,
    and the others. *)
Fixpoint worst (r : subregion) (rs : list subregion) : subregion * list subregion :=
  match rs with
  | [] => (r, [])
  | r' :: rest =>
      let '(w, others) := worst r' rest in
      if b_err w <=? b_err r then (r, rs) else (w, r :: others)
  end.

Definition total (proj : subregion -> D) (rs : list subregion) : D :=
  fold_right (fun r s => proj r + s) n_zero rs.

Definition converged (abstol reltol val err : D) : bool :=
  err <=? nmax abstol (reltol * nabs val).

Definition spent (maxeval evals : Z) : bool :=
  (0 <? maxeval)%Z && (maxeval <=? evals)%Z.

Definition answer_of (rs : list subregion) (flag evals : Z) : integral :=
  {| estimate := total b_val rs; esterr := total b_err rs; errflag := flag; nfe := evals |}.

(** The loop: return when the errors are within the tolerance, or when a
    positive budget is spent; otherwise halve the worst region.  [fuel]
    bounds the halvings. *)
Fixpoint adapt (fuel : nat) (f : Z -> list D -> result D) (n : Z)
         (abstol reltol : D) (maxeval : Z) (rs : list subregion) (evals : Z)
  : result integral :=
  if converged abstol reltol (total b_val rs) (total b_err rs)
  then Ok (answer_of rs 0 evals)
  else if spent maxeval evals then Ok (answer_of rs 1 evals)
  else
    match fuel, rs with
    | S fuel', r :: rs' =>
        let '(w, others) := worst r rs' in
        let k := axis_of n (b_depth w) in
        let lower := lower_half k (b_lo w) (b_hi w) in
        let upper := upper_half k (b_lo w) (b_hi w) in
        r1 <- rule f n lower.1 lower.2 (S (b_depth w)) ;;
        r2 <- rule f n upper.1 upper.2 (S (b_depth w)) ;;
        adapt fuel' f n abstol reltol maxeval (r1 :: r2 :: others) (evals + 6)
    | _, _ => Fail OutOfFuel
    end.

(** A positive budget bounds the halvings by itself; [limit] bounds them
    when the budget is zero or negative, which asks for no limit. *)
Definition halvings (limit : nat) (maxeval : Z) : nat :=
  if (0 <? maxeval)%Z then Z.to_nat maxeval else limit.

Definition integrate (limit : nat) (f : Z -> list D -> result D) (xmin xmax : list D)
           (n : Z) (abstol reltol : D) (maxeval : Z) : result integral :=
  r <- rule f n xmin xmax 0 ;;
  adapt (halvings limit maxeval) f n abstol reltol maxeval [r] 3.

(** The call of the source: absolute tolerance 0, [esterr] and [errflag]
    dropped. *)
Definition adaptive_integration (limit : nat) (f : Z -> list D -> result D)
           (xmin xmax : list D) (n : Z) (tol : D) (maxeval : Z) : result D :=
  i <- integrate limit f xmin xmax n n_zero tol maxeval ;;
  Ok (estimate i).

(** ** It returns *)

Section Returns.
Variable f : Z -> list D -> result D.
Variable n : Z.
Hypothesis f_returns : forall x, exists v, f n x = Ok v.

Lemma midpoint_returns (lo hi : list D) (tol : D) (maxeval : Z) :
  exists v, midpoint_integration f lo hi n tol maxeval = Ok v.
Proof.
  unfold midpoint_integration.
  destruct (f_returns (centre lo hi)) as [v Hv]. unfold centre in Hv.
  rewrite Hv. simpl. eauto.
Qed.

Lemma rule_returns (lo hi : list D) (depth : nat) :
  exists r, rule f n lo hi depth = Ok r /\
            b_lo r = lo /\ b_hi r = hi /\ b_depth r = depth.
Proof.
  unfold rule.
  destruct (midpoint_returns lo hi n_zero 0) as [c ->].
  destruct (midpoint_returns (lower_half (axis_of n depth) lo hi).1
              (lower_half (axis_of n depth) lo hi).2 n_zero 0) as [a ->].
  destruct (midpoint_returns (upper_half (axis_of n depth) lo hi).1
              (upper_half (axis_of n depth) lo hi).2 n_zero 0) as [b ->].
  simpl. eauto.
Qed.

(** What a returned answer says: with flag 0 the error is within the
    tolerance; with flag 1 a positive budget is spent; at most five
    evaluations are made beyond the budget. *)
Definition answers (abstol reltol : D) (maxeval evals : Z) (i : integral) : Prop :=
  (evals <= nfe i)%Z /\
  (nfe i < Z.max (evals + 1) (maxeval + 6))%Z /\
  ((errflag i = 0%Z /\ converged abstol reltol (estimate i) (esterr i) = true) \/
   (errflag i = 1%Z /\ converged abstol reltol (estimate i) (esterr i) = false /\
    (0 < maxeval <= nfe i)%Z)).

Lemma adapt_returns (abstol reltol : D) (maxeval : Z) (fuel : nat) :
  forall (rs : list subregion) (evals : Z),
  rs <> [] -> (0 < maxeval)%Z -> (maxeval - evals <= Z.of_nat fuel)%Z ->
  exists i, adapt fuel f n abstol reltol maxeval rs evals = Ok i /\
            answers abstol reltol maxeval evals i.
Proof.
  induction fuel as [|fuel IH]; intros rs evals Hrs Hmax Hfuel;
    cbn [adapt]; destruct (converged _ _ _ _) eqn:Ec;
    try (eexists; split; [reflexivity|]; unfold answers; cbn; split; [lia|];
         split; [lia|]; left; auto; fail);
    unfold spent; destruct ((0 <? maxeval)%Z && (maxeval <=? evals)%Z) eqn:Es;
    try (bool_to_prop; eexists; split; [reflexivity|]; unfold answers; cbn;
         split; [lia|]; split; [lia|]; right; repeat split; auto; lia; fail);
    bool_to_prop.
  - lia.
  - destruct rs as [|r rs']; [congruence|].
    destruct (worst r rs') as [w others].
    destruct (rule_returns (lower_half (axis_of n (b_depth w)) (b_lo w) (b_hi w)).1
                (lower_half (axis_of n (b_depth w)) (b_lo w) (b_hi w)).2
                (S (b_depth w))) as (r1 & -> & _).
    destruct (rule_returns (upper_half (axis_of n (b_depth w)) (b_lo w) (b_hi w)).1
                (upper_half (axis_of n (b_depth w)) (b_lo w) (b_hi w)).2
                (S (b_depth w))) as (r2 & -> & _).
    cbn [bind].
    destruct (IH (r1 :: r2 :: others) (evals + 6)%Z) as (i & -> & Hi);
      [discriminate | lia | lia |].
    exists i. split; [reflexivity|]. unfold answers in *. intuition lia.
Qed.

Lemma integrate_returns (limit : nat) (xmin xmax : list D) (abstol reltol : D)
      (maxeval : Z) :
  (0 < maxeval)%Z ->
  exists i, integrate limit f xmin xmax n abstol reltol maxeval = Ok i /\
            answers abstol reltol maxeval 3 i.
Proof.
  intros Hmax. unfold integrate.
  destruct (rule_returns xmin xmax 0) as (r & -> & _). cbn [bind].
  apply adapt_returns; [discriminate | exact Hmax |].
  unfold halvings. destruct (0 <? maxeval)%Z eqn:E; bool_to_prop; lia.
Qed.

Lemma adaptive_integration_returns (limit : nat) (xmin xmax : list D) (tol : D)
      (maxeval : Z) :
  (0 < maxeval)%Z ->
  exists v, adaptive_integration limit f xmin xmax n tol maxeval = Ok v.
Proof.
  intros Hmax. unfold adaptive_integration.
  destruct (integrate_returns limit xmin xmax n_zero tol maxeval Hmax) as (i & -> & _).
  simpl. eauto.
Qed.
End Returns.
End Integrator.

(** ** The regions of the loop *)

Section Regions.
Context {D : Type} {N : Number D}.

Lemma coordinate_insert (l : list D) (k : nat) (v : D) (i : nat) :
  coordinate (<[k := v]> l) i =
  if decide (k = i /\ (k < length l)%nat) then v else coordinate l i.
Proof.
  unfold coordinate. rewrite !nth_lookup, list_lookup_insert.
  now destruct (decide _).
Qed.

Lemma rule_subregion (f : Z -> list D -> result D) (n : Z) (lo hi : list D)
      (depth : nat) (r : subregion) :
  rule f n lo hi depth = Ok r ->
  b_lo r = lo /\ b_hi r = hi /\ b_depth r = depth.
Proof.
  unfold rule. intros H.
  apply bind_Ok_inv in H as (c & _ & H). apply bind_Ok_inv in H as (a & _ & H).
  apply bind_Ok_inv in H as (b & _ & [= <-]). auto.
Qed.

(** [worst] picks one of the regions and keeps the others. *)
Lemma worst_Forall (P : subregion -> Prop) (r : subregion) (rs : list subregion) :
  Forall P (r :: rs) -> P (worst r rs).1 /\ Forall P (worst r rs).2.
Proof.
  revert r. induction rs as [|r' rest IH]; intros r H; cbn [worst].
  - inv H. auto.
  - inv H. destruct (IH r' H3) as [Hw Ho]. destruct (worst r' rest) as [w others].
    destruct (nleb (b_err w) (b_err r)); cbn [fst snd] in *; auto.
Qed.

(** The loop keeps what the rule establishes of every region it makes
    from a region that has it. *)
Lemma adapt_ext (P : subregion -> Prop) (f f' : Z -> list D -> result D) (n : Z)
      (abstol reltol : D) (maxeval : Z) :
  (forall w k, P w -> k = axis_of n (b_depth w) ->
     forall half, half = lower_half k (b_lo w) (b_hi w) \/
                  half = upper_half k (b_lo w) (b_hi w) ->
     rule f n half.1 half.2 (S (b_depth w)) = rule f' n half.1 half.2 (S (b_depth w)) /\
     forall r, rule f n half.1 half.2 (S (b_depth w)) = Ok r -> P r) ->
  forall (fuel : nat) (rs : list subregion) (evals : Z),
  Forall P rs ->
  adapt fuel f n abstol reltol maxeval rs evals =
  adapt fuel f' n abstol reltol maxeval rs evals.
Proof.
  intros Hrule fuel. induction fuel as [|fuel IH]; intros rs evals Hrs; cbn [adapt];
    destruct (converged _ _ _ _); try reflexivity;
    destruct (spent _ _); try reflexivity.
  destruct rs as [|r rs']; [reflexivity|].
  destruct (worst_Forall P r rs' Hrs) as [Hw Ho]. destruct (worst r rs') as [w others].
  cbn [fst snd] in Hw, Ho.
  destruct (Hrule w _ Hw eq_refl _ (or_introl eq_refl)) as [<- H1].
  destruct (Hrule w _ Hw eq_refl _ (or_intror eq_refl)) as [<- H2].
  destruct (rule f n _ _ _) as [r1|]; [|reflexivity]. cbn [bind].
  destruct (rule f n _ _ _) as [r2|]; [|reflexivity]. cbn [bind].
  apply IH. auto.
Qed.

(** A property of the regions that the rule establishes holds of the
    regions of the answer: here, of their sum. *)
Lemma adapt_total (P : subregion -> Prop) (S : integral -> Prop)
      (f : Z -> list D -> result D) (n : Z) (abstol reltol : D) (maxeval : Z) :
  (forall w k half r, P w -> k = axis_of n (b_depth w) ->
     half = lower_half k (b_lo w) (b_hi w) \/ half = upper_half k (b_lo w) (b_hi w) ->
     rule f n half.1 half.2 (Datatypes.S (b_depth w)) = Ok r -> P r) ->
  (forall rs flag evals, Forall P rs -> S (answer_of rs flag evals)) ->
  forall (fuel : nat) (rs : list subregion) (evals : Z) (i : integral),
  Forall P rs ->
  adapt fuel f n abstol reltol maxeval rs evals = Ok i -> S i.
Proof.
  intros Hrule Hsum fuel. induction fuel as [|fuel IH]; intros rs evals i Hrs; cbn [adapt];
    destruct (converged _ _ _ _); try (intros [= <-]; now apply Hsum);
    destruct (spent _ _); try (intros [= <-]; now apply Hsum); try discriminate.
  destruct rs as [|r rs']; [discriminate|].
  destruct (worst_Forall P r rs' Hrs) as [Hw Ho]. destruct (worst r rs') as [w others].
  cbn [fst snd] in Hw, Ho. intros H.
  apply bind_Ok_inv in H as (r1 & E1 & H). apply bind_Ok_inv in H as (r2 & E2 & H).
  apply (IH _ _ _ (Forall_cons _ _ _ (Hrule _ _ _ _ Hw eq_refl (or_introl eq_refl) E1)
                     (Forall_cons _ _ _ (Hrule _ _ _ _ Hw eq_refl (or_intror eq_refl) E2) Ho))
            H).
Qed.
Lemma adapt_converged (fuel : nat) (f : Z -> list D -> result D) (n : Z)
      (abstol reltol : D) (maxeval : Z) (rs : list subregion) (evals : Z) :
  converged abstol reltol (total b_val rs) (total b_err rs) = true ->
  adapt fuel f n abstol reltol maxeval rs evals = Ok (answer_of rs 0 evals).
Proof. intros H. destruct fuel; cbn [adapt]; now rewrite H. Qed.
End Regions.

(** ** Over exact numbers: the boxes stay in the cell *)

Section Rational.
Local Open Scope Q_scope.

Definition amid (a b x : Q) : Prop := a <= x <= b \/ b <= x <= a.

Lemma in_cell_amid (n : Z) (xmin xmax x : list Q) :
  in_cell n xmin xmax x <->
  forall i, (i < Z.to_nat n)%nat ->
            amid (coordinate xmin i) (coordinate xmax i) (coordinate x i).
Proof.
  unfold in_cell, amid; split; intros H i Hi; specialize (H i Hi);
    cbn [nleb Q_Number] in *; rewrite !Qle_bool_iff in *; exact H.
Qed.

Lemma amid_centre (a b x y : Q) :
  amid a b x -> amid a b y -> amid a b ((x + y) * (1 # 2)).
Proof. unfold amid. intros [Hx|Hx] [Hy|Hy]; lra. Qed.

Lemma amid_eq (a b x y : Q) : x == y -> amid a b x -> amid a b y.
Proof. unfold amid. intros E [H|H]; lra. Qed.

Lemma coordinate_centre (lo hi : list Q) (i : nat) :
  length lo = length hi ->
  coordinate (centre lo hi) i == (coordinate lo i + coordinate hi i) * (1 # 2).
Proof.
  revert hi i. unfold coordinate, centre.
  induction lo as [|a lo IH]; intros [|b hi] i; try discriminate; intros E.
  - destruct i; reflexivity.
  - injection E as E. destruct i as [|i]; cbn; [reflexivity | now apply IH].
Qed.

(** A box of the subdivision of the cell: its corners are points of the
    cell. *)
Definition subcell (n : Z) (xmin xmax lo hi : list Q) : Prop :=
  length lo = length hi /\ in_cell n xmin xmax lo /\ in_cell n xmin xmax hi.

Lemma subcell_centre (n : Z) (xmin xmax lo hi : list Q) :
  subcell n xmin xmax lo hi -> in_cell n xmin xmax (centre lo hi).
Proof.
  intros (Hl & Hlo & Hhi). rewrite in_cell_amid in *. intros i Hi.
  eapply amid_eq; [symmetry; now apply coordinate_centre|].
  apply amid_centre; auto.
Qed.

Lemma in_cell_insert (n : Z) (xmin xmax x y : list Q) (k : nat) :
  in_cell n xmin xmax x -> in_cell n xmin xmax y ->
  in_cell n xmin xmax (<[k := coordinate y k]> x).
Proof.
  rewrite !in_cell_amid. intros Hx Hy i Hi. rewrite coordinate_insert.
  destruct (decide _) as [[-> _]|_]; auto.
Qed.

Lemma subcell_halves (n : Z) (xmin xmax lo hi : list Q) (k : nat) (half : list Q * list Q) :
  subcell n xmin xmax lo hi ->
  half = lower_half k lo hi \/ half = upper_half k lo hi ->
  subcell n xmin xmax half.1 half.2.
Proof.
  intros H [-> | ->]; pose proof (subcell_centre _ _ _ _ _ H) as Hc;
    destruct H as (Hl & Hlo & Hhi); unfold subcell, lower_half, upper_half; cbn [fst snd];
    rewrite length_insert; auto using in_cell_insert.
Qed.

(** The three points the rule evaluates the integrand at are points of
    the cell. *)
Lemma rule_local (f f' : Z -> list Q -> result Q) (n : Z) (xmin xmax lo hi : list Q)
      (depth : nat) :
  (forall x, in_cell n xmin xmax x -> f n x = f' n x) ->
  subcell n xmin xmax lo hi ->
  rule f n lo hi depth = rule f' n lo hi depth.
Proof.
  intros Hf H. unfold rule, midpoint_integration.
  pose proof (subcell_halves _ _ _ _ _ (axis_of n depth) _ H (or_introl eq_refl)) as H1.
  pose proof (subcell_halves _ _ _ _ _ (axis_of n depth) _ H (or_intror eq_refl)) as H2.
  apply subcell_centre in H, H1, H2. unfold centre in H, H1, H2.
  now rewrite (Hf _ H), (Hf _ H1), (Hf _ H2).
Qed.

Definition region_subcell (n : Z) (xmin xmax : list Q) (r : subregion) : Prop :=
  subcell n xmin xmax (b_lo r) (b_hi r).

Lemma rule_subcell (f : Z -> list Q -> result Q) (n : Z) (xmin xmax lo hi : list Q)
      (depth : nat) (r : subregion) :
  subcell n xmin xmax lo hi -> rule f n lo hi depth = Ok r -> region_subcell n xmin xmax r.
Proof.
  intros H E. apply rule_subregion in E as (E1 & E2 & _). unfold region_subcell.
  now rewrite E1, E2.
Qed.

Lemma subcell_corners (n : Z) (xmin xmax : list Q) :
  length xmin = length xmax -> subcell n xmin xmax xmin xmax.
Proof.
  intros Hl. split; [exact Hl|].
  split; apply in_cell_amid; intros i _; unfold amid; lra.
Qed.

(** The integrator reads the integrand inside the cell only. *)
#[export] Instance adaptive_local (limit : nat) :
  LocalCubature (adaptive_integration limit).
Proof.
  intros f f' xmin xmax n tol maxeval Hmin Hmax Hf.
  assert (Hin : subcell n xmin xmax xmin xmax) by (apply subcell_corners; congruence).
  unfold adaptive_integration, integrate.
  rewrite <- (rule_local f f' n xmin xmax xmin xmax 0 Hf Hin).
  destruct (rule f n xmin xmax 0) as [r|] eqn:Er; [|reflexivity]. cbn [bind].
  rewrite (adapt_ext (region_subcell n xmin xmax) f f'); [reflexivity | |].
  - intros w k Hw -> half Hhalf.
    pose proof (subcell_halves _ _ _ _ _ _ _ Hw Hhalf) as Hh.
    rewrite <- (rule_local f f' n xmin xmax _ _ _ Hf Hh).
    split; [reflexivity|]. intros r0. now apply rule_subcell.
  - constructor; [|constructor]. eapply rule_subcell; eassumption.
Qed.

(** ** Over exact numbers: the sign of the integrand *)

Lemma nabs_nonneg (x : Q) : 0 <= nabs x.
Proof.
  unfold nabs. cbn. qcases; cbn; lra.
Qed.

Lemma nabs_zero (x : Q) : x == 0 -> nabs x == 0.
Proof. intros E. unfold nabs. cbn. qcases; cbn; lra. Qed.

Lemma nmax_l (a b : Q) : a <= nmax a b.
Proof.
  unfold nmax. cbn. qcases; cbn; lra.
Qed.

(** The corners of a box in their order along the axes integrated over. *)
Definition ordered (n : Z) (lo hi : list Q) : Prop :=
  forall i, (i < Z.to_nat n)%nat -> coordinate lo i <= coordinate hi i.

Lemma vol_loop_nonneg (count : nat) :
  forall (i : nat) (lo hi : list Q) (v : Q),
  (forall j, (i <= j < i + count)%nat -> coordinate lo j <= coordinate hi j) ->
  0 <= v -> 0 <= vol_loop count i lo hi v.
Proof.
  induction count as [|count IH]; intros i lo hi v Hord Hv; cbn [vol_loop]; [exact Hv|].
  apply IH; [intros j Hj; apply Hord; lia|]. cbn.
  specialize (Hord i ltac:(lia)). nra.
Qed.

Lemma ordered_vol (n : Z) (lo hi : list Q) :
  ordered n lo hi -> 0 <= vol_loop (Z.to_nat n) 0 lo hi 1.
Proof. intros H. apply vol_loop_nonneg; [intros j Hj; apply H; lia | lra]. Qed.

Lemma ordered_halves (n : Z) (xmin xmax lo hi : list Q) (k : nat)
      (half : list Q * list Q) :
  subcell n xmin xmax lo hi -> ordered n lo hi ->
  half = lower_half k lo hi \/ half = upper_half k lo hi ->
  ordered n half.1 half.2.
Proof.
  intros [Hl _] H [-> | ->] i Hi; specialize (H i Hi); unfold lower_half, upper_half;
    cbn [fst snd]; rewrite coordinate_insert; destruct (decide _) as [[-> _]|_];
    try exact H; pose proof (coordinate_centre lo hi i Hl); lra.
Qed.

Section Positive.
Variable f : Z -> list Q -> result Q.
Variable n : Z.
Variables xmin xmax : list Q.
Hypothesis f_positive : forall x y, in_cell n xmin xmax x -> f n x = Ok y -> 0 <= y.

Lemma midpoint_nonneg (lo hi : list Q) (tol : Q) (maxeval : Z) (v : Q) :
  subcell n xmin xmax lo hi -> ordered n lo hi ->
  midpoint_integration f lo hi n tol maxeval = Ok v -> 0 <= v.
Proof.
  intros Hin Hord H. unfold midpoint_integration in H.
  apply bind_Ok_inv in H as (y & Ey & [= <-]).
  apply f_positive in Ey; [|now apply subcell_centre].
  pose proof (ordered_vol n lo hi Hord). cbn. nra.
Qed.

(** What the loop keeps of its regions. *)
Definition subregion_positive (r : subregion) : Prop :=
  region_subcell n xmin xmax r /\ ordered n (b_lo r) (b_hi r) /\ 0 <= b_val r.

Lemma rule_positive (lo hi : list Q) (depth : nat) (r : subregion) :
  subcell n xmin xmax lo hi -> ordered n lo hi ->
  rule f n lo hi depth = Ok r -> subregion_positive r.
Proof.
  intros Hin Hord H. split; [now apply (rule_subcell f n xmin xmax lo hi depth)|].
  unfold rule in H.
  apply bind_Ok_inv in H as (c & _ & H). apply bind_Ok_inv in H as (a & Ea & H).
  apply bind_Ok_inv in H as (b & Eb & [= <-]). cbn [b_lo b_hi b_val].
  split; [exact Hord|].
  apply midpoint_nonneg in Ea, Eb; eauto using subcell_halves, ordered_halves.
  cbn. lra.
Qed.

Lemma total_nonneg (rs : list subregion) :
  Forall subregion_positive rs -> 0 <= total b_val rs.
Proof.
  induction 1 as [|r rs (_ & _ & Hr) _ IH]; cbn; [lra|].
  unfold total in IH. cbn in IH. lra.
Qed.

Lemma adaptive_integration_nonneg (limit : nat) (tol : Q) (maxeval : Z) (v : Q) :
  length xmin = length xmax -> ordered n xmin xmax ->
  adaptive_integration limit f xmin xmax n tol maxeval = Ok v -> 0 <= v.
Proof.
  intros Hl Hord H. unfold adaptive_integration, integrate in H.
  apply bind_Ok_inv in H as (i & H & [= <-]). apply bind_Ok_inv in H as (r & Er & H).
  apply rule_positive in Er; [|now apply subcell_corners | exact Hord].
  refine (adapt_total subregion_positive (fun i => 0 <= estimate i) f n _ _ _ _ _ _ _ _ _ _ H).
  - intros w k half r0 (Hw & Ho & _) -> Hhalf.
    apply rule_positive; eauto using subcell_halves, ordered_halves.
  - intros rs flag evals. apply total_nonneg.
  - constructor; [exact Er | constructor].
Qed.
End Positive.

(** A cubature that keeps the sign: an integrand that is not negative in
    the box has an integral that is not negative.  Rules with weights that
    are not negative are such. *)
Class PositiveCubature
      (adaptive_integration :
         (Z -> list Q -> result Q) -> list Q -> list Q -> Z -> Q -> Z -> result Q)
  : Prop :=
  cubature_positive : forall f xmin xmax n tol maxeval v,
    length xmin = 3%nat -> length xmax = 3%nat -> ordered n xmin xmax ->
    (forall x y, in_cell n xmin xmax x -> f n x = Ok y -> 0 <= y) ->
    adaptive_integration f xmin xmax n tol maxeval = Ok v -> 0 <= v.

#[export] Instance adaptive_positive (limit : nat) :
  PositiveCubature (adaptive_integration limit).
Proof.
  intros f xmin xmax n tol maxeval v Hmin Hmax Hord Hf.
  apply (adaptive_integration_nonneg f n xmin xmax Hf); [congruence | exact Hord].
Qed.

#[export] Instance midpoint_positive : PositiveCubature midpoint_integration.
Proof.
  intros f xmin xmax n tol maxeval v Hmin Hmax Hord Hf.
  apply (midpoint_nonneg f n xmin xmax Hf); [apply subcell_corners; congruence | exact Hord].
Qed.

(** ** Over exact numbers: affine integrands *)

(** On an integrand that is affine in the first coordinate the estimates
    of the two halves add up to the estimate of the box: the rule reports
    the integral and the error zero. *)
Lemma rule_exact (f : Z -> list Q -> result Q) (xmin xmax : list Q) (n : Z) (a b : Q) :
  length xmin = 3%nat -> length xmax = 3%nat -> (1 <= n <= 3)%Z ->
  (forall x, exists v, f n x = Ok v /\ v == a + b * coordinate x 0) ->
  exists r, rule f n xmin xmax 0 = Ok r /\ b_err r == 0 /\
            b_val r == (a + b * ((coordinate xmin 0 + coordinate xmax 0) * (1 # 2))) *
                       vol_loop (Z.to_nat n) 0 xmin xmax 1.
Proof.
  intros Hmin Hmax Hn Hf.
  destruct xmin as [|x0 [|x1 [|x2 [|]]]]; try discriminate.
  destruct xmax as [|y0 [|y1 [|y2 [|]]]]; try discriminate.
  unfold rule, midpoint_integration.
  assert (Hk : axis_of n 0 = 0%nat)
    by (unfold axis_of; destruct (Z.to_nat n) eqn:E; [lia | apply Nat.Div0.mod_0_l]).
  rewrite Hk.
  repeat match goal with
         | |- context [f n ?x] => destruct (Hf x) as (? & -> & ?); cbn [bind]
         end.
  eexists. split; [reflexivity|]. cbn [b_err b_val].
  assert (Hc : (Z.to_nat n = 1 \/ Z.to_nat n = 2 \/ Z.to_nat n = 3)%nat) by lia.
  split; [apply nabs_zero|];
    destruct Hc as [-> | [-> | ->]]; unfold coordinate in *; cbn in *;
    repeat match goal with E : _ == _ |- _ => rewrite E; clear E end; ring.
Qed.

#[export] Instance adaptive_exact (limit : nat) :
  ExactCubature (adaptive_integration limit).
Proof.
  intros f xmin xmax n tol maxeval a b Hmin Hmax Hn Hf.
  destruct (rule_exact f xmin xmax n a b Hmin Hmax Hn Hf) as (r & Er & He & Hv).
  unfold adaptive_integration, integrate. rewrite Er. cbn [bind].
  rewrite adapt_converged.
  - cbn [bind answer_of estimate]. eexists. split; [reflexivity|].
    rewrite <- Hv. cbn. ring.
  - unfold converged. cbn [total fold_right]. apply Qle_bool_iff.
    pose proof (nmax_l 0 (tol * nabs (b_val r + 0))). cbn in *. lra.
Qed.
End Rational.

(** ** The fallback returns *)

(** The contract of the specification (5): with a positive budget the
    integration returns wherever the integrand does. *)
Class BudgetedCubature {D : Type}
      (adaptive_integration :
         (Z -> list D -> result D) -> list D -> list D -> Z -> D -> Z -> result D)
  : Prop :=
  cubature_returns : forall f xmin xmax n tol maxeval,
    (0 < maxeval)%Z -> (forall x, exists v, f n x = Ok v) ->
    exists v, adaptive_integration f xmin xmax n tol maxeval = Ok v.

#[export] Instance adaptive_budgeted {D : Type} {N : Number D} (limit : nat) :
  BudgetedCubature (adaptive_integration (D := D) limit).
Proof.
  intros f xmin xmax n tol maxeval Hmax Hf.
  now apply adaptive_integration_returns.
Qed.

#[export] Instance midpoint_budgeted {D : Type} {N : Number D} :
  BudgetedCubature (midpoint_integration (D := D)).
Proof.
  intros f xmin xmax n tol maxeval _ Hf. now apply midpoint_returns.
Qed.

Section Fallback.
Context {D : Type} {N : Number D} {L : NumberLaws D}.
Context {O T : Type} {G : Geom D O T} {GL : GeomLaws G}.

Variable call_material_func : function -> vector3 D -> material_type D.
Variable fuel : nat.
Variable default_normal_vector : geometric_volume D -> vec D.
Variable adaptive_integration :
  (Z -> list D -> result D) -> list D -> list D -> Z -> D -> Z -> result D.
Context {B : BudgetedCubature adaptive_integration}.

(** Where [eps] returns, both integrands return. *)
Lemma integrands_return (debug : bool) (g : globals D) (this : geom_epsilon O)
      (h : gmap nat T) (d : ndim) (n : Z) (x : list D) :
  dim (g_dim g) = Some d ->
  (forall r, is_ok (eps call_material_func fuel debug g this h r) = true) ->
  (exists v, eps_func call_material_func fuel debug g this h n x = Ok v) /\
  (exists v, inveps_func call_material_func fuel debug g this h n x = Ok v).
Proof.
  intros Hd He. unfold eps_func, inveps_func.
  destruct (integrand_point g n x) as [p s]. rewrite Hd.
  assert (Hr : exists r, vector3_to_vec (Some d) p = Ok r) by (destruct d; simpl; eauto).
  destruct Hr as [r ->]. cbn [bind].
  specialize (He r). apply is_ok_true in He as [e ->]. cbn [bind]. eauto.
Qed.

(** With a positive budget the fallback returns wherever [eps] does: each
    of its two integrations returns. *)
Lemma fallback_meaneps_returns (debug : bool) (g : globals D) (this : geom_epsilon O)
      (h : gmap nat T) (gv : geometric_volume D) (tol : D) (maxeval : Z) (d : ndim) :
  dim (g_dim g) = Some d ->
  (forall r, is_ok (eps call_material_func fuel debug g this h r) = true) ->
  (0 < maxeval)%Z ->
  exists m, fallback_meaneps call_material_func fuel adaptive_integration
                             debug g this h gv tol maxeval = Ok m.
Proof.
  intros Hd He Hmax. unfold fallback_meaneps.
  set (xmin := integration_corner g _). set (xmax := integration_corner g _).
  set (n := integration_dims xmin xmax).
  destruct (cubature_returns _ xmin xmax n tol maxeval Hmax
              (fun x => proj1 (integrands_return debug g this h d n x Hd He))) as [v ->].
  destruct (cubature_returns _ xmin xmax n tol maxeval Hmax
              (fun x => proj2 (integrands_return debug g this h d n x Hd He))) as [w ->].
  cbn [bind]. eauto.
Qed.

Lemma meaneps_is_ok (per : bool) (g : globals D) (u : uninit D O)
      (this : geom_epsilon O) (h0 h : gmap nat T) (gv : geometric_volume D)
      (tol : D) (maxeval : Z) (d : ndim) :
  owned per h0 this h ->
  forallb fixed (default_material g :: map material (geometry this)) = true ->
  material_type_equal (default_material g) (default_material g) = true ->
  (1 <= dimensions (g_dim g) <= 3)%Z -> dim (g_dim g) = Some d ->
  (0 < maxeval)%Z ->
  is_ok (meaneps call_material_func fuel default_normal_vector
                 adaptive_integration false g u this h gv tol maxeval) = true.
Proof.
  intros Ho Hf Hself Hdims Hd Hmax.
  destruct (owned_trees _ _ _ _ Ho) as (bx & _ & Ht & _).
  set (t := create_geom_box_tree0 per (geometry this) bx) in Ht.
  destruct (get_front_object_returns g u gv t Hdims) as [[r|] Er].
  - apply (meaneps_defined _ _ _ _ false g u this h gv tol maxeval t r d);
      [exact Ht | apply valid_create | exact Er | exact Hself | | exact Hd].
    simpl in Hf. apply andb_true_iff in Hf as [Hf _].
    now destruct (default_material g).
  - unfold meaneps, tree_at. rewrite Ht. cbn [bind]. rewrite Er. cbn [bind].
    destruct (fallback_meaneps_returns false g this h gv tol maxeval d Hd
                (fun r => eps_defined _ _ per g this h0 h r Ho Hf) Hmax) as [m ->].
    reflexivity.
Qed.

(** C16: [meaneps] and [normal_vector] return for every pixel.  When no
    material is a material function or MATERIAL_TYPE_SELF, the default
    material equals itself, the dimensionality is one of 1, 2, 3 and the
    budget of evaluations is positive, [meaneps] returns a result in every
    state of the object, whichever path it takes: the path through
    [get_front_object] reads no null object and no material without a
    permittivity, and the integrations of the fallback return, as every
    cubature does that stops when its budget is spent; [normal_vector]
    returns the normal of that result.  The numbers may be doubles. *)
Theorem meaneps_returns (per : bool) (g : globals D) (u : uninit D O)
        (this : geom_epsilon O) (h0 h : gmap nat T) (gv : geometric_volume D)
        (tol : D) (maxeval : Z) (d : ndim) :
  owned per h0 this h ->
  forallb fixed (default_material g :: map material (geometry this)) = true ->
  material_type_equal (default_material g) (default_material g) = true ->
  (1 <= dimensions (g_dim g) <= 3)%Z -> dim (g_dim g) = Some d ->
  (0 < maxeval)%Z ->
  exists meps minveps n,
    meaneps call_material_func fuel default_normal_vector
            adaptive_integration false g u this h gv tol maxeval
    = Ok (meps, minveps, n) /\
    normal_vector default_normal_vector g u this h gv = Ok n.
Proof.
  intros Ho Hf Hself Hdims Hd Hmax.
  pose proof (meaneps_is_ok per g u this h0 h gv tol maxeval d Ho Hf Hself Hdims Hd Hmax)
    as H.
  apply is_ok_true in H as [[[meps minveps] n] H].
  exists meps, minveps, n. split; [exact H|].
  eapply normal_vector_meaneps, H.
Qed.
End Fallback.

(** ** The mean permittivity of the fallback is not negative *)

Section FallbackSign.
Context {O T : Type} {G : Geom Q O T}.
Local Open Scope Q_scope.

Variable call_material_func : function -> vector3 Q -> material_type Q.
Variable fuel : nat.
Variable adaptive_integration :
  (Z -> list Q -> result Q) -> list Q -> list Q -> Z -> Q -> Z -> result Q.
Context {P : PositiveCubature adaptive_integration}.

(** The weight [s] of the integrands at a point of the cell: one, or the
    radius in cylindrical coordinates. *)
Lemma weight_nonneg (g : globals Q) (d : ndim) (n : Z) (xmin xmax x : list Q) :
  dim (g_dim g) = Some d -> (1 <= n)%Z ->
  ordered n xmin xmax -> (d = Dcyl -> 0 <= coordinate xmin 0) ->
  in_cell n xmin xmax x -> 0 <= (integrand_point g n x).2.
Proof.
  intros Hd Hn Hord Hr Hx. unfold integrand_point. rewrite Hd.
  destruct d; cbn; try lra.
  rewrite in_cell_amid in Hx. specialize (Hx 0%nat ltac:(lia)).
  specialize (Hord 0%nat ltac:(lia)). specialize (Hr eq_refl).
  unfold amid in Hx. lra.
Qed.

Lemma integrands_nonneg (debug : bool) (g : globals Q) (this : geom_epsilon O)
      (h : gmap nat T) (d : ndim) (n : Z) (xmin xmax x : list Q) (y : Q) :
  dim (g_dim g) = Some d -> (1 <= n)%Z ->
  (forall r e, eps call_material_func fuel debug g this h r = Ok e -> 0 < e) ->
  ordered n xmin xmax -> (d = Dcyl -> 0 <= coordinate xmin 0) ->
  in_cell n xmin xmax x ->
  eps_func call_material_func fuel debug g this h n x = Ok y \/
  inveps_func call_material_func fuel debug g this h n x = Ok y ->
  0 <= y.
Proof.
  intros Hd Hn He Hord Hr Hx H.
  pose proof (weight_nonneg g d n xmin xmax x Hd Hn Hord Hr Hx) as Hs.
  unfold eps_func, inveps_func in H. destruct (integrand_point g n x) as [p s].
  cbn [snd] in Hs.
  destruct H as [H|H]; apply bind_Ok_inv in H as (r & _ & H);
    apply bind_Ok_inv in H as (e & Ee & [= <-]); apply He in Ee; cbn.
  - nra.
  - apply Qle_shift_div_l; [exact Ee | lra].
Qed.

Lemma integration_vol_nonneg (g : globals Q) (d : ndim) (n : Z) (xmin xmax : list Q) :
  dim (g_dim g) = Some d -> (1 <= n)%Z ->
  ordered n xmin xmax -> (d = Dcyl -> 0 <= coordinate xmin 0) ->
  0 <= integration_vol g xmin xmax n.
Proof.
  intros Hd Hn Hord Hr. unfold integration_vol. rewrite Hd.
  pose proof (ordered_vol n xmin xmax Hord) as Hv.
  destruct d; try exact Hv.
  specialize (Hord 0%nat ltac:(lia)). specialize (Hr eq_refl). cbn in *. nra.
Qed.

(** C23: the mean permittivity and the mean inverse permittivity the
    fallback returns are not negative, for a pixel with its corners in
    order (and, in cylindrical coordinates, at radii that are not negative)
    and a volume that is not zero, when the permittivity is positive
    wherever it is defined: so for every pixel with one axis of extent
    zero, which the fallback integrates over the two others.  The cubature
    is any that keeps the sign of its integrand. *)
Theorem fallback_meaneps_nonneg (debug : bool) (g : globals Q) (this : geom_epsilon O)
        (h : gmap nat T) (gv : geometric_volume Q) (tol : Q) (maxeval : Z) (d : ndim)
        (meps minveps : Q) :
  dim (g_dim g) = Some d ->
  (forall r e, eps call_material_func fuel debug g this h r = Ok e -> 0 < e) ->
  let xmin := integration_corner g (vec_to_vector3 (get_min_corner gv)) in
  let xmax := integration_corner g (vec_to_vector3 (get_max_corner gv)) in
  ordered (integration_dims xmin xmax) xmin xmax ->
  (d = Dcyl -> 0 <= coordinate xmin 0) ->
  ~ integration_vol g xmin xmax (integration_dims xmin xmax) == 0 ->
  fallback_meaneps call_material_func fuel adaptive_integration
                   debug g this h gv tol maxeval = Ok (meps, minveps) ->
  0 <= meps /\ 0 <= minveps.
Proof.
  intros Hd He xmin xmax Hord Hr Hvol H. unfold fallback_meaneps in H.
  fold xmin xmax in H. set (n := integration_dims xmin xmax) in *.
  assert (Hn : (1 <= n)%Z) by apply integration_dims_range.
  pose proof (integration_vol_nonneg g d n xmin xmax Hd Hn Hord Hr) as Hv.
  apply bind_Ok_inv in H as (v & Ev & H). apply bind_Ok_inv in H as (w & Ew & [= <- <-]).
  apply cubature_positive in Ev, Ew;
    try apply integration_corner_length; try exact Hord;
    try (intros x y Hx Hy; eapply integrands_nonneg; eauto; fail).
  cbn. split; apply Qle_shift_div_l; lra.
Qed.

(** Where every material is a dielectric of positive permittivity, [eps]
    is positive at every point. *)
Lemma eps_positive {GL : GeomLaws G} (per : bool) (g : globals Q)
      (this : geom_epsilon O) (h0 h : gmap nat T) :
  owned per h0 this h ->
  Forall (fun m => exists d, m = dielectric_data d /\ 0 < epsilon d)
         (default_material g :: map material (geometry this)) ->
  forall r e, eps call_material_func fuel false g this h r = Ok e -> 0 < e.
Proof.
  intros Ho Hm r e. destruct (owned_trees _ _ _ _ Ho) as (bx & bx' & _ & Ht).
  rewrite (eps_at _ _ false g this h r _ Ht eq_refl).
  rewrite Forall_forall in Hm.
  destruct (Hm _ (found_material_In g per (geometry this) bx' (vec_to_vector3 r)))
    as (d & Ed & Hd).
  rewrite point_material_fixed by now rewrite Ed.
  rewrite Ed. cbn. now intros [= <-].
Qed.
End FallbackSign.

(** ** A pixel of three materials *)

Section CubatureWitnesses.
Local Open Scope Q_scope.
#[local] Existing Instance LinQ.

(** Two blocks that fill the lower half of the pixel [0,1] x [0,1], in a
    medium of permittivity 1: three materials meet at the centre of the
    pixel, so [get_front_object] gives up and [meaneps] integrates. *)
Definition quadrants : list (geometric_object Q) :=
  [ block (dielQ 2) (rect 0 (1 # 2) 0 (1 # 2));
    block (dielQ 4) (rect (1 # 2) 1 0 (1 # 2)) ].

Definition quartered : geom_epsilon (geometric_object Q) * gmap nat (geom_box_tree Q) :=
  geom_epsilon_ctor (globalsQ 2 (dielQ 1)) quadrants cellQ ∅.

Definition unit_pixel : geometric_volume Q := pixelQ 0 1 0 1.

Lemma quartered_owned : owned false ∅ quartered.1 quartered.2.
Proof. apply (geom_epsilon_ctor_owned (globalsQ 2 (dielQ 1)) quadrants cellQ ∅). Qed.

Example quartered_ambiguous :
  (t <- tree_at (geometry_tree quartered.1) quartered.2 ;;
   get_front_object (globalsQ 2 (dielQ 1)) junkQ unit_pixel t) = Ok None.
Proof. reflexivity. Qed.

Definition eps_quartered : Z -> list Q -> result Q :=
  eps_func callQ 10 false (globalsQ 2 (dielQ 1)) quartered.1 quartered.2.

(** The loop halves the pixel along x, then each half along y, and stops
    with the error zero after 21 evaluations: the integral of the
    permittivity over the pixel is (2 + 4 + 1 + 1) / 4. *)
Example integrate_quartered :
  exists i, integrate 0 eps_quartered [0; 0; 0] [1; 1; 0] 2 0 (1 # 100) 1000 = Ok i /\
            estimate i == 2 /\ esterr i == 0 /\ errflag i = 0%Z /\ nfe i = 21%Z.
Proof. eexists. split; [vm_compute; reflexivity|]. repeat split. Qed.

(** A spent budget is not a failure: the estimate so far is returned with
    the flag 1.  With a budget of 5 the loop stops after the first halving,
    with a budget of 1 after the first rule. *)
Example integrate_quartered_spent :
  (exists i, integrate 0 eps_quartered [0; 0; 0] [1; 1; 0] 2 0 (1 # 100) 5 = Ok i /\
             estimate i == 2 /\ esterr i == 1 /\ errflag i = 1%Z /\ nfe i = 9%Z) /\
  (exists i, integrate 0 eps_quartered [0; 0; 0] [1; 1; 0] 2 0 (1 # 100) 1 = Ok i /\
             estimate i == 3 /\ esterr i == 1 /\ errflag i = 1%Z /\ nfe i = 3%Z).
Proof. split; eexists; (split; [vm_compute; reflexivity|]); repeat split. Qed.

(** Without a budget the halvings are bounded by [limit] only. *)
Example integrate_quartered_unlimited :
  integrate 0 eps_quartered [0; 0; 0] [1; 1; 0] 2 0 (1 # 100) 0 = Fail OutOfFuel /\
  exists i, integrate 3 eps_quartered [0; 0; 0] [1; 1; 0] 2 0 (1 # 100) 0 = Ok i /\
            estimate i == 2 /\ errflag i = 0%Z.
Proof.
  split; [vm_compute; reflexivity|].
  eexists. split; [vm_compute; reflexivity|]. repeat split.
Qed.

(** [meaneps] for the pixel: the means of the permittivity and of its
    inverse over the four quarters, and the default normal. *)
Example meaneps_quartered :
  exists meps minveps,
    meaneps callQ 10 no_normalQ (adaptive_integration 0) false (globalsQ 2 (dielQ 1))
            junkQ quartered.1 quartered.2 unit_pixel (1 # 100) 1000
    = Ok (meps, minveps, vec2 0 0) /\
    meps == 2 /\ minveps == 11 # 16.
Proof. eexists _, _. split; [vm_compute; reflexivity|]. split; reflexivity. Qed.

Lemma meaneps_returns_witness :
  exists meps minveps n,
    meaneps callQ 10 no_normalQ (adaptive_integration 0) false (globalsQ 2 (dielQ 1))
            junkQ quartered.1 quartered.2 unit_pixel (1 # 100) 1000
    = Ok (meps, minveps, n) /\
    normal_vector no_normalQ (globalsQ 2 (dielQ 1)) junkQ quartered.1 quartered.2 unit_pixel
    = Ok n.
Proof.
  apply (meaneps_returns callQ 10 no_normalQ (adaptive_integration 0) false
           (globalsQ 2 (dielQ 1)) junkQ
           quartered.1 ∅ quartered.2 unit_pixel (1 # 100) 1000%Z D2 quartered_owned);
    [reflexivity | reflexivity | simpl; lia | reflexivity | lia].
Defined.

(** The two paths of [meaneps] on the slab of MeanEps.v, whose face x = 1
    crosses the pixels.  On the pixel the face halves, the fallback
    returns the blend the path through [get_front_object] computes.  On
    the pixel the face cuts at three quarters the three points of the rule
    lie in the slab: the estimate of the error is zero and the fallback
    returns the permittivity of the slab, while the blend is 13/4.  The
    tolerance bounds the estimate of the error, not the error. *)
Example fallback_and_blend :
  let run gv :=
    (m <- meaneps callQ 10 no_normalQ (adaptive_integration 0) false (globalsQ 2 (dielQ 1))
                  junkQ constructedQ.1 constructedQ.2 gv (1 # 8) 1000 ;;
     f <- fallback_meaneps callQ 10 (adaptive_integration 0) false (globalsQ 2 (dielQ 1))
                           constructedQ.1 constructedQ.2 gv (1 # 8) 1000 ;;
     Ok (Qred m.1.1, Qred f.1)) in
  run acrossQ = Ok (5 # 2, 5 # 2) /\
  run (pixelQ (1 # 4) (5 # 4) 0 1) = Ok (13 # 4, 4).
Proof. split; vm_compute; reflexivity. Qed.

Lemma fallback_meaneps_nonneg_witness :
  exists meps minveps,
    fallback_meaneps callQ 10 (adaptive_integration 0) false (globalsQ 2 (dielQ 1))
                     quartered.1 quartered.2 unit_pixel (1 # 100) 1000
    = Ok (meps, minveps) /\ 0 <= meps /\ 0 <= minveps.
Proof.
  eexists _, _. split; [vm_compute; reflexivity|].
  apply (fallback_meaneps_nonneg callQ 10 (adaptive_integration 0) false
           (globalsQ 2 (dielQ 1)) quartered.1 quartered.2 unit_pixel (1 # 100) 1000%Z D2).
  - reflexivity.
  - apply (eps_positive callQ 10 false _ _ ∅ _ quartered_owned).
    repeat constructor; eexists; (split; [reflexivity|reflexivity]).
  - intros [|[|i]] Hi; vm_compute; try discriminate. vm_compute in Hi. lia.
  - discriminate.
  - vm_compute. discriminate.
  - vm_compute. reflexivity.
Defined.
End CubatureWitnesses.

(** ** The same pixel in doubles, and a perfect metal *)

Section CubatureDoubles.
Import Slabs.
Local Open Scope float_scope.

Definition quarter (x0 x1 : float) : geom_box float :=
  {| low := V3 x0 0 (-1); high := V3 x1 0.5 1 |}.

(** The two blocks of [quadrants], the second of the material [m]. *)
Definition quartered_double (m : material_type float)
  : geom_epsilon (geometric_object float) * gmap nat (geom_box_tree float) :=
  geom_epsilon_ctor air_globals
    [block (diel 2) (quarter 0 0.5); block m (quarter 0.5 1)] cell ∅.

Definition meaneps_double (m : material_type float) (maxeval : Z)
  : result (float * float * vec float) :=
  meaneps example_call 10 no_normal (adaptive_integration 200) false air_globals junk
          (quartered_double m).1 (quartered_double m).2 (pixel2 0 1 0 1) 0.125 maxeval.

(** The halves and quarters of the pixel and the four permittivities are
    doubles, and so are the two means. *)
Example meaneps_quartered_double :
  meaneps_double (diel 4) 1000 = Ok (2, 0.6875, vec2 0 0).
Proof. vm_compute. reflexivity. Qed.

(** [material_eps] gives a perfect metal the permittivity [-meep::infinity].
    A pixel that meets one has the mean permittivity minus infinity,
    whatever the budget: the mean of the fallback is neither finite nor
    positive there. *)
Example meaneps_perfect_metal :
  meaneps_double perfect_metal_data 100 = Ok (neg_infinity, 0.625, vec2 0 0) /\
  meaneps_double perfect_metal_data 1 = Ok (neg_infinity, 0.25, vec2 0 0).
Proof. split; vm_compute; reflexivity. Qed.

(** [make_structure] turns a negative budget into 0, which asks for no
    limit: the integration then ends when it has converged only.  On the
    pixel with the perfect metal the estimate is minus infinity and the
    error, a difference of two such estimates, is a NaN that no tolerance
    admits: 200 halvings do not end the loop, while the same call on the
    dielectrics converges after three. *)
Example meaneps_unlimited :
  meaneps_double perfect_metal_data 0 = Fail OutOfFuel /\
  meaneps_double (diel 4) 0 = Ok (2, 0.6875, vec2 0 0).
Proof. split; vm_compute; reflexivity. Qed.
End CubatureDoubles.
