(* ===== verification/MaterialFunction.v ===== *)
(** * MaterialFunction: the interface that geom_epsilon implements

    [class geom_epsilon : public meep::material_function] (lines 80-109 of
    src/libctl/structure.cpp) overrides the virtual methods of meep's
    material functions.  The solver knows the object through these methods
    only: it restricts the material function to the volume of a chunk,
    asks at the points and for the pixels of the chunk, and lifts the
    restriction.

    [material_function] is the table of the methods over a type of states;
    a [question] is a call of one of the six methods that read the object,
    and [ask] makes the call.  [MaterialFunctionLaws] is what the solver
    relies on; [chunks_pass] is the solver's pass over its chunks, and
    [pass_calls] the calls of [set_volume] and [unset_volume] the pass
    makes, which is what the constructor of [meep::structure] and its
    [add_polarizability] do to the object that [make_structure] hands them.
    The theorem of the client ([chunks_pass_whole]) is proved from the laws;
    [geom_epsilon_methods] is the table of [geom_epsilon], and
    [geom_epsilon_laws] discharges the laws for it. *)

From stdpp Require Import gmap.
From Stdlib Require Import ZArith QArith Bool String List Lia Lqa Floats.
From S2P Require Import Prelude Number Vector3 Material Geometry BoxTree FrontObject Epsilon MeanEps Refinement.
Import ListNotations.

Local Open Scope result_scope.

Section Interface.
Context {D : Type} {N : Number D}.

(** The virtual methods, over the state [S] of the object.  The members
    [omega], [gamma], [deps] and [energy_sat] that [sigma] reads are its
    first four arguments. *)
Record material_function (S : Type) : Type := {
    mf_set_volume : geometric_volume D -> S -> result S;
    mf_unset_volume : S -> result S;
    mf_eps : S -> vec D -> result D;
    mf_has_chi3 : S -> bool;
    mf_chi3 : S -> vec D -> result D;
    mf_has_chi2 : S -> bool;
    mf_chi2 : S -> vec D -> result D;
    mf_normal_vector : S -> geometric_volume D -> result (vec D);
    mf_meaneps : S -> geometric_volume D -> D -> Z -> result (D * D * vec D);
    mf_sigma : D -> D -> D -> D -> S -> vec D -> result D
  }.

Arguments mf_set_volume {S}.
Arguments mf_unset_volume {S}.
Arguments mf_eps {S}.
Arguments mf_chi3 {S}.
Arguments mf_chi2 {S}.
Arguments mf_normal_vector {S}.
Arguments mf_meaneps {S}.
Arguments mf_sigma {S}.

(** A call of one of the methods that read the object at a point or for a
    pixel, and what it returns. *)
Inductive question : Type :=
  | ask_eps (r : vec D)
  | ask_chi3 (r : vec D)
  | ask_chi2 (r : vec D)
  | ask_sigma (omega gamma deps energy_sat : D) (r : vec D)
  | ask_meaneps (gv : geometric_volume D) (tol : D) (maxeval : Z)
  | ask_normal_vector (gv : geometric_volume D).

Inductive answer : Type :=
  | number (x : D)
  | averages (meps minveps : D) (n : vec D)
  | normal (n : vec D).

Definition ask {S : Type} (mf : material_function S) (s : S) (q : question)
  : result answer :=
  match q with
  | ask_eps r => x <- mf_eps mf s r ;; Ok (number x)
  | ask_chi3 r => x <- mf_chi3 mf s r ;; Ok (number x)
  | ask_chi2 r => x <- mf_chi2 mf s r ;; Ok (number x)
  | ask_sigma omega gamma deps energy_sat r =>
      x <- mf_sigma mf omega gamma deps energy_sat s r ;; Ok (number x)
  | ask_meaneps gv tol maxeval =>
      m <- mf_meaneps mf s gv tol maxeval ;; Ok (averages m.1.1 m.1.2 m.2)
  | ask_normal_vector gv => n <- mf_normal_vector mf s gv ;; Ok (normal n)
  end.

(** What the solver relies on: in a valid state the two methods that change
    the state succeed; [unset_volume] undoes [set_volume]; and restricting
    an unrestricted object to a volume does not change the answer to a
    question that is [inside] the volume. *)
Class MaterialFunctionLaws {S : Type} (mf : material_function S)
      (valid unrestricted : S -> Prop)
      (inside : S -> geometric_volume D -> question -> Prop) : Prop := {
    set_volume_valid : forall gv s,
      valid s -> exists s', mf_set_volume mf gv s = Ok s' /\ valid s';
    unset_volume_set_volume : forall gv s s',
      valid s -> unrestricted s -> mf_set_volume mf gv s = Ok s' ->
      mf_unset_volume mf s' = Ok s;
    ask_restricted : forall gv s s' q,
      valid s -> unrestricted s -> mf_set_volume mf gv s = Ok s' ->
      inside s gv q -> ask mf s' q = ask mf s q
  }.

(** The questions of a list, in order, until one fails. *)
Fixpoint ask_all {S : Type} (mf : material_function S) (s : S)
         (questions : list question) : result (list answer) :=
  match questions with
  | [] => Ok []
  | q :: rest =>
      a <- ask mf s q ;;
      answers <- ask_all mf s rest ;;
      Ok (a :: answers)
  end.

Lemma ask_all_app {S : Type} (mf : material_function S) (s : S)
      (questions questions' : list question) :
  ask_all mf s (questions ++ questions') =
  (answers <- ask_all mf s questions ;;
   answers' <- ask_all mf s questions' ;; Ok (answers ++ answers')).
Proof.
  induction questions as [|q rest IH]; simpl.
  - now destruct (ask_all mf s questions').
  - destruct (ask mf s q); simpl; [|reflexivity]. rewrite IH.
    destruct (ask_all mf s rest); simpl; [|reflexivity].
    now destruct (ask_all mf s questions').
Qed.

(** The solver's pass over one chunk: its volume and the questions it asks
    there. *)
Definition chunk_pass {S : Type} (mf : material_function S)
           (chunk : geometric_volume D * list question) (s : S)
  : result (list answer * S) :=
  s <- mf_set_volume mf (fst chunk) s ;;
  answers <- ask_all mf s (snd chunk) ;;
  s <- mf_unset_volume mf s ;;
  Ok (answers, s).

(** The pass over all the chunks. *)
Fixpoint chunks_pass {S : Type} (mf : material_function S)
         (chunks : list (geometric_volume D * list question)) (s : S)
  : result (list answer * S) :=
  match chunks with
  | [] => Ok ([], s)
  | chunk :: rest =>
      r <- chunk_pass mf chunk s ;;
      r' <- chunks_pass mf rest (snd r) ;;
      Ok (fst r ++ fst r', snd r')
  end.

(** The calls of the pass that change the object. *)
Definition pass_calls (chunks : list (geometric_volume D * list question))
  : list (@method D) :=
  flat_map (fun chunk => [SetVolume (fst chunk); UnsetVolume]) chunks.

Section Client.
Context {S : Type} (mf : material_function S).
Context (valid unrestricted : S -> Prop).
Context (inside : S -> geometric_volume D -> question -> Prop).
Context {ML : MaterialFunctionLaws mf valid unrestricted inside}.

(** The questions of the chunk are inside its volume. *)
Definition chunk_inside (s : S) (chunk : geometric_volume D * list question) : Prop :=
  Forall (inside s (fst chunk)) (snd chunk).

Lemma ask_all_restricted (gv : geometric_volume D) (s s' : S)
      (questions : list question) :
  valid s -> unrestricted s -> mf_set_volume mf gv s = Ok s' ->
  chunk_inside s (gv, questions) ->
  ask_all mf s' questions = ask_all mf s questions.
Proof.
  intros Hv Hu Hs Hin. induction questions as [|q rest IH]; [reflexivity|].
  apply Forall_cons_iff in Hin as [Hq Hin]. simpl.
  now rewrite (ask_restricted gv s s' q Hv Hu Hs Hq), (IH Hin).
Qed.

Lemma chunk_pass_whole (s : S) (chunk : geometric_volume D * list question) :
  valid s -> unrestricted s -> chunk_inside s chunk ->
  chunk_pass mf chunk s = (answers <- ask_all mf s (snd chunk) ;; Ok (answers, s)).
Proof.
  destruct chunk as [gv questions]. intros Hv Hu Hin. unfold chunk_pass. simpl.
  destruct (set_volume_valid gv s Hv) as (s' & E & _). rewrite E. simpl.
  rewrite (ask_all_restricted gv s s' questions Hv Hu E Hin).
  destruct (ask_all mf s questions); simpl; [|reflexivity].
  now rewrite (unset_volume_set_volume gv s s' Hv Hu E).
Qed.

(** The pass over the chunks gets the answers the unrestricted object
    gives to the questions of all the chunks, and leaves the object as it
    found it. *)
Lemma chunks_pass_whole (s : S) (chunks : list (geometric_volume D * list question)) :
  valid s -> unrestricted s -> Forall (chunk_inside s) chunks ->
  chunks_pass mf chunks s =
  (answers <- ask_all mf s (flat_map snd chunks) ;; Ok (answers, s)).
Proof.
  intros Hv Hu Hin. induction chunks as [|chunk rest IH]; [reflexivity|].
  apply Forall_cons_iff in Hin as [Hc Hin]. cbn [chunks_pass flat_map].
  rewrite (chunk_pass_whole s chunk Hv Hu Hc), ask_all_app.
  destruct (ask_all mf s (snd chunk)); simpl; [|reflexivity].
  rewrite (IH Hin). now destruct (ask_all mf s (flat_map snd rest)).
Qed.
End Client.
End Interface.

Arguments mf_set_volume {D S}.
Arguments mf_unset_volume {D S}.
Arguments mf_eps {D S}.
Arguments question D : clear implicits.
Arguments answer D : clear implicits.

(** ** The methods of geom_epsilon *)

Section GeomEpsilon.
Context {D : Type} {N : Number D} {L : NumberLaws D}.
Context {O T : Type} {G : Geom D O T} {GL : GeomLaws G}.
Variable call_material_func : function -> vector3 D -> material_type D.
Variable fuel : nat.
Variable default_normal_vector : geometric_volume D -> vec D.
Variable adaptive_integration :
  (Z -> list D -> result D) -> list D -> list D -> Z -> D -> Z -> result D.
Context {LC : LocalCubature adaptive_integration}.

(** The table of the methods of an object of [class geom_epsilon], whose
    state is its members and the store of trees; [debug] is the build, [g]
    the globals and [u] the uninitialised variables of
    [get_front_object]. *)
Definition geom_epsilon_methods (debug : bool) (g : globals D) (u : uninit D O)
  : material_function (geom_epsilon O * gmap nat T) := {|
    mf_set_volume := fun gv s => set_volume g s.1 gv s.2;
    mf_unset_volume := fun s => unset_volume s.1 s.2;
    mf_eps := fun s r => eps call_material_func fuel debug g s.1 s.2 r;
    mf_has_chi3 := fun s => has_chi3 g s.1;
    mf_chi3 := fun s r => geom_epsilon_chi3 call_material_func fuel g s.1 s.2 r;
    mf_has_chi2 := fun s => has_chi2 g s.1;
    mf_chi2 := fun s r => geom_epsilon_chi2 call_material_func fuel g s.1 s.2 r;
    mf_normal_vector := fun s gv => normal_vector default_normal_vector g u s.1 s.2 gv;
    mf_meaneps := fun s gv tol maxeval =>
      meaneps call_material_func fuel default_normal_vector adaptive_integration
              debug g u s.1 s.2 gv tol maxeval;
    mf_sigma := fun omega0 gamma0 deps energy_sat s r =>
      geom_epsilon_sigma call_material_func fuel omega0 gamma0 deps energy_sat
                         g s.1 s.2 r
  |}.

(** The object is not restricted. *)
Definition unrestricted (s : geom_epsilon O * gmap nat T) : Prop :=
  restricted_tree s.1 = geometry_tree s.1.

(** The point is in the box of the tree the object queries and in the box
    of the volume [gv]. *)
Definition covers (s : geom_epsilon O * gmap nat T) (gv : geometric_volume D)
           (p : vector3 D) : Prop :=
  (exists t, s.2 !! restricted_tree s.1 = Some t /\ point_in_box p (tree_box t) = true) /\
  point_in_box p (gv2box gv) = true.

(** A question whose answer a restriction to [gv] leaves alone: the point
    of a point query, and the points at which the fallback of [meaneps]
    evaluates [eps], are covered.  The front object of a pixel is looked up
    in the tree of the constructor, which no restriction changes. *)
Definition inside (g : globals D) (s : geom_epsilon O * gmap nat T)
           (gv : geometric_volume D) (q : question D) : Prop :=
  match q with
  | ask_eps r | ask_chi3 r | ask_chi2 r | ask_sigma _ _ _ _ r =>
      covers s gv (vec_to_vector3 r)
  | ask_meaneps pixel _ _ => forall p, fallback_points g pixel p -> covers s gv p
  | ask_normal_vector _ => True
  end.

(** The two boxes of a restriction, from a covered point. *)
Lemma covers_boxes (per : bool) (geo : list O) (bx : geom_box D)
      (s : geom_epsilon O * gmap nat T) (gv : geometric_volume D) (p : vector3 D) :
  s.2 !! restricted_tree s.1 = Some (create_geom_box_tree0 per geo bx) ->
  covers s gv p -> point_in_box p bx = true /\ point_in_box p (gv2box gv) = true.
Proof.
  intros Ht [(t & Ht' & Hb) Hgv]. rewrite Ht in Ht'. injection Ht' as <-.
  now rewrite tree_box_create in Hb.
Qed.

(** [meaneps] of two objects with the same first tree, whose second trees
    are trees of the same objects for two boxes that contain the points of
    the fallback. *)
Lemma meaneps_restrict (debug : bool) (g : globals D) (u : uninit D O) (per : bool)
      (geo : list O) (this this' : geom_epsilon O) (h h' : gmap nat T)
      (bx bx' : geom_box D) (gv : geometric_volume D) (tol : D) (maxeval : Z) :
  h' !! geometry_tree this' = h !! geometry_tree this ->
  h !! restricted_tree this = Some (create_geom_box_tree0 per geo bx) ->
  h' !! restricted_tree this' = Some (create_geom_box_tree0 per geo bx') ->
  (forall p, fallback_points g gv p ->
             point_in_box p bx = true /\ point_in_box p bx' = true) ->
  meaneps call_material_func fuel default_normal_vector adaptive_integration
          debug g u this' h' gv tol maxeval =
  meaneps call_material_func fuel default_normal_vector adaptive_integration
          debug g u this h gv tol maxeval.
Proof.
  intros Hg Ht Ht' Hin. unfold meaneps, tree_at. rewrite Hg.
  rewrite (fallback_meaneps_ext G G call_material_func fuel adaptive_integration LC
             debug g this' this h' h gv tol maxeval); [reflexivity|].
  intros r Hr. destruct (Hin _ Hr) as [Hb Hb'].
  exact (eps_restrict call_material_func fuel debug g per geo this this' h h' bx bx' r
                      Ht Ht' Hb Hb').
Qed.

#[export] Instance geom_epsilon_laws (debug : bool) (g : globals D) (u : uninit D O)
       (h0 : gmap nat T) :
  MaterialFunctionLaws (geom_epsilon_methods debug g u)
                       (fun s => owned (ensure_periodicity g) h0 s.1 s.2)
                       unrestricted (inside g).
Proof.
  split; simpl.
  - intros gv [this h] Ho.
    destruct (set_volume_owned g _ _ _ gv Ho) as (t & h' & E & Ho' & _).
    exists (t, h'). auto.
  - intros gv [this h] s' Ho Hu E.
    pose proof (set_volume_unset_volume g h0 h this gv Ho Hu) as H.
    simpl in E. now rewrite E in H.
  - intros gv [this h] [this' h'] q Ho _ E Hq. simpl in Ho, E.
    destruct (set_volume_trees g this this' h0 h h' gv Ho E)
      as (bx0 & bx & Hg & Ht & Hg' & Ht').
    destruct q as [r|r|r|omega0 gamma0 deps energy_sat r|pixel tol maxeval|pixel];
      cbn [ask geom_epsilon_methods mf_eps mf_chi3 mf_chi2 mf_sigma mf_meaneps
           mf_normal_vector inside fst snd] in Hq |- *.
    1-4: destruct (covers_boxes _ _ _ (this, h) gv _ Ht Hq) as [Hb Hb'].
    + now rewrite (eps_restrict call_material_func fuel debug g _ _ this this' h h'
                                bx (gv2box gv) r Ht Ht' Hb Hb').
    + now rewrite (proj1 (chi_sigma_restrict call_material_func fuel g _ _ this this'
                            h h' bx (gv2box gv) r Ht Ht' Hb Hb')).
    + now rewrite (proj1 (proj2 (chi_sigma_restrict call_material_func fuel g _ _ this
                                   this' h h' bx (gv2box gv) r Ht Ht' Hb Hb'))).
    + now rewrite (proj2 (proj2 (chi_sigma_restrict call_material_func fuel g _ _ this
                                   this' h h' bx (gv2box gv) r Ht Ht' Hb Hb'))).
    + rewrite (meaneps_restrict debug g u _ _ this this' h h' bx (gv2box gv) pixel
                                tol maxeval Hg' Ht Ht'); [reflexivity|].
      intros p Hp. exact (covers_boxes _ _ _ (this, h) gv p Ht (Hq p Hp)).
    + unfold normal_vector, tree_at. now rewrite Hg'.
Qed.

(** The pass changes the object as its calls of [set_volume] and
    [unset_volume] do. *)
Lemma chunks_pass_calls (debug : bool) (g : globals D) (u : uninit D O)
      (chunks : list (geometric_volume D * list (question D)))
      (s : geom_epsilon O * gmap nat T)
      (r : list (answer D) * (geom_epsilon O * gmap nat T)) :
  chunks_pass (geom_epsilon_methods debug g u) chunks s = Ok r ->
  calls g (pass_calls chunks) s = Ok r.2.
Proof.
  revert s r. induction chunks as [|[gv questions] rest IH]; intros s r; simpl.
  - now intros [= <-].
  - unfold chunk_pass. simpl. destruct s as [this h]. simpl.
    destruct (set_volume g this gv h) as [s1|]; simpl; [|discriminate].
    destruct (ask_all _ s1 questions); simpl; [|discriminate].
    destruct s1 as [this1 h1]. simpl.
    destruct (unset_volume this1 h1) as [s2|]; simpl; [|discriminate].
    destruct (chunks_pass _ rest s2) as [r'|] eqn:E; simpl; [|discriminate].
    intros [= <-]. simpl. exact (IH s2 r' E).
Qed.

(** C18: the solver's pass over its chunks, each with [set_volume], its
    questions and [unset_volume], gets from a new object the answers the
    object gives without any restriction, in the same order and with the
    same failure if there is one, and it leaves the object and the store of
    trees as they were. *)
Theorem geom_epsilon_chunks (debug : bool) (g : globals D) (u : uninit D O)
        (geo : list O) (gv : geometric_volume D) (h0 : gmap nat T)
        (chunks : list (geometric_volume D * list (question D))) :
  Forall (chunk_inside (inside g) (geom_epsilon_ctor g geo gv h0)) chunks ->
  chunks_pass (geom_epsilon_methods debug g u) chunks (geom_epsilon_ctor g geo gv h0) =
  (answers <- ask_all (geom_epsilon_methods debug g u) (geom_epsilon_ctor g geo gv h0)
                      (flat_map snd chunks) ;;
   Ok (answers, geom_epsilon_ctor g geo gv h0)).
Proof.
  intros Hin. destruct (geom_epsilon_ctor_owned g geo gv h0) as [Ho _].
  apply (chunks_pass_whole _ _ _ _ (ML := geom_epsilon_laws debug g u h0));
    [exact Ho | reflexivity | exact Hin].
Qed.
End GeomEpsilon.


(** ** Two chunks over the four blocks *)

Section ChunksWitness.
Local Open Scope Q_scope.
#[local] Existing Instance LinQ.

(** The two halves of the cell.  In the right one the solver asks for the
    permittivity and the coefficients at a point of the last block, and
    for the averages and the normal of the pixel across its face. *)
Definition two_halves : list (geometric_volume Q * list (question Q)) :=
  [ (right_half, [ ask_eps (vec2 (7 # 4) 0); ask_chi3 (vec2 (7 # 4) 0);
                   ask_chi2 (vec2 (7 # 4) 0); ask_sigma 1 1 1 0 (vec2 (5 # 4) 0);
                   ask_meaneps across_blocks (1 # 8) 100;
                   ask_normal_vector across_blocks ]);
    (left_half, [ ask_eps (vec2 (-5 # 2) 0) ]) ].

Lemma covers_new (gv : geometric_volume Q) (p : vector3 Q) :
  geom_box_contains_point (gv2box cellQ) p = true ->
  geom_box_contains_point (gv2box gv) p = true ->
  covers (newQ LinQ) gv p.
Proof.
  intros Hc Hgv. rewrite <- point_in_box_contains in Hc, Hgv.
  split; [|exact Hgv]. eexists. split; [reflexivity | exact Hc].
Qed.

Lemma two_halves_inside :
  Forall (chunk_inside (inside (globalsQ 2 (dielQ 1))) (newQ LinQ)) two_halves.
Proof.
  unfold two_halves, chunk_inside.
  repeat first [apply Forall_cons | apply Forall_nil]; cbn [fst snd inside];
    try exact I; try (apply covers_new; reflexivity).
  intros p Hp. apply covers_new; revert Hp; now apply fallback_points_across_in.
Qed.

Lemma geom_epsilon_chunks_witness :
  chunks_pass (geom_epsilon_methods callQ 10 no_normalQ midpoint_integration true
                                    (globalsQ 2 (dielQ 1)) junkQ)
              two_halves (newQ LinQ) =
  (answers <- ask_all (geom_epsilon_methods callQ 10 no_normalQ midpoint_integration
                                            true (globalsQ 2 (dielQ 1)) junkQ)
                      (newQ LinQ) (flat_map snd two_halves) ;;
   Ok (answers, newQ LinQ)).
Proof.
  exact (geom_epsilon_chunks callQ 10 no_normalQ midpoint_integration true
           (globalsQ 2 (dielQ 1)) junkQ four_blocks cellQ ∅ two_halves
           two_halves_inside).
Defined.

Example chunks_pass_answers :
  (r <- chunks_pass (geom_epsilon_methods callQ 10 no_normalQ midpoint_integration true
                                          (globalsQ 2 (dielQ 1)) junkQ)
                    two_halves (newQ LinQ) ;;
   Ok (fst r)) =
  Ok [ number 5; number 0; number 0; number 0;
       averages (18 # 4) (90 # 400) (vec2 (-1) 0); normal (vec2 (-1) 0); number 2 ].
Proof. vm_compute. reflexivity. Qed.
End ChunksWitness.
