(* ===== verification/Pool.v ===== *)
(** * Pool: several objects of class geom_epsilon in one store of trees

    The solver may hold several material objects at a time, one for each
    partition it owns, and call their methods in any order.  Each object
    allocates and frees its trees in the one store of libctl.  This file
    models a pool of objects and a schedule of method calls on them
    ([step], [steps]), after section 5 of the specification, and shows that
    the objects do not interfere:

    - no schedule makes a method fail, and destroying the objects
      afterwards leaves the store as it was before they were constructed;
    - what an object answers after a schedule is what it answers after its
      own calls of the schedule, made on it alone.

    The invariant [pool_owned] lists the objects in layers, each owning its
    trees on top of the store of the ones before it; [holds_swap] exchanges
    two layers, so that any object can be taken as the one on top
    ([pool_owned_focus]) and the lemmas of Epsilon.v about one object
    apply to it with the others as its frame. *)

From stdpp Require Import gmap.
From Stdlib Require Import ZArith QArith Bool String List Lia.
From S2P Require Import Prelude Number Vector3 Material Geometry FrontObject Epsilon MeanEps Refinement.
Import ListNotations.

Local Open Scope result_scope.

Section Objects.
Context {D : Type} {N : Number D} {O T : Type} {G : Geom D O T}.

(** A call of a method on the object number [ev_obj]. *)
Record event : Type := { ev_obj : nat; ev_call : @method D }.

Definition pool_at (i : nat) (objs : list (geom_epsilon O)) : result (geom_epsilon O) :=
  match objs !! i with
  | Some this => Ok this
  | None => Fail (Undefined "no such object")
  end.

Definition step (g : globals D) (e : event) (s : list (geom_epsilon O) * gmap nat T)
  : result (list (geom_epsilon O) * gmap nat T) :=
  this <- pool_at (ev_obj e) s.1 ;;
  r <- call g (ev_call e) (this, s.2) ;;
  Ok (<[ev_obj e := r.1]> s.1, r.2).

Fixpoint steps (g : globals D) (es : list event) (s : list (geom_epsilon O) * gmap nat T)
  : result (list (geom_epsilon O) * gmap nat T) :=
  match es with
  | [] => Ok s
  | e :: es => s <- step g e s ;; steps g es s
  end.

(** The objects are constructed one after the other. *)
Fixpoint ctors (g : globals D) (news : list (list O * geometric_volume D))
         (h : gmap nat T) : list (geom_epsilon O) * gmap nat T :=
  match news with
  | [] => ([], h)
  | n :: news =>
      let s := geom_epsilon_ctor g n.1 n.2 h in
      let r := ctors g news s.2 in
      (s.1 :: r.1, r.2)
  end.

Fixpoint dtors (objs : list (geom_epsilon O)) (h : gmap nat T) : result (gmap nat T) :=
  match objs with
  | [] => Ok h
  | this :: objs => h <- geom_epsilon_dtor this h ;; dtors objs h
  end.

(** The calls of a schedule that are made on the object [i]. *)
Definition project (i : nat) (es : list event) : list (@method D) :=
  map ev_call (List.filter (fun e => ev_obj e =? i)%nat es).

Definition valid_schedule (n : nat) (es : list event) : bool :=
  forallb (fun e => ev_obj e <? n)%nat es.

(** *** The invariant *)

Record region : Type := {
  r_geometry : list O;
  r_box : geom_box D;
  r_restricted : geom_box D
}.

Definition holds (per : bool) (h0 : gmap nat T) (this : geom_epsilon O) (reg : region)
           (h : gmap nat T) : Prop :=
  owned per h0 this h /\ geometry this = r_geometry reg /\
  trees_of per (this, h) (r_box reg) (r_restricted reg).

Inductive pool_owned (per : bool)
  : gmap nat T -> list (geom_epsilon O) -> list region -> gmap nat T -> Prop :=
  | pool_nil h0 : pool_owned per h0 [] [] h0
  | pool_cons h0 this reg h1 objs regs h :
      holds per h0 this reg h1 -> pool_owned per h1 objs regs h ->
      pool_owned per h0 (this :: objs) (reg :: regs) h.

Definition region_step (e : event) (regs : list region) : list region :=
  match regs !! ev_obj e with
  | Some reg =>
      <[ev_obj e := {| r_geometry := r_geometry reg; r_box := r_box reg;
                       r_restricted := region_after (ev_call e) (r_box reg)
                                                    (r_restricted reg) |}]> regs
  | None => regs
  end.

Fixpoint region_steps (es : list event) (regs : list region) : list region :=
  match es with
  | [] => regs
  | e :: es => region_steps es (region_step e regs)
  end.

Lemma holds_swap {per h0 h1 h A B ra rb} :
  holds per h0 A ra h1 -> holds per h1 B rb h ->
  exists h1', holds per h0 B rb h1' /\ holds per h1' A ra h.
Proof.
  intros (HoA & HgA & HtA) (HoB & HgB & HtB). unfold holds, trees_of in *.
  destruct HoA as [geo a bx Ha | geo a b bx bx' Ha Hb Hab];
    destruct HoB as [geo' c cx Hc | geo' c d cx cx' Hc Hd Hcd]; simpl in *.
  all: repeat match goal with
         | H : <[_ := _]> _ !! _ = None |- _ => apply lookup_insert_None in H as [? ?]
         end.
  - exists (<[c := create_geom_box_tree0 per geo' cx]> h0).
    rewrite (insert_insert_ne _ c a) by auto.
    repeat split; try (constructor; simplify_map_eq; auto); simplify_map_eq; intuition auto.
  - exists (<[d := create_geom_box_tree0 per geo' cx']> (<[c := create_geom_box_tree0 per geo' cx]> h0)).
    rewrite (insert_insert_ne _ c a), (insert_insert_ne _ d a) by auto.
    repeat split; try (constructor; simplify_map_eq; auto); simplify_map_eq; intuition auto.
  - exists (<[c := create_geom_box_tree0 per geo' cx]> h0).
    rewrite (insert_insert_ne _ c b), (insert_insert_ne _ c a) by auto.
    repeat split; try (constructor; simplify_map_eq; auto); simplify_map_eq; intuition auto.
  - exists (<[d := create_geom_box_tree0 per geo' cx']> (<[c := create_geom_box_tree0 per geo' cx]> h0)).
    rewrite (insert_insert_ne _ c b), (insert_insert_ne _ c a),
            (insert_insert_ne _ d b), (insert_insert_ne _ d a) by auto.
    repeat split; try (constructor; simplify_map_eq; auto); simplify_map_eq; intuition auto.
Qed.

Lemma pool_owned_top {per h0 h1 h A ra objs regs} :
  holds per h0 A ra h1 -> pool_owned per h1 objs regs h ->
  exists h1', pool_owned per h0 objs regs h1' /\ holds per h1' A ra h.
Proof.
  intros HA Hp. revert h0 HA.
  induction Hp as [h1|h1 this reg h2 objs regs h Hh Hp IH]; intros h0 HA.
  - exists h0. split; [constructor | exact HA].
  - destruct (holds_swap HA Hh) as (h1' & Hh' & HA').
    destruct (IH _ HA') as (h1'' & Hp' & HA'').
    exists h1''. split; [econstructor; eauto | exact HA''].
Qed.

Lemma pool_owned_bottom {per h0 h1 h A ra objs regs} :
  pool_owned per h0 objs regs h1 -> holds per h1 A ra h ->
  exists h1', holds per h0 A ra h1' /\ pool_owned per h1' objs regs h.
Proof.
  intros Hp. revert h.
  induction Hp as [h0|h0 this reg h2 objs regs h1 Hh Hp IH]; intros h HA.
  - exists h. split; [exact HA | constructor].
  - destruct (IH _ HA) as (h1' & HA' & Hp').
    destruct (holds_swap Hh HA') as (h1'' & HA'' & Hh').
    exists h1''. split; [exact HA'' | econstructor; eauto].
Qed.

Lemma pool_owned_length {per h0 objs regs h} :
  pool_owned per h0 objs regs h -> length objs = length regs.
Proof. induction 1; simpl; congruence. Qed.

(** Any object of the pool can be taken as the one allocated last: the
    others are its frame. *)
Lemma pool_owned_focus {per h0 objs regs h i this} :
  pool_owned per h0 objs regs h -> objs !! i = Some this ->
  exists h1 reg,
    regs !! i = Some reg /\ holds per h1 this reg h /\
    forall this' reg' h',
      holds per h1 this' reg' h' ->
      pool_owned per h0 (<[i := this']> objs) (<[i := reg']> regs) h'.
Proof.
  intros Hp. revert i.
  induction Hp as [h0|h0 that reg h2 objs regs h Hh Hp IH]; intros i Hi; [discriminate|].
  destruct i as [|i]; simpl in Hi.
  - injection Hi as ->.
    destruct (pool_owned_top Hh Hp) as (h1 & Hp' & Hh').
    exists h1, reg. split; [reflexivity|]. split; [exact Hh'|]. intros this' reg' h' H'.
    destruct (pool_owned_bottom Hp' H') as (h1' & H'' & Hp''). econstructor; eauto.
  - destruct (IH i Hi) as (h1 & reg' & Hr & Hh' & K).
    exists h1, reg'. split; [exact Hr|]. split; [exact Hh'|]. intros this' reg'' h' H'.
    simpl. econstructor; eauto.
Qed.

Lemma call_holds (g : globals D) {h0 this reg h} (m : method) :
  holds (ensure_periodicity g) h0 this reg h ->
  exists s', call g m (this, h) = Ok s' /\
    holds (ensure_periodicity g) h0 s'.1
          {| r_geometry := r_geometry reg; r_box := r_box reg;
             r_restricted := region_after m (r_box reg) (r_restricted reg) |} s'.2.
Proof.
  intros (Ho & Hg & Ht).
  destruct (call_trees g h0 m (this, h) _ _ Ho Ht) as (s' & E & Ho' & Hg' & Ht').
  exists s'. split; [exact E|]. split; [exact Ho'|]. split; [|exact Ht'].
  simpl in *. congruence.
Qed.

Lemma step_owned (g : globals D) {h0 objs regs h} e :
  pool_owned (ensure_periodicity g) h0 objs regs h ->
  (ev_obj e < length objs)%nat ->
  exists s', step g e (objs, h) = Ok s' /\
    pool_owned (ensure_periodicity g) h0 s'.1 (region_step e regs) s'.2.
Proof.
  intros Hp Hi. apply lookup_lt_is_Some_2 in Hi as [this Hi].
  destruct (pool_owned_focus Hp Hi) as (h1 & reg & Hr & Hh & K).
  destruct (call_holds g (ev_call e) Hh) as (s' & E & Hh').
  unfold step, pool_at, region_step. simpl. rewrite Hi, Hr. simpl. rewrite E. simpl.
  eexists. split; [reflexivity|]. simpl. apply K, Hh'.
Qed.

Lemma region_step_length e regs : length (region_step e regs) = length regs.
Proof. unfold region_step. destruct (regs !! ev_obj e); [apply length_insert|reflexivity]. Qed.

Lemma steps_owned (g : globals D) {h0} es {objs regs h} :
  pool_owned (ensure_periodicity g) h0 objs regs h ->
  valid_schedule (length objs) es = true ->
  exists s', steps g es (objs, h) = Ok s' /\
    pool_owned (ensure_periodicity g) h0 s'.1 (region_steps es regs) s'.2.
Proof.
  revert objs regs h. induction es as [|e es IH]; intros objs regs h Hp Hv; simpl in *.
  - eauto.
  - apply andb_prop in Hv as [He Hv]. apply Nat.ltb_lt in He.
    destruct (step_owned g e Hp He) as ([objs' h'] & -> & Hp'). simpl in *.
    apply (IH _ _ _ Hp').
    now rewrite (pool_owned_length Hp'), region_step_length, <- (pool_owned_length Hp).
Qed.

Lemma region_steps_lookup es regs i :
  region_steps es regs !! i =
  (fun reg => {| r_geometry := r_geometry reg; r_box := r_box reg;
                 r_restricted := region_of (project i es) (r_box reg) (r_restricted reg) |})
    <$> regs !! i.
Proof.
  revert regs. induction es as [|e es IH]; intros regs; simpl.
  - now destruct (regs !! i) as [[]|].
  - rewrite IH. unfold region_step, project. simpl.
    destruct (Nat.eqb_spec (ev_obj e) i) as [->|Hne]; simpl.
    + destruct (regs !! i) as [reg|] eqn:E; rewrite ?E; [|reflexivity].
      now rewrite list_lookup_insert_eq by (eapply lookup_lt_Some, E).
    + destruct (regs !! ev_obj e); [|reflexivity].
      now rewrite list_lookup_insert_ne.
Qed.

Lemma dtors_owned per h0 objs regs h :
  pool_owned per h0 objs regs h -> dtors objs h = Ok h0.
Proof.
  revert regs h. induction objs as [|this objs IH]; intros regs h Hp;
    inversion Hp as [|? ? reg h1 ? regs' ? Hh Hp']; subst; simpl; [reflexivity|].
  destruct (pool_owned_top Hh Hp') as (h1' & Hp'' & (Ho & _)).
  rewrite (geom_epsilon_dtor_owned _ _ _ _ Ho). simpl. eapply IH, Hp''.
Qed.

Definition region_new (n : list O * geometric_volume D) : region :=
  {| r_geometry := geom_fix_objects0 n.1; r_box := gv2box n.2; r_restricted := gv2box n.2 |}.

Lemma ctors_owned (g : globals D) news h0 :
  pool_owned (ensure_periodicity g) h0 (ctors g news h0).1 (map region_new news)
             (ctors g news h0).2.
Proof.
  revert h0. induction news as [|n news IH]; intros h0; simpl; [constructor|].
  econstructor; [|apply IH].
  destruct (geom_epsilon_ctor_owned g n.1 n.2 h0) as [Ho Hg].
  split; [exact Ho|]. split; [exact Hg|]. apply ctor_trees.
Qed.

Lemma ctors_length (g : globals D) news h0 : length (ctors g news h0).1 = length news.
Proof. now rewrite (pool_owned_length (ctors_owned g news h0)), length_map. Qed.

(** The state of the object [i] after a schedule: its trees are those of
    its own calls, in the order in which the schedule makes them. *)
Lemma steps_region (g : globals D) news h0 es i geo gv :
  valid_schedule (length news) es = true -> news !! i = Some (geo, gv) ->
  exists s this h1,
    steps g es (ctors g news h0) = Ok s /\ s.1 !! i = Some this /\
    holds (ensure_periodicity g) h1 this
          {| r_geometry := geom_fix_objects0 geo; r_box := gv2box gv;
             r_restricted := region_of (project i es) (gv2box gv) (gv2box gv) |} s.2.
Proof.
  intros Hv Hn. rewrite <- (ctors_length g news h0) in Hv.
  pose proof (ctors_owned g news h0) as Hp.
  destruct (ctors g news h0) as [objs h]. simpl in *.
  destruct (steps_owned g es Hp Hv) as (s & E & Hp').
  assert (Hr : region_steps es (map region_new news) !! i =
               Some {| r_geometry := geom_fix_objects0 geo; r_box := gv2box gv;
                       r_restricted := region_of (project i es) (gv2box gv) (gv2box gv) |}).
  { now rewrite region_steps_lookup, list_lookup_fmap, Hn. }
  destruct (lookup_lt_is_Some_2 s.1 i) as [this Hi].
  { rewrite (pool_owned_length Hp'). eapply lookup_lt_Some, Hr. }
  destruct (pool_owned_focus Hp' Hi) as (h1 & reg & Hr' & Hh & _).
  rewrite Hr in Hr'. injection Hr' as <-. exists s, this, h1. auto.
Qed.

(** C19: objects that are constructed in one store, called in any order
    and then destroyed never fail (no tree is freed twice or read after it
    is freed), and the store is afterwards what it was before: the objects
    leak no tree and free none of another object. *)
Theorem pool_lifecycle (g : globals D) news h0 es :
  valid_schedule (length news) es = true ->
  (s <- steps g es (ctors g news h0) ;; dtors s.1 s.2) = Ok h0.
Proof.
  intros Hv. rewrite <- (ctors_length g news h0) in Hv.
  pose proof (ctors_owned g news h0) as Hp.
  destruct (ctors g news h0) as [objs h]. simpl in *.
  destruct (steps_owned g es Hp Hv) as (s' & -> & Hp').
  simpl. eapply dtors_owned, Hp'.
Qed.
End Objects.

Arguments event D : clear implicits.

(** ** The queries of an object among others *)

Section Interleaving.
Context {D : Type} {N : Number D} {L : NumberLaws D}.
Context {O T : Type} {G : Geom D O T} {GL : GeomLaws G}.
Variable call_material_func : function -> vector3 D -> material_type D.
Variable fuel : nat.
Variable default_normal_vector : geometric_volume D -> vec D.
Variable adaptive_integration :
  (Z -> list D -> result D) -> list D -> list D -> Z -> D -> Z -> result D.
Context {LC : LocalCubature adaptive_integration}.

Lemma same_shapes_refl : same_shapes G G.
Proof. split; reflexivity. Qed.

(** [eps] of an object after a schedule is [eps] of an object that received
    the calls of the schedule that were made on it, alone in any store. *)
Theorem eps_interleaved (debug : bool) (g : globals D) news h0 h es i geo gv r :
  valid_schedule (length news) es = true -> news !! i = Some (geo, gv) ->
  (s <- steps g es (ctors g news h0) ;; this <- pool_at i s.1 ;;
   eps call_material_func fuel debug g this s.2 r) =
  (s <- calls g (project i es) (geom_epsilon_ctor g geo gv h) ;;
   eps call_material_func fuel debug g s.1 s.2 r).
Proof.
  intros Hv Hn.
  destruct (steps_region g news h0 es i geo gv Hv Hn) as (s & this & h1 & -> & Hi & _ & Hg & _ & Hr).
  destruct (calls_ctor g geo gv h (project i es)) as (s' & -> & Hr' & _).
  unfold pool_at. simpl in *. rewrite Hi. simpl. unfold eps, tree_at. rewrite Hr, Hr', Hg. reflexivity.
Qed.

(** C20: [meaneps] of an object after a schedule of calls on several
    objects is [meaneps] of an object that received its own calls of the
    schedule, alone in any store: the calls on the other objects do not
    change what the object answers. *)
Theorem meaneps_interleaved (debug : bool) (g : globals D) (u : uninit D O)
        news h0 h es i geo gv (pixel : geometric_volume D) (tol : D) (maxeval : Z) :
  valid_schedule (length news) es = true -> news !! i = Some (geo, gv) ->
  (s <- steps g es (ctors g news h0) ;; this <- pool_at i s.1 ;;
   meaneps call_material_func fuel default_normal_vector adaptive_integration
           debug g u this s.2 pixel tol maxeval) =
  (s <- calls g (project i es) (geom_epsilon_ctor g geo gv h) ;;
   meaneps call_material_func fuel default_normal_vector adaptive_integration
           debug g u s.1 s.2 pixel tol maxeval).
Proof.
  intros Hv Hn.
  destruct (steps_region g news h0 es i geo gv Hv Hn)
    as (s & this & h1 & -> & Hi & _ & Hg & Hgt & Hr).
  destruct (calls_ctor g geo gv h (project i es)) as (s' & -> & Hr' & Hgt').
  unfold pool_at. cbn [bind fst snd] in *. rewrite Hi. cbn [bind]. rewrite Hg in Hgt, Hr.
  apply (meaneps_same G G same_shapes_refl _ _ _ _ g _ _ _ _ pixel _ _ _ _ Hgt Hgt' Hr Hr');
    [reflexivity | apply Forall_forall | ]; intros; reflexivity.
Qed.
End Interleaving.

(** ** Two objects, called in turn *)

Section PoolWitness.
Local Open Scope Q_scope.

Definition two_objects : list (list (geometric_object Q) * geometric_volume Q) :=
  [ (four_blocks, cellQ); ([block (dielQ 7) (rect 1 2 (-1) 1)], right_half) ].

Definition in_turn : list (event Q) :=
  [ {| ev_obj := 0; ev_call := SetVolume right_half |};
    {| ev_obj := 1; ev_call := SetVolume cellQ |};
    {| ev_obj := 0; ev_call := UnsetVolume |};
    {| ev_obj := 1; ev_call := UnsetVolume |};
    {| ev_obj := 1; ev_call := SetVolume right_half |};
    {| ev_obj := 0; ev_call := SetVolume right_half |} ].

Lemma pool_lifecycle_witness :
  (s <- steps (G := LinQ) (globalsQ 2 (dielQ 1)) in_turn
              (ctors (G := LinQ) (globalsQ 2 (dielQ 1)) two_objects ∅) ;;
   dtors s.1 s.2) = Ok ∅.
Proof.
  apply (pool_lifecycle (G := LinQ) (globalsQ 2 (dielQ 1)) two_objects ∅ in_turn).
  reflexivity.
Defined.

Lemma meaneps_interleaved_witness :
  (s <- steps (G := LinQ) (globalsQ 2 (dielQ 1)) in_turn
              (ctors (G := LinQ) (globalsQ 2 (dielQ 1)) two_objects ∅) ;;
   this <- pool_at 0 s.1 ;;
   meaneps (G := LinQ) callQ 10 no_normalQ midpoint_integration true
           (globalsQ 2 (dielQ 1)) junkQ this s.2 across_blocks (1 # 8) 100) =
  (s <- calls (G := LinQ) (globalsQ 2 (dielQ 1))
              [SetVolume right_half; UnsetVolume; SetVolume right_half]
              (geom_epsilon_ctor (G := LinQ) (globalsQ 2 (dielQ 1)) four_blocks cellQ ∅) ;;
   meaneps (G := LinQ) callQ 10 no_normalQ midpoint_integration true
           (globalsQ 2 (dielQ 1)) junkQ s.1 s.2 across_blocks (1 # 8) 100).
Proof.
  apply (meaneps_interleaved (G := LinQ) callQ 10 no_normalQ midpoint_integration true
           (globalsQ 2 (dielQ 1)) junkQ two_objects ∅ ∅ in_turn 0 four_blocks cellQ
           across_blocks (1 # 8) 100%Z); reflexivity.
Defined.

(** The two objects answer differently at the same pixel, each as if it
    were alone. *)
Example two_objects_values :
  (s <- steps (G := LinQ) (globalsQ 2 (dielQ 1)) in_turn
              (ctors (G := LinQ) (globalsQ 2 (dielQ 1)) two_objects ∅) ;;
   a <- pool_at 0 s.1 ;; b <- pool_at 1 s.1 ;;
   ea <- eps (G := LinQ) callQ 10 true (globalsQ 2 (dielQ 1)) a s.2 (vec2 (7 # 4) 0) ;;
   eb <- eps (G := LinQ) callQ 10 true (globalsQ 2 (dielQ 1)) b s.2 (vec2 (7 # 4) 0) ;;
   Ok (ea, eb)) = Ok (5, 7).
Proof. vm_compute. reflexivity. Qed.
End PoolWitness.
