(* ===== verification/Structure.v ===== *)
(** * Structure: make_structure

    Models [make_structure] (lines 686-816 of src/libctl/structure.cpp): the
    clamping of the cell size, [set_dimensions], the choice of the volume,
    the symmetries, the PML boundary regions, the construction of the
    [geom_epsilon] object, of the [meep::structure] and the registration of
    the polarizabilities.

    The classes of meep are seen through what the function hands to them: a
    volume is the constructor call that made it with the origin it was
    shifted to, a symmetry and a boundary region are the lists of the terms
    added, and the structure is the record of the arguments of its
    constructor with the polarizabilities registered afterwards.  The
    constructor of [meep::structure] and its method [add_polarizability]
    receive the local object [geps] by reference and call its methods;
    which calls they make are the parameters [structure_calls] and
    [polarizability_calls], and [make_structure] runs them on [geps], the
    second once for every registered polarizability, before the object is
    destroyed when the function returns. *)

From stdpp Require Import gmap.
From Stdlib Require Import ZArith Bool String List Lia Floats.
From S2P Require Import Prelude Number Vector3 Material Geometry Polarizability Epsilon.
Import ListNotations.

Local Open Scope result_scope.

(** meep's [enum direction { X=0, Y, Z, R, P, NO_DIRECTION }] and
    [enum boundary_side { High=0, Low }], as the integers the casts of the
    source produce. *)
Definition X : Z := 0.
Definition Y : Z := 1.
Definition Z_direction : Z := 2.
Definition R : Z := 3.
Definition High : Z := 0.
Definition Low : Z := 1.

(** [LOOP_OVER_DIRECTIONS(dim, d)]: from [start_at_direction(dim)] up to
    [stop_at_direction(dim)]. *)
Definition directions_of (d : ndim) : list Z :=
  match d with
  | D1 => [Z_direction]
  | D2 => [X; Y]
  | D3 => [X; Y; Z_direction]
  | Dcyl => [Z_direction; R]
  end.

(** [FOR_SIDES(b)]. *)
Definition sides : list Z := [High; Low].

Section Structure.
Context {D : Type} {N : Number D} {O T : Type} {G : Geom D O T}.
Local Open Scope num_scope.

(** The constructor calls [vol1d], [vol2d], [vol3d] and [volcyl]. *)
Inductive volume_shape : Type :=
  | vol1d (zsize a : D)
  | vol2d (xsize ysize a : D)
  | vol3d (xsize ysize zsize a : D)
  | volcyl (rsize zsize a : D).

(** A volume after [center_origin] and [shift_origin]. *)
Record volume : Type := {
  shape : volume_shape;
  origin_shift : vec D
}.

Definition volume_dim (v : volume_shape) : ndim :=
  match v with
  | vol1d _ _ => D1
  | vol2d _ _ _ => D2
  | vol3d _ _ _ _ => D3
  | volcyl _ _ _ => Dcyl
  end.

(** The classes [symmetry] and [pml] of the control file. *)
Inductive symmetry_tag : Type :=
  | SYMMETRY_SELF | MIRROR_SYM | ROTATE2_SYM | ROTATE4_SYM.

Record symmetry : Type := {
  sym_which_subclass : symmetry_tag;
  sym_direction : Z;
  sym_phase : D * D
}.

Record pml : Type := {
  pml_direction : Z;
  pml_side : Z;
  pml_thickness : D;
  pml_strength : D
}.

(** A term of a [meep::symmetry]: [mirror], [rotate2] or [rotate4] of a
    direction, times a phase. *)
Record symmetry_term : Type := {
  st_kind : symmetry_tag;
  st_direction : Z;
  st_phase : D * D
}.

(** A term of a [meep::boundary_region]: a PML of a thickness and a
    strength on one side of one direction. *)
Record boundary_term : Type := {
  br_thickness : D;
  br_strength : D;
  br_direction : Z;
  br_side : Z
}.

(** The loop over the symmetries: [S = S + ...] for every symmetry that is
    not the identity. *)
Fixpoint make_symmetry (symmetries : list symmetry) (S : list symmetry_term)
  : list symmetry_term :=
  match symmetries with
  | [] => S
  | s :: rest =>
      match sym_which_subclass s with
      | SYMMETRY_SELF => make_symmetry rest S
      | k => make_symmetry rest
               (S ++ [{| st_kind := k; st_direction := sym_direction s;
                         st_phase := sym_phase s |}])
      end
  end.

(** The regions one layer adds for the direction [d]. *)
Definition layer_sides (l : pml) (d : Z) : list boundary_term :=
  let region b := {| br_thickness := pml_thickness l; br_strength := pml_strength l;
                     br_direction := d; br_side := b |} in
  if (pml_side l =? -1)%Z then map region sides else [region (pml_side l)].

(** The body of the loop over the layers. *)
Definition layer_regions (dim : ndim) (l : pml) : list boundary_term :=
  if (pml_direction l =? -1)%Z
  then flat_map (layer_sides l) (directions_of dim)
  else layer_sides l (pml_direction l).

Fixpoint make_boundary (dim : ndim) (pml_layers : list pml) (br : list boundary_term)
  : list boundary_term :=
  match pml_layers with
  | [] => br
  | l :: rest => make_boundary dim rest (br ++ layer_regions dim l)
  end.

(** The [switch (dims)] that makes the volume. *)
Definition make_volume (dims : Z) (size : vector3 D) (resolution : D)
  : result volume_shape :=
  if (dims =? 0)%Z || (dims =? 1)%Z then Ok (vol1d (vz size) resolution)
  else if (dims =? 2)%Z then Ok (vol2d (vx size) (vy size) resolution)
  else if (dims =? 3)%Z then Ok (vol3d (vx size) (vy size) (vz size) resolution)
  else if (dims =? CYLINDRICAL)%Z then Ok (volcyl (vx size) (vz size) resolution)
  else Fail (Aborted "unsupported dimensionality").

(** The three [if]s that set a size of at most [no_size] to zero. *)
Definition clamp_size (no_size : D) (size : vector3 D) : vector3 D :=
  V3 (if vx size <=? no_size then n_zero else vx size)
     (if vy size <=? no_size then n_zero else vy size)
     (if vz size <=? no_size then n_zero else vz size).

(** The arguments of the constructor of [meep::structure], and the
    polarizabilities registered with it. *)
Record structure : Type := {
  s_volume : volume;
  s_geometry : list O;
  s_boundary : list boundary_term;
  s_symmetry : list symmetry_term;
  s_num_chunks : Z;
  s_Courant : D;
  s_enable_averaging : bool;
  s_subpixel_tol : D;
  s_subpixel_maxeval : Z;
  s_polarizabilities : list (D * D * D * D)
}.

(** The globals of libctl the function writes besides those of [globals]. *)
Record lattice_globals : Type := {
  geometry_center : vector3 D;
  geometry_lattice_size : vector3 D
}.

(** [v.pad().surroundings()], a routine of meep. *)
Variable surroundings : volume -> geometric_volume D.

(** The calls of [set_volume] and [unset_volume] that the constructor of
    [meep::structure] makes on the material function it is given, for a
    volume and a number of chunks. *)
Variable structure_calls : volume -> Z -> list (@method D).

(** [s->add_polarizability] receives the material object [*this] by
    reference as well: the calls of [set_volume] and [unset_volume] it
    makes on it for one polarizability. *)
Variable polarizability_calls : volume -> Z -> D * D * D * D -> list (@method D).

(** The second loop of [geom_epsilon::add_polarizabilities] seen from the
    object: for every entry of the list, in the order of the list, the calls
    [added] that [s->add_polarizability] makes on [*this]. *)
Fixpoint register_calls (g : globals D) (added : D * D * D * D -> list (@method D))
         (pols : list (D * D * D * D)) (geps : geom_epsilon O * gmap nat T)
  : result (geom_epsilon O * gmap nat T) :=
  match pols with
  | [] => Ok geps
  | p :: rest => geps <- calls g (added p) geps ;; register_calls g added rest geps
  end.

(** [make_structure]; [infinity] is the value of the Scheme variable of that
    name.  The constructor of [meep::structure] and [add_polarizability]
    receive [geps] by reference and use it through its methods.  The result
    is the structure, the globals and the store of trees on return. *)
Definition make_structure (infinity : D) (dims : Z) (size center : vector3 D)
           (resolution : D) (enable_averaging : bool) (subpixel_tol : D)
           (subpixel_maxeval : Z) (ensure_periodicity_p : bool)
           (geometry : list O) (default_mat : material_type D)
           (pml_layers : list pml) (symmetries : list symmetry)
           (num_chunks : Z) (Courant : D) (h : gmap nat T)
  : result (structure * globals D * lattice_globals * gmap nat T) :=
  let no_size := (n_one + n_one) / infinity in
  let size := clamp_size no_size size in
  let dg := set_dimensions dims in
  let lg := {| geometry_center := center; geometry_lattice_size := size |} in
  sh <- make_volume dims size resolution ;;
  c <- vector3_to_vec (dim dg) center ;;
  let v := {| shape := sh; origin_shift := c |} in
  let S := make_symmetry symmetries [] in
  let br := make_boundary (volume_dim sh) pml_layers [] in
  let g := {| g_dim := dg; default_material := default_mat;
              ensure_periodicity := ensure_periodicity_p |} in
  let geps := geom_epsilon_ctor g geometry (surroundings v) h in
  let subpixel_maxeval := if (subpixel_maxeval <? 0)%Z then 0%Z else subpixel_maxeval in
  geps <- calls g (structure_calls v num_chunks) geps ;;
  let pols := add_polarizabilities (Epsilon.geometry geps.1) (default_material g) in
  geps <- register_calls g (polarizability_calls v num_chunks) pols geps ;;
  let '(geps, h) := geps in
  let s := {| s_volume := v; s_geometry := Epsilon.geometry geps; s_boundary := br;
              s_symmetry := S; s_num_chunks := num_chunks; s_Courant := Courant;
              s_enable_averaging := enable_averaging; s_subpixel_tol := subpixel_tol;
              s_subpixel_maxeval := subpixel_maxeval;
              s_polarizabilities := pols |} in
  h <- geom_epsilon_dtor geps h ;;
  Ok (s, g, lg, h).
End Structure.

Arguments volume_shape D : clear implicits.
Arguments volume D : clear implicits.
Arguments symmetry D : clear implicits.
Arguments pml D : clear implicits.
Arguments symmetry_term D : clear implicits.
Arguments boundary_term D : clear implicits.
Arguments structure D O : clear implicits.
Arguments lattice_globals D : clear implicits.


(** ** Properties *)

Section StructureFacts.
Context {D : Type} {N : Number D} {O T : Type} {G : Geom D O T} {GL : GeomLaws G}.
Variable surroundings : volume D -> geometric_volume D.
Variable structure_calls : volume D -> Z -> list (@method D).
Variable polarizability_calls : volume D -> Z -> D * D * D * D -> list (@method D).

(** The loop over the registered polarizabilities makes the calls of all
    of them, one list after the other. *)
Lemma register_calls_flat_map (g : globals D)
      (added : D * D * D * D -> list (@method D)) (pols : list (D * D * D * D))
      (geps : geom_epsilon O * gmap nat T) :
  register_calls g added pols geps = calls g (flat_map added pols) geps.
Proof.
  revert geps. induction pols as [|p rest IH]; intros geps; simpl; [reflexivity|].
  rewrite calls_app. destruct (calls g (added p) geps); simpl; [apply IH | reflexivity].
Qed.

(** The local object [geps] from its construction to the end of its scope:
    the calls [ms] of the constructor of the structure succeed, then those
    of the registration of [pols], and the destructor gives the store
    back. *)
Lemma geps_scope (g : globals D) (geo : list O) (gv : geometric_volume D)
      (h : gmap nat T) (ms : list (@method D))
      (added : D * D * D * D -> list (@method D)) (pols : list (D * D * D * D)) :
  exists s1 s2,
    calls g ms (geom_epsilon_ctor g geo gv h) = Ok s1 /\
    Epsilon.geometry s1.1 = geom_fix_objects0 geo /\
    register_calls g added pols s1 = Ok s2 /\
    geom_epsilon_dtor s2.1 s2.2 = Ok h /\
    Epsilon.geometry s2.1 = geom_fix_objects0 geo.
Proof.
  destruct (geom_epsilon_scope g geo gv h ms) as (s1 & E1 & _ & Eg1).
  destruct (geom_epsilon_scope g geo gv h (ms ++ flat_map added pols))
    as (s2 & E2 & Ed & Eg2).
  rewrite calls_app, E1 in E2. simpl in E2.
  exists s1, s2. rewrite register_calls_flat_map. auto.
Qed.

(** Runs the construction, the use and the destruction of the local object
    [geps] in the goal, over the store [h]. *)
Ltac run_geps h :=
  match goal with
  | |- context [calls ?g ?ms (geom_epsilon_ctor ?g ?geo ?gv h)] =>
      let s := fresh "s" in
      let s' := fresh "s" in
      let E := fresh "E" in
      let Er := fresh "Er" in
      let Ed := fresh "Ed" in
      let Eg := fresh "Eg" in
      let Eg' := fresh "Eg" in
      destruct (geom_epsilon_scope g geo gv h ms) as (s & E & _ & Eg);
      rewrite E; cbn [bind]; rewrite Eg;
      match goal with
      | |- context [register_calls g ?added ?pols s] =>
          destruct (geps_scope g geo gv h ms added pols)
            as (? & s' & E' & _ & Er & Ed & Eg');
          rewrite E in E'; injection E' as <-;
          rewrite Er; destruct s'; cbn [fst snd bind] in Ed, Eg' |- *;
          rewrite Ed, ?Eg'; simpl
      end
  end.

(** The dimensionalities the function supports. *)
Definition supported (dims : Z) : Prop :=
  dims = 1%Z \/ dims = 2%Z \/ dims = 3%Z \/ dims = CYLINDRICAL.

Lemma make_volume_supported (dims : Z) (size : vector3 D) (resolution : D) :
  supported dims ->
  exists sh d, make_volume dims size resolution = Ok sh /\
               dim (set_dimensions dims) = Some d.
Proof.
  intros [-> | [-> | [-> | ->]]]; simpl; eauto.
Qed.

(** The term a symmetry of the control file adds. *)
Definition symmetry_term_of (s : symmetry D) : symmetry_term D :=
  {| st_kind := sym_which_subclass s; st_direction := sym_direction s;
     st_phase := sym_phase s |}.

Definition proper_symmetry (s : symmetry D) : bool :=
  match sym_which_subclass s with SYMMETRY_SELF => false | _ => true end.

(** The loop over the symmetries adds one term for every symmetry that is
    not the identity, in the order of the list. *)
Lemma make_symmetry_filter (symmetries : list (symmetry D)) (S : list (symmetry_term D)) :
  make_symmetry symmetries S =
  S ++ map symmetry_term_of (filter proper_symmetry symmetries).
Proof.
  revert S. induction symmetries as [|s rest IH]; intros S; simpl.
  - now rewrite app_nil_r.
  - unfold proper_symmetry, symmetry_term_of.
    destruct (sym_which_subclass s) eqn:E; simpl; rewrite IH, ?E, <- ?app_assoc;
      reflexivity.
Qed.

(** A size that is not clamped to zero is larger than [no_size] (or not a
    number). *)
Lemma clamp_size_cases (no_size : D) (size : vector3 D) :
  let c := clamp_size no_size size in
  (vx c = n_zero \/ vx c = vx size /\ (vx size <=? no_size)%num = false) /\
  (vy c = n_zero \/ vy c = vy size /\ (vy size <=? no_size)%num = false) /\
  (vz c = n_zero \/ vz c = vz size /\ (vz size <=? no_size)%num = false).
Proof.
  unfold clamp_size. simpl.
  destruct (vx size <=? no_size)%num, (vy size <=? no_size)%num,
    (vz size <=? no_size)%num; auto.
Qed.

(** The volume made for a supported dimensionality has the dimensionality
    that [set_dimensions] leaves in the static [dim]. *)
Lemma make_volume_dim (dims : Z) (size : vector3 D) (resolution : D)
      (sh : volume_shape D) :
  supported dims -> make_volume dims size resolution = Ok sh ->
  dim (set_dimensions dims) = Some (volume_dim sh).
Proof.
  intros [-> | [-> | [-> | ->]]]; simpl; intros [= <-]; reflexivity.
Qed.

(** The loop over the layers adds the regions of each layer in turn. *)
Lemma make_boundary_flat_map (d : ndim) (pml_layers : list (pml D))
      (br : list (boundary_term D)) :
  make_boundary d pml_layers br = br ++ flat_map (layer_regions d) pml_layers.
Proof.
  revert br. induction pml_layers as [|l rest IH]; intros br; simpl.
  - now rewrite app_nil_r.
  - now rewrite IH, app_assoc.
Qed.

Lemma layer_sides_In (l : pml D) (d : Z) (t : boundary_term D) :
  In t (layer_sides l d) <->
  br_thickness t = pml_thickness l /\ br_strength t = pml_strength l /\
  br_direction t = d /\
  (if (pml_side l =? -1)%Z then br_side t = High \/ br_side t = Low
   else br_side t = pml_side l).
Proof.
  unfold layer_sides. destruct t as [th st di si].
  destruct (pml_side l =? -1)%Z; simpl; intuition congruence.
Qed.

(** The boundary regions made are exactly these: for every layer, for
    the direction the layer names or else every direction of the volume,
    for the side it names or else both sides, one PML of the thickness and
    the strength of the layer. *)
Theorem make_boundary_In (dim : ndim) (pml_layers : list (pml D)) (t : boundary_term D) :
  In t (make_boundary dim pml_layers []) <->
  exists l, In l pml_layers /\
    br_thickness t = pml_thickness l /\ br_strength t = pml_strength l /\
    (if (pml_direction l =? -1)%Z then In (br_direction t) (directions_of dim)
     else br_direction t = pml_direction l) /\
    (if (pml_side l =? -1)%Z then br_side t = High \/ br_side t = Low
     else br_side t = pml_side l).
Proof.
  rewrite make_boundary_flat_map. simpl. rewrite in_flat_map.
  split; intros (l & Hl & H); exists l; (split; [exact Hl|]); revert H;
    unfold layer_regions; destruct (pml_direction l =? -1)%Z.
  - rewrite in_flat_map. intros (d & Hd & H%layer_sides_In).
    destruct H as (? & ? & <- & ?). auto.
  - intros H%layer_sides_In. tauto.
  - intros (? & ? & Hd & ?). rewrite in_flat_map. exists (br_direction t).
    split; [exact Hd|]. apply layer_sides_In. auto.
  - intros (? & ? & Hd & ?). apply layer_sides_In. auto.
Qed.

(** For a supported dimensionality nothing in [make_structure] fails. *)
Lemma make_structure_ok (infinity : D) (dims : Z) (size center : vector3 D)
      (resolution : D) (enable_averaging : bool) (subpixel_tol : D)
      (subpixel_maxeval : Z) (ensure_periodicity_p : bool)
      (geometry : list O) (default_mat : material_type D)
      (pml_layers : list (pml D)) (symmetries : list (symmetry D))
      (num_chunks : Z) (Courant : D) (h : gmap nat T) :
  supported dims ->
  exists r,
    make_structure surroundings structure_calls polarizability_calls infinity dims size center resolution
                   enable_averaging subpixel_tol subpixel_maxeval
                   ensure_periodicity_p geometry default_mat pml_layers symmetries
                   num_chunks Courant h = Ok r.
Proof.
  intros Hs. unfold make_structure.
  destruct Hs as [-> | [-> | [-> | ->]]];
    with_strategy opaque [geom_epsilon_ctor geom_epsilon_dtor] simpl; run_geps h; eauto.
Qed.


(** C26: for a supported dimensionality [make_structure] returns; on return
    the globals are set from its arguments, the store of trees is what it
    was on entry (the trees of the local object [geps] are released), the
    polarizabilities registered are those of the objects and of the default
    material, the structure got a limit of evaluations that is not
    negative, a volume of the dimensionality of the static [dim], one
    symmetry term for every symmetry that is not the identity and the
    boundary regions of the layers. *)
Theorem make_structure_returns (infinity : D) (dims : Z) (size center : vector3 D)
        (resolution : D) (enable_averaging : bool) (subpixel_tol : D)
        (subpixel_maxeval : Z) (ensure_periodicity_p : bool)
        (geometry : list O) (default_mat : material_type D)
        (pml_layers : list (pml D)) (symmetries : list (symmetry D))
        (num_chunks : Z) (Courant : D) (h : gmap nat T) :
  supported dims ->
  exists s lg,
    make_structure surroundings structure_calls polarizability_calls infinity dims size center resolution
                   enable_averaging subpixel_tol subpixel_maxeval
                   ensure_periodicity_p geometry default_mat pml_layers symmetries
                   num_chunks Courant h
    = Ok (s, {| g_dim := set_dimensions dims; default_material := default_mat;
                ensure_periodicity := ensure_periodicity_p |}, lg, h) /\
    s_geometry s = geom_fix_objects0 geometry /\
    s_polarizabilities s = add_polarizabilities geometry default_mat /\
    (0 <= s_subpixel_maxeval s)%Z /\
    dim (set_dimensions dims) = Some (volume_dim (shape (s_volume s))) /\
    s_symmetry s = map symmetry_term_of (filter proper_symmetry symmetries) /\
    s_boundary s = flat_map (layer_regions (volume_dim (shape (s_volume s)))) pml_layers.
Proof.
  intros Hs. unfold make_structure.
  destruct Hs as [-> | [-> | [-> | ->]]];
    with_strategy opaque [geom_epsilon_ctor geom_epsilon_dtor] simpl; run_geps h;
    (eexists _, _; split; [reflexivity|]); simpl;
    rewrite ?Eg, ?add_polarizabilities_fix, make_symmetry_filter, make_boundary_flat_map;
    repeat split; destruct (Z.ltb_spec subpixel_maxeval 0); lia.
Qed.

(** C37: [make_structure] returns exactly for the dimensionalities 1, 2, 3
    and CYLINDRICAL. *)
Theorem make_structure_supported (infinity : D) (dims : Z) (size center : vector3 D)
        (resolution : D) (enable_averaging : bool) (subpixel_tol : D)
        (subpixel_maxeval : Z) (ensure_periodicity_p : bool)
        (geometry : list O) (default_mat : material_type D)
        (pml_layers : list (pml D)) (symmetries : list (symmetry D))
        (num_chunks : Z) (Courant : D) (h : gmap nat T) :
  is_ok (make_structure surroundings structure_calls polarizability_calls infinity dims size center resolution
                        enable_averaging subpixel_tol subpixel_maxeval
                        ensure_periodicity_p geometry default_mat pml_layers
                        symmetries num_chunks Courant h) = true
  <-> supported dims.
Proof.
  split.
  - unfold make_structure, make_volume, supported.
    destruct (Z.eqb_spec dims 0) as [->|H0]; [discriminate|].
    destruct (Z.eqb_spec dims 1); [auto|].
    destruct (Z.eqb_spec dims 2); [auto|].
    destruct (Z.eqb_spec dims 3); [auto|].
    destruct (Z.eqb_spec dims CYLINDRICAL); [auto | discriminate].
  - intros Hs.
    destruct (make_structure_ok infinity dims size center resolution enable_averaging
                subpixel_tol subpixel_maxeval ensure_periodicity_p geometry
                default_mat pml_layers symmetries num_chunks Courant h Hs) as (r & ->).
    reflexivity.
Qed.

(** The [switch] accepts 0 dimensions and makes a one-dimensional
    volume, but [set_dimensions 0] leaves [dim] outside the enumeration, and
    the conversion of the centre aborts. *)
Theorem make_structure_zero_dimensions (infinity : D) (size center : vector3 D)
        (resolution : D) (enable_averaging : bool) (subpixel_tol : D)
        (subpixel_maxeval : Z) (ensure_periodicity_p : bool)
        (geometry : list O) (default_mat : material_type D)
        (pml_layers : list (pml D)) (symmetries : list (symmetry D))
        (num_chunks : Z) (Courant : D) (h : gmap nat T) :
  make_structure surroundings structure_calls polarizability_calls infinity 0 size center resolution
                 enable_averaging subpixel_tol subpixel_maxeval
                 ensure_periodicity_p geometry default_mat pml_layers symmetries
                 num_chunks Courant h
  = Fail (Aborted "unknown dimensionality in vector3_to_vec").
Proof. reflexivity. Qed.
End StructureFacts.

(** ** A concrete call *)

Section StructureWitness.
Import Slabs.
Local Open Scope float_scope.

(** A layer of PML on all sides of all directions. *)
Definition all_around : pml float :=
  {| pml_direction := -1; pml_side := -1; pml_thickness := 1; pml_strength := 1 |}.

Definition no_pad (v : volume float) : geometric_volume float := pixel2 (-4) 4 (-4) 4.

(** A constructor that visits two chunks, the two halves of the cell, and
    restricts the material function to each in turn. *)
Definition two_chunks (v : volume float) (num_chunks : Z) : list (@method float) :=
  [ SetVolume (pixel2 (-4) 0 (-4) 4); UnsetVolume;
    SetVolume (pixel2 0 4 (-4) 4); UnsetVolume ].

(** A registration that restricts the material function to the whole cell
    to read [sigma] and leaves it restricted: the destructor of the local
    object releases the tree. *)
Definition whole_cell (v : volume float) (num_chunks : Z)
           (p : float * float * float * float) : list (@method float) :=
  [ SetVolume (pixel2 (-4) 4 (-4) 4) ].

Lemma make_structure_returns_witness :
  exists s lg,
    make_structure no_pad two_chunks whole_cell 1e20 2 (V3 8 8 0) (V3 0 0 0) 10 true
                   0.125 (-1) false
                   [slab (medium [lorentz 1 0.125 2]) 0 1] (diel 1) [all_around] [] 1 0.5 ∅
    = Ok (s, {| g_dim := set_dimensions 2; default_material := diel 1;
                ensure_periodicity := false |}, lg, ∅) /\
    s_geometry s = [slab (medium [lorentz 1 0.125 2]) 0 1] /\
    s_polarizabilities s =
      add_polarizabilities [slab (medium [lorentz 1 0.125 2]) 0 1] (diel 1) /\
    (0 <= s_subpixel_maxeval s)%Z /\
    dim (set_dimensions 2) = Some (volume_dim (shape (s_volume s))) /\
    s_symmetry s = [] /\
    s_boundary s = flat_map (layer_regions (volume_dim (shape (s_volume s)))) [all_around].
Proof.
  refine (make_structure_returns no_pad two_chunks whole_cell 1e20 2 (V3 8 8 0) (V3 0 0 0)
            10 true 0.125 (-1) false [slab (medium [lorentz 1 0.125 2]) 0 1] (diel 1)
            [all_around] [] 1 0.5 ∅ _).
  right. left. reflexivity.
Defined.

(** A layer of PML without direction and side gives four boundary
    regions in two dimensions, both sides of x and of y, in this order. *)
Example make_boundary_all_around :
  map (fun t => (br_direction t, br_side t)) (make_boundary D2 [all_around] []) =
  [ (X, High); (X, Low); (Y, High); (Y, Low) ].
Proof. reflexivity. Qed.
End StructureWitness.
