(* ===== verification/Output.v ===== *)
(** * Output: make_structure as it runs

    The constructor of [geom_epsilon] (lines 116-127 and 132-141 of
    src/libctl/structure.cpp), [add_polarizabilities] (672) and
    [make_structure] (696, 714, 813) print.  The other files model what
    these functions compute; this file models them as they run: with what
    they print, as the list of the items printed, in order, with the store
    of trees, and with the heap in which [add_polarizabilities] builds,
    follows and deletes its list (PolList.v).  An item is a call of a
    printing routine with its arguments: the text that [printf] makes of a
    number is not modelled.  [master_printf] prints on the master process
    only, and the constructor tests [meep::am_master()] itself, so a process
    that is not the master prints nothing; [verbose] is the flag of libctl.

    A function that prints and may abort returns the items printed and a
    [result]: what was printed before an abort stays printed.  The theorems
    show that leaving out the output and the heap gives the functions of
    the other files, that the heap is on return what it was on entry, and
    what the transcript of [make_structure] is: the heading and the
    dimensionality, then, unless the dimensionality makes it abort, the
    objects in the order of the list, each dielectric followed by its
    permittivity, the polarizabilities in the order of their registration,
    and the closing rule.  What the constructor of [meep::structure] prints
    in between is not part of it. *)

From stdpp Require Import gmap.
From Stdlib Require Import ZArith Bool String List Lia Floats.
From S2P Require Import Prelude Number Vector3 Material Geometry Polarizability PolList Epsilon Structure.
Import ListNotations.

(** ** Printing and aborting *)

Section Printed.
Context {E : Type}.

(** The items printed and the result. *)
Definition printed (A : Type) : Type := (list E * result A)%type.

Definition pbind {A B : Type} (c : printed A) (k : A -> printed B) : printed B :=
  match c with
  | (out, Ok a) => let '(out', r) := k a in (out ++ out', r)
  | (out, Fail e) => (out, Fail e)
  end.

Definition print (items : list E) : printed unit := (items, Ok tt).

(** A step that prints nothing. *)
Definition silent {A : Type} (c : result A) : printed A := ([], c).

Lemma pbind_silent {A B : Type} (c : result A) (k : A -> printed B) :
  pbind (silent c) k = match c with Ok a => k a | Fail e => ([], Fail e) end.
Proof. destruct c as [a|e]; simpl; [|reflexivity]. now destruct (k a). Qed.

Lemma pbind_print {B : Type} (items : list E) (k : unit -> printed B) :
  pbind (print items) k = (items ++ (k tt).1, (k tt).2).
Proof. simpl. now destruct (k tt). Qed.
End Printed.

Declare Scope printed_scope.
Delimit Scope printed_scope with printed.

Notation "x <- c ;; k" := (pbind c (fun x => k))
  (at level 62, c at next level, right associativity) : printed_scope.
Notation "c ;;; k" := (pbind c (fun _ => k))
  (at level 62, right associativity) : printed_scope.

Section Transcript.
Context {D : Type} {N : Number D} {O T : Type} {G : Geom D O T}.
Local Open Scope printed_scope.

(** The calls that print. *)
Inductive output : Type :=
  | display_geometric_object_info (indentby : Z) (o : O)
  | printf_epsilon (width : Z) (epsilon : D)
  | printf_tree_heading
  | display_geom_box_tree (indentby : Z) (t : T)
  | printf_tree_stats (tree_depth tree_nobjects num_items : Z)
  | printf_polarizability (omega gamma deps esat : D)
  | printf_initializing
  | printf_working_in (name : string)
  | printf_rule.

(** [meep::am_master()] and libctl's [verbose]. *)
Variable am_master : bool.
Variable verbose : bool.

(** libctl's [geom_box_tree_stats]: the depth and the number of object
    nodes of a tree. *)
Variable geom_box_tree_stats : T -> Z * Z.

(** [meep::dimension_name]. *)
Variable dimension_name : option ndim -> string.

(** [master_printf]. *)
Definition master_printf (items : list output) : printed unit :=
  print (if am_master then items else []).

(** The loop of the constructor over the objects. *)
Fixpoint display_objects (geometry : list O) : list output :=
  match geometry with
  | [] => []
  | o :: rest =>
      display_geometric_object_info 5 o ::
      match material o with
      | dielectric_data d => printf_epsilon (5 + 5) (epsilon d) :: display_objects rest
      | _ => display_objects rest
      end
  end.

(** The three lines about the tree, under [verbose]. *)
Definition display_tree (t : T) (num_items : Z) : list output :=
  let '(tree_depth, tree_nobjects) := geom_box_tree_stats t in
  [ printf_tree_heading; display_geom_box_tree 5 t;
    printf_tree_stats tree_depth tree_nobjects num_items ].

(** The constructor with what it prints. *)
Definition geom_epsilon_ctor_printed (g : globals D) (geometry : list O)
           (gv : geometric_volume D) (h : gmap nat T)
  : printed (geom_epsilon O * gmap nat T) :=
  print (if am_master then display_objects geometry else []) ;;;
  let geps := geom_epsilon_ctor g geometry gv h in
  let geometry := geom_fix_objects0 geometry in
  print (if verbose && am_master
         then display_tree (create_geom_box_tree0 (ensure_periodicity g) geometry
                                                  (gv2box gv))
                           (Z.of_nat (length geometry))
         else []) ;;;
  silent (Ok geps).

(** The loop of [add_polarizabilities] that prints and registers: for every
    entry one line, and then the calls [added] that [s->add_polarizability]
    makes on the object. *)
Fixpoint register_printed (g : globals D) (added : D * D * D * D -> list (@method D))
         (pols : list (D * D * D * D)) (geps : geom_epsilon O * gmap nat T)
  : printed (geom_epsilon O * gmap nat T) :=
  match pols with
  | [] => silent (Ok geps)
  | p :: rest =>
      master_printf [printf_polarizability p.1.1.1 p.1.1.2 p.1.2 p.2] ;;;
      geps <- silent (calls g (added p) geps) ;;
      register_printed g added rest geps
  end.

(** The same loop as the source runs it, over the nodes of the list in
    the heap [hp]: [for (struct pol *p = pols; p; p = p->next)].  It
    returns the tuples registered and the object. *)
Fixpoint register_nodes (fuel : nat) (g : globals D)
         (added : D * D * D * D -> list (@method D)) (hp : gmap nat pol_node)
         (p : option nat) (geps : geom_epsilon O * gmap nat T)
  : printed (list (D * D * D * D) * (geom_epsilon O * gmap nat T)) :=
  match p with
  | None => silent (Ok ([], geps))
  | Some a =>
      match fuel with
      | 0%nat => silent (Fail OutOfFuel)
      | S fuel' =>
          node <- silent (node_at a hp) ;;
          let q := pol_tuple (node_pol node) in
          master_printf [printf_polarizability q.1.1.1 q.1.1.2 q.1.2 q.2] ;;;
          geps <- silent (calls g (added q) geps) ;;
          r <- register_nodes fuel' g added hp (next node) geps ;;
          silent (Ok (q :: r.1, r.2))
      end
  end.

(** [add_polarizabilities] as it runs: it builds the list in the heap,
    prints and registers its entries, and deletes its nodes.  The result is
    the list registered, the object after the calls of the registration,
    and the heap. *)
Definition add_polarizabilities_printed (fuel : nat) (g : globals D)
           (added : D * D * D * D -> list (@method D))
           (geps : geom_epsilon O * gmap nat T) (hp : gmap nat pol_node)
  : printed (list (D * D * D * D) * (geom_epsilon O * gmap nat T) * gmap nat pol_node) :=
  pols <- silent (collect_pols_heap fuel (map material (Epsilon.geometry geps.1))
                                    (default_material g) hp) ;;
  r <- register_nodes fuel g added pols.2 pols.1 geps ;;
  hp <- silent (delete_pols fuel pols.1 pols.2) ;;
  silent (Ok (r, hp)).

(** [v.pad().surroundings()] and the calls of the constructor of
    [meep::structure] and of [add_polarizability], as in Structure.v. *)
Variable surroundings : volume D -> geometric_volume D.
Variable structure_calls : volume D -> Z -> list (@method D).
Variable polarizability_calls : volume D -> Z -> D * D * D * D -> list (@method D).

(** [make_structure] as it runs, with what it prints, the store of trees
    [h] and the heap [hp] of the nodes; [fuel] bounds the loops that follow
    the pointers of the list. *)
Definition make_structure_printed (fuel : nat) (infinity : D) (dims : Z)
           (size center : vector3 D)
           (resolution : D) (enable_averaging : bool) (subpixel_tol : D)
           (subpixel_maxeval : Z) (ensure_periodicity_p : bool)
           (geometry : list O) (default_mat : material_type D)
           (pml_layers : list (pml D)) (symmetries : list (symmetry D))
           (num_chunks : Z) (Courant : D) (h : gmap nat T) (hp : gmap nat pol_node)
  : printed (structure D O * globals D * lattice_globals D * gmap nat T *
             gmap nat pol_node) :=
  master_printf [printf_initializing] ;;;
  let no_size := ((n_one + n_one) / infinity)%num in
  let size := clamp_size no_size size in
  let dg := set_dimensions dims in
  let lg := {| geometry_center := center; geometry_lattice_size := size |} in
  master_printf [printf_working_in (dimension_name (dim dg))] ;;;
  sh <- silent (make_volume dims size resolution) ;;
  c <- silent (vector3_to_vec (dim dg) center) ;;
  let v := {| shape := sh; origin_shift := c |} in
  let S := make_symmetry symmetries [] in
  let br := make_boundary (volume_dim sh) pml_layers [] in
  let g := {| g_dim := dg; default_material := default_mat;
              ensure_periodicity := ensure_periodicity_p |} in
  geps <- geom_epsilon_ctor_printed g geometry (surroundings v) h ;;
  let subpixel_maxeval := if (subpixel_maxeval <? 0)%Z then 0%Z else subpixel_maxeval in
  geps <- silent (calls g (structure_calls v num_chunks) geps) ;;
  r <- add_polarizabilities_printed fuel g (polarizability_calls v num_chunks) geps hp ;;
  let geps := r.1.2 in
  let s := {| s_volume := v; s_geometry := Epsilon.geometry geps.1; s_boundary := br;
              s_symmetry := S; s_num_chunks := num_chunks; s_Courant := Courant;
              s_enable_averaging := enable_averaging; s_subpixel_tol := subpixel_tol;
              s_subpixel_maxeval := subpixel_maxeval;
              s_polarizabilities := r.1.1 |} in
  master_printf [printf_rule] ;;;
  h <- silent (geom_epsilon_dtor geps.1 geps.2) ;;
  silent (Ok (s, g, lg, h, r.2)).
End Transcript.

Arguments output D O T : clear implicits.

(** ** The transcript *)

Section TranscriptFacts.
Context {D : Type} {N : Number D} {O T : Type} {G : Geom D O T} {GL : GeomLaws G}.
Variable am_master : bool.
Variable verbose : bool.
Variable geom_box_tree_stats : T -> Z * Z.
Variable dimension_name : option ndim -> string.
Variable surroundings : volume D -> geometric_volume D.
Variable structure_calls : volume D -> Z -> list (@method D).
Variable polarizability_calls : volume D -> Z -> D * D * D * D -> list (@method D).

Lemma pbind_Ok {E A B : Type} (out : list E) (a : A) (k : A -> printed B) :
  pbind (out, Ok a) k = (out ++ (k a).1, (k a).2).
Proof. simpl. now destruct (k a). Qed.

(** The line of a registered polarizability. *)
Definition polarizability_line (p : D * D * D * D) : output D O T :=
  printf_polarizability p.1.1.1 p.1.1.2 p.1.2 p.2.

(** What the master process prints in [make_structure]: two lines, and,
    when the dimensionality lets the function go on, the objects, the tree
    under [verbose], the polarizabilities and the rule. *)
Definition transcript (infinity : D) (dims : Z) (size center : vector3 D)
           (resolution : D) (ensure_periodicity_p : bool) (geometry : list O)
           (default_mat : material_type D) : list (output D O T) :=
  [ printf_initializing; printf_working_in (dimension_name (dim (set_dimensions dims))) ] ++
  match make_volume dims (clamp_size ((n_one + n_one) / infinity)%num size) resolution,
        vector3_to_vec (dim (set_dimensions dims)) center with
  | Ok sh, Ok c =>
      display_objects geometry ++
      (if verbose
       then display_tree geom_box_tree_stats
              (create_geom_box_tree0 ensure_periodicity_p (geom_fix_objects0 geometry)
                 (gv2box (surroundings {| shape := sh; origin_shift := c |})))
              (Z.of_nat (length (geom_fix_objects0 geometry)))
       else []) ++
      map polarizability_line (add_polarizabilities geometry default_mat) ++
      [ printf_rule ]
  | _, _ => []
  end.

Lemma geom_epsilon_ctor_printed_value (g : globals D) (geometry : list O)
      (gv : geometric_volume D) (h : gmap nat T) :
  geom_epsilon_ctor_printed am_master verbose geom_box_tree_stats g geometry gv h =
  ((if am_master then display_objects geometry else []) ++
   (if verbose && am_master
    then display_tree geom_box_tree_stats
           (create_geom_box_tree0 (ensure_periodicity g) (geom_fix_objects0 geometry)
                                  (gv2box gv))
           (Z.of_nat (length (geom_fix_objects0 geometry)))
    else []),
   Ok (geom_epsilon_ctor g geometry gv h)).
Proof.
  unfold geom_epsilon_ctor_printed, print, silent. simpl. now rewrite app_nil_r.
Qed.

(** A registration that succeeds prints the line of every entry. *)
Lemma register_printed_Ok (g : globals D) (added : D * D * D * D -> list (@method D))
      (pols : list (D * D * D * D)) (s s' : geom_epsilon O * gmap nat T) :
  register_calls g added pols s = Ok s' ->
  register_printed am_master g added pols s =
  (if am_master then map polarizability_line pols else [], Ok s').
Proof.
  revert s. induction pols as [|p rest IH]; intros s;
    cbn [register_printed register_calls].
  - intros [= <-]. now destruct am_master.
  - destruct (calls g (added p) s) as [s1|e] eqn:E; cbn [bind]; [|discriminate].
    intros H. unfold master_printf, print, silent. rewrite !pbind_Ok.
    cbn [fst snd]. rewrite (IH s1 H). now destruct am_master.
Qed.

(** The loop over the nodes is the loop over the tuples that a traversal
    of the chain reads. *)
Lemma register_nodes_pols (fuel : nat) (g : globals D)
      (added : D * D * D * D -> list (@method D)) (hp : gmap nat pol_node)
      (p : option nat) (cs : list (D * D * D * D)) (s : geom_epsilon O * gmap nat T) :
  register_pols fuel hp p = Ok cs ->
  register_nodes am_master fuel g added hp p s =
  (s' <- register_printed am_master g added cs s ;; silent (Ok (cs, s')))%printed.
Proof.
  revert p cs s. induction fuel as [|fuel IH]; intros [a|] cs s; simpl;
    try discriminate; try (intros [= <-]; reflexivity).
  intros H. apply bind_Ok_inv in H as (node & Hn & H).
  apply bind_Ok_inv in H as (rest & Hr & [= <-]). rewrite Hn. simpl.
  destruct (calls g _ s) as [s1|e]; simpl; [|now destruct am_master].
  rewrite (IH _ _ s1 Hr).
  destruct (register_printed am_master g added rest s1) as [out [s2|e]]; simpl;
    destruct am_master; simpl; rewrite ?app_nil_r; reflexivity.
Qed.

(** [add_polarizabilities] as it runs prints the lines of the list of the
    model on lists, registers that list, and returns the heap it was
    given. *)
Lemma add_polarizabilities_printed_value (fuel : nat) (g : globals D)
      (added : D * D * D * D -> list (@method D))
      (s s' : geom_epsilon O * gmap nat T) (hp : gmap nat pol_node) :
  length (all_polarizabilities (map material (Epsilon.geometry s.1) ++
                                [default_material g])) <= fuel ->
  register_calls g added
                 (add_polarizabilities (Epsilon.geometry s.1) (default_material g)) s =
    Ok s' ->
  add_polarizabilities_printed am_master fuel g added s hp =
  (if am_master
   then map polarizability_line
            (add_polarizabilities (Epsilon.geometry s.1) (default_material g))
   else [],
   Ok (add_polarizabilities (Epsilon.geometry s.1) (default_material g), s', hp)).
Proof.
  intros Hf Er. unfold add_polarizabilities_printed.
  destruct (collect_pols_heap_list fuel _ _ hp Hf) as (r & -> & Hr & Hle).
  rewrite pbind_silent, (register_nodes_pols _ _ _ _ _ _ _ (register_pols_list _ _ _ _ _ Hr Hle)).
  change (map pol_tuple (collect_pols (map material (Epsilon.geometry s.1))
                                      (default_material g)))
    with (add_polarizabilities (Epsilon.geometry s.1) (default_material g)).
  rewrite (register_printed_Ok _ _ _ _ _ Er), (delete_pols_list _ _ _ _ _ Hr Hle).
  unfold silent. rewrite !pbind_Ok. simpl. now rewrite !app_nil_r.
Qed.

(** The constructor prints one item for every object, in the order of the
    list. *)
Lemma display_objects_info (geometry : list O) :
  filter (fun x => match x with display_geometric_object_info _ _ => true | _ => false end)
         (display_objects (T := T) geometry) =
  map (display_geometric_object_info 5) geometry.
Proof.
  induction geometry as [|o rest IH]; simpl; [reflexivity|].
  destruct (material o); simpl; now rewrite IH.
Qed.

(** C11: [make_structure] as it runs, with its output, the store of trees
    and the heap of the nodes of the list of polarizabilities, returns what
    [make_structure] returns and the heap it was given, all nodes deleted,
    and prints nothing on a process that is not the master and [transcript]
    on the master: the heading and the dimensionality before anything can
    abort, and after the abort of an unsupported dimensionality nothing
    more.  The fuel is the number of polarizabilities of the materials. *)
Theorem make_structure_transcript (fuel : nat) (infinity : D) (dims : Z)
        (size center : vector3 D)
        (resolution : D) (enable_averaging : bool) (subpixel_tol : D)
        (subpixel_maxeval : Z) (ensure_periodicity_p : bool)
        (geometry : list O) (default_mat : material_type D)
        (pml_layers : list (pml D)) (symmetries : list (symmetry D))
        (num_chunks : Z) (Courant : D) (h : gmap nat T) (hp : gmap nat pol_node) :
  length (all_polarizabilities (map material geometry ++ [default_mat])) <= fuel ->
  make_structure_printed am_master verbose geom_box_tree_stats dimension_name
    surroundings structure_calls polarizability_calls fuel infinity dims size center
    resolution enable_averaging subpixel_tol subpixel_maxeval ensure_periodicity_p
    geometry default_mat pml_layers symmetries num_chunks Courant h hp =
  (if am_master
   then transcript infinity dims size center resolution ensure_periodicity_p geometry
                   default_mat
   else [],
   r <- make_structure surroundings structure_calls polarizability_calls infinity dims
                       size center resolution enable_averaging subpixel_tol
                       subpixel_maxeval ensure_periodicity_p geometry default_mat
                       pml_layers symmetries num_chunks Courant h ;;
   Ok (r, hp))%result.
Proof.
  intros Hf. unfold make_structure_printed, make_structure, transcript, master_printf.
  rewrite !pbind_print. rewrite !pbind_silent.
  destruct (make_volume _ _ _) as [sh|e]; [|now destruct am_master].
  rewrite pbind_silent.
  destruct (vector3_to_vec _ _) as [c|e]; [|now destruct am_master].
  cbn [bind]. rewrite geom_epsilon_ctor_printed_value, pbind_Ok, pbind_silent.
  set (g := {| g_dim := set_dimensions dims; default_material := default_mat;
               ensure_periodicity := ensure_periodicity_p |}).
  destruct (geps_scope g geometry (surroundings {| shape := sh; origin_shift := c |}) h
              (structure_calls {| shape := sh; origin_shift := c |} num_chunks)
              (polarizability_calls {| shape := sh; origin_shift := c |} num_chunks)
              (add_polarizabilities (geom_fix_objects0 geometry) default_mat))
    as (s1 & [geps h'] & -> & Eg & Er & Ed & _).
  cbn [bind fst snd] in Ed |- *. rewrite <- Eg in Er.
  rewrite <- (fix_material geometry), <- Eg in Hf.
  rewrite (add_polarizabilities_printed_value fuel g _ s1 (geps, h') hp Hf Er).
  subst g. cbn [default_material] in Er |- *. rewrite Er.
  unfold print, silent. repeat (rewrite pbind_Ok; cbn [bind fst snd]).
  rewrite Ed, Eg, add_polarizabilities_fix. cbn [pbind bind fst snd ensure_periodicity].
  destruct am_master, verbose; simpl; rewrite ?app_nil_r, <- ?app_assoc; reflexivity.
Qed.
End TranscriptFacts.

(** ** Examples *)

Section OutputExamples.
Import Slabs.
Local Open Scope float_scope.
Local Open Scope string_scope.

(** A naming of the dimensionalities, and a tree without statistics. *)
Definition names (d : option ndim) : string :=
  match d with
  | Some D1 => "1"
  | Some D2 => "2"
  | Some D3 => "3"
  | Some Dcyl => "cylindrical"
  | None => "unknown"
  end.

Definition no_stats (t : geom_box_tree float) : Z * Z := (0%Z, 0%Z).

(** A slab of a medium with one polarizability, and a metal. *)
Definition printed_geometry : list (geometric_object float) :=
  [ slab (medium [lorentz 1 0.125 2]) 0 1; slab perfect_metal_data 2 3 ].

Example make_structure_printed_two :
  (make_structure_printed true false no_stats names no_pad two_chunks whole_cell 1 1e20 2
     (V3 8 8 0) (V3 0 0 0) 10 true 0.125 (-1) false printed_geometry (diel 1)
     [all_around] [] 1 0.5 ∅ ∅).1 =
  [ printf_initializing; printf_working_in "2";
    display_geometric_object_info 5 (slab (medium [lorentz 1 0.125 2]) 0 1);
    printf_epsilon 10 1;
    display_geometric_object_info 5 (slab perfect_metal_data 2 3);
    printf_polarizability 1 0.125 2 0;
    printf_rule ].
Proof. reflexivity. Qed.

Lemma make_structure_transcript_witness :
  make_structure_printed true false no_stats names no_pad two_chunks whole_cell 1 1e20 2
    (V3 8 8 0) (V3 0 0 0) 10 true 0.125 (-1) false printed_geometry (diel 1)
    [all_around] [] 1 0.5 ∅ ∅ =
  (transcript false no_stats names no_pad 1e20 2 (V3 8 8 0) (V3 0 0 0) 10 false
              printed_geometry (diel 1),
   r <- make_structure no_pad two_chunks whole_cell 1e20 2 (V3 8 8 0) (V3 0 0 0) 10 true
                       0.125 (-1) false printed_geometry (diel 1) [all_around] [] 1
                       0.5 ∅ ;;
   Ok (r, ∅))%result.
Proof.
  refine (make_structure_transcript true false no_stats names no_pad two_chunks whole_cell
            1 1e20 2 (V3 8 8 0) (V3 0 0 0) 10 true 0.125 (-1) false printed_geometry
            (diel 1) [all_around] [] 1 0.5 ∅ ∅ _).
  vm_compute. lia.
Defined.

(** With too little fuel for the chain the loop that prints stops: the
    line of the first node is the last thing printed. *)
Example make_structure_printed_fuel :
  make_structure_printed true false no_stats names no_pad two_chunks whole_cell 1 1e20 2
    (V3 8 8 0) (V3 0 0 0) 10 true 0.125 (-1) false
    [ slab (medium [lorentz 1 0.125 2; lorentz 2 0.25 1]) 0 1 ] (diel 1)
    [all_around] [] 1 0.5 ∅ ∅ =
  ([ printf_initializing; printf_working_in "2";
     display_geometric_object_info 5
       (slab (medium [lorentz 1 0.125 2; lorentz 2 0.25 1]) 0 1);
     printf_epsilon 10 1;
     printf_polarizability 2 0.25 1 0 ],
   Fail OutOfFuel).
Proof. reflexivity. Qed.

(** With four dimensions [set_dimensions] leaves [dim] at [Dcyl], the
    fourth value of the enumeration: the dimensionality announced is the
    cylindrical one, and then the function aborts. *)
Example make_structure_printed_four :
  make_structure_printed true false no_stats names no_pad two_chunks whole_cell 1 1e20 4
    (V3 8 8 0) (V3 0 0 0) 10 true 0.125 (-1) false printed_geometry (diel 1)
    [all_around] [] 1 0.5 ∅ ∅ =
  ([ printf_initializing; printf_working_in "cylindrical" ],
   Fail (Aborted "unsupported dimensionality")).
Proof. reflexivity. Qed.
End OutputExamples.
